(** * The audio pipeline, the display switch and the input grab of spicy-kvm

    A shallow embedding of [src/audio.c] (the playback engine, the capture
    side and the life cycle), of the PipeWire device [audiodev.c], of the
    DDC/CI client [src/ddcci.c], of the evdev threads of [input.c], of the
    latency display of [main.c] and of the clock helpers of
    [lg_common/time.h].  In the source tree [ddcci.h], [audiodev.c] and
    [input.c] are the parts of [src/unnamed/part_003], [main.c] is
    [src/unnamed/part_002] and [time.h] is [src/unnamed/part_000]; the line
    numbers given are those of these files.

    - C [int] and [int64_t] values are integers of [Z]; every arithmetic
      result is reduced with [wrap32] / [wrap64] (two's complement), every
      unsigned one with [u8] / [u32] / [u64].
    - C [double] values are IEEE 754 binary64 numbers ([PrimFloat.float]),
      with the operations rounding to nearest, ties to even, as the code
      computes them on a target without extended precision or fused
      multiply-add.
    - The global [audio.playback] struct is the record [Playback.t]; every
      entry point takes the state and returns the new one.  What the engine
      says to its collaborators (the audio device, the log, the resampler)
      is appended to the [trace] of the state.  The other statics
      ([audio], [pw], [input], the title's) are records in the same way,
      each with the calls made so far.
    - The clock ([nanotime]), [malloc] and the device are inputs of the
      entry points; so are the results of the system calls, of PipeWire, of
      libevdev and of the protocol client. *)

From Stdlib Require Import String Ascii.
From Stdlib Require Import ZArith List Bool Lia Floats Reals Lra Morphisms Setoid.
Import ListNotations.

Set Warnings "-inexact-float".
Local Open Scope Z_scope.

(* ================================================================== *)
(** ** C arithmetic *)
(* ================================================================== *)

(** An [int] result, reduced to 32 bits two's complement. *)
Definition wrap32 (z : Z) : Z := (z + 2 ^ 31) mod 2 ^ 32 - 2 ^ 31.

(** An [int64_t] result, reduced to 64 bits two's complement. *)
Definition wrap64 (z : Z) : Z := (z + 2 ^ 63) mod 2 ^ 64 - 2 ^ 63.

Definition INT_MIN : Z := - 2 ^ 31.
Definition INT64_MIN : Z := - 2 ^ 63.

(** The [max] and [min] macros of lg_common/util.h on two [int]s:
    [a > b ? a : b] and [a < b ? a : b]. *)
Definition c_max (a b : Z) : Z := if b <? a then a else b.
Definition c_min (a b : Z) : Z := if a <? b then a else b.

(** [min(ARRAY_LENGTH(arr), channels)] with [ARRAY_LENGTH] of type [size_t]
    and [channels] an [int]: the comparison is made on [unsigned long], so a
    negative [channels] compares as a huge value; the result is assigned back
    to an [int]. *)
Definition min_size_int (len : Z) (channels : Z) : Z :=
  let c := channels mod 2 ^ 64 in
  wrap32 (if len <? c then len else c).

(** [(double)z] for an [int] or [int64_t] value [z]. *)
Definition double_of_Z (z : Z) : float :=
  if z =? INT64_MIN then (- (of_uint63 (Uint63.of_Z (2 ^ 62)) * 2))%float
  else if z <? 0 then (- of_uint63 (Uint63.of_Z (- z)))%float
  else of_uint63 (Uint63.of_Z z).

(** The magnitude of a finite double [m * 2^e] rounded to an integer, to the
    nearest with ties to even ([rint], default rounding mode). *)
Definition rint_mag (m : positive) (e : Z) : Z :=
  if 0 <=? e then Zpos m * 2 ^ e
  else
    let d := 2 ^ (- e) in
    let q := Zpos m / d in
    let r := Zpos m mod d in
    if 2 * r <? d then q
    else if d <? 2 * r then q + 1
    else if Z.even q then q else q + 1.

(** The same, ties away from zero ([round]). *)
Definition round_mag (m : positive) (e : Z) : Z :=
  if 0 <=? e then Zpos m * 2 ^ e
  else let d := 2 ^ (- e) in (2 * Zpos m + d) / (2 * d).

Definition signed (s : bool) (z : Z) : Z := if s then - z else z.

(** [llrint(x)]: outside the range of [int64_t], and for NaN and the
    infinities, the x86-64 conversion yields [INT64_MIN]. *)
Definition llrint (x : float) : Z :=
  match Prim2SF x with
  | S754_zero _ => 0
  | S754_finite s m e =>
      let z := signed s (rint_mag m e) in
      if (INT64_MIN <=? z) && (z <? 2 ^ 63) then z else INT64_MIN
  | _ => INT64_MIN
  end.

(** [int n = round(x)]: [round] gives an integral double, the conversion to
    [int] is exact in range and yields [INT_MIN] outside it (x86-64). *)
Definition round_int (x : float) : Z :=
  match Prim2SF x with
  | S754_zero _ => 0
  | S754_finite s m e =>
      let z := signed s (round_mag m e) in
      if (INT_MIN <=? z) && (z <? 2 ^ 31) then z else INT_MIN
  | _ => INT_MIN
  end.

(** [fabs(x) >= y]. *)
Definition fabs_ge (x y : float) : bool := PrimFloat.leb y (PrimFloat.abs x).

Definition M_PI : float := 3.14159265358979323846%float.
Definition M_SQRT2 : float := 1.41421356237309504880%float.
Definition DBL_MIN : float := 2.2250738585072014e-308%float.

(** The loop-filter coefficients of both clock trackers:
    [omega = 2.0 * M_PI * bandwidth * periodSec] with [bandwidth = 0.05],
    [b = M_SQRT2 * omega], [c = omega * omega]. *)
Definition pll_omega (periodSec : float) : float :=
  (2.0 * M_PI * 0.05 * periodSec)%float.
Definition pll_b (periodSec : float) : float :=
  (M_SQRT2 * pll_omega periodSec)%float.
Definition pll_c (periodSec : float) : float :=
  (pll_omega periodSec * pll_omega periodSec)%float.

Example llrint_period_480 : llrint (double_of_Z 480 / double_of_Z 48000 * 1.0e9)%float = 10000000.
Proof. vm_compute. reflexivity. Qed.

Example llrint_ties_even : llrint 2.5%float = 2 /\ llrint 3.5%float = 4 /\ llrint (-2.5)%float = -2.
Proof. vm_compute. repeat split; reflexivity. Qed.

Example round_int_ties_away : round_int 2.5%float = 3 /\ round_int (-2.5)%float = -3 /\ round_int 0.49%float = 0.
Proof. vm_compute. repeat split; reflexivity. Qed.

Example round_int_slew : round_int (0.25 * double_of_Z 48000)%float = 12000.
Proof. vm_compute. reflexivity. Qed.

(* ================================================================== *)
(** ** The ring buffers (lg_common/ringbuffer.h) *)
(* ================================================================== *)

(** One interleaved F32 frame: a sample per channel. *)
Definition frame : Type := list float.

(** [n] elements of [l], padded with [z] when [l] is shorter. *)
Definition take_pad {A : Type} (n : nat) (z : A) (l : list A) : list A :=
  firstn n l ++ repeat z (n - length (firstn n l)).

Module SampleRing.

(** Modelled from the spec: lg_common/ringbuffer.c, the unbounded ring of
    F32 frames behind [audio.playback.buffer], is not among the sources.
    The spec gives it a signed [count] (negative: silence owed to the
    consumer), [append(frames, n)] with a null buffer meaning silence,
    [consume(dst, n)] with a null destination meaning discard, and
    zero-fill of whatever is read past the written frames.  A negative [n]
    moves the write, respectively the read position backwards, as the
    callers in audio.c use it. *)
Record t := mk {
  channels : nat;
  count : Z;
  frames : list frame
}.

Definition silence (rb : t) : frame := repeat 0%float (channels rb).

(** Modelled from the spec: [ringbuffer_newUnbounded]. *)
Definition ringbuffer_newUnbounded (ch : nat) : t := mk ch 0 [].

(** Modelled from the spec: [getCount() -> signed]. *)
Definition ringbuffer_getCount (rb : t) : Z := count rb.

(** Modelled from the spec: [append(buf, n)]; frames appended while the
    count is negative fall into the region already read as silence. *)
Definition ringbuffer_append (rb : t) (values : option (list frame)) (n : Z) : t :=
  if n =? 0 then rb
  else if n <? 0 then
    mk (channels rb) (count rb + n) (firstn (Z.to_nat (count rb + n)) (frames rb))
  else
    let data := match values with
                | Some fs => take_pad (Z.to_nat n) (silence rb) fs
                | None => repeat (silence rb) (Z.to_nat n)
                end in
    mk (channels rb) (count rb + n)
       (frames rb ++ skipn (Z.to_nat (- count rb)) data).

(** Modelled from the spec: [consume(dst, n)]; the result is the new ring
    and what was written to [dst] (nothing for a null [dst]). *)
Definition ringbuffer_consume (rb : t) (dst : bool) (n : Z) : t * list frame :=
  if n =? 0 then (rb, [])
  else if n <? 0 then
    (mk (channels rb) (count rb - n)
        (repeat (silence rb) (Z.to_nat (count rb - n) - length (frames rb)) ++ frames rb),
     [])
  else
    (mk (channels rb) (count rb - n) (skipn (Z.to_nat n) (frames rb)),
     if dst then take_pad (Z.to_nat n) (silence rb) (frames rb) else []).

(** The frames held are the non-negative part of the count. *)
Definition wf (rb : t) : Prop := length (frames rb) = Z.to_nat (count rb).

End SampleRing.

Module DeviceTick.
(** [PlaybackDeviceTick]. *)
Record t := mk {
  periodFrames : Z;
  nextTime : Z;
  nextPosition : Z
}.
End DeviceTick.

Module TimingRing.

(** Modelled from the spec: the bounded ring of 16 device ticks behind
    [audio.playback.deviceTiming] ([ringbuffer_new(16, ...)]); a push on a
    full ring drops the new tick, the reader takes the ticks oldest
    first. *)
Definition t : Type := list DeviceTick.t.

Definition capacity : nat := 16.

(** Modelled from the spec: [ringbuffer_new]. *)
Definition ringbuffer_new : t := [].

(** Modelled from the spec: [ringbuffer_push]. *)
Definition ringbuffer_push (rb : t) (tick : DeviceTick.t) : t :=
  if (length rb <? capacity)%nat then rb ++ [tick] else rb.

End TimingRing.

(* ================================================================== *)
(** ** The resampler (libsamplerate) and the trace *)
(* ================================================================== *)

(** The fields of [SRC_DATA] the caller fills in. *)
Record SRC_DATA := mkSRC_DATA {
  data_in : list frame;
  input_frames : Z;
  output_frames : Z;
  src_ratio : float
}.

(** What [src_process] hands back: its return value and the fields of
    [SRC_DATA] it fills in. *)
Record SRC_RESULT := mkSRC_RESULT {
  src_error : Z;
  input_frames_used : Z;
  output_frames_gen : Z;
  data_out : list frame
}.

(** The resampler's state is opaque to the engine; it is represented by what
    the resampler was fed since it was created or reset, the newest call
    first.  Any deterministic converter is a function of that history. *)
Definition SRC_STATE : Type := list SRC_DATA.

(** The library behind [src_new], [src_reset] and [src_process]. *)
Class Resampler := {
  (** does [src_new(SRC_SINC_FASTEST, channels, &err)] succeed? *)
  src_new_ok : Z -> bool;
  (** the error code of [src_reset] *)
  src_reset_error : SRC_STATE -> Z;
  (** the response of [src_process] in a given state *)
  src_response : SRC_STATE -> SRC_DATA -> SRC_RESULT
}.

(** What the engine tells its collaborators. *)
Inductive Event :=
| DEBUG_ERROR (msg : string)
| Call_audiodev_playback_setup (channels sampleRate requestedPeriodFrames : Z)
| Call_audiodev_playback_start
| Call_audiodev_playback_stop
| Call_audiodev_playback_volume (channels : Z) (volume : list Z)
| Call_audiodev_playback_mute (mute : bool)
| Call_src_process (d : SRC_DATA)
| Call_latency_cb (actualOffset : float) (deviceLatency : Z).

(* ================================================================== *)
(** ** The playback state *)
(* ================================================================== *)

Inductive StreamState :=
| STREAM_STATE_STOP
| STREAM_STATE_SETUP_SPICE
| STREAM_STATE_SETUP_DEVICE
| STREAM_STATE_RUN
| STREAM_STATE_KEEP_ALIVE.

Definition StreamState_eqb (a b : StreamState) : bool :=
  match a, b with
  | STREAM_STATE_STOP, STREAM_STATE_STOP
  | STREAM_STATE_SETUP_SPICE, STREAM_STATE_SETUP_SPICE
  | STREAM_STATE_SETUP_DEVICE, STREAM_STATE_SETUP_DEVICE
  | STREAM_STATE_RUN, STREAM_STATE_RUN
  | STREAM_STATE_KEEP_ALIVE, STREAM_STATE_KEEP_ALIVE => true
  | _, _ => false
  end.

(** [STREAM_ACTIVE(state)]. *)
Definition STREAM_ACTIVE (s : StreamState) : bool :=
  StreamState_eqb s STREAM_STATE_RUN || StreamState_eqb s STREAM_STATE_KEEP_ALIVE.

Module DeviceData.
(** [PlaybackDeviceData]: the device thread's clock tracker. *)
Record t := mk {
  periodFrames : Z;
  periodSec : float;
  nextTime : Z;
  nextPosition : Z;
  b : float;
  c : float
}.
End DeviceData.

Module SpiceData.
(** [PlaybackSpiceData]: the Spice thread's scratch buffers, clock
    tracker, view of the device clock and latency controller. *)
Record t := mk {
  framesIn : option (list frame);
  framesOut : option (list frame);
  framesOutSize : Z;
  periodFrames : Z;
  periodSec : float;
  nextTime : Z;
  nextPosition : Z;
  b : float;
  c : float;
  devPeriodFrames : Z;
  devLastTime : Z;
  devNextTime : Z;
  devLastPosition : Z;
  devNextPosition : Z;
  offsetError : float;
  offsetErrorIntegral : float;
  ratioIntegral : float;
  src : option SRC_STATE
}.

Definition set_framesIn v (s : t) : t :=
  mk v (framesOut s) (framesOutSize s) (periodFrames s) (periodSec s)
    (nextTime s) (nextPosition s) (b s) (c s) (devPeriodFrames s)
    (devLastTime s) (devNextTime s) (devLastPosition s) (devNextPosition s)
    (offsetError s) (offsetErrorIntegral s) (ratioIntegral s) (src s).
Definition set_framesOut v (s : t) : t :=
  mk (framesIn s) v (framesOutSize s) (periodFrames s) (periodSec s)
    (nextTime s) (nextPosition s) (b s) (c s) (devPeriodFrames s)
    (devLastTime s) (devNextTime s) (devLastPosition s) (devNextPosition s)
    (offsetError s) (offsetErrorIntegral s) (ratioIntegral s) (src s).
Definition set_framesOutSize v (s : t) : t :=
  mk (framesIn s) (framesOut s) v (periodFrames s) (periodSec s)
    (nextTime s) (nextPosition s) (b s) (c s) (devPeriodFrames s)
    (devLastTime s) (devNextTime s) (devLastPosition s) (devNextPosition s)
    (offsetError s) (offsetErrorIntegral s) (ratioIntegral s) (src s).
Definition set_periodFrames v (s : t) : t :=
  mk (framesIn s) (framesOut s) (framesOutSize s) v (periodSec s)
    (nextTime s) (nextPosition s) (b s) (c s) (devPeriodFrames s)
    (devLastTime s) (devNextTime s) (devLastPosition s) (devNextPosition s)
    (offsetError s) (offsetErrorIntegral s) (ratioIntegral s) (src s).
Definition set_periodSec v (s : t) : t :=
  mk (framesIn s) (framesOut s) (framesOutSize s) (periodFrames s) v
    (nextTime s) (nextPosition s) (b s) (c s) (devPeriodFrames s)
    (devLastTime s) (devNextTime s) (devLastPosition s) (devNextPosition s)
    (offsetError s) (offsetErrorIntegral s) (ratioIntegral s) (src s).
Definition set_nextTime v (s : t) : t :=
  mk (framesIn s) (framesOut s) (framesOutSize s) (periodFrames s)
    (periodSec s) v (nextPosition s) (b s) (c s) (devPeriodFrames s)
    (devLastTime s) (devNextTime s) (devLastPosition s) (devNextPosition s)
    (offsetError s) (offsetErrorIntegral s) (ratioIntegral s) (src s).
Definition set_nextPosition v (s : t) : t :=
  mk (framesIn s) (framesOut s) (framesOutSize s) (periodFrames s)
    (periodSec s) (nextTime s) v (b s) (c s) (devPeriodFrames s)
    (devLastTime s) (devNextTime s) (devLastPosition s) (devNextPosition s)
    (offsetError s) (offsetErrorIntegral s) (ratioIntegral s) (src s).
Definition set_b v (s : t) : t :=
  mk (framesIn s) (framesOut s) (framesOutSize s) (periodFrames s)
    (periodSec s) (nextTime s) (nextPosition s) v (c s) (devPeriodFrames s)
    (devLastTime s) (devNextTime s) (devLastPosition s) (devNextPosition s)
    (offsetError s) (offsetErrorIntegral s) (ratioIntegral s) (src s).
Definition set_c v (s : t) : t :=
  mk (framesIn s) (framesOut s) (framesOutSize s) (periodFrames s)
    (periodSec s) (nextTime s) (nextPosition s) (b s) v (devPeriodFrames s)
    (devLastTime s) (devNextTime s) (devLastPosition s) (devNextPosition s)
    (offsetError s) (offsetErrorIntegral s) (ratioIntegral s) (src s).
Definition set_devPeriodFrames v (s : t) : t :=
  mk (framesIn s) (framesOut s) (framesOutSize s) (periodFrames s)
    (periodSec s) (nextTime s) (nextPosition s) (b s) (c s) v
    (devLastTime s) (devNextTime s) (devLastPosition s) (devNextPosition s)
    (offsetError s) (offsetErrorIntegral s) (ratioIntegral s) (src s).
Definition set_devLastTime v (s : t) : t :=
  mk (framesIn s) (framesOut s) (framesOutSize s) (periodFrames s)
    (periodSec s) (nextTime s) (nextPosition s) (b s) (c s)
    (devPeriodFrames s) v (devNextTime s) (devLastPosition s)
    (devNextPosition s) (offsetError s) (offsetErrorIntegral s)
    (ratioIntegral s) (src s).
Definition set_devNextTime v (s : t) : t :=
  mk (framesIn s) (framesOut s) (framesOutSize s) (periodFrames s)
    (periodSec s) (nextTime s) (nextPosition s) (b s) (c s)
    (devPeriodFrames s) (devLastTime s) v (devLastPosition s)
    (devNextPosition s) (offsetError s) (offsetErrorIntegral s)
    (ratioIntegral s) (src s).
Definition set_devLastPosition v (s : t) : t :=
  mk (framesIn s) (framesOut s) (framesOutSize s) (periodFrames s)
    (periodSec s) (nextTime s) (nextPosition s) (b s) (c s)
    (devPeriodFrames s) (devLastTime s) (devNextTime s) v
    (devNextPosition s) (offsetError s) (offsetErrorIntegral s)
    (ratioIntegral s) (src s).
Definition set_devNextPosition v (s : t) : t :=
  mk (framesIn s) (framesOut s) (framesOutSize s) (periodFrames s)
    (periodSec s) (nextTime s) (nextPosition s) (b s) (c s)
    (devPeriodFrames s) (devLastTime s) (devNextTime s) (devLastPosition s)
    v (offsetError s) (offsetErrorIntegral s) (ratioIntegral s) (src s).
Definition set_offsetError v (s : t) : t :=
  mk (framesIn s) (framesOut s) (framesOutSize s) (periodFrames s)
    (periodSec s) (nextTime s) (nextPosition s) (b s) (c s)
    (devPeriodFrames s) (devLastTime s) (devNextTime s) (devLastPosition s)
    (devNextPosition s) v (offsetErrorIntegral s) (ratioIntegral s) (src s).
Definition set_offsetErrorIntegral v (s : t) : t :=
  mk (framesIn s) (framesOut s) (framesOutSize s) (periodFrames s)
    (periodSec s) (nextTime s) (nextPosition s) (b s) (c s)
    (devPeriodFrames s) (devLastTime s) (devNextTime s) (devLastPosition s)
    (devNextPosition s) (offsetError s) v (ratioIntegral s) (src s).
Definition set_ratioIntegral v (s : t) : t :=
  mk (framesIn s) (framesOut s) (framesOutSize s) (periodFrames s)
    (periodSec s) (nextTime s) (nextPosition s) (b s) (c s)
    (devPeriodFrames s) (devLastTime s) (devNextTime s) (devLastPosition s)
    (devNextPosition s) (offsetError s) (offsetErrorIntegral s) v (src s).
Definition set_src v (s : t) : t :=
  mk (framesIn s) (framesOut s) (framesOutSize s) (periodFrames s)
    (periodSec s) (nextTime s) (nextPosition s) (b s) (c s)
    (devPeriodFrames s) (devLastTime s) (devNextTime s) (devLastPosition s)
    (devNextPosition s) (offsetError s) (offsetErrorIntegral s)
    (ratioIntegral s) v.
End SpiceData.

Module Playback.
(** The [playback] member of [AudioState], with the two function-local
    statics of [audio_playback_start] and the trace of calls made.  Of the
    latency graph [timings] only whether it is allocated is kept. *)
Record t := mk {
  state : StreamState;
  volumeChannels : Z;
  volume : list Z;
  mute : bool;
  channels : Z;
  sampleRate : Z;
  stride : Z;
  deviceMaxPeriodFrames : Z;
  deviceStartFrames : Z;
  targetStartFrames : Z;
  buffer : option SampleRing.t;
  deviceTiming : option TimingRing.t;
  timings : bool;
  deviceData : DeviceData.t;
  spiceData : SpiceData.t;
  lastChannels : Z;
  lastSampleRate : Z;
  trace : list Event
}.

Definition set_state v (p : t) : t :=
  mk v (volumeChannels p) (volume p) (mute p) (channels p) (sampleRate p)
    (stride p) (deviceMaxPeriodFrames p) (deviceStartFrames p)
    (targetStartFrames p) (buffer p) (deviceTiming p) (timings p)
    (deviceData p) (spiceData p) (lastChannels p) (lastSampleRate p)
    (trace p).
Definition set_volumeChannels v (p : t) : t :=
  mk (state p) v (volume p) (mute p) (channels p) (sampleRate p) (stride p)
    (deviceMaxPeriodFrames p) (deviceStartFrames p) (targetStartFrames p)
    (buffer p) (deviceTiming p) (timings p) (deviceData p) (spiceData p)
    (lastChannels p) (lastSampleRate p) (trace p).
Definition set_volume v (p : t) : t :=
  mk (state p) (volumeChannels p) v (mute p) (channels p) (sampleRate p)
    (stride p) (deviceMaxPeriodFrames p) (deviceStartFrames p)
    (targetStartFrames p) (buffer p) (deviceTiming p) (timings p)
    (deviceData p) (spiceData p) (lastChannels p) (lastSampleRate p)
    (trace p).
Definition set_mute v (p : t) : t :=
  mk (state p) (volumeChannels p) (volume p) v (channels p) (sampleRate p)
    (stride p) (deviceMaxPeriodFrames p) (deviceStartFrames p)
    (targetStartFrames p) (buffer p) (deviceTiming p) (timings p)
    (deviceData p) (spiceData p) (lastChannels p) (lastSampleRate p)
    (trace p).
Definition set_targetStartFrames v (p : t) : t :=
  mk (state p) (volumeChannels p) (volume p) (mute p) (channels p)
    (sampleRate p) (stride p) (deviceMaxPeriodFrames p)
    (deviceStartFrames p) v (buffer p) (deviceTiming p) (timings p)
    (deviceData p) (spiceData p) (lastChannels p) (lastSampleRate p)
    (trace p).
Definition set_buffer v (p : t) : t :=
  mk (state p) (volumeChannels p) (volume p) (mute p) (channels p)
    (sampleRate p) (stride p) (deviceMaxPeriodFrames p)
    (deviceStartFrames p) (targetStartFrames p) v (deviceTiming p)
    (timings p) (deviceData p) (spiceData p) (lastChannels p)
    (lastSampleRate p) (trace p).
Definition set_deviceTiming v (p : t) : t :=
  mk (state p) (volumeChannels p) (volume p) (mute p) (channels p)
    (sampleRate p) (stride p) (deviceMaxPeriodFrames p)
    (deviceStartFrames p) (targetStartFrames p) (buffer p) v (timings p)
    (deviceData p) (spiceData p) (lastChannels p) (lastSampleRate p)
    (trace p).
Definition set_timings v (p : t) : t :=
  mk (state p) (volumeChannels p) (volume p) (mute p) (channels p)
    (sampleRate p) (stride p) (deviceMaxPeriodFrames p)
    (deviceStartFrames p) (targetStartFrames p) (buffer p) (deviceTiming p)
    v (deviceData p) (spiceData p) (lastChannels p) (lastSampleRate p)
    (trace p).
Definition set_deviceData v (p : t) : t :=
  mk (state p) (volumeChannels p) (volume p) (mute p) (channels p)
    (sampleRate p) (stride p) (deviceMaxPeriodFrames p)
    (deviceStartFrames p) (targetStartFrames p) (buffer p) (deviceTiming p)
    (timings p) v (spiceData p) (lastChannels p) (lastSampleRate p)
    (trace p).
Definition set_spiceData v (p : t) : t :=
  mk (state p) (volumeChannels p) (volume p) (mute p) (channels p)
    (sampleRate p) (stride p) (deviceMaxPeriodFrames p)
    (deviceStartFrames p) (targetStartFrames p) (buffer p) (deviceTiming p)
    (timings p) (deviceData p) v (lastChannels p) (lastSampleRate p)
    (trace p).
Definition set_trace v (p : t) : t :=
  mk (state p) (volumeChannels p) (volume p) (mute p) (channels p)
    (sampleRate p) (stride p) (deviceMaxPeriodFrames p)
    (deviceStartFrames p) (targetStartFrames p) (buffer p) (deviceTiming p)
    (timings p) (deviceData p) (spiceData p) (lastChannels p)
    (lastSampleRate p) v.

(** [static AudioState audio = {0}]. *)
Definition zero : t :=
  mk STREAM_STATE_STOP 0 (repeat 0 8) false 0 0 0 0 0 0 None None false
     (DeviceData.mk 0 0 0 0 0 0)
     (SpiceData.mk None None 0 0 0 0 0 0 0 0 0 0 0 0 0 0 0 None)
     0 0 [].
End Playback.

(** [struct audio_opts]; [latency_cb] is only whether a callback is set. *)
Record audio_opts := mk_audio_opts {
  period_size : Z;
  buffer_latency : Z;
  latency_cb : bool
}.

(** The defaults of the static [audio_opts]. *)
Definition default_opts : audio_opts := mk_audio_opts 256 12 false.

(** What a data push reads from its environment: [nanotime()], whether the
    two [malloc]s of a period change succeed, and
    [audiodev_playback_latency()]. *)
Record PushEnv := mkPushEnv {
  push_now : Z;
  malloc_framesIn_ok : bool;
  malloc_framesOut_ok : bool;
  playback_latency : Z
}.

(* ================================================================== *)
(** ** The engine (src/audio.c) *)
(* ================================================================== *)

Section Engine.

Context `{Resampler}.

Definition emit (e : Event) (st : Playback.t) : Playback.t :=
  Playback.set_trace (Playback.trace st ++ [e]) st.

Definition upd_spice (f : SpiceData.t -> SpiceData.t) (st : Playback.t) : Playback.t :=
  Playback.set_spiceData (f (Playback.spiceData st)) st.

(** A call on [audio.playback.buffer]; the pointer is null only in
    [STREAM_STATE_STOP], where the engine makes no such call. *)
Definition upd_buffer (f : SampleRing.t -> SampleRing.t) (st : Playback.t) : Playback.t :=
  match Playback.buffer st with
  | Some rb => Playback.set_buffer (Some (f rb)) st
  | None => st
  end.

(** [playback_stop] (audio.c:142). *)
Definition playback_stop (st : Playback.t) : Playback.t :=
  if StreamState_eqb (Playback.state st) STREAM_STATE_STOP then st
  else
    let st := Playback.set_state STREAM_STATE_STOP st in
    let st := emit Call_audiodev_playback_stop st in
    let st := Playback.set_buffer None st in
    let st := Playback.set_deviceTiming None st in
    let st := upd_spice (SpiceData.set_src None) st in
    let st :=
      match SpiceData.framesIn (Playback.spiceData st) with
      | Some _ =>
          upd_spice (fun sd => SpiceData.set_framesOut None (SpiceData.set_framesIn None sd)) st
      | None => st
      end in
    Playback.set_timings false st.

(** [audio_playback_start] (audio.c:164); [setup] is what
    [audiodev_playback_setup] stores in [maxPeriodFrames] and
    [startFrames]. *)
Definition audio_playback_start (opts : audio_opts) (setup : Z * Z)
    (st : Playback.t) (channels sampleRate : Z) : Playback.t :=
  if StreamState_eqb (Playback.state st) STREAM_STATE_KEEP_ALIVE
     && (channels =? Playback.lastChannels st)
     && (sampleRate =? Playback.lastSampleRate st)
  then st
  else
    let st := if negb (StreamState_eqb (Playback.state st) STREAM_STATE_STOP)
              then playback_stop st else st in
    if negb (src_new_ok channels) then
      emit (DEBUG_ERROR "Failed to create resampler")
           (upd_spice (SpiceData.set_src None) st)
    else
      let sd := Playback.spiceData st in
      let sd :=
        SpiceData.mk (SpiceData.framesIn sd) (SpiceData.framesOut sd)
          (SpiceData.framesOutSize sd)
          0 (SpiceData.periodSec sd) (SpiceData.nextTime sd) 0
          (SpiceData.b sd) (SpiceData.c sd)
          0 INT64_MIN INT64_MIN
          (SpiceData.devLastPosition sd) (SpiceData.devNextPosition sd)
          0 0 0 (Some []) in
      let dd := Playback.deviceData st in
      let dd :=
        DeviceData.mk 0 (DeviceData.periodSec dd) (DeviceData.nextTime dd) 0
          (DeviceData.b dd) (DeviceData.c dd) in
      let requestedPeriodFrames := c_max (period_size opts) 1 in
      let st :=
        Playback.mk STREAM_STATE_SETUP_SPICE
          (Playback.volumeChannels st) (Playback.volume st) (Playback.mute st)
          channels sampleRate (wrap32 (channels * 4))
          (fst setup) (snd setup) (Playback.targetStartFrames st)
          (Some (SampleRing.ringbuffer_newUnbounded (Z.to_nat channels)))
          (Some TimingRing.ringbuffer_new)
          (Playback.timings st) dd sd channels sampleRate
          (Playback.trace st) in
      let st := emit (Call_audiodev_playback_setup channels sampleRate requestedPeriodFrames) st in
      let st := if negb (Playback.volumeChannels st =? 0)
                then emit (Call_audiodev_playback_volume (Playback.volumeChannels st)
                                                         (Playback.volume st)) st
                else st in
      let st := emit (Call_audiodev_playback_mute (Playback.mute st)) st in
      Playback.set_timings true st.

(** [audio_playback_stop] (audio.c:228); [src_reset] of a null state is an
    error. *)
Definition audio_playback_stop (st : Playback.t) : Playback.t :=
  match Playback.state st with
  | STREAM_STATE_RUN =>
      let st := Playback.set_state STREAM_STATE_KEEP_ALIVE st in
      let error := match SpiceData.src (Playback.spiceData st) with
                   | Some s => src_reset_error s
                   | None => 2
                   end in
      if negb (error =? 0) then
        playback_stop (emit (DEBUG_ERROR "Failed to reset resampler") st)
      else upd_spice (SpiceData.set_src (Some [])) st
  | STREAM_STATE_SETUP_SPICE | STREAM_STATE_SETUP_DEVICE => playback_stop st
  | STREAM_STATE_KEEP_ALIVE | STREAM_STATE_STOP => st
  end.

(** [memcpy(dst, src, sizeof(uint16_t) * n)] on arrays of [uint16_t]; the
    caller's array [src] holds at least [n] values. *)
Definition memcpy_u16 (dst src : list Z) (n : Z) : list Z :=
  firstn (Z.to_nat n) src ++ skipn (Z.to_nat n) dst.

(** [audio_playback_volume] (audio.c:258); [ARRAY_LENGTH] of
    [uint16_t volume[8]] is 8. *)
Definition audio_playback_volume (st : Playback.t) (channels : Z) (volume : list Z)
    : Playback.t :=
  let channels := min_size_int 8 channels in
  let st := Playback.set_volume (memcpy_u16 (Playback.volume st) volume channels) st in
  let st := Playback.set_volumeChannels channels st in
  if negb (STREAM_ACTIVE (Playback.state st)) then st
  else emit (Call_audiodev_playback_volume channels volume) st.

(** [audio_playback_mute] (audio.c:270). *)
Definition audio_playback_mute (st : Playback.t) (mute : bool) : Playback.t :=
  let st := Playback.set_mute mute st in
  if negb (STREAM_ACTIVE (Playback.state st)) then st
  else emit (Call_audiodev_playback_mute mute) st.

(* ------------------------------------------------------------------ *)
(** *** The consumer entry point *)

(** audio.c:382-394, the pre-fill step of [audio_pull]. *)
Definition pull_prefill (rb : SampleRing.t) (st : Playback.t)
    : SampleRing.t * Playback.t :=
  if StreamState_eqb (Playback.state st) STREAM_STATE_SETUP_DEVICE then
    let offset :=
      wrap32 (SampleRing.ringbuffer_getCount rb - Playback.targetStartFrames st) in
    let '(rb, st) :=
      if offset <? 0 then
        let data := Playback.deviceData st in
        (fst (SampleRing.ringbuffer_consume rb false offset),
         Playback.set_deviceData
           (DeviceData.mk (DeviceData.periodFrames data) (DeviceData.periodSec data)
              (DeviceData.nextTime data)
              (wrap64 (DeviceData.nextPosition data + offset))
              (DeviceData.b data) (DeviceData.c data)) st)
      else (rb, st) in
    (rb, Playback.set_state STREAM_STATE_RUN st)
  else (rb, st).

(** [(now - data->nextTime) * 1.0e-9], the clock error in seconds. *)
Definition clock_error (now nextTime : Z) : float :=
  (double_of_Z (wrap64 (now - nextTime)) * 1.0e-9)%float.

(** [(double)frames / audio.playback.sampleRate]. *)
Definition period_sec (frames sampleRate : Z) : float :=
  (double_of_Z frames / double_of_Z sampleRate)%float.

(** audio.c:397-439, the device clock tracker of [audio_pull]. *)
Definition pull_clock (sampleRate now frames : Z) (rb : SampleRing.t)
    (data : DeviceData.t) : SampleRing.t * DeviceData.t :=
  if negb (frames =? DeviceData.periodFrames data) then
    let newPeriodSec := period_sec frames sampleRate in
    let init := DeviceData.periodFrames data =? 0 in
    let nextTime :=
      if init then wrap64 (now + llrint (newPeriodSec * 1.0e9)%float)
      else wrap64 (DeviceData.nextTime data
                   + llrint (DeviceData.periodSec data * 1.0e9)%float) in
    (rb,
     DeviceData.mk frames newPeriodSec nextTime
       (wrap64 (DeviceData.nextPosition data + frames))
       (pll_b newPeriodSec) (pll_c newPeriodSec))
  else
    let error := clock_error now (DeviceData.nextTime data) in
    if fabs_ge error 0.2 then
      let slewFrames := round_int (error * double_of_Z sampleRate)%float in
      let rb := fst (SampleRing.ringbuffer_consume rb false slewFrames) in
      let periodSec := period_sec frames sampleRate in
      (rb,
       DeviceData.mk (DeviceData.periodFrames data) periodSec
         (wrap64 (now + llrint (periodSec * 1.0e9)%float))
         (wrap64 (DeviceData.nextPosition data + wrap32 (slewFrames + frames)))
         (DeviceData.b data) (DeviceData.c data))
    else
      (rb,
       DeviceData.mk (DeviceData.periodFrames data)
         (DeviceData.periodSec data + DeviceData.c data * error)%float
         (wrap64 (DeviceData.nextTime data
                  + llrint ((DeviceData.b data * error + DeviceData.periodSec data)
                            * 1.0e9)%float))
         (wrap64 (DeviceData.nextPosition data + frames))
         (DeviceData.b data) (DeviceData.c data)).

(** audio.c:381-448: what [audio_pull] does when the ring is allocated; the
    result is the state and the frames written to [dst]. *)
Definition pull_body (rb : SampleRing.t) (st : Playback.t) (now frames : Z)
    : Playback.t * list frame :=
  let '(rb, st) := pull_prefill rb st in
  let '(rb, data) :=
    pull_clock (Playback.sampleRate st) now frames rb (Playback.deviceData st) in
  let tick :=
    DeviceTick.mk (DeviceData.periodFrames data) (DeviceData.nextTime data)
      (DeviceData.nextPosition data) in
  let timing :=
    option_map (fun q => TimingRing.ringbuffer_push q tick) (Playback.deviceTiming st) in
  let '(rb, dst) := SampleRing.ringbuffer_consume rb true frames in
  (Playback.set_buffer (Some rb)
     (Playback.set_deviceTiming timing (Playback.set_deviceData data st)),
   dst).

(** audio.c:450-456: close the stream if nothing has played for a while.
    In KEEP_ALIVE the ring is allocated (see [alloc_inv]); the code reads
    its count without a null test. *)
Definition pull_keep_alive (st : Playback.t) : Playback.t :=
  if StreamState_eqb (Playback.state st) STREAM_STATE_KEEP_ALIVE then
    let stopTimeSec := 30 in
    let stopTimeFrames := wrap32 (stopTimeSec * Playback.sampleRate st) in
    match Playback.buffer st with
    | Some rb =>
        if SampleRing.ringbuffer_getCount rb <=? wrap32 (- stopTimeFrames)
        then playback_stop st else st
    | None => st
    end
  else st.

(** [audio_pull] (audio.c:373): the return value, the frames written to
    [dst], and the new state.  [frames >= 0] is asserted by the code. *)
Definition audio_pull (st : Playback.t) (now frames : Z)
    : Z * list frame * Playback.t :=
  if frames =? 0 then (frames, [], st)
  else
    let '(ret, dst, st) :=
      match Playback.buffer st with
      | Some rb =>
          let '(st, dst) := pull_body rb st now frames in (frames, dst, st)
      | None => (0, [], st)
      end in
    (ret, dst, pull_keep_alive st).

(* ------------------------------------------------------------------ *)
(** *** The producer entry point *)

(** [compute_device_position] (audio.c:461). *)
Definition compute_device_position (sd : SpiceData.t) (curTime : Z) : float :=
  (double_of_Z (SpiceData.devLastPosition sd)
   + double_of_Z (wrap64 (SpiceData.devNextPosition sd - SpiceData.devLastPosition sd))
     * (double_of_Z (wrap64 (curTime - SpiceData.devLastTime sd))
        / double_of_Z (wrap64 (SpiceData.devNextTime sd - SpiceData.devLastTime sd))))%float.

(** audio.c:483-504, the scratch buffers of a period change; [inl] is the
    state in which the function returned early.  A fresh buffer's contents
    are unspecified; it is written before it is read. *)
Definition data_alloc (env : PushEnv) (frames : Z) (st : Playback.t)
    : Playback.t + Playback.t :=
  let st := upd_spice (SpiceData.set_periodFrames frames) st in
  if negb (malloc_framesIn_ok env) then
    inl (playback_stop
           (emit (DEBUG_ERROR "Failed to malloc framesIn")
                 (upd_spice (SpiceData.set_framesIn None) st)))
  else
    let st := upd_spice (SpiceData.set_framesIn (Some [])) st in
    let st := upd_spice
                (SpiceData.set_framesOutSize (round_int (double_of_Z frames * 1.1)%float))
                st in
    if negb (malloc_framesOut_ok env) then
      inl (playback_stop
             (emit (DEBUG_ERROR "Failed to malloc framesOut")
                   (upd_spice (SpiceData.set_framesOut None) st)))
    else inr (upd_spice (SpiceData.set_framesOut (Some [])) st).

(** One S16 sample as libsamplerate's [src_short_to_float_array] converts
    it. *)
Definition s16_to_float (s : Z) : float := (double_of_Z s / 32768)%float.

(** audio.c:506, the packet's frames converted into [framesIn]. *)
Definition convert_input (data : list (list Z)) (frames : Z) (st : Playback.t)
    : Playback.t :=
  upd_spice
    (fun sd =>
       match SpiceData.framesIn sd with
       | Some _ =>
           SpiceData.set_framesIn
             (Some (map (map s16_to_float) (firstn (Z.to_nat frames) data))) sd
       | None => sd
       end) st.

(** audio.c:512-516, one tick taken from the timing ring. *)
Definition drain_tick (sd : SpiceData.t) (tick : DeviceTick.t) : SpiceData.t :=
  let sd := SpiceData.set_devPeriodFrames (DeviceTick.periodFrames tick) sd in
  let sd := SpiceData.set_devLastTime (SpiceData.devNextTime sd) sd in
  let sd := SpiceData.set_devLastPosition (SpiceData.devNextPosition sd) sd in
  let sd := SpiceData.set_devNextTime (DeviceTick.nextTime tick) sd in
  SpiceData.set_devNextPosition (DeviceTick.nextPosition tick) sd.

(** audio.c:510-517, the timing ring drained. *)
Definition drain_device_ticks (st : Playback.t) : Playback.t :=
  match Playback.deviceTiming st with
  | Some ticks =>
      Playback.set_deviceTiming (Some [])
        (upd_spice (fun sd => fold_left drain_tick ticks sd) st)
  | None => st
  end.

(** audio.c:524-567, the target latency in frames. *)
Definition target_latency_frames (opts : audio_opts) (st : Playback.t) : float :=
  let sd := Playback.spiceData st in
  let configLatencyMs := c_max (buffer_latency opts) 0 in
  let maxPeriodFrames :=
    c_max (Playback.deviceMaxPeriodFrames st) (SpiceData.devPeriodFrames sd) in
  let targetLatencyFrames :=
    (double_of_Z maxPeriodFrames * 1.1
     + double_of_Z (wrap32 (configLatencyMs * Playback.sampleRate st)) / 1000.0)%float in
  if negb (SpiceData.devPeriodFrames sd =? 0)
     && (SpiceData.devPeriodFrames sd <? Playback.deviceMaxPeriodFrames st)
  then
    (targetLatencyFrames
     + double_of_Z (wrap32 (Playback.deviceMaxPeriodFrames st
                            - SpiceData.devPeriodFrames sd)))%float
  else targetLatencyFrames.

(** The locals the clock measurement hands to the rest of the push. *)
Record ClockSample := mkClockSample {
  curTime : Z;
  curPosition : Z;
  devPosition : float
}.

(** audio.c:602-605 and 607/609, the frames to slew by. *)
Definition spice_slew_frames (st : Playback.t) (now : Z)
    (targetLatencyFrames error : float) : Z * float :=
  let sd := Playback.spiceData st in
  if negb (SpiceData.devLastTime sd =? INT64_MIN) then
    let devPosition := compute_device_position sd now in
    let targetPosition := (devPosition + targetLatencyFrames)%float in
    let targetPosition :=
      if StreamState_eqb (Playback.state st) STREAM_STATE_KEEP_ALIVE
      then (targetPosition + double_of_Z 20)%float else targetPosition in
    (round_int (targetPosition - double_of_Z (SpiceData.nextPosition sd))%float,
     devPosition)
  else
    (round_int (error * double_of_Z (Playback.sampleRate st))%float, DBL_MIN).

(** audio.c:570-634, the Spice clock tracker. *)
Definition spice_clock (now frames : Z) (periodChanged init : bool)
    (targetLatencyFrames : float) (st : Playback.t) : Playback.t * ClockSample :=
  let sd := Playback.spiceData st in
  if periodChanged then
    let sd := if init then SpiceData.set_nextTime now sd else sd in
    let cs := mkClockSample (SpiceData.nextTime sd) (SpiceData.nextPosition sd) DBL_MIN in
    let sd := SpiceData.set_periodSec (period_sec frames (Playback.sampleRate st)) sd in
    let sd := SpiceData.set_nextTime
                (wrap64 (SpiceData.nextTime sd
                         + llrint (SpiceData.periodSec sd * 1.0e9)%float)) sd in
    let sd := SpiceData.set_b (pll_b (SpiceData.periodSec sd)) sd in
    let sd := SpiceData.set_c (pll_c (SpiceData.periodSec sd)) sd in
    (Playback.set_spiceData sd st, cs)
  else
    let error := clock_error now (SpiceData.nextTime sd) in
    if fabs_ge error 0.2
       || StreamState_eqb (Playback.state st) STREAM_STATE_KEEP_ALIVE
    then
      let '(slewFrames, devPos) := spice_slew_frames st now targetLatencyFrames error in
      let st := upd_buffer (fun rb => SampleRing.ringbuffer_append rb None slewFrames) st in
      let cs := mkClockSample now (wrap64 (SpiceData.nextPosition sd + slewFrames)) devPos in
      let sd := SpiceData.set_periodSec (period_sec frames (Playback.sampleRate st)) sd in
      let sd := SpiceData.set_nextTime
                  (wrap64 (now + llrint (SpiceData.periodSec sd * 1.0e9)%float)) sd in
      let sd := SpiceData.set_nextPosition (curPosition cs) sd in
      let sd := SpiceData.set_offsetError 0 sd in
      let sd := SpiceData.set_offsetErrorIntegral 0 sd in
      let sd := SpiceData.set_ratioIntegral 0 sd in
      (Playback.set_state STREAM_STATE_RUN (Playback.set_spiceData sd st), cs)
    else
      let cs := mkClockSample (SpiceData.nextTime sd) (SpiceData.nextPosition sd) DBL_MIN in
      let sd := SpiceData.set_nextTime
                  (wrap64 (SpiceData.nextTime sd
                           + llrint ((SpiceData.b sd * error + SpiceData.periodSec sd)
                                     * 1.0e9)%float)) sd in
      let sd := SpiceData.set_periodSec
                  (SpiceData.periodSec sd + SpiceData.c sd * error)%float sd in
      (Playback.set_spiceData sd st, cs).

(** audio.c:641-654, the offset measurement and its filter; the result is
    the state, [actualOffset] and the local [offsetError]. *)
Definition offset_filter (targetLatencyFrames : float) (cs : ClockSample)
    (st : Playback.t) : Playback.t * float * float :=
  let sd := Playback.spiceData st in
  let offsetError := SpiceData.offsetError sd in
  if negb (SpiceData.devLastTime sd =? INT64_MIN) then
    let devPosition :=
      if PrimFloat.eqb (devPosition cs) DBL_MIN
      then compute_device_position sd (curTime cs) else devPosition cs in
    let actualOffset := (double_of_Z (curPosition cs) - devPosition)%float in
    let actualOffsetError := (- (actualOffset - targetLatencyFrames))%float in
    let error := (actualOffsetError - offsetError)%float in
    let sd := SpiceData.set_offsetError
                (SpiceData.offsetError sd
                 + (SpiceData.b sd * error + SpiceData.offsetErrorIntegral sd))%float sd in
    let sd := SpiceData.set_offsetErrorIntegral
                (SpiceData.offsetErrorIntegral sd + SpiceData.c sd * error)%float sd in
    (Playback.set_spiceData sd st, actualOffset, offsetError)
  else (st, 0%float, offsetError).

Definition kp : float := 0.5e-6%float.
Definition ki : float := 1.0e-16%float.

(** audio.c:658-664, the PI controller: the state and the resampling
    ratio. *)
Definition pi_ratio (offsetError : float) (st : Playback.t) : Playback.t * float :=
  let st := upd_spice
              (fun sd => SpiceData.set_ratioIntegral
                           (SpiceData.ratioIntegral sd
                            + offsetError * SpiceData.periodSec sd)%float sd) st in
  let piOutput :=
    (kp * offsetError + ki * SpiceData.ratioIntegral (Playback.spiceData st))%float in
  (st, (1.0 + piOutput)%float).

(** How the resampling loop ends: it ran to completion, or [src_process]
    failed and the function returned. *)
Inductive LoopResult :=
| LoopDone (st : Playback.t)
| LoopAbort (st : Playback.t).

(** audio.c:666-689, the resampling loop.  [fuel] bounds the iterations:
    [None] is a loop still running when it is used up.  [src_process] on a
    null state is an error ([SRC_ERR_BAD_STATE]). *)
Fixpoint resample (fuel : nat) (ratio : float) (frames consumed : Z)
    (st : Playback.t) : option LoopResult :=
  if consumed <? frames then
    match fuel with
    | O => None
    | S fuel =>
        let sd := Playback.spiceData st in
        let srcData :=
          mkSRC_DATA
            (skipn (Z.to_nat consumed)
                   (match SpiceData.framesIn sd with Some fs => fs | None => [] end))
            (wrap32 (frames - consumed))
            (SpiceData.framesOutSize sd)
            ratio in
        let st := emit (Call_src_process srcData) st in
        match SpiceData.src sd with
        | None => Some (LoopAbort (emit (DEBUG_ERROR "Resampling failed") st))
        | Some s =>
            let r := src_response s srcData in
            let st := upd_spice
                        (fun sd => SpiceData.set_framesOut (Some (data_out r))
                                     (SpiceData.set_src (Some (srcData :: s)) sd)) st in
            if negb (src_error r =? 0) then
              Some (LoopAbort (emit (DEBUG_ERROR "Resampling failed") st))
            else
              let st := upd_buffer
                          (fun rb => SampleRing.ringbuffer_append rb (Some (data_out r))
                                       (wrap32 (output_frames_gen r))) st in
              let consumed := wrap32 (consumed + input_frames_used r) in
              let st := upd_spice
                          (fun sd => SpiceData.set_nextPosition
                                       (wrap64 (SpiceData.nextPosition sd
                                                + output_frames_gen r)) sd) st in
              resample fuel ratio frames consumed st
        end
    end
  else Some (LoopDone st).

(** audio.c:691-711, the first push opens the device. *)
Definition setup_device (st : Playback.t) : Playback.t :=
  if StreamState_eqb (Playback.state st) STREAM_STATE_SETUP_SPICE then
    let startFrames :=
      wrap32 (wrap32 (SpiceData.periodFrames (Playback.spiceData st) * 2)
              + Playback.deviceStartFrames st) in
    let st := Playback.set_targetStartFrames startFrames st in
    let st := Playback.set_state STREAM_STATE_SETUP_DEVICE st in
    emit Call_audiodev_playback_start st
  else st.

(** audio.c:713-723, the latency report; the value pushed to the graph is
    not kept, the callback's arguments are functions of the two values
    recorded. *)
Definition latency_report (opts : audio_opts) (env : PushEnv) (actualOffset : float)
    (st : Playback.t) : Playback.t :=
  if latency_cb opts then emit (Call_latency_cb actualOffset (playback_latency env)) st
  else st.

(** [int frames = size / spiceStride] with [size] a [size_t]. *)
Definition packet_frames (st : Playback.t) (size : Z) : Z :=
  let spiceStride := wrap32 (Playback.channels st * 2) in
  wrap32 (size / (spiceStride mod 2 ^ 64)).

(** The state a push hands to its clock tracker: the packet converted and
    the timing ring drained (audio.c:506-517). *)
Definition pre_clock (data : list (list Z)) (frames : Z) (st : Playback.t)
    : Playback.t :=
  drain_device_ticks (convert_input data frames st).

(** The resampling ratio a push forms (audio.c:506-664), for a push that
    gets that far: what [audio_playback_data] hands to every
    [src_process] call. *)
Definition push_ratio (opts : audio_opts) (env : PushEnv) (st : Playback.t)
    (data : list (list Z)) (frames : Z) (periodChanged init : bool)
    : Playback.t * float * float :=
  let st := pre_clock data frames st in
  let targetLatencyFrames := target_latency_frames opts st in
  let '(st, cs) := spice_clock (push_now env) frames periodChanged init
                     targetLatencyFrames st in
  let '(st, actualOffset, offsetError) := offset_filter targetLatencyFrames cs st in
  let '(st, ratio) := pi_ratio offsetError st in
  (st, actualOffset, ratio).

(** [audio_playback_data] (audio.c:470); [data] holds the packet's S16
    frames and [size] its length in bytes. *)
Definition audio_playback_data (fuel : nat) (opts : audio_opts) (env : PushEnv)
    (st : Playback.t) (data : list (list Z)) (size : Z) : option Playback.t :=
  if StreamState_eqb (Playback.state st) STREAM_STATE_STOP || (size =? 0) then Some st
  else
    let frames := packet_frames st size in
    let periodChanged := negb (frames =? SpiceData.periodFrames (Playback.spiceData st)) in
    let init := SpiceData.periodFrames (Playback.spiceData st) =? 0 in
    match (if periodChanged then data_alloc env frames st else inr st) with
    | inl st => Some st
    | inr st =>
        let '(st, actualOffset, ratio) :=
          push_ratio opts env st data frames periodChanged init in
        match resample fuel ratio frames 0 st with
        | None => None
        | Some (LoopAbort st) => Some st
        | Some (LoopDone st) =>
            Some (latency_report opts env actualOffset (setup_device st))
        end
    end.

(* ------------------------------------------------------------------ *)
(** *** Notions the statements below are written with *)

(** The ring the device reads from in [audio_pull]: after the pre-fill step
    and the clock tracker. *)
Definition ring_before_read (rb : SampleRing.t) (st : Playback.t) (now frames : Z)
    : SampleRing.t :=
  fst (pull_clock (Playback.sampleRate st) now frames (fst (pull_prefill rb st))
         (Playback.deviceData (snd (pull_prefill rb st)))).

(** The allocation invariant of the engine: the sample ring, the timing
    ring and the resampler exist exactly when the stream is not stopped. *)
Definition alloc_inv (st : Playback.t) : Prop :=
  if StreamState_eqb (Playback.state st) STREAM_STATE_STOP
  then Playback.buffer st = None
       /\ Playback.deviceTiming st = None
       /\ SpiceData.src (Playback.spiceData st) = None
  else Playback.buffer st <> None
       /\ Playback.deviceTiming st <> None
       /\ SpiceData.src (Playback.spiceData st) <> None.

(** A run of consumer pulls, each a pair of the clock reading and the
    frame count. *)
Fixpoint run_pulls (st : Playback.t) (l : list (Z * Z)) : Playback.t :=
  match l with
  | [] => st
  | p :: l => run_pulls (snd (audio_pull st (fst p) (snd p))) l
  end.

(** The ring count a pull leaves behind, before the keep-alive check. *)
Definition count_after_pull (st : Playback.t) (p : Z * Z) : Z :=
  match Playback.buffer st with
  | Some rb =>
      match Playback.buffer (fst (pull_body rb st (fst p) (snd p))) with
      | Some rb' => SampleRing.ringbuffer_getCount rb'
      | None => 0
      end
  | None => 0
  end.

(** Every pull of the run left the count above [threshold]. *)
Fixpoint stays_above (threshold : Z) (st : Playback.t) (l : list (Z * Z)) : Prop :=
  match l with
  | [] => True
  | p :: l =>
      threshold < count_after_pull st p
      /\ stays_above threshold (snd (audio_pull st (fst p) (snd p))) l
  end.

(** Two views of the Spice data: the clock tracker and controller, which
    draining the timing ring leaves alone, and the resampler handles. *)
Definition same_tracker (a b : SpiceData.t) : Prop :=
  SpiceData.periodFrames a = SpiceData.periodFrames b
  /\ SpiceData.periodSec a = SpiceData.periodSec b
  /\ SpiceData.nextTime a = SpiceData.nextTime b
  /\ SpiceData.nextPosition a = SpiceData.nextPosition b
  /\ SpiceData.b a = SpiceData.b b
  /\ SpiceData.c a = SpiceData.c b
  /\ SpiceData.offsetError a = SpiceData.offsetError b
  /\ SpiceData.offsetErrorIntegral a = SpiceData.offsetErrorIntegral b
  /\ SpiceData.ratioIntegral a = SpiceData.ratioIntegral b.

Definition same_handles (a b : SpiceData.t) : Prop :=
  SpiceData.framesIn a = SpiceData.framesIn b
  /\ SpiceData.framesOut a = SpiceData.framesOut b
  /\ SpiceData.framesOutSize a = SpiceData.framesOutSize b
  /\ SpiceData.src a = SpiceData.src b.

(** The fields of the playback state a push reads but only the entry
    points [start] and [stop] write. *)
Definition same_stream (s t : Playback.t) : Prop :=
  Playback.channels s = Playback.channels t
  /\ Playback.sampleRate s = Playback.sampleRate t
  /\ Playback.deviceMaxPeriodFrames s = Playback.deviceMaxPeriodFrames t
  /\ Playback.deviceStartFrames s = Playback.deviceStartFrames t
  /\ Playback.deviceData s = Playback.deviceData t.

(** The device period a push observes: the newest tick's. *)
Definition observed_period (st : Playback.t) : Z :=
  match Playback.deviceTiming st with
  | Some ticks =>
      last (map DeviceTick.periodFrames ticks)
           (SpiceData.devPeriodFrames (Playback.spiceData st))
  | None => SpiceData.devPeriodFrames (Playback.spiceData st)
  end.

(** The ratios of the [src_process] calls of a trace. *)
Definition src_ratios (tr : list Event) : list float :=
  flat_map (fun e => match e with
                     | Call_src_process d => [src_ratio d]
                     | _ => []
                     end) tr.

Definition loop_state (r : LoopResult) : Playback.t :=
  match r with LoopDone st | LoopAbort st => st end.

(** A resampler that, when it reports no error on some input and has room
    for output, has used at least one and at most all of the input
    frames. *)
Definition makes_progress : Prop :=
  forall (s : SRC_STATE) (d : SRC_DATA),
    src_error (src_response s d) = 0 ->
    0 < input_frames d -> 0 < output_frames d ->
    0 < input_frames_used (src_response s d) <= input_frames d.

(** The value the offset filter stores for the next push (audio.c:647-652),
    from the state [st0] the clock tracker was handed. *)
Definition filtered_offset_error (target : float) (st0 : Playback.t) : float :=
  let sd := Playback.spiceData st0 in
  let actualOffset :=
    (double_of_Z (SpiceData.nextPosition sd)
     - compute_device_position sd (SpiceData.nextTime sd))%float in
  let actualOffsetError := (- (actualOffset - target))%float in
  let err := (actualOffsetError - SpiceData.offsetError sd)%float in
  (SpiceData.offsetError sd + (SpiceData.b sd * err + SpiceData.offsetErrorIntegral sd))%float.

(** The calls the protocol client and the audio server can make. *)
Inductive step (opts : audio_opts) : Playback.t -> Playback.t -> Prop :=
| step_start (setup : Z * Z) (st : Playback.t) (channels sampleRate : Z) :
    step opts st (audio_playback_start opts setup st channels sampleRate)
| step_stop (st : Playback.t) :
    step opts st (audio_playback_stop st)
| step_volume (st : Playback.t) (channels : Z) (volume : list Z) :
    step opts st (audio_playback_volume st channels volume)
| step_mute (st : Playback.t) (mute : bool) :
    step opts st (audio_playback_mute st mute)
| step_pull (st : Playback.t) (now frames : Z) :
    step opts st (snd (audio_pull st now frames))
| step_data (fuel : nat) (env : PushEnv) (st st' : Playback.t)
    (data : list (list Z)) (size : Z) :
    audio_playback_data fuel opts env st data size = Some st' ->
    step opts st st'.

Inductive reachable (opts : audio_opts) : Playback.t -> Prop :=
| reachable_zero : reachable opts Playback.zero
| reachable_step (st st' : Playback.t) :
    reachable opts st -> step opts st st' -> reachable opts st'.

End Engine.

(* ================================================================== *)
(** ** The volume curve (src/audiodev.c) *)
(* ================================================================== *)

(** The expression of audiodev.c:363,
    [9.3234e-7 * pow(1.000211902, volume[i]) - 0.000172787], as the real
    number it denotes: [pow] of libm and the roundings to [double] and then
    to [float] are left out, which moves the value by less than one part in
    ten million. *)
Definition volume_gain (v : Z) : R :=
  (9.3234e-7 * 1.000211902 ^ Z.to_nat v - 0.000172787)%R.

(** [audiodev_playback_volume] (audiodev.c:357): the [param] array handed to
    [pw_stream_set_control], or nothing when the channel count is not the
    stream's. *)
Definition audiodev_playback_volume (pw_channels : Z) (channels : Z) (volume : list Z)
    : option (list R) :=
  if negb (channels =? pw_channels) then None
  else Some (map volume_gain (firstn (Z.to_nat channels) volume)).

(* ================================================================== *)
(** ** Unsigned C arithmetic *)
(* ================================================================== *)

(** A [uint8_t], [uint32_t] or [uint64_t] result, reduced modulo the
    width. *)
Definition u8 (z : Z) : Z := z mod 2 ^ 8.
Definition u32 (z : Z) : Z := z mod 2 ^ 32.
Definition u64 (z : Z) : Z := z mod 2 ^ 64.

(* ================================================================== *)
(** ** The clock helpers (lg_common/time.h) *)
(* ================================================================== *)

Module Time.

(** [struct timespec] of x86-64 Linux: [time_t tv_sec] and [long tv_nsec]
    are both 64 bits wide. *)
Record timespec := mk {
  tv_sec : Z;
  tv_nsec : Z
}.

(** A timespec as the clock hands it out: [0 <= tv_nsec < 1e9]. *)
Definition normalised (t : timespec) : Prop := 0 <= tv_nsec t < 1000000000.

End Time.

(** [nanotime] (time.h:78), the POSIX branch, as a function of the
    timespec [clock_gettime] stored:
    [((uint64_t)time.tv_sec * 1000000000LL) + time.tv_nsec]. *)
Definition nanotime (time : Time.timespec) : Z :=
  u64 (u64 (u64 (Time.tv_sec time) * 1000000000) + u64 (Time.tv_nsec time)).

(** [microtime] (time.h:40), the POSIX branch:
    [(uint64_t)time.tv_sec * 1000000LL + time.tv_nsec / 1000LL]; the
    division is the signed one of [long]. *)
Definition microtime (time : Time.timespec) : Z :=
  u64 (u64 (u64 (Time.tv_sec time) * 1000000) + u64 (Z.quot (Time.tv_nsec time) 1000)).

(** [tsDiff] (time.h:102); the result is what is stored through [diff]. *)
Definition tsDiff (left right : Time.timespec) : Time.timespec :=
  let sec := wrap64 (Time.tv_sec left - Time.tv_sec right) in
  let nsec := wrap64 (Time.tv_nsec left - Time.tv_nsec right) in
  if nsec <? 0 then Time.mk (wrap64 (sec - 1)) (wrap64 (nsec + 1000000000))
  else Time.mk sec nsec.

(** The loop of [__iter_div_u64_rem] (time.h:118-125) with the local [ret]
    as an argument; [fuel] bounds the iterations and [None] is a loop still
    running when it is used up. *)
Fixpoint iter_div_loop (fuel : nat) (dividend divisor ret : Z) : option (Z * Z) :=
  if divisor <=? dividend then
    match fuel with
    | O => None
    | S fuel => iter_div_loop fuel (u64 (dividend - divisor)) divisor (u32 (ret + 1))
    end
  else Some (ret, dividend).

(** [__iter_div_u64_rem] (time.h:114): the return value and what is stored
    through [remainder]. *)
Definition __iter_div_u64_rem (fuel : nat) (dividend divisor : Z) : option (Z * Z) :=
  iter_div_loop fuel dividend divisor 0.

(** [tsAdd] (time.h:132); [ns] is a [uint64_t]. *)
Definition tsAdd (fuel : nat) (a : Time.timespec) (ns : Z) : option Time.timespec :=
  match __iter_div_u64_rem fuel (u64 (u64 (Time.tv_nsec a) + ns)) (u32 1000000000) with
  | Some (ret, ns) => Some (Time.mk (wrap64 (Time.tv_sec a + ret)) (wrap64 ns))
  | None => None
  end.

(* ================================================================== *)
(** ** DDC/CI over i2c (src/ddcci.c, src/ddcci.h) *)
(* ================================================================== *)

Module Ddc.

(** [enum ddcci_error] (ddcci.h); negative values are errnos. *)
Definition ddcci_success : Z := 0.
Definition ddcci_err_invalid_argument : Z := 1.
Definition ddcci_err_device_gone : Z := 2.
Definition ddcci_err_checksum : Z := 3.
Definition ddcci_err_bad_reply : Z := 4.
Definition ddcci_err_no_reply : Z := 5.
Definition ddcci_err_unsupported_vcp : Z := 6.
Definition ddcci_err_short_read : Z := 7.
Definition ddcci_err_bad_i2c_src_addr : Z := 8.

Definition IOCTL_I2C_SLAVE : Z := 0x0703.
Definition I2C_ADDR_DDC_CI : Z := 0x37.
Definition I2C_ADDR_HOST : Z := 0x51.

(** The errno values of Linux the code names. *)
Definition ENOENT : Z := 2.
Definition EINTR : Z := 4.
Definition EAGAIN : Z := 11.
Definition ENODEV : Z := 19.

(** [struct ddcci]. *)
Record ddcci := mk {
  fd : Z;
  tfd : Z
}.

(** The system calls of ddcci.c with the arguments that vary:
    [open("/dev/i2c-<i2c>", O_RDWR, 0)], [ioctl(fd, request, arg)],
    [timerfd_create(CLOCK_MONOTONIC, 0)],
    [timerfd_settime(tfd, 0, &ts, NULL)] with the four fields of [ts],
    [read(tfd, &x, 8)], [write(fd, buf, buf_len)] and [close(fd)]. *)
Inductive Syscall :=
| Sys_open (i2c : Z)
| Sys_ioctl (fd request arg : Z)
| Sys_timerfd_create
| Sys_timerfd_settime (tfd value_sec value_nsec interval_sec interval_nsec : Z)
| Sys_read (fd : Z)
| Sys_write (fd : Z) (buf : list Z)
| Sys_close (fd : Z).

(** What a call returns: a value that is not negative, or -1 with
    [errno] set. *)
Inductive SysResult :=
| Ok (v : N)
| Err (errno : Z).

(** The thread's [errno] and the calls made so far, oldest first. *)
Record World := mkWorld {
  errno : Z;
  log : list (Syscall * SysResult)
}.

(** How [ddcci_tx] ends: it returns, or it writes past the end of its
    256-byte buffer. *)
Inductive Outcome :=
| Returned (rc : Z) (w : World)
| Overflow (w : World).

(** What [opendir] gives for a path: an error, or the names [readdir]
    hands out, in its order. *)
Inductive Dir :=
| Dir_error (errno : Z)
| Dir_entries (names : list string).

Inductive DirCall :=
| Call_opendir (path : string)
| Call_closedir (path : string).

End Ddc.

(** [cut_prefix] (ddcci.c:39) on NUL-terminated strings: the end of [s] is
    the terminator, which differs from every character of [pfx]. *)
Fixpoint cut_prefix (s pfx : string) {struct pfx} : option string :=
  match pfx with
  | EmptyString => Some s
  | String p pfx =>
      match s with
      | EmptyString => None
      | String c s => if Ascii.eqb p c then cut_prefix s pfx else None
      end
  end.

(** [isspace] in the C locale. *)
Definition isspace (c : ascii) : bool :=
  let n := Z.of_nat (nat_of_ascii c) in
  (n =? 32) || ((9 <=? n) && (n <=? 13)).

Definition digit_value (c : ascii) : option Z :=
  let n := Z.of_nat (nat_of_ascii c) in
  if (48 <=? n) && (n <=? 57) then Some (n - 48) else None.

Fixpoint skip_spaces (s : string) : string :=
  match s with
  | String c s' => if isspace c then skip_spaces s' else s
  | EmptyString => s
  end.

Fixpoint leading_digits (s : string) (acc : Z) : Z :=
  match s with
  | String c s' =>
      match digit_value c with
      | Some d => leading_digits s' (acc * 10 + d)
      | None => acc
      end
  | EmptyString => acc
  end.

(** [atoi] of glibc, [(int) strtol(s, NULL, 10)]: leading white space, an
    optional sign, the decimal digits; the value is clamped to [long] and
    then cut to [int]. *)
Definition atoi (s : string) : Z :=
  let s := skip_spaces s in
  let '(neg, s) :=
    match s with
    | String "-"%char s' => (true, s')
    | String "+"%char s' => (false, s')
    | _ => (false, s)
    end in
  let v := leading_digits s 0 in
  let v := if neg then - v else v in
  wrap32 (Z.max (- 2 ^ 63) (Z.min (2 ^ 63 - 1) v)).

(** The [readdir] loop of [ddcci_find_i2c] (ddcci.c:59-65): the number of
    the first entry named [i2c-...]. *)
Fixpoint find_i2c_entry (names : list string) : option Z :=
  match names with
  | [] => None
  | name :: names =>
      match cut_prefix name "i2c-" with
      | Some s => Some (atoi s)
      | None => find_i2c_entry names
      end
  end.

(** [ddcci_find_i2c] (ddcci.c:48) over a file system [fs]: the return
    value, what is stored through [i2c] if anything, and the directory
    streams opened and closed.  [card] is short enough for the two paths to
    fit [PATH_MAX]. *)
Definition ddcci_find_i2c (fs : string -> Ddc.Dir) (card : string)
    : Z * option Z * list Ddc.DirCall :=
  let fn := ("/sys/class/drm/" ++ card ++ "/")%string in
  match fs fn with
  | Ddc.Dir_error e => (wrap32 (- e), None, [Ddc.Call_opendir fn])
  | Ddc.Dir_entries names =>
      match find_i2c_entry names with
      | Some n => (Ddc.ddcci_success, Some n, [Ddc.Call_opendir fn])
      | None =>
          let fn2 := ("/sys/class/drm/" ++ card ++ "/ddc/i2c-dev")%string in
          let calls := [Ddc.Call_opendir fn; Ddc.Call_closedir fn; Ddc.Call_opendir fn2] in
          match fs fn2 with
          | Ddc.Dir_error e =>
              let e := if e =? Ddc.ENOENT then Ddc.ENODEV else e in
              (wrap32 (- e), None, calls)
          | Ddc.Dir_entries names2 =>
              match find_i2c_entry names2 with
              | Some n => (Ddc.ddcci_success, Some n, calls)
              | None => (wrap32 (- Ddc.ENODEV), None, calls ++ [Ddc.Call_closedir fn2])
              end
          end
      end
  end.

Section Ddcci.

(** The operating system: what a call returns after the calls made so
    far. *)
Variable os : list (Ddc.Syscall * Ddc.SysResult) -> Ddc.Syscall -> Ddc.SysResult.

(** A system call: its return value; a failing call sets [errno], a
    successful one leaves it alone. *)
Definition syscall (c : Ddc.Syscall) (w : Ddc.World) : Z * Ddc.World :=
  match os (Ddc.log w) c with
  | Ddc.Ok v => (Z.of_N v, Ddc.mkWorld (Ddc.errno w) (Ddc.log w ++ [(c, Ddc.Ok v)]))
  | Ddc.Err e => (-1, Ddc.mkWorld e (Ddc.log w ++ [(c, Ddc.Err e)]))
  end.

(** [#define ddcci_errno -errno]. *)
Definition ddcci_errno (w : Ddc.World) : Z := wrap32 (- Ddc.errno w).

(** [ddcci_close] (ddcci.c:259). *)
Definition ddcci_close (ddc : Ddc.ddcci) (w : Ddc.World) : Z * Ddc.ddcci * Ddc.World :=
  let w := if negb (Ddc.fd ddc =? -1) then snd (syscall (Ddc.Sys_close (Ddc.fd ddc)) w) else w in
  let w := if negb (Ddc.tfd ddc =? -1) then snd (syscall (Ddc.Sys_close (Ddc.tfd ddc)) w) else w in
  (Ddc.ddcci_success, Ddc.mk 0 0, w).

(** [ddcci_wait] (ddcci.c:90): the read of the timer is repeated while it
    fails with [EINTR] or [EAGAIN]; [fuel] bounds the attempts. *)
Fixpoint ddcci_wait (fuel : nat) (ddc : Ddc.ddcci) (w : Ddc.World) : option (Z * Ddc.World) :=
  match fuel with
  | O => None
  | S fuel =>
      let '(r, w) := syscall (Ddc.Sys_read (Ddc.tfd ddc)) w in
      if r =? -1 then
        if (Ddc.errno w =? Ddc.EINTR) || (Ddc.errno w =? Ddc.EAGAIN)
        then ddcci_wait fuel ddc w
        else Some (ddcci_errno w, w)
      else Some (Ddc.ddcci_success, w)
  end.

(** [ddcci_wait_set] (ddcci.c:103): the timer is armed to expire after
    [ms] milliseconds and then every 100 microseconds. *)
Definition ddcci_wait_set (ddc : Ddc.ddcci) (ms : Z) (w : Ddc.World) : Z * Ddc.World :=
  let ns := u64 (u64 ms * 1000000) in
  let '(r, w) :=
    syscall (Ddc.Sys_timerfd_settime (Ddc.tfd ddc)
               (ns / 1000000000) (ns mod 1000000000) 0 100000) w in
  if r =? -1 then (ddcci_errno w, w) else (Ddc.ddcci_success, w).

(** [ddcci_open] (ddcci.c:115).  [snprintf] of ["/dev/i2c-%d"] into 64
    bytes does not fail, so the first return is not taken. *)
Definition ddcci_open (fuel : nat) (ddc : Ddc.ddcci) (i2c : Z) (w : Ddc.World)
    : option (Z * Ddc.ddcci * Ddc.World) :=
  let ddc := Ddc.mk (-1) (-1) in
  let '(r, w) := syscall (Ddc.Sys_open i2c) w in
  let ddc := Ddc.mk r (Ddc.tfd ddc) in
  if r =? -1 then
    let '(_, ddc, w) := ddcci_close ddc w in Some (ddcci_errno w, ddc, w)
  else
    let '(r, w) :=
      syscall (Ddc.Sys_ioctl (Ddc.fd ddc) Ddc.IOCTL_I2C_SLAVE Ddc.I2C_ADDR_DDC_CI) w in
    if r =? -1 then
      let '(_, ddc, w) := ddcci_close ddc w in Some (ddcci_errno w, ddc, w)
    else
      let '(r, w) := syscall Ddc.Sys_timerfd_create w in
      let ddc := Ddc.mk (Ddc.fd ddc) r in
      if r =? -1 then
        let '(_, ddc, w) := ddcci_close ddc w in Some (ddcci_errno w, ddc, w)
      else
        let '(rc, w) := ddcci_wait_set ddc 1 w in
        if negb (rc =? 0) then
          let '(_, ddc, w) := ddcci_close ddc w in Some (ddcci_errno w, ddc, w)
        else
          match ddcci_wait fuel ddc w with
          | None => None
          | Some (_, w) => Some (Ddc.ddcci_success, ddc, w)
          end.

(** [buf[buf_len++] = b] on [uint8_t buf[256]]: the bytes written so far
    are [buf]; [None] is a write past the end of the array. *)
Definition put (buf : list Z) (b : Z) : option (list Z) :=
  if (length buf <? 256)%nat then Some (buf ++ [u8 b]) else None.

(** [memcpy(buf + buf_len, cmd, cmd_len); buf_len += cmd_len]. *)
Fixpoint put_all (buf : list Z) (bytes : list Z) : option (list Z) :=
  match bytes with
  | [] => Some buf
  | b :: bytes =>
      match put buf b with
      | Some buf => put_all buf bytes
      | None => None
      end
  end.

(** [for (i = 0, ck = buf_len-1; i < ck; i++) buf[ck] ^= buf[i];]. *)
Definition checksum (buf : list Z) : list Z :=
  removelast buf ++ [fold_left Z.lxor (removelast buf) (last buf 0)].

(** ddcci.c:164-176, the packet [ddcci_tx] builds for a command; the
    caller's [cmd_len] is the length of [cmd]. *)
Definition tx_packet (cmd : list Z) : option (list Z) :=
  match put [] Ddc.I2C_ADDR_HOST with
  | None => None
  | Some buf =>
      match put buf (Z.lor 0x80 (u8 (Z.of_nat (length cmd)))) with
      | None => None
      | Some buf =>
          match put_all buf cmd with
          | None => None
          | Some buf =>
              match put buf (Z.shiftl Ddc.I2C_ADDR_DDC_CI 1) with
              | None => None
              | Some buf => Some (checksum buf)
              end
          end
      end
  end.

(** [ddcci_tx] (ddcci.c:150). *)
Definition ddcci_tx (fuel : nat) (ddc : Ddc.ddcci) (cmd : list Z) (wait_ms : Z)
    (w : Ddc.World) : option Ddc.Outcome :=
  if 0xFF <? Z.of_nat (length cmd) then
    Some (Ddc.Returned Ddc.ddcci_err_invalid_argument w)
  else
    match ddcci_wait fuel ddc w with
    | None => None
    | Some (rc, w) =>
        if negb (rc =? 0) then Some (Ddc.Returned rc w)
        else
          match tx_packet cmd with
          | None => Some (Ddc.Overflow w)
          | Some buf =>
              let '(r, w) := syscall (Ddc.Sys_write (Ddc.fd ddc) buf) w in
              if r =? -1 then Some (Ddc.Returned (ddcci_errno w) w)
              else
                let '(rc, w) := ddcci_wait_set ddc wait_ms w in
                if negb (rc =? 0) then Some (Ddc.Returned rc w)
                else Some (Ddc.Returned Ddc.ddcci_success w)
          end
    end.

(** [ddcci_vcp_set] (ddcci.c:253); [vcp] is a [uint8_t] and [val] a
    [uint16_t]. *)
Definition ddcci_vcp_set (fuel : nat) (ddc : Ddc.ddcci) (vcp val : Z) (w : Ddc.World)
    : option Ddc.Outcome :=
  ddcci_tx fuel ddc
    [u8 0x03; u8 vcp; u8 (Z.land (Z.shiftr val 8) 0xFF); u8 (Z.land val 0xFF)] 50 w.

End Ddcci.

(** The buffers of the [write] calls of a log, and the descriptors it
    obtained and closed. *)
Definition written (l : list (Ddc.Syscall * Ddc.SysResult)) : list (list Z) :=
  flat_map (fun e => match e with
                     | (Ddc.Sys_write _ buf, _) => [buf]
                     | _ => []
                     end) l.

Definition obtained (l : list (Ddc.Syscall * Ddc.SysResult)) : list Z :=
  flat_map (fun e => match e with
                     | (Ddc.Sys_open _, Ddc.Ok v) => [Z.of_N v]
                     | (Ddc.Sys_timerfd_create, Ddc.Ok v) => [Z.of_N v]
                     | _ => []
                     end) l.

Definition closed (l : list (Ddc.Syscall * Ddc.SysResult)) : list Z :=
  flat_map (fun e => match e with
                     | (Ddc.Sys_close fd, _) => [fd]
                     | _ => []
                     end) l.

(* ================================================================== *)
(** ** The capture side and the life cycle (src/audio.c) *)
(* ================================================================== *)

Module RecordState.
(** The [record] member of [AudioState]. *)
Record t := mk {
  requested : bool;
  started : bool;
  volumeChannels : Z;
  volume : list Z;
  mute : bool;
  stride : Z;
  time : Z;
  lastChannels : Z;
  lastSampleRate : Z;
  lastFormat : Z
}.

Definition zero : t := mk false false 0 (repeat 0 8) false 0 0 0 0 0.
End RecordState.

(** What the capture side tells the audio device and the protocol
    client. *)
Inductive RecordEvent :=
| Call_audiodev_init
| Call_audiodev_free
| Call_audiodev_record_start (channels sampleRate : Z)
| Call_audiodev_record_stop
| Call_audiodev_record_volume (channels : Z) (volume : list Z)
| Call_audiodev_record_mute (mute : bool)
| Call_purespice_writeAudio (size : Z) (time : Z).

Module AudioState.
(** The statics of audio.c: [audio] (the [audioDev] pointer is kept as
    whether it is set), [audio_opts], the two function-local statics of
    [audio_record_start], and the calls the capture side has made. *)
Record t := mk {
  audioDev : bool;
  playback : Playback.t;
  record : RecordState.t;
  opts : audio_opts;
  record_start_lastChannels : Z;
  record_start_lastSampleRate : Z;
  calls : list RecordEvent
}.

Definition set_playback v (a : t) : t :=
  mk (audioDev a) v (record a) (opts a) (record_start_lastChannels a)
     (record_start_lastSampleRate a) (calls a).
Definition set_record v (a : t) : t :=
  mk (audioDev a) (playback a) v (opts a) (record_start_lastChannels a)
     (record_start_lastSampleRate a) (calls a).
Definition set_opts v (a : t) : t :=
  mk (audioDev a) (playback a) (record a) v (record_start_lastChannels a)
     (record_start_lastSampleRate a) (calls a).
Definition set_calls v (a : t) : t :=
  mk (audioDev a) (playback a) (record a) (opts a) (record_start_lastChannels a)
     (record_start_lastSampleRate a) v.

(** [static AudioState audio = {0}] and the initialiser of [audio_opts]. *)
Definition zero : t := mk false Playback.zero RecordState.zero default_opts 0 0 [].
End AudioState.

Section Capture.

Context `{Resampler}.

Definition call (e : RecordEvent) (a : AudioState.t) : AudioState.t :=
  AudioState.set_calls (AudioState.calls a ++ [e]) a.

Definition upd_record (f : RecordState.t -> RecordState.t) (a : AudioState.t)
    : AudioState.t :=
  AudioState.set_record (f (AudioState.record a)) a.

(** [audio_push] (audio.c:279); the size is the [int] product. *)
Definition audio_push (a : AudioState.t) (frames : Z) : AudioState.t :=
  call (Call_purespice_writeAudio
          (wrap32 (frames * RecordState.stride (AudioState.record a))) 0) a.

(** [real_record_start] (audio.c:283): the volume and the mute state handed
    to the device are those of the [playback] member. *)
Definition real_record_start (a : AudioState.t) (channels sampleRate format : Z)
    : AudioState.t :=
  let a := upd_record
             (fun r => RecordState.mk (RecordState.requested r) true
                         (RecordState.volumeChannels r) (RecordState.volume r)
                         (RecordState.mute r) (wrap32 (channels * 2))
                         (RecordState.time r) (RecordState.lastChannels r)
                         (RecordState.lastSampleRate r) (RecordState.lastFormat r)) a in
  let a := call (Call_audiodev_record_start channels sampleRate) a in
  let a :=
    if negb (RecordState.volumeChannels (AudioState.record a) =? 0) then
      call (Call_audiodev_record_volume
              (Playback.volumeChannels (AudioState.playback a))
              (Playback.volume (AudioState.playback a))) a
    else a in
  call (Call_audiodev_record_mute (Playback.mute (AudioState.playback a))) a.

(** [audio_record_start] (audio.c:305); the statics [lastChannels] and
    [lastSampleRate] it compares with are never assigned. *)
Definition audio_record_start (a : AudioState.t) (channels sampleRate format : Z)
    : AudioState.t :=
  let go (a : AudioState.t) :=
    let a := upd_record
               (fun r => RecordState.mk true (RecordState.started r)
                           (RecordState.volumeChannels r) (RecordState.volume r)
                           (RecordState.mute r) (RecordState.stride r)
                           (RecordState.time r) channels sampleRate format) a in
    real_record_start a channels sampleRate format in
  if RecordState.started (AudioState.record a) then
    if negb (channels =? AudioState.record_start_lastChannels a)
       || negb (sampleRate =? AudioState.record_start_lastSampleRate a)
    then go (call Call_audiodev_record_stop a)
    else a
  else go a.

(** [real_record_stop] (audio.c:324). *)
Definition real_record_stop (a : AudioState.t) : AudioState.t :=
  let a := call Call_audiodev_record_stop a in
  upd_record
    (fun r => RecordState.mk (RecordState.requested r) false
                (RecordState.volumeChannels r) (RecordState.volume r)
                (RecordState.mute r) (RecordState.stride r)
                (RecordState.time r) (RecordState.lastChannels r)
                (RecordState.lastSampleRate r) (RecordState.lastFormat r)) a.

(** [audio_record_stop] (audio.c:329). *)
Definition audio_record_stop (a : AudioState.t) : AudioState.t :=
  let a := upd_record
             (fun r => RecordState.mk false (RecordState.started r)
                         (RecordState.volumeChannels r) (RecordState.volume r)
                         (RecordState.mute r) (RecordState.stride r)
                         (RecordState.time r) (RecordState.lastChannels r)
                         (RecordState.lastSampleRate r) (RecordState.lastFormat r)) a in
  if negb (AudioState.audioDev a) || negb (RecordState.started (AudioState.record a))
  then a
  else real_record_stop a.

(** [audio_record_volume] (audio.c:337).  The count is clamped by a signed
    [min], so a negative count stays negative and [memcpy] is then asked
    for [sizeof(uint16_t) * channels] bytes as a [size_t]: [None]. *)
Definition audio_record_volume (a : AudioState.t) (channels : Z) (volume : list Z)
    : option AudioState.t :=
  let channels := c_min 8 channels in
  if channels <? 0 then None
  else
    let a := upd_record
               (fun r => RecordState.mk (RecordState.requested r) (RecordState.started r)
                           channels (memcpy_u16 (RecordState.volume r) volume channels)
                           (RecordState.mute r) (RecordState.stride r)
                           (RecordState.time r) (RecordState.lastChannels r)
                           (RecordState.lastSampleRate r) (RecordState.lastFormat r)) a in
    if negb (RecordState.started (AudioState.record a)) then Some a
    else Some (call (Call_audiodev_record_volume channels volume) a).

(** [audio_record_mute] (audio.c:349). *)
Definition audio_record_mute (a : AudioState.t) (mute : bool) : AudioState.t :=
  let a := upd_record
             (fun r => RecordState.mk (RecordState.requested r) (RecordState.started r)
                         (RecordState.volumeChannels r) (RecordState.volume r)
                         mute (RecordState.stride r)
                         (RecordState.time r) (RecordState.lastChannels r)
                         (RecordState.lastSampleRate r) (RecordState.lastFormat r)) a in
  if negb (RecordState.started (AudioState.record a)) then a
  else call (Call_audiodev_record_mute mute) a.

(** [audio_init] (audio.c:359); [init_ok] is what [audiodev_init]
    returns. *)
Definition audio_init (a : AudioState.t) (opts : option audio_opts) (init_ok : bool)
    : bool * AudioState.t :=
  let a := match opts with
           | Some o => AudioState.set_opts o a
           | None => a
           end in
  (init_ok, call Call_audiodev_init a).

(** [audio_free] (audio.c:366). *)
Definition audio_free (a : AudioState.t) : AudioState.t :=
  let a := AudioState.set_playback (playback_stop (AudioState.playback a)) a in
  let a := audio_record_stop a in
  call Call_audiodev_free a.

(** The calls the protocol client, the audio server and the program can
    make on the whole of audio.c. *)
Inductive audio_step : AudioState.t -> AudioState.t -> Prop :=
| audio_step_playback (a : AudioState.t) (pb : Playback.t) :
    step (AudioState.opts a) (AudioState.playback a) pb ->
    audio_step a (AudioState.set_playback pb a)
| audio_step_init (a : AudioState.t) (opts : option audio_opts) (init_ok : bool) :
    audio_step a (snd (audio_init a opts init_ok))
| audio_step_free (a : AudioState.t) :
    audio_step a (audio_free a)
| audio_step_push (a : AudioState.t) (frames : Z) :
    audio_step a (audio_push a frames)
| audio_step_record_start (a : AudioState.t) (channels sampleRate format : Z) :
    audio_step a (audio_record_start a channels sampleRate format)
| audio_step_record_stop (a : AudioState.t) :
    audio_step a (audio_record_stop a)
| audio_step_record_volume (a a' : AudioState.t) (channels : Z) (volume : list Z) :
    audio_record_volume a channels volume = Some a' ->
    audio_step a a'
| audio_step_record_mute (a : AudioState.t) (mute : bool) :
    audio_step a (audio_record_mute a mute).

Inductive audio_reachable : AudioState.t -> Prop :=
| audio_reachable_zero : audio_reachable AudioState.zero
| audio_reachable_step (a a' : AudioState.t) :
    audio_reachable a -> audio_step a a' -> audio_reachable a'.

End Capture.

(* ================================================================== *)
(** ** The PipeWire device (src/audiodev.c) *)
(* ================================================================== *)

Module Dev.

(** The [StreamState] of audiodev.c. *)
Inductive StreamState :=
| STREAM_STATE_INACTIVE
| STREAM_STATE_ACTIVE
| STREAM_STATE_DRAINING.

Definition StreamState_eqb (a b : StreamState) : bool :=
  match a, b with
  | STREAM_STATE_INACTIVE, STREAM_STATE_INACTIVE
  | STREAM_STATE_ACTIVE, STREAM_STATE_ACTIVE
  | STREAM_STATE_DRAINING, STREAM_STATE_DRAINING => true
  | _, _ => false
  end.

(** A [struct pw_stream *]: the streams PipeWire has created are numbered
    in the order of their creation, [None] is the null pointer. *)
Definition stream : Type := option nat.

Inductive Direction := PW_DIRECTION_INPUT | PW_DIRECTION_OUTPUT.
Inductive Format := SPA_AUDIO_FORMAT_S16 | SPA_AUDIO_FORMAT_F32.

(** The calls into PipeWire and the log, with the arguments that vary.
    [pw_stream_new_simple] carries the media category, the requested node
    latency if one is set, and the stream it returned;
    [pw_stream_connect] the direction, the format, the layout and whether
    [PW_STREAM_FLAG_INACTIVE] is among the flags; the two
    [pw_stream_set_control] calls the property they set, the channel
    volumes as the 16-bit values the gains are computed from (see
    [volume_gain]). *)
Inductive Call :=
| pw_init
| pw_deinit
| pw_loop_new
| pw_loop_destroy
| pw_context_new (ok : bool)
| pw_context_destroy
| pw_context_connect (ok : bool)
| pw_thread_loop_new_full (ok : bool)
| pw_thread_loop_start
| pw_thread_loop_stop
| pw_thread_loop_destroy
| pw_thread_loop_lock
| pw_thread_loop_unlock
| pw_stream_new_simple (category : string) (latency : option (Z * Z)) (result : stream)
| pw_stream_get_properties (s : stream)
| pw_stream_update_properties (s : stream) (latency : Z * Z)
| pw_stream_connect (s : stream) (direction : Direction) (format : Format)
    (channels rate : Z) (inactive : bool)
| pw_stream_destroy (s : stream)
| pw_stream_set_active (s : stream) (active : bool)
| pw_stream_flush (s : stream) (drain : bool)
| pw_stream_set_control_channelVolumes (s : stream) (channels : Z) (volume : list Z)
| pw_stream_set_control_mute (s : stream) (mute : bool)
| pw_stream_get_time (s : stream)
| pw_stream_dequeue_buffer (s : stream)
| pw_stream_queue_buffer (s : stream) (chunk_size : Z)
| DEBUG_ERROR (msg : string)
| DEBUG_WARN (msg : string).

(** [pw.playback]; of [rateMatch] only whether the pointer is set is
    state, what it points to is PipeWire's. *)
Record playback_t := mk_playback {
  stream_ : stream;
  rateMatch : bool;
  channels : Z;
  sampleRate : Z;
  stride : Z;
  maxPeriodFrames : Z;
  startFrames : Z;
  state : StreamState
}.

(** [pw.record]. *)
Record record_t := mk_record {
  rec_stream : stream;
  rec_channels : Z;
  rec_sampleRate : Z;
  rec_stride : Z;
  active : bool
}.

(** [struct PipeWire pw]: whether [loop], [context] and [thread] are set,
    the two halves, the number of streams created so far and the calls
    made, oldest first. *)
Record t := mk {
  loop : bool;
  context : bool;
  thread : bool;
  playback : playback_t;
  record : record_t;
  created : nat;
  calls : list Call
}.

Definition set_playback v (p : t) : t :=
  mk (loop p) (context p) (thread p) v (record p) (created p) (calls p).
Definition set_record v (p : t) : t :=
  mk (loop p) (context p) (thread p) (playback p) v (created p) (calls p).
Definition set_created v (p : t) : t :=
  mk (loop p) (context p) (thread p) (playback p) (record p) v (calls p).
Definition set_calls v (p : t) : t :=
  mk (loop p) (context p) (thread p) (playback p) (record p) (created p) v.
Definition set_objects l c th (p : t) : t :=
  mk l c th (playback p) (record p) (created p) (calls p).

Definition set_stream v (b : playback_t) : playback_t :=
  mk_playback v (rateMatch b) (channels b) (sampleRate b) (stride b)
    (maxPeriodFrames b) (startFrames b) (state b).
Definition set_rateMatch v (b : playback_t) : playback_t :=
  mk_playback (stream_ b) v (channels b) (sampleRate b) (stride b)
    (maxPeriodFrames b) (startFrames b) (state b).
Definition set_layout c r s (b : playback_t) : playback_t :=
  mk_playback (stream_ b) (rateMatch b) c r s
    (maxPeriodFrames b) (startFrames b) (state b).
Definition set_maxPeriodFrames v (b : playback_t) : playback_t :=
  mk_playback (stream_ b) (rateMatch b) (channels b) (sampleRate b) (stride b)
    v (startFrames b) (state b).
Definition set_startFrames v (b : playback_t) : playback_t :=
  mk_playback (stream_ b) (rateMatch b) (channels b) (sampleRate b) (stride b)
    (maxPeriodFrames b) v (state b).
Definition set_state v (b : playback_t) : playback_t :=
  mk_playback (stream_ b) (rateMatch b) (channels b) (sampleRate b) (stride b)
    (maxPeriodFrames b) (startFrames b) v.

Definition set_rec_stream v (r : record_t) : record_t :=
  mk_record v (rec_channels r) (rec_sampleRate r) (rec_stride r) (active r).
Definition set_rec_layout c s st (r : record_t) : record_t :=
  mk_record (rec_stream r) c s st (active r).
Definition set_active v (r : record_t) : record_t :=
  mk_record (rec_stream r) (rec_channels r) (rec_sampleRate r) (rec_stride r) v.

(** [static struct PipeWire pw = {0}]. *)
Definition zero : t :=
  mk false false false
     (mk_playback None false 0 0 0 0 0 STREAM_STATE_INACTIVE)
     (mk_record None 0 0 0 false)
     0 [].

Definition emit (c : Call) (p : t) : t := set_calls (calls p ++ [c]) p.

Definition upd_playback (f : playback_t -> playback_t) (p : t) : t :=
  set_playback (f (playback p)) p.
Definition upd_record (f : record_t -> record_t) (p : t) : t :=
  set_record (f (record p)) p.

(** [pw_stream_new_simple]: the next stream when PipeWire can create one,
    the null pointer otherwise. *)
Definition new_stream (ok : bool) (category : string) (latency : option (Z * Z)) (p : t)
    : stream * t :=
  if ok then
    (Some (created p),
     emit (pw_stream_new_simple category latency (Some (created p)))
          (set_created (S (created p)) p))
  else (None, emit (pw_stream_new_simple category latency None) p).

(** What [audiodev_playback_setup] reads from its environment: whether
    [pw_stream_new_simple] succeeds, and what [sscanf("%u/%u")] makes of
    the stream's [node.latency] property ([Some] when it stores both
    numbers). *)
Record SetupEnv := mkSetupEnv {
  stream_ok : bool;
  actualNodeLatency : option (Z * Z)
}.

(** [audiodev_on_playback_io_changed] (audiodev.c:103); [is_rate_match] is
    [id == SPA_IO_RateMatch] and [data] whether the pointer handed over is
    set. *)
Definition audiodev_on_playback_io_changed (is_rate_match : bool) (data : bool) (p : t) : t :=
  if is_rate_match then upd_playback (set_rateMatch data) p else p.

(** [audiodev_onPlaybackDrained] (audiodev.c:152). *)
Definition audiodev_onPlaybackDrained (p : t) : t :=
  let p := emit pw_thread_loop_lock p in
  let p := emit (pw_stream_set_active (stream_ (playback p)) false) p in
  let p := upd_playback (set_state STREAM_STATE_INACTIVE) p in
  emit pw_thread_loop_unlock p.

(** [audiodev_init] (audiodev.c:159); the three flags are whether
    [pw_context_new], [pw_context_connect] and [pw_thread_loop_new_full]
    return an object. *)
Definition audiodev_init (context_ok core_ok thread_ok : bool) (p : t) : bool * t :=
  let p := emit pw_init p in
  let p := emit pw_loop_new p in
  let p := set_objects true (context p) (thread p) p in
  let p := emit (pw_context_new context_ok) p in
  let p := set_objects (loop p) context_ok (thread p) p in
  let err (p : t) := (false, emit pw_deinit (emit pw_loop_destroy p)) in
  let err_context (p : t) := err (emit pw_context_destroy p) in
  if negb context_ok then err (emit (DEBUG_ERROR "Failed to create a context") p)
  else
    let p := emit (pw_context_connect core_ok) p in
    if negb core_ok then err_context p
    else
      let p := emit (pw_thread_loop_new_full thread_ok) p in
      let p := set_objects (loop p) (context p) thread_ok p in
      if negb thread_ok then
        err_context (emit (DEBUG_ERROR "Failed to create the thread loop") p)
      else (true, emit pw_thread_loop_start p).

(** [audiodev_playback_stop_stream] (audiodev.c:199). *)
Definition audiodev_playback_stop_stream (p : t) : t :=
  match stream_ (playback p) with
  | None => p
  | Some s =>
      let p := emit pw_thread_loop_lock p in
      let p := emit (pw_stream_destroy (Some s)) p in
      let p := upd_playback (fun b => set_rateMatch false (set_stream None b)) p in
      emit pw_thread_loop_unlock p
  end.

(** [audiodev_playback_setup] (audiodev.c:210): the state and what is
    stored through [maxPeriodFrames] and [startFrames].  The stream is
    asked for its properties before it is tested for null. *)
Definition audiodev_playback_setup (env : SetupEnv) (p : t)
    (channels sampleRate requestedPeriodFrames : Z) : t * (Z * Z) :=
  let b := playback p in
  if match stream_ b with Some _ => true | None => false end
     && (Dev.channels b =? channels) && (Dev.sampleRate b =? sampleRate)
  then (p, (maxPeriodFrames b, startFrames b))
  else
    let p := audiodev_playback_stop_stream p in
    let p := upd_playback (set_layout channels sampleRate (wrap32 (4 * channels))) p in
    let p := emit pw_thread_loop_lock p in
    let '(s, p) :=
      new_stream (stream_ok env) "Playback"
        (Some (requestedPeriodFrames, sampleRate)) p in
    let p := upd_playback (set_stream s) p in
    let p := emit (pw_stream_get_properties s) p in
    let p :=
      match actualNodeLatency env with
      | Some (num, denom) =>
          if negb (denom =? u32 sampleRate) then
            let p := emit (DEBUG_WARN "audiodev_LATENCY value '%s' is invalid or does not match stream sample rate; using %d/%d") p in
            let p := emit (pw_stream_update_properties s (requestedPeriodFrames, sampleRate)) p in
            upd_playback (set_maxPeriodFrames requestedPeriodFrames) p
          else upd_playback (set_maxPeriodFrames (wrap32 num)) p
      | None =>
          let p := emit (DEBUG_WARN "audiodev_LATENCY value '%s' is invalid or does not match stream sample rate; using %d/%d") p in
          let p := emit (pw_stream_update_properties s (requestedPeriodFrames, sampleRate)) p in
          upd_playback (set_maxPeriodFrames requestedPeriodFrames) p
      end in
    let p := upd_playback
               (fun b => set_startFrames (wrap32 (maxPeriodFrames b * 2)) b) p in
    let out := (maxPeriodFrames (playback p), startFrames (playback p)) in
    match s with
    | None =>
        let p := emit pw_thread_loop_unlock p in
        (emit (DEBUG_ERROR "Failed to create the stream") p, out)
    | Some _ =>
        let p := emit (pw_stream_connect s PW_DIRECTION_OUTPUT SPA_AUDIO_FORMAT_F32
                         channels sampleRate true) p in
        (emit pw_thread_loop_unlock p, out)
    end.

(** [audiodev_playback_start] (audiodev.c:321). *)
Definition audiodev_playback_start (p : t) : t :=
  match stream_ (playback p) with
  | None => p
  | Some _ =>
      if negb (StreamState_eqb (state (playback p)) STREAM_STATE_ACTIVE) then
        let p := emit pw_thread_loop_lock p in
        let p :=
          match state (playback p) with
          | STREAM_STATE_INACTIVE =>
              let p := emit (pw_stream_set_active (stream_ (playback p)) true) p in
              upd_playback (set_state STREAM_STATE_ACTIVE) p
          | STREAM_STATE_DRAINING => p
          | STREAM_STATE_ACTIVE => p
          end in
        emit pw_thread_loop_unlock p
      else p
  end.

(** [audiodev_playback_stop] (audiodev.c:347). *)
Definition audiodev_playback_stop (p : t) : t :=
  if negb (StreamState_eqb (state (playback p)) STREAM_STATE_ACTIVE) then p
  else
    let p := emit pw_thread_loop_lock p in
    let p := emit (pw_stream_flush (stream_ (playback p)) true) p in
    let p := upd_playback (set_state STREAM_STATE_DRAINING) p in
    emit pw_thread_loop_unlock p.

(** [audiodev_playback_volume] (audiodev.c:357) on the device state. *)
Definition audiodev_playback_volume (p : t) (channels : Z) (volume : list Z) : t :=
  if negb (channels =? Dev.channels (playback p)) then p
  else
    let p := emit pw_thread_loop_lock p in
    let p := emit (pw_stream_set_control_channelVolumes (stream_ (playback p)) channels
                     (firstn (Z.to_nat channels) volume)) p in
    emit pw_thread_loop_unlock p.

(** [audiodev_playback_mute] (audiodev.c:371). *)
Definition audiodev_playback_mute (p : t) (mute : bool) : t :=
  let p := emit pw_thread_loop_lock p in
  let p := emit (pw_stream_set_control_mute (stream_ (playback p)) mute) p in
  emit pw_thread_loop_unlock p.

(** [audiodev_record_stop_stream] (audiodev.c:401). *)
Definition audiodev_record_stop_stream (p : t) : t :=
  match rec_stream (record p) with
  | None => p
  | Some s =>
      let p := emit pw_thread_loop_lock p in
      let p := emit (pw_stream_destroy (Some s)) p in
      let p := upd_record (set_rec_stream None) p in
      emit pw_thread_loop_unlock p
  end.

(** [audiodev_record_start] (audiodev.c:435); [stream_ok] is whether
    [pw_stream_new_simple] succeeds. *)
Definition audiodev_record_start (stream_ok : bool) (p : t) (channels sampleRate : Z) : t :=
  let r := record p in
  if match rec_stream r with Some _ => true | None => false end
     && (rec_channels r =? channels) && (rec_sampleRate r =? sampleRate)
  then
    if negb (active r) then
      let p := emit pw_thread_loop_lock p in
      let p := emit (pw_stream_set_active (rec_stream r) true) p in
      let p := upd_record (set_active true) p in
      emit pw_thread_loop_unlock p
    else p
  else
    let p := audiodev_record_stop_stream p in
    let p := upd_record (set_rec_layout channels sampleRate (wrap32 (2 * channels))) p in
    let p := emit pw_thread_loop_lock p in
    let '(s, p) := new_stream stream_ok "Capture" None p in
    let p := upd_record (set_rec_stream s) p in
    match s with
    | None =>
        let p := emit pw_thread_loop_unlock p in
        emit (DEBUG_ERROR "Failed to create the stream") p
    | Some _ =>
        let p := emit (pw_stream_connect s PW_DIRECTION_INPUT SPA_AUDIO_FORMAT_S16
                         channels sampleRate false) p in
        let p := emit pw_thread_loop_unlock p in
        upd_record (set_active true) p
    end.

(** [audiodev_record_stop] (audiodev.c:507). *)
Definition audiodev_record_stop (p : t) : t :=
  if negb (active (record p)) then p
  else
    let p := emit pw_thread_loop_lock p in
    let p := emit (pw_stream_set_active (rec_stream (record p)) false) p in
    let p := upd_record (set_active false) p in
    emit pw_thread_loop_unlock p.

(** [audiodev_record_volume] (audiodev.c:517). *)
Definition audiodev_record_volume (p : t) (channels : Z) (volume : list Z) : t :=
  if negb (channels =? rec_channels (record p)) then p
  else
    let p := emit pw_thread_loop_lock p in
    let p := emit (pw_stream_set_control_channelVolumes (rec_stream (record p)) channels
                     (firstn (Z.to_nat channels) volume)) p in
    emit pw_thread_loop_unlock p.

(** [audiodev_record_mute] (audiodev.c:531). *)
Definition audiodev_record_mute (p : t) (mute : bool) : t :=
  let p := emit pw_thread_loop_lock p in
  let p := emit (pw_stream_set_control_mute (rec_stream (record p)) mute) p in
  emit pw_thread_loop_unlock p.

(** [audiodev_free] (audiodev.c:538). *)
Definition audiodev_free (p : t) : t :=
  let p := audiodev_playback_stop_stream p in
  let p := audiodev_record_stop_stream p in
  let p := emit pw_thread_loop_stop p in
  let p := emit pw_thread_loop_destroy p in
  let p := emit pw_context_destroy p in
  let p := emit pw_loop_destroy p in
  let p := set_objects false false false p in
  emit pw_deinit p.

(** The entry points the engine and the program call, and the two stream
    events that change the state. *)
Inductive step : t -> t -> Prop :=
| step_init (p : t) (context_ok core_ok thread_ok : bool) :
    step p (snd (audiodev_init context_ok core_ok thread_ok p))
| step_free (p : t) :
    step p (audiodev_free p)
| step_io_changed (p : t) (is_rate_match data : bool) :
    step p (audiodev_on_playback_io_changed is_rate_match data p)
| step_drained (p : t) :
    step p (audiodev_onPlaybackDrained p)
| step_playback_setup (p : t) (env : SetupEnv) (channels sampleRate requested : Z) :
    step p (fst (audiodev_playback_setup env p channels sampleRate requested))
| step_playback_start (p : t) :
    step p (audiodev_playback_start p)
| step_playback_stop (p : t) :
    step p (audiodev_playback_stop p)
| step_playback_volume (p : t) (channels : Z) (volume : list Z) :
    step p (audiodev_playback_volume p channels volume)
| step_playback_mute (p : t) (mute : bool) :
    step p (audiodev_playback_mute p mute)
| step_record_start (p : t) (stream_ok : bool) (channels sampleRate : Z) :
    step p (audiodev_record_start stream_ok p channels sampleRate)
| step_record_stop (p : t) :
    step p (audiodev_record_stop p)
| step_record_volume (p : t) (channels : Z) (volume : list Z) :
    step p (audiodev_record_volume p channels volume)
| step_record_mute (p : t) (mute : bool) :
    step p (audiodev_record_mute p mute).

Inductive reachable : t -> Prop :=
| reachable_zero : reachable zero
| reachable_step (p p' : t) : reachable p -> step p p' -> reachable p'.

End Dev.

(* ================================================================== *)
(** ** The stream callbacks (src/audiodev.c) *)
(* ================================================================== *)

Module PwBuffer.
(** A [struct pw_buffer] as a stream hands it out, with the one
    [spa_data] the callbacks use: whether [datas[0].data] is set,
    [datas[0].maxsize] and the chunk's [offset] and [size] ([uint32_t]),
    the chunk's [stride] ([int32_t]) and [pbuf->size] ([uint64_t]). *)
Record t := mk {
  data : bool;
  maxsize : Z;
  chunk_offset : Z;
  chunk_size : Z;
  chunk_stride : Z;
  size : Z
}.

(** The fields hold values of their C types. *)
Definition valid (b : t) : Prop :=
  0 <= maxsize b < 2 ^ 32
  /\ 0 <= chunk_offset b < 2 ^ 32
  /\ 0 <= chunk_size b < 2 ^ 32.
End PwBuffer.

(** The [min] macro on an [int] and a [uint32_t], and on two [uint32_t]:
    both are compared as [unsigned int]. *)
Definition min_u32 (a b : Z) : Z := if u32 a <? u32 b then u32 a else u32 b.

(** What one run of [audiodev_on_playback_process] leaves: the device and
    the engine, the frames [audio_pull] wrote to the buffer's data, and
    the buffer as it was queued, if it was. *)
Record PlaybackProcess := mkPlaybackProcess {
  pp_dev : Dev.t;
  pp_engine : Playback.t;
  pp_written : list frame;
  pp_queued : option PwBuffer.t
}.

(** [audiodev_on_playback_process] (audiodev.c:111).  [get_time] is what
    [pw_stream_get_time] returns, [pbuf] the buffer dequeued,
    [rateMatch_size] the [size] of the [spa_io_rate_match] PipeWire keeps,
    [now] the clock [audio_pull] reads.  The division is made on
    [unsigned int]; by a zero stride it has no result: [None]. *)
Definition audiodev_on_playback_process (get_time : Z) (pbuf : option PwBuffer.t)
    (rateMatch_size : Z) (now : Z) (p : Dev.t) (st : Playback.t)
    : option PlaybackProcess :=
  let s := Dev.stream_ (Dev.playback p) in
  let p := Dev.emit (Dev.pw_stream_get_time s) p in
  let p := if get_time <? 0 then Dev.emit (Dev.DEBUG_ERROR "pw_stream_get_time failed") p
           else p in
  let p := Dev.emit (Dev.pw_stream_dequeue_buffer s) p in
  match pbuf with
  | None => Some (mkPlaybackProcess (Dev.emit (Dev.DEBUG_WARN "out of buffers") p) st [] None)
  | Some b =>
      if negb (PwBuffer.data b) then Some (mkPlaybackProcess p st [] None)
      else
        let stride := Dev.stride (Dev.playback p) in
        if u32 stride =? 0 then None
        else
          let frames := wrap32 (PwBuffer.maxsize b / u32 stride) in
          let frames :=
            if Dev.rateMatch (Dev.playback p) && (0 <? rateMatch_size)
            then wrap32 (min_u32 frames rateMatch_size) else frames in
          let '(frames, dst, st) := audio_pull st now frames in
          if frames =? 0 then
            let b := PwBuffer.mk (PwBuffer.data b) (PwBuffer.maxsize b)
                       (PwBuffer.chunk_offset b) 0 (PwBuffer.chunk_stride b)
                       (PwBuffer.size b) in
            Some (mkPlaybackProcess
                    (Dev.emit (Dev.pw_stream_queue_buffer s 0) p) st dst (Some b))
          else
            let b := PwBuffer.mk (PwBuffer.data b) (PwBuffer.maxsize b)
                       0 (u32 (wrap32 (frames * stride))) stride (u64 frames) in
            Some (mkPlaybackProcess
                    (Dev.emit (Dev.pw_stream_queue_buffer s (PwBuffer.chunk_size b)) p)
                    st dst (Some b))
  end.

(** [audiodev_on_record_process] (audiodev.c:411): the device, the capture
    side and whether the buffer was queued again.  The subtraction, the
    [min] and the division are made on [unsigned int]. *)
Definition audiodev_on_record_process (pbuf : option PwBuffer.t) (p : Dev.t)
    (a : AudioState.t) : option (Dev.t * AudioState.t * bool) :=
  let s := Dev.rec_stream (Dev.record p) in
  let p := Dev.emit (Dev.pw_stream_dequeue_buffer s) p in
  match pbuf with
  | None => Some (Dev.emit (Dev.DEBUG_WARN "out of buffers") p, a, false)
  | Some b =>
      if negb (PwBuffer.data b) then Some (p, a, false)
      else
        let stride := Dev.rec_stride (Dev.record p) in
        if u32 stride =? 0 then None
        else
          let bytes := min_u32 (PwBuffer.chunk_size b)
                               (u32 (PwBuffer.maxsize b - PwBuffer.chunk_offset b)) in
          let a := audio_push a (wrap32 (bytes / u32 stride)) in
          Some (Dev.emit (Dev.pw_stream_queue_buffer s (PwBuffer.chunk_size b)) p, a, true)
  end.

(** The byte count of the last [purespice_writeAudio] call, if any. *)
Definition last_write (calls : list RecordEvent) : option Z :=
  match last calls Call_audiodev_init with
  | Call_purespice_writeAudio size _ => Some size
  | _ => None
  end.

(* ================================================================== *)
(** ** The latency display (src/main.c) *)
(* ================================================================== *)

Module Title.
(** The statics of main.c behind the terminal title: the counter [ctr] of
    [on_audio_latency], the three values last stored, and the titles
    written so far, oldest first, each with what [input_is_grabbed]
    returned and the three values printed. *)
Record t := mk {
  ctr : Z;
  audio_current_offset_ms : float;
  audio_total_latency_ms : float;
  audio_device_latency_ms : float;
  titles : list (bool * float * float * float)
}.

Definition zero : t := mk 0 0 0 0 [].
End Title.

(** A latency report: the arguments of [on_audio_latency] and what
    [input_is_grabbed] returns while it runs. *)
Record LatencyReport := mkLatencyReport {
  current_offset_ms : float;
  total_latency_ms : float;
  device_latency_ms : float;
  grabbed : bool
}.

(** [update_title] (main.c:63). *)
Definition update_title (is_grabbed : bool) (s : Title.t) : Title.t :=
  Title.mk (Title.ctr s) (Title.audio_current_offset_ms s)
    (Title.audio_total_latency_ms s) (Title.audio_device_latency_ms s)
    (Title.titles s
     ++ [(is_grabbed, Title.audio_current_offset_ms s,
          Title.audio_total_latency_ms s, Title.audio_device_latency_ms s)]).

(** [on_audio_latency] (main.c:73). *)
Definition on_audio_latency (s : Title.t) (r : LatencyReport) : Title.t :=
  let old := Title.ctr s in
  let s := Title.mk (wrap32 (old + 1)) (Title.audio_current_offset_ms s)
             (Title.audio_total_latency_ms s) (Title.audio_device_latency_ms s)
             (Title.titles s) in
  if 8 <=? old then
    let s := Title.mk 0 (current_offset_ms r) (total_latency_ms r) (device_latency_ms r)
               (Title.titles s) in
    update_title (grabbed r) s
  else s.

(** The title a report gives when it is shown. *)
Definition title_of (r : LatencyReport) : bool * float * float * float :=
  (grabbed r, current_offset_ms r, total_latency_ms r, device_latency_ms r).

(* ================================================================== *)
(** ** Input devices (src/input.c) *)
(* ================================================================== *)

(** The device threads of input.c share the static [input] without a
    lock.  One turn of a thread's [loop:], from the event read to the next
    [goto loop], is taken here as one step on that state; the calls on
    libevdev and on the protocol client and the messages printed are
    recorded in the order made, the messages by their format strings. *)

Module Input.

(** linux/input-event-codes.h and errno.h. *)
Definition EV_SYN : Z := 0.
Definition EV_KEY : Z := 1.
Definition EV_REL : Z := 2.
Definition EV_ABS : Z := 3.
Definition SYN_REPORT : Z := 0.
Definition REL_X : Z := 0.
Definition REL_Y : Z := 1.
Definition REL_WHEEL : Z := 8.
Definition ABS_X : Z := 0.
Definition ABS_Y : Z := 1.
Definition KEY_RIGHTCTRL : Z := 97.
Definition KEY_PAUSE : Z := 119.
Definition BTN_LEFT : Z := 0x110.
Definition BTN_RIGHT : Z := 0x111.
Definition BTN_MIDDLE : Z := 0x112.
Definition BTN_SIDE : Z := 0x113.
Definition BTN_EXTRA : Z := 0x114.
Definition BTN_TOUCH : Z := 0x14a.
Definition KEY_MAX : Z := 0x2ff.
Definition EAGAIN : Z := 11.
Definition ENODEV : Z := 19.

Definition MAX_INPUT_DEVICES : Z := 64.

(** libevdev: [LIBEVDEV_READ_STATUS_SYNC] and the two grab modes. *)
Definition LIBEVDEV_READ_STATUS_SYNC : Z := 1.
Inductive GrabMode := LIBEVDEV_GRAB | LIBEVDEV_UNGRAB.

(** spice/enums.h; [SPICE_MOUSE_BUTTON_INVALID] is the zero of the
    enumeration. *)
Inductive SpiceMouseButton :=
| SPICE_MOUSE_BUTTON_INVALID
| SPICE_MOUSE_BUTTON_LEFT
| SPICE_MOUSE_BUTTON_MIDDLE
| SPICE_MOUSE_BUTTON_RIGHT
| SPICE_MOUSE_BUTTON_UP
| SPICE_MOUSE_BUTTON_DOWN
| SPICE_MOUSE_BUTTON_SIDE
| SPICE_MOUSE_BUTTON_EXTRA.

(** [linux_to_ps2] (input.c:587): the entries the initialiser names, with
    the key codes of linux/input-event-codes.h; every other entry is 0. *)
Definition linux_to_ps2_entries : list (Z * Z) :=
  [
   (0, 0x000000);   (* KEY_RESERVED *)
   (1, 0x000001);   (* KEY_ESC *)
   (2, 0x000002);   (* KEY_1 *)
   (3, 0x000003);   (* KEY_2 *)
   (4, 0x000004);   (* KEY_3 *)
   (5, 0x000005);   (* KEY_4 *)
   (6, 0x000006);   (* KEY_5 *)
   (7, 0x000007);   (* KEY_6 *)
   (8, 0x000008);   (* KEY_7 *)
   (9, 0x000009);   (* KEY_8 *)
   (10, 0x00000A);  (* KEY_9 *)
   (11, 0x00000B);  (* KEY_0 *)
   (12, 0x00000C);  (* KEY_MINUS *)
   (13, 0x00000D);  (* KEY_EQUAL *)
   (14, 0x00000E);  (* KEY_BACKSPACE *)
   (15, 0x00000F);  (* KEY_TAB *)
   (16, 0x000010);  (* KEY_Q *)
   (17, 0x000011);  (* KEY_W *)
   (18, 0x000012);  (* KEY_E *)
   (19, 0x000013);  (* KEY_R *)
   (20, 0x000014);  (* KEY_T *)
   (21, 0x000015);  (* KEY_Y *)
   (22, 0x000016);  (* KEY_U *)
   (23, 0x000017);  (* KEY_I *)
   (24, 0x000018);  (* KEY_O *)
   (25, 0x000019);  (* KEY_P *)
   (26, 0x00001A);  (* KEY_LEFTBRACE *)
   (27, 0x00001B);  (* KEY_RIGHTBRACE *)
   (28, 0x00001C);  (* KEY_ENTER *)
   (29, 0x00001D);  (* KEY_LEFTCTRL *)
   (30, 0x00001E);  (* KEY_A *)
   (31, 0x00001F);  (* KEY_S *)
   (32, 0x000020);  (* KEY_D *)
   (33, 0x000021);  (* KEY_F *)
   (34, 0x000022);  (* KEY_G *)
   (35, 0x000023);  (* KEY_H *)
   (36, 0x000024);  (* KEY_J *)
   (37, 0x000025);  (* KEY_K *)
   (38, 0x000026);  (* KEY_L *)
   (39, 0x000027);  (* KEY_SEMICOLON *)
   (40, 0x000028);  (* KEY_APOSTROPHE *)
   (41, 0x000029);  (* KEY_GRAVE *)
   (42, 0x00002A);  (* KEY_LEFTSHIFT *)
   (43, 0x00002B);  (* KEY_BACKSLASH *)
   (44, 0x00002C);  (* KEY_Z *)
   (45, 0x00002D);  (* KEY_X *)
   (46, 0x00002E);  (* KEY_C *)
   (47, 0x00002F);  (* KEY_V *)
   (48, 0x000030);  (* KEY_B *)
   (49, 0x000031);  (* KEY_N *)
   (50, 0x000032);  (* KEY_M *)
   (51, 0x000033);  (* KEY_COMMA *)
   (52, 0x000034);  (* KEY_DOT *)
   (53, 0x000035);  (* KEY_SLASH *)
   (54, 0x000036);  (* KEY_RIGHTSHIFT *)
   (55, 0x000037);  (* KEY_KPASTERISK *)
   (56, 0x000038);  (* KEY_LEFTALT *)
   (57, 0x000039);  (* KEY_SPACE *)
   (58, 0x00003A);  (* KEY_CAPSLOCK *)
   (59, 0x00003B);  (* KEY_F1 *)
   (60, 0x00003C);  (* KEY_F2 *)
   (61, 0x00003D);  (* KEY_F3 *)
   (62, 0x00003E);  (* KEY_F4 *)
   (63, 0x00003F);  (* KEY_F5 *)
   (64, 0x000040);  (* KEY_F6 *)
   (65, 0x000041);  (* KEY_F7 *)
   (66, 0x000042);  (* KEY_F8 *)
   (67, 0x000043);  (* KEY_F9 *)
   (68, 0x000044);  (* KEY_F10 *)
   (69, 0x000045);  (* KEY_NUMLOCK *)
   (70, 0x000046);  (* KEY_SCROLLLOCK *)
   (71, 0x000047);  (* KEY_KP7 *)
   (72, 0x000048);  (* KEY_KP8 *)
   (73, 0x000049);  (* KEY_KP9 *)
   (74, 0x00004A);  (* KEY_KPMINUS *)
   (75, 0x00004B);  (* KEY_KP4 *)
   (76, 0x00004C);  (* KEY_KP5 *)
   (77, 0x00004D);  (* KEY_KP6 *)
   (78, 0x00004E);  (* KEY_KPPLUS *)
   (79, 0x00004F);  (* KEY_KP1 *)
   (80, 0x000050);  (* KEY_KP2 *)
   (81, 0x000051);  (* KEY_KP3 *)
   (82, 0x000052);  (* KEY_KP0 *)
   (83, 0x000053);  (* KEY_KPDOT *)
   (86, 0x000056);  (* KEY_102ND *)
   (87, 0x000057);  (* KEY_F11 *)
   (88, 0x000058);  (* KEY_F12 *)
   (89, 0x000073);  (* KEY_RO *)
   (92, 0x000079);  (* KEY_HENKAN *)
   (93, 0x000070);  (* KEY_KATAKANAHIRAGANA *)
   (94, 0x00007B);  (* KEY_MUHENKAN *)
   (96, 0x00E01C);  (* KEY_KPENTER *)
   (97, 0x00E01D);  (* KEY_RIGHTCTRL *)
   (98, 0x00E035);  (* KEY_KPSLASH *)
   (99, 0x00E037);  (* KEY_SYSRQ *)
   (100, 0x00E038); (* KEY_RIGHTALT *)
   (102, 0x00E047); (* KEY_HOME *)
   (103, 0x00E048); (* KEY_UP *)
   (104, 0x00E049); (* KEY_PAGEUP *)
   (105, 0x00E04B); (* KEY_LEFT *)
   (106, 0x00E04D); (* KEY_RIGHT *)
   (107, 0x00E04F); (* KEY_END *)
   (108, 0x00E050); (* KEY_DOWN *)
   (109, 0x00E051); (* KEY_PAGEDOWN *)
   (110, 0x00E052); (* KEY_INSERT *)
   (111, 0x00E053); (* KEY_DELETE *)
   (117, 0x000059); (* KEY_KPEQUAL *)
   (119, 0x00E046); (* KEY_PAUSE *)
   (121, 0x00007E); (* KEY_KPCOMMA *)
   (122, 0x0000F2); (* KEY_HANGEUL *)
   (123, 0x0000F1); (* KEY_HANJA *)
   (124, 0x00007D); (* KEY_YEN *)
   (125, 0x00E05B); (* KEY_LEFTMETA *)
   (126, 0x00E05C); (* KEY_RIGHTMETA *)
   (127, 0x00E05D); (* KEY_COMPOSE *)
   (183, 0x00005D); (* KEY_F13 *)
   (184, 0x00005E); (* KEY_F14 *)
   (185, 0x00005F); (* KEY_F15 *)
   (210, 0x00E037); (* KEY_PRINT *)
   (113, 0x00E020); (* KEY_MUTE *)
   (115, 0x00E030); (* KEY_VOLUMEUP *)
   (114, 0x00E02E); (* KEY_VOLUMEDOWN *)
   (163, 0x00E019); (* KEY_NEXTSONG *)
   (164, 0x00E022); (* KEY_PLAYPAUSE *)
   (165, 0x00E010); (* KEY_PREVIOUSSONG *)
   (166, 0x00E024) (* KEY_STOPCD *)
  ].

(** An array of [KEY_MAX] elements read at [code]; [None] is a read past
    its end. *)
Definition key_index {A : Type} (f : Z -> A) (code : Z) : option A :=
  if (0 <=? code) && (code <? KEY_MAX) then Some (f code) else None.

Definition linux_to_ps2 (code : Z) : Z :=
  match find (fun e => fst e =? code) linux_to_ps2_entries with
  | Some e => snd e
  | None => 0
  end.

(** [linux_to_spice] (input.c:717). *)
Definition linux_to_spice (code : Z) : SpiceMouseButton :=
  if code =? BTN_LEFT then SPICE_MOUSE_BUTTON_LEFT
  else if code =? BTN_MIDDLE then SPICE_MOUSE_BUTTON_MIDDLE
  else if code =? BTN_RIGHT then SPICE_MOUSE_BUTTON_RIGHT
  else if code =? BTN_SIDE then SPICE_MOUSE_BUTTON_SIDE
  else if code =? BTN_EXTRA then SPICE_MOUSE_BUTTON_EXTRA
  else SPICE_MOUSE_BUTTON_INVALID.

Definition is_button (b : SpiceMouseButton) : bool :=
  match b with SPICE_MOUSE_BUTTON_INVALID => false | _ => true end.

(** What a thread calls and prints. *)
Inductive Call :=
| libevdev_grab (idx : Z) (mode : GrabMode)
| libevdev_free (idx : Z)
| close (idx : Z)
| purespice_mousePress (button : SpiceMouseButton)
| purespice_mouseRelease (button : SpiceMouseButton)
| purespice_keyDown (code : Z)
| purespice_keyUp (code : Z)
| purespice_mouseMotion (x y : Z)
| printf (format : string)
| fprintf_stderr (format : string).

Record timeval := mk_timeval {
  tv_sec : Z;
  tv_usec : Z
}.

Record input_event := mk_event {
  type : Z;
  code : Z;
  value : Z
}.

(** The static [input]: which slots of [libevdev] hold a device, the grab
    keys, the two grabbed slots (-1 for none), the time of the last grab
    key press and whether the mouse is let go while the key is held; and
    the calls made so far, oldest first. *)
Record t := mk {
  libevdev : Z -> bool;
  grab_key : Z -> bool;
  grabbed_keyboard : Z;
  grabbed_mouse : Z;
  grab_key_at : timeval;
  temp_ungrabbed_mouse : bool;
  calls : list Call
}.

Definition set_libevdev v (g : t) : t :=
  mk v (grab_key g) (grabbed_keyboard g) (grabbed_mouse g) (grab_key_at g)
     (temp_ungrabbed_mouse g) (calls g).
Definition set_grab_key v (g : t) : t :=
  mk (libevdev g) v (grabbed_keyboard g) (grabbed_mouse g) (grab_key_at g)
     (temp_ungrabbed_mouse g) (calls g).
Definition set_grabbed_keyboard v (g : t) : t :=
  mk (libevdev g) (grab_key g) v (grabbed_mouse g) (grab_key_at g)
     (temp_ungrabbed_mouse g) (calls g).
Definition set_grabbed_mouse v (g : t) : t :=
  mk (libevdev g) (grab_key g) (grabbed_keyboard g) v (grab_key_at g)
     (temp_ungrabbed_mouse g) (calls g).
Definition set_grab_key_at v (g : t) : t :=
  mk (libevdev g) (grab_key g) (grabbed_keyboard g) (grabbed_mouse g) v
     (temp_ungrabbed_mouse g) (calls g).
Definition set_temp_ungrabbed_mouse v (g : t) : t :=
  mk (libevdev g) (grab_key g) (grabbed_keyboard g) (grabbed_mouse g) (grab_key_at g)
     v (calls g).
Definition set_calls v (g : t) : t :=
  mk (libevdev g) (grab_key g) (grabbed_keyboard g) (grabbed_mouse g) (grab_key_at g)
     (temp_ungrabbed_mouse g) v.

(** The initialiser of [input]. *)
Definition zero : t :=
  mk (fun _ => false) (fun code => code =? KEY_RIGHTCTRL) (-1) (-1)
     (mk_timeval 0 0) false [].

(** [a[i] = v]. *)
Definition store (a : Z -> bool) (i : Z) (v : bool) : Z -> bool :=
  fun j => if j =? i then v else a j.

(** A slot of [libevdev], -1 or one of the [MAX_INPUT_DEVICES]. *)
Definition slot (i : Z) : bool := (0 <=? i) && (i <? MAX_INPUT_DEVICES).
Definition slot_or_none (i : Z) : bool := (i =? -1) || slot i.

(** The loop variables of a thread. *)
Record pending_rel_t := mk_rel {
  ok : bool;
  dx : Z;
  dy : Z;
  wheel : Z
}.

Record pending_rel_fake_t := mk_fake {
  ignore : bool;
  x : bool;
  y : bool;
  touch : bool;
  cx : Z;
  cy : Z;
  fake_dx : Z;
  fake_dy : Z
}.

Record Local := mk_local {
  pending_rel : pending_rel_t;
  pending_rel_fake : pending_rel_fake_t;
  sync : Z
}.

Definition local_zero : Local :=
  mk_local (mk_rel false 0 0 0) (mk_fake false false false false 0 0 0 0) (-1).

(** What a turn reads from its environment: what [libevdev_grab] returns
    for a slot and a mode, whether a call on the protocol client succeeds,
    and the time [gettimeofday] gives. *)
Record Env := mkEnv {
  grab_rc : Z -> GrabMode -> Z;
  send_ok : Call -> bool;
  now : timeval
}.

Inductive Next := Loop | End.

Definition emit (c : Call) (g : t) : t := set_calls (calls g ++ [c]) g.

(** A call on the protocol client, with the warning printed when it
    fails. *)
Definition send (env : Env) (c : Call) (g : t) : t :=
  let g := emit c g in
  if send_ok env c then g
  else emit (fprintf_stderr "input: warning: failed to send packet") g.

(** [libevdev_grab] on a slot, with the warning printed when it fails. *)
Definition grab_or_warn (env : Env) (i : Z) (mode : GrabMode) (warn : string) (g : t) : t :=
  let g := emit (libevdev_grab i mode) g in
  if grab_rc env i mode <? 0 then emit (fprintf_stderr warn) g else g.

(** [input_ungrab] (input.c:750). *)
Definition input_ungrab (env : Env) (g : t) : t :=
  let g :=
    if negb (grabbed_keyboard g =? -1) then
      let g :=
        if libevdev g (grabbed_keyboard g) then
          let g := emit (printf "input: ungrabbing keyboard %s") g in
          grab_or_warn env (grabbed_keyboard g) LIBEVDEV_UNGRAB
            "input: warning: failed to un-grab device %s" g
        else g in
      let g := if grabbed_mouse g =? grabbed_keyboard g
               then set_grabbed_mouse (-1) g else g in
      set_grabbed_keyboard (-1) g
    else g in
  if negb (grabbed_mouse g =? -1) then
    let g :=
      if libevdev g (grabbed_mouse g) then
        let g := emit (printf "input: ungrabbing mouse %s") g in
        grab_or_warn env (grabbed_mouse g) LIBEVDEV_UNGRAB
          "input: warning: failed to un-grab device %s" g
      else g in
    set_grabbed_mouse (-1) g
  else g.

(** [tv_ms_diff] (input.c:777): the seconds are multiplied as
    [uint64_t], the microseconds divided as [long]. *)
Definition tv_ms (a : timeval) : Z :=
  u64 (u64 (tv_sec a * 1000) + Z.quot (tv_usec a) 1000).

Definition tv_ms_diff (a b : timeval) : Z :=
  let msa := tv_ms a in
  let msb := tv_ms b in
  if msa <? msb then u64 (msb - msa) else u64 (msa - msb).

(** input.c:1052-1071, the end of a thread. *)
Definition input_device_end (env : Env) (idx : Z) (g : t) : t :=
  let g := emit (printf "input: no longer tracking %s") g in
  let g := emit (close idx) g in
  let g := emit (libevdev_free idx) g in
  let g := set_libevdev (store (libevdev g) idx false) g in
  let ungrab := false in
  let '(g, ungrab) :=
    if grabbed_keyboard g =? idx then (set_grabbed_keyboard (-1) g, true)
    else (g, ungrab) in
  let '(g, ungrab) :=
    if grabbed_mouse g =? idx then (set_grabbed_mouse (-1) g, true)
    else (g, ungrab) in
  if ungrab then
    input_ungrab env
      (emit (printf "input: untracked input was grabbed, so un-grabbing everything") g)
  else g.

(** input.c:833-892, a key event on a grab key. *)
Definition grab_key_event (env : Env) (idx : Z) (ev : input_event) (g : t) : t :=
  let g :=
    if value ev =? 1 then
      let g := set_grab_key_at (now env) g in
      if (grabbed_keyboard g =? idx) && negb (grabbed_mouse g =? -1)
         && libevdev g (grabbed_mouse g)
      then
        let g := emit (printf "input: temporarily ungrabbing mouse %s while grab key is held") g in
        let g := grab_or_warn env (grabbed_mouse g) LIBEVDEV_UNGRAB
                   "input: warning: failed to un-grab device %s" g in
        set_temp_ungrabbed_mouse true g
      else g
    else g in
  if value ev =? 0 then
    let g :=
      if (tv_sec (grab_key_at g) =? 0) || (tv_ms_diff (now env) (grab_key_at g) <? 250) then
        let g := emit (printf "input: handling grab key release from device %s") g in
        let ungrab := grabbed_keyboard g =? idx in
        let g :=
          if negb (grabbed_keyboard g =? -1) then
            input_ungrab env (emit (printf "input: ungrabbing everything") g)
          else g in
        if negb ungrab then
          let g := emit (libevdev_grab idx LIBEVDEV_GRAB) g in
          if grab_rc env idx LIBEVDEV_GRAB <? 0 then
            emit (fprintf_stderr "input: warning: failed to grab device %s") g
          else
            let g := emit (printf "input: grabbed device %s") g in
            let g :=
              if negb (grabbed_keyboard g =? -1) || negb (grabbed_mouse g =? -1) then
                input_ungrab env (emit (printf "input: ungrabbing old inputs") g)
              else g in
            set_grabbed_keyboard idx g
        else g
      else
        let g := emit (printf "input: ignoring grab key release from device %s") g in
        if temp_ungrabbed_mouse g && (grabbed_keyboard g =? idx)
           && negb (grabbed_mouse g =? -1) && libevdev g (grabbed_mouse g)
        then
          let g := emit (printf "input: re-grabbing mouse %s since grab key was released after a long press") g in
          grab_or_warn env (grabbed_mouse g) LIBEVDEV_GRAB
            "input: warning: failed to re-grab device %s" g
        else g in
    let g := set_grab_key_at (mk_timeval 0 0) g in
    set_temp_ungrabbed_mouse false g
  else g.

(** input.c:895-912, a pointing device found while only a keyboard is
    grabbed. *)
Definition grab_pointer (env : Env) (idx : Z) (ev : input_event) (g : t) : t :=
  if negb (grabbed_keyboard g =? -1) && (grabbed_mouse g =? -1) then
    if ((type ev =? EV_REL) && ((code ev =? REL_X) || (code ev =? REL_Y)))
       || ((type ev =? EV_ABS) && ((code ev =? ABS_X) || (code ev =? ABS_Y)))
    then
      if idx =? grabbed_keyboard g then
        let g := emit (printf "input: got mouse movement from same devices as keyboard %s, assuming it's also a mouse") g in
        set_grabbed_mouse (grabbed_keyboard g) g
      else
        let g := emit (printf "input: got mouse movement from %s, grabbing") g in
        let g := emit (libevdev_grab idx LIBEVDEV_GRAB) g in
        if grab_rc env idx LIBEVDEV_GRAB <? 0 then
          emit (fprintf_stderr "input: warning: failed to grab device %s") g
        else
          let g := emit (printf "input: grabbed device %s") g in
          set_grabbed_mouse idx g
    else g
  else g.

(** input.c:925-959, a key event that is forwarded. *)
Definition key_event (env : Env) (ev : input_event) (g : t) (l : Local) : t * Local :=
  let g :=
    if is_button (linux_to_spice (code ev)) then
      let g := if value ev =? 1
               then send env (purespice_mousePress (linux_to_spice (code ev))) g else g in
      if value ev =? 0
      then send env (purespice_mouseRelease (linux_to_spice (code ev))) g else g
    else g in
  let g :=
    if negb (linux_to_ps2 (code ev) =? 0) then
      let g := if value ev =? 1
               then send env (purespice_keyDown (linux_to_ps2 (code ev))) g else g in
      if value ev =? 0
      then send env (purespice_keyUp (linux_to_ps2 (code ev))) g else g
    else g in
  let f := pending_rel_fake l in
  let f :=
    if code ev =? BTN_TOUCH then
      let f := if value ev =? 1
               then mk_fake (ignore f) (x f) (y f) true (cx f) (cy f) (fake_dx f) (fake_dy f)
               else f in
      if value ev =? 0
      then mk_fake (ignore f) false false false (cx f) (cy f) 0 0
      else f
    else f in
  (g, mk_local (pending_rel l) f (sync l)).

(** input.c:962-973, a relative motion event. *)
Definition rel_event (ev : input_event) (l : Local) : Local :=
  let r := pending_rel l in
  let r := mk_rel true (dx r) (dy r) (wheel r) in
  let r := if code ev =? REL_X
           then mk_rel (ok r) (wrap32 (dx r + value ev)) (dy r) (wheel r) else r in
  let r := if code ev =? REL_Y
           then mk_rel (ok r) (dx r) (wrap32 (dy r + value ev)) (wheel r) else r in
  let r := if code ev =? REL_WHEEL
           then mk_rel (ok r) (dx r) (dy r) (wrap32 (wheel r + value ev)) else r in
  let f := pending_rel_fake l in
  let f := mk_fake true (x f) (y f) (touch f) (cx f) (cy f) (fake_dx f) (fake_dy f) in
  mk_local r f (sync l).

(** input.c:975-994, an absolute position event. *)
Definition abs_event (ev : input_event) (l : Local) : Local :=
  let f := pending_rel_fake l in
  let f :=
    if code ev =? ABS_X then
      let f :=
        if x f
        then mk_fake (ignore f) (x f) (y f) (touch f) (cx f) (cy f)
               (wrap32 (fake_dx f + wrap32 (value ev - cx f))) (fake_dy f)
        else mk_fake (ignore f) true (y f) (touch f) (cx f) (cy f) 0 (fake_dy f) in
      mk_fake (ignore f) (x f) (y f) (touch f) (value ev) (cy f) (fake_dx f) (fake_dy f)
    else f in
  let f :=
    if code ev =? ABS_Y then
      let f :=
        if y f
        then mk_fake (ignore f) (x f) (y f) (touch f) (cx f) (cy f)
               (fake_dx f) (wrap32 (fake_dy f + wrap32 (value ev - cy f)))
        else mk_fake (ignore f) (x f) true (touch f) (cx f) (cy f) (fake_dx f) 0 in
      mk_fake (ignore f) (x f) (y f) (touch f) (cx f) (value ev) (fake_dx f) (fake_dy f)
    else f in
  mk_local (pending_rel l) f (sync l).

(** [while (pending_rel.wheel++)] and [while (pending_rel.wheel--)] with
    their bodies (input.c:1003-1020): [step] is 1 or -1, the result the
    counter the loop leaves; [fuel] bounds the turns. *)
Fixpoint wheel_loop (fuel : nat) (env : Env) (step : Z) (button : SpiceMouseButton)
    (w : Z) (g : t) : option (Z * t) :=
  match fuel with
  | O => None
  | S fuel =>
      if w =? 0 then Some (wrap32 (w + step), g)
      else
        let g := send env (purespice_mousePress button) g in
        let g := send env (purespice_mouseRelease button) g in
        wheel_loop fuel env step button (wrap32 (w + step)) g
  end.

(** input.c:996-1036, a report. *)
Definition syn_report (fuel : nat) (env : Env) (g : t) (l : Local) : option (t * Local) :=
  let r := pending_rel l in
  let g_r :=
    if ok r then
      let g := if negb (dx r =? 0) || negb (dy r =? 0)
               then send env (purespice_mouseMotion (dx r) (dy r)) g else g in
      let res :=
        if wheel r <? 0 then wheel_loop fuel env 1 SPICE_MOUSE_BUTTON_DOWN (wheel r) g
        else if 0 <? wheel r then wheel_loop fuel env (-1) SPICE_MOUSE_BUTTON_UP (wheel r) g
        else Some (wheel r, g) in
      match res with
      | Some (_, g) => Some (g, mk_rel false 0 0 0)
      | None => None
      end
    else Some (g, r) in
  match g_r with
  | None => None
  | Some (g, r) =>
      let f := pending_rel_fake l in
      let '(g, f) :=
        if negb (ignore f) then
          if touch f then
            let g := if negb (fake_dx f =? 0) || negb (fake_dy f =? 0)
                     then send env (purespice_mouseMotion (fake_dx f) (fake_dy f)) g
                     else g in
            (g, mk_fake (ignore f) (x f) (y f) (touch f) (cx f) (cy f) 0 0)
          else (g, f)
        else (g, f) in
      Some (g, mk_local r f (sync l))
  end.

(** One turn of [input_device_thread] (input.c:783) for the device in
    slot [idx]: [rc] and [ev] are what [libevdev_next_event] gives.  The
    result is [None] when the turn reads [grab_key], [linux_to_spice] or
    [linux_to_ps2] past the end, when [idx] or a grabbed slot is not a slot
    of [libevdev], or when a wheel loop is still running as [fuel] is used
    up.  A turn that goes to [end:] runs the end of the thread. *)
Definition input_device_turn (fuel : nat) (env : Env) (idx : Z) (rc : Z)
    (ev : input_event) (g : t) (l : Local) : option (t * Local * Next) :=
  if negb (slot idx && slot_or_none (grabbed_keyboard g) && slot_or_none (grabbed_mouse g))
  then None
  else if rc <? 0 then
    if rc =? - EAGAIN then
      if negb (sync l =? -1) then
        Some (emit (printf "input: synced %s in %d events") g,
              mk_local (pending_rel l) (pending_rel_fake l) (-1), Loop)
      else Some (g, l, Loop)
    else
      let g := if rc =? - ENODEV then emit (printf "input: lost device %s") g
               else emit (printf "input: failed to read event from input device %s") g in
      Some (input_device_end env idx g, l, End)
  else
    let '(g, l) :=
      if rc =? LIBEVDEV_READ_STATUS_SYNC then
        let g := if sync l =? -1
                 then emit (printf "input: device dropped events, syncing %s") g else g in
        (g, mk_local (pending_rel l) (pending_rel_fake l) (wrap32 (sync l + 1)))
      else (g, l) in
    match (if type ev =? EV_KEY then key_index (grab_key g) (code ev) else Some false) with
    | None => None
    | Some true => Some (grab_key_event env idx ev g, l, Loop)
    | Some false =>
        let g := grab_pointer env idx ev g in
        if negb (grabbed_keyboard g =? idx) && negb (grabbed_mouse g =? idx) then
          Some (g, l, Loop)
        else if temp_ungrabbed_mouse g && (grabbed_mouse g =? idx) then
          Some (g, l, Loop)
        else
          let '(g, l) := if type ev =? EV_KEY then key_event env ev g l else (g, l) in
          let l := if type ev =? EV_REL then rel_event ev l else l in
          let l := if type ev =? EV_ABS then abs_event ev l else l in
          if (type ev =? EV_SYN) && (code ev =? SYN_REPORT) then
            match syn_report fuel env g l with
            | Some (g, l) => Some (g, l, Loop)
            | None => None
            end
          else Some (g, l, Loop)
    end.

(** What [input_add_device] reads from its environment: whether the
    device has a name under [/dev/input/event], what
    [sd_device_get_devname], [open], [libevdev_new_from_fd] and
    [pthread_create] return, [errno] after [open], and what the device
    reports of itself. *)
Record AddEnv := mkAddEnv {
  get_devname_rc : Z;
  is_event_node : bool;
  open_rc : Z;
  open_errno : Z;
  new_from_fd_rc : Z;
  has_rel_x : bool;
  has_rel_y : bool;
  has_abs_x : bool;
  has_abs_y : bool;
  has_btn_touch : bool;
  has_key : bool;
  has_key_code : Z -> bool;
  pthread_create_rc : Z
}.

(** input.c:1089-1095, the first free slot from [i] on, -1 if there is
    none. *)
Fixpoint first_free (n : nat) (i : Z) (g : t) : Z :=
  match n with
  | O => -1
  | S n => if negb (libevdev g i) then i else first_free n (i + 1) g
  end.

(** input.c:1121-1126, whether the device has one of the grab keys. *)
Fixpoint has_grab_key (n : nat) (code : Z) (env : AddEnv) (g : t) : bool :=
  match n with
  | O => false
  | S n => (grab_key g code && has_key_code env code) || has_grab_key n (code + 1) env g
  end.

(** [input_add_device] (input.c:1076): the return value, the state, and
    the slot a thread was started for, if one was. *)
Definition input_add_device (env : AddEnv) (g : t) : Z * t * option Z :=
  if get_devname_rc env <? 0 then (get_devname_rc env, g, None)
  else if negb (is_event_node env) then (0, g, None)
  else
    let g := emit (printf "input: probing %s") g in
    let idx := first_free (Z.to_nat MAX_INPUT_DEVICES) 0 g in
    if idx =? -1 then (-1, g, None)
    else if open_rc env <? 0 then (wrap32 (- open_errno env), g, None)
    else if new_from_fd_rc env <? 0 then (new_from_fd_rc env, g, None)
    else
      let g := set_libevdev (store (libevdev g) idx true) g in
      let is_supported_kbd :=
        has_key env && has_grab_key (Z.to_nat KEY_MAX) 0 env g in
      let is_supported_pointer_rel := has_rel_x env && has_rel_y env in
      let is_supported_pointer_fake_rel :=
        negb is_supported_pointer_rel && has_abs_x env && has_abs_y env
        && has_btn_touch env in
      if negb is_supported_kbd && negb is_supported_pointer_rel
         && negb is_supported_pointer_fake_rel
      then
        let g := emit (printf "input: ignoring %s") g in
        let g := emit (close idx) g in
        let g := emit (libevdev_free idx) g in
        (0, set_libevdev (store (libevdev g) idx false) g, None)
      else
        let g := emit (printf "input: tracking %d %s (as keyboard=%s pointer=%s)") g in
        if negb (pthread_create_rc env =? 0) then (wrap32 (- pthread_create_rc env), g, None)
        else (0, g, Some idx).

(** [input_is_grabbed] (input.c:1220). *)
Definition input_is_grabbed (g : t) : bool := negb (grabbed_keyboard g =? -1).

(** What the threads and the device monitor can do to [input]: the grab
    keys are set once at the start ([input_init] copies them from its
    options), devices are added, and a thread takes a turn on a device
    that is in its slot. *)
Inductive step : t -> t -> Prop :=
| step_add (env : AddEnv) (g : t) :
    step g (snd (fst (input_add_device env g)))
| step_turn (fuel : nat) (env : Env) (idx rc : Z) (ev : input_event) (g g' : t)
    (l l' : Local) (n : Next) :
    libevdev g idx = true ->
    input_device_turn fuel env idx rc ev g l = Some (g', l', n) ->
    step g g'.

Inductive reachable : t -> Prop :=
| reachable_init (keys : option (Z -> bool)) :
    reachable (match keys with
               | Some k => set_grab_key k zero
               | None => zero
               end)
| reachable_step (g g' : t) : reachable g -> step g g' -> reachable g'.

(** The calls a turn added that go to the protocol client. *)
Definition is_sent (c : Call) : bool :=
  match c with
  | purespice_mousePress _ | purespice_mouseRelease _
  | purespice_keyDown _ | purespice_keyUp _ | purespice_mouseMotion _ _ => true
  | _ => false
  end.

End Input.



(* ================================================================== *)
(** ** Arithmetic facts *)
(* ================================================================== *)

Lemma wrap32_id (z : Z) : - 2 ^ 31 <= z < 2 ^ 31 -> wrap32 z = z.
Proof.
  intros Hz. unfold wrap32.
  rewrite Z.mod_small by lia. lia.
Qed.

Lemma wrap64_id (z : Z) : - 2 ^ 63 <= z < 2 ^ 63 -> wrap64 z = z.
Proof.
  intros Hz. unfold wrap64.
  rewrite Z.mod_small by lia. lia.
Qed.

Lemma c_max_spec (a b : Z) : c_max a b = Z.max a b.
Proof. unfold c_max. destruct (Z.ltb_spec b a); lia. Qed.

(** The clamp of [audio_playback_volume]: an [int] channel count ends up
    between 0 and 8; a negative one, compared as unsigned, is clamped to 8
    as well. *)
Lemma min_size_int_8 (channels : Z) :
  - 2 ^ 31 <= channels < 2 ^ 31 ->
  min_size_int 8 channels = if channels <? 0 then 8 else Z.min 8 channels.
Proof.
  intros Hc. unfold min_size_int.
  destruct (Z.ltb_spec channels 0) as [Hneg | Hpos].
  - assert (Hm : channels mod 2 ^ 64 = channels + 2 ^ 64).
    { symmetry. apply Z.mod_unique with (q := -1); lia. }
    rewrite Hm.
    destruct (Z.ltb_spec 8 (channels + 2 ^ 64)); [ | lia].
    apply wrap32_id; lia.
  - rewrite Z.mod_small by lia.
    destruct (Z.ltb_spec 8 channels); rewrite wrap32_id; lia.
Qed.

Lemma take_pad_length {A : Type} (n : nat) (z : A) (l : list A) :
  length (take_pad n z l) = n.
Proof.
  unfold take_pad. rewrite length_app, repeat_length, length_firstn. lia.
Qed.

Lemma take_pad_nth_silence {A : Type} (n i : nat) (z d : A) (l : list A) :
  (length l <= i < n)%nat -> nth i (take_pad n z l) d = z.
Proof.
  intros Hi. unfold take_pad.
  rewrite app_nth2; rewrite length_firstn; [ | lia].
  apply nth_repeat_lt. lia.
Qed.

Lemma take_pad_nth_data {A : Type} (n i : nat) (z d : A) (l : list A) :
  (i < n)%nat -> (i < length l)%nat -> nth i (take_pad n z l) d = nth i l d.
Proof.
  intros Hn Hl. unfold take_pad.
  rewrite app_nth1 by (rewrite length_firstn; lia).
  rewrite <- (firstn_skipn n l) at 2.
  rewrite app_nth1 by (rewrite length_firstn; lia). reflexivity.
Qed.

(* ================================================================== *)
(** ** Facts about the engine *)
(* ================================================================== *)

Section EngineFacts.

Context `{Resampler}.

Lemma StreamState_eqb_spec (a b : StreamState) :
  reflect (a = b) (StreamState_eqb a b).
Proof. destruct a, b; constructor; congruence. Qed.

Lemma StreamState_eqb_refl (a : StreamState) : StreamState_eqb a a = true.
Proof. destruct a; reflexivity. Qed.

(** [playback_stop] leaves the stream stopped with nothing allocated. *)
Lemma playback_stop_state (st : Playback.t) :
  Playback.state (playback_stop st) = STREAM_STATE_STOP.
Proof.
  unfold playback_stop.
  destruct (StreamState_eqb_spec (Playback.state st) STREAM_STATE_STOP) as [E | E];
    [exact E | ].
  destruct (SpiceData.framesIn _); reflexivity.
Qed.

Lemma playback_stop_deviceData (st : Playback.t) :
  Playback.deviceData (playback_stop st) = Playback.deviceData st.
Proof.
  unfold playback_stop.
  destruct (StreamState_eqb _ _); [reflexivity | ].
  destruct (SpiceData.framesIn _); reflexivity.
Qed.

Lemma playback_stop_frees (st : Playback.t) :
  Playback.state st <> STREAM_STATE_STOP ->
  let st' := playback_stop st in
  Playback.buffer st' = None /\ Playback.deviceTiming st' = None
  /\ SpiceData.src (Playback.spiceData st') = None
  /\ Playback.timings st' = false
  /\ Playback.trace st' = Playback.trace st ++ [Call_audiodev_playback_stop].
Proof.
  intros Hs. unfold playback_stop.
  destruct (StreamState_eqb_spec (Playback.state st) STREAM_STATE_STOP) as [E | E];
    [contradiction | ].
  cbn. destruct (SpiceData.framesIn _); cbn; repeat split; reflexivity.
Qed.

(* ------------------------------------------------------------------ *)
(** *** Volume *)

(** C10.  [audio_playback_volume] caches the values in every stream state
    and never stores more than 8 entries: the stored count is the caller's
    count clamped to 8 (a count above 8 stores exactly the caller's first 8
    values); when the stream is active the device is called once, with the
    clamped count, and when it is not active no call is made. *)
Theorem C10_volume_cached_and_clamped
    (st : Playback.t) (channels : Z) (volume : list Z) :
  - 2 ^ 31 <= channels < 2 ^ 31 ->
  length (Playback.volume st) = 8%nat ->
  let st' := audio_playback_volume st channels volume in
  let n := Playback.volumeChannels st' in
  (0 <= n <= 8)
  /\ (0 <= channels -> n = Z.min 8 channels)
  /\ (8 < channels -> n = 8 /\ Playback.volume st' = firstn 8 volume)
  /\ Playback.volume st'
     = firstn (Z.to_nat n) volume ++ skipn (Z.to_nat n) (Playback.volume st)
  /\ Playback.state st' = Playback.state st
  /\ (STREAM_ACTIVE (Playback.state st) = true ->
      Playback.trace st'
      = Playback.trace st ++ [Call_audiodev_playback_volume n volume])
  /\ (STREAM_ACTIVE (Playback.state st) = false ->
      Playback.trace st' = Playback.trace st).
Proof.
  intros Hc Hlen st' n.
  assert (Hn : n = min_size_int 8 channels).
  { subst n st'. unfold audio_playback_volume. cbn.
    destruct (STREAM_ACTIVE (Playback.state st)); reflexivity. }
  assert (Hv : Playback.volume st'
               = memcpy_u16 (Playback.volume st) volume (min_size_int 8 channels)).
  { subst st'. unfold audio_playback_volume. cbn.
    destruct (STREAM_ACTIVE (Playback.state st)); reflexivity. }
  rewrite min_size_int_8 in Hn, Hv by exact Hc.
  assert (Hrange : 0 <= n <= 8).
  { rewrite Hn. destruct (Z.ltb_spec channels 0); lia. }
  split; [exact Hrange | ].
  split; [intros Hpos; rewrite Hn; destruct (Z.ltb_spec channels 0); lia | ].
  split.
  { intros Hbig.
    assert (Hn8 : n = 8) by (rewrite Hn; destruct (Z.ltb_spec channels 0); lia).
    split; [exact Hn8 | ].
    rewrite Hv. destruct (Z.ltb_spec channels 0); [lia | ].
    replace (Z.min 8 channels) with 8 by lia.
    unfold memcpy_u16. change (Z.to_nat 8) with 8%nat.
    rewrite skipn_all2 by lia. apply app_nil_r. }
  split; [rewrite Hv, Hn; reflexivity | ].
  subst n st'. unfold audio_playback_volume. cbn.
  destruct (STREAM_ACTIVE (Playback.state st)) eqn:Ha; cbn;
    repeat split; intros; try reflexivity; discriminate.
Qed.

(* ------------------------------------------------------------------ *)
(** *** The consumer side *)

(** The pre-fill step only acts in [STREAM_STATE_SETUP_DEVICE]. *)
Lemma pull_prefill_other (rb : SampleRing.t) (st : Playback.t) :
  Playback.state st <> STREAM_STATE_SETUP_DEVICE -> pull_prefill rb st = (rb, st).
Proof.
  intros Hs. unfold pull_prefill.
  destruct (StreamState_eqb_spec (Playback.state st) STREAM_STATE_SETUP_DEVICE);
    [contradiction | reflexivity].
Qed.

(** What the pre-fill step never touches. *)
Lemma pull_prefill_frame (rb : SampleRing.t) (st : Playback.t) :
  let st1 := snd (pull_prefill rb st) in
  Playback.spiceData st1 = Playback.spiceData st
  /\ Playback.sampleRate st1 = Playback.sampleRate st
  /\ Playback.deviceTiming st1 = Playback.deviceTiming st
  /\ Playback.trace st1 = Playback.trace st
  /\ DeviceData.periodFrames (Playback.deviceData st1)
     = DeviceData.periodFrames (Playback.deviceData st)
  /\ DeviceData.periodSec (Playback.deviceData st1)
     = DeviceData.periodSec (Playback.deviceData st)
  /\ DeviceData.nextTime (Playback.deviceData st1)
     = DeviceData.nextTime (Playback.deviceData st)
  /\ DeviceData.b (Playback.deviceData st1) = DeviceData.b (Playback.deviceData st)
  /\ DeviceData.c (Playback.deviceData st1) = DeviceData.c (Playback.deviceData st).
Proof.
  unfold pull_prefill.
  destruct (StreamState_eqb _ _); cbn; [ | repeat split; reflexivity].
  destruct (_ <? 0); cbn; repeat split; reflexivity.
Qed.

Lemma pull_prefill_state (rb : SampleRing.t) (st : Playback.t) :
  Playback.state (snd (pull_prefill rb st))
  = if StreamState_eqb (Playback.state st) STREAM_STATE_SETUP_DEVICE
    then STREAM_STATE_RUN else Playback.state st.
Proof.
  unfold pull_prefill.
  destruct (StreamState_eqb _ _); cbn; [ | reflexivity].
  destruct (_ <? 0); reflexivity.
Qed.

(** [pull_body] unfolded into its steps. *)
Lemma pull_body_eq (rb : SampleRing.t) (st : Playback.t) (now frames : Z) :
  let rb1 := fst (pull_prefill rb st) in
  let st1 := snd (pull_prefill rb st) in
  let ck := pull_clock (Playback.sampleRate st1) now frames rb1 (Playback.deviceData st1) in
  let data := snd ck in
  let tick := DeviceTick.mk (DeviceData.periodFrames data) (DeviceData.nextTime data)
                (DeviceData.nextPosition data) in
  pull_body rb st now frames
  = (Playback.set_buffer (Some (fst (SampleRing.ringbuffer_consume (fst ck) true frames)))
       (Playback.set_deviceTiming
          (option_map (fun q => TimingRing.ringbuffer_push q tick)
                      (Playback.deviceTiming st1))
          (Playback.set_deviceData data st1)),
     snd (SampleRing.ringbuffer_consume (fst ck) true frames)).
Proof.
  unfold pull_body.
  destruct (pull_prefill rb st) as [rb1 st1]. cbn [fst snd].
  destruct (pull_clock _ _ _ _ _) as [rb2 data]. cbn [fst snd].
  destruct (SampleRing.ringbuffer_consume rb2 true frames) as [rb3 dst].
  reflexivity.
Qed.

(** [audio_pull] on an allocated ring. *)
Lemma audio_pull_alloc (st : Playback.t) (rb : SampleRing.t) (now frames : Z) :
  Playback.buffer st = Some rb -> frames <> 0 ->
  audio_pull st now frames
  = (frames, snd (pull_body rb st now frames),
     pull_keep_alive (fst (pull_body rb st now frames))).
Proof.
  intros Hb Hf. unfold audio_pull.
  destruct (Z.eqb_spec frames 0) as [E | _]; [contradiction | ].
  rewrite Hb. destruct (pull_body rb st now frames). reflexivity.
Qed.

Lemma pull_keep_alive_deviceData (st : Playback.t) :
  Playback.deviceData (pull_keep_alive st) = Playback.deviceData st.
Proof.
  unfold pull_keep_alive.
  destruct (StreamState_eqb _ _); [ | reflexivity].
  destruct (Playback.buffer st); [ | reflexivity].
  destruct (_ <=? _); [apply playback_stop_deviceData | reflexivity].
Qed.

(** The device tracker as [audio_pull] leaves it. *)
Lemma audio_pull_deviceData (st : Playback.t) (rb : SampleRing.t) (now frames : Z) :
  Playback.buffer st = Some rb -> frames <> 0 ->
  Playback.deviceData (snd (audio_pull st now frames))
  = snd (pull_clock (Playback.sampleRate st) now frames
           (fst (pull_prefill rb st))
           (Playback.deviceData (snd (pull_prefill rb st)))).
Proof.
  intros Hb Hf. rewrite (audio_pull_alloc st rb) by assumption. cbn [snd].
  rewrite pull_keep_alive_deviceData, pull_body_eq. cbn.
  destruct (pull_prefill_frame rb st) as (_ & -> & _). reflexivity.
Qed.

(** C2.  In [audio_pull], when the requested frame count differs from the
    stored [periodFrames] and the stored value is not zero, the device
    tracker advances [nextTime] by the old [periodSec], then takes the new
    frame count as [periodFrames], recomputes [periodSec], [b] and [c] from
    it, and advances [nextPosition] (as the pre-fill step left it: unchanged
    outside [STREAM_STATE_SETUP_DEVICE]) by the new frame count. *)
Theorem C2_period_change_keeps_old_interval
    (st : Playback.t) (rb : SampleRing.t) (now frames : Z) :
  Playback.buffer st = Some rb ->
  frames <> 0 ->
  frames <> DeviceData.periodFrames (Playback.deviceData st) ->
  DeviceData.periodFrames (Playback.deviceData st) <> 0 ->
  let old := Playback.deviceData st in
  let new := Playback.deviceData (snd (audio_pull st now frames)) in
  let newPeriodSec := (double_of_Z frames / double_of_Z (Playback.sampleRate st))%float in
  let omega := (2.0 * M_PI * 0.05 * newPeriodSec)%float in
  DeviceData.nextTime new
  = wrap64 (DeviceData.nextTime old + llrint (DeviceData.periodSec old * 1.0e9)%float)
  /\ DeviceData.periodFrames new = frames
  /\ DeviceData.periodSec new = newPeriodSec
  /\ DeviceData.b new = (M_SQRT2 * omega)%float
  /\ DeviceData.c new = (omega * omega)%float
  /\ DeviceData.nextPosition new
     = wrap64 (DeviceData.nextPosition
                 (Playback.deviceData (snd (pull_prefill rb st))) + frames)
  /\ (Playback.state st <> STREAM_STATE_SETUP_DEVICE ->
      DeviceData.nextPosition new = wrap64 (DeviceData.nextPosition old + frames)).
Proof.
  intros Hb Hf Hchg Hinit old new newPeriodSec omega.
  assert (Hnew : new
    = snd (pull_clock (Playback.sampleRate st) now frames (fst (pull_prefill rb st))
             (Playback.deviceData (snd (pull_prefill rb st)))))
    by (apply audio_pull_deviceData; assumption).
  destruct (pull_prefill_frame rb st) as (_ & _ & _ & _ & Hpf & Hps & Hnt & _).
  unfold pull_clock in Hnew. rewrite Hpf in Hnew.
  destruct (Z.eqb_spec frames (DeviceData.periodFrames (Playback.deviceData st)))
    as [E | _]; [contradiction | ].
  destruct (Z.eqb_spec (DeviceData.periodFrames (Playback.deviceData st)) 0)
    as [E | _]; [contradiction | ].
  cbn in Hnew. rewrite Hps, Hnt in Hnew. rewrite Hnew. cbn.
  repeat split; try reflexivity.
  intros Hs. rewrite pull_prefill_other by exact Hs. reflexivity.
Qed.

(** The ring operations on the count and the channel layout. *)
Lemma ringbuffer_consume_count (rb : SampleRing.t) (dst : bool) (n : Z) :
  SampleRing.count (fst (SampleRing.ringbuffer_consume rb dst n)) = SampleRing.count rb - n.
Proof.
  unfold SampleRing.ringbuffer_consume.
  destruct (Z.eqb_spec n 0) as [-> | _]; [cbn; lia | ].
  destruct (n <? 0); reflexivity.
Qed.

Lemma ringbuffer_append_count (rb : SampleRing.t) (values : option (list frame)) (n : Z) :
  SampleRing.count (SampleRing.ringbuffer_append rb values n) = SampleRing.count rb + n.
Proof.
  unfold SampleRing.ringbuffer_append.
  destruct (Z.eqb_spec n 0) as [-> | _]; [cbn; lia | ].
  destruct (n <? 0); reflexivity.
Qed.

Lemma ringbuffer_consume_silence (rb : SampleRing.t) (dst : bool) (n : Z) :
  SampleRing.silence (fst (SampleRing.ringbuffer_consume rb dst n)) = SampleRing.silence rb.
Proof.
  unfold SampleRing.ringbuffer_consume.
  destruct (n =? 0); [reflexivity | ]. destruct (n <? 0); reflexivity.
Qed.

Lemma ringbuffer_consume_dst (rb : SampleRing.t) (n : Z) :
  0 <= n ->
  snd (SampleRing.ringbuffer_consume rb true n)
  = take_pad (Z.to_nat n) (SampleRing.silence rb) (SampleRing.frames rb).
Proof.
  intros Hn. unfold SampleRing.ringbuffer_consume.
  destruct (Z.eqb_spec n 0) as [-> | Hz]; [reflexivity | ].
  destruct (Z.ltb_spec n 0); [lia | reflexivity].
Qed.

(** The ring keeps [length frames = max count 0] under both operations. *)
Lemma ringbuffer_consume_wf (rb : SampleRing.t) (dst : bool) (n : Z) :
  SampleRing.wf rb -> SampleRing.wf (fst (SampleRing.ringbuffer_consume rb dst n)).
Proof.
  unfold SampleRing.wf, SampleRing.ringbuffer_consume. intros Hwf.
  destruct (Z.eqb_spec n 0) as [-> | Hz]; [exact Hwf | ].
  destruct (Z.ltb_spec n 0); cbn.
  - rewrite length_app, repeat_length. lia.
  - rewrite length_skipn. lia.
Qed.

Lemma ringbuffer_append_wf (rb : SampleRing.t) (values : option (list frame)) (n : Z) :
  SampleRing.wf rb -> SampleRing.wf (SampleRing.ringbuffer_append rb values n).
Proof.
  unfold SampleRing.wf, SampleRing.ringbuffer_append. intros Hwf.
  destruct (Z.eqb_spec n 0) as [-> | Hz]; [exact Hwf | ].
  destruct (Z.ltb_spec n 0); cbn.
  - rewrite length_firstn. lia.
  - rewrite length_app, length_skipn.
    assert (Hd : length (match values with
                         | Some fs => take_pad (Z.to_nat n) (SampleRing.silence rb) fs
                         | None => repeat (SampleRing.silence rb) (Z.to_nat n)
                         end) = Z.to_nat n).
    { destruct values; [apply take_pad_length | apply repeat_length]. }
    rewrite Hd. lia.
Qed.

Lemma pull_body_dst (rb : SampleRing.t) (st : Playback.t) (now frames : Z) :
  0 <= frames ->
  snd (pull_body rb st now frames)
  = take_pad (Z.to_nat frames) (SampleRing.silence (ring_before_read rb st now frames))
      (SampleRing.frames (ring_before_read rb st now frames)).
Proof.
  intros Hf. rewrite pull_body_eq. cbn [snd].
  destruct (pull_prefill_frame rb st) as (_ & -> & _).
  apply ringbuffer_consume_dst. exact Hf.
Qed.

Lemma pull_body_buffer (rb : SampleRing.t) (st : Playback.t) (now frames : Z) :
  Playback.buffer (fst (pull_body rb st now frames))
  = Some (fst (SampleRing.ringbuffer_consume (ring_before_read rb st now frames) true frames)).
Proof.
  rewrite pull_body_eq. cbn.
  destruct (pull_prefill_frame rb st) as (_ & -> & _). reflexivity.
Qed.

Lemma pull_body_state (rb : SampleRing.t) (st : Playback.t) (now frames : Z) :
  Playback.state (fst (pull_body rb st now frames))
  = Playback.state (snd (pull_prefill rb st)).
Proof. rewrite pull_body_eq. reflexivity. Qed.

Lemma pull_body_spiceData (rb : SampleRing.t) (st : Playback.t) (now frames : Z) :
  Playback.spiceData (fst (pull_body rb st now frames)) = Playback.spiceData st.
Proof.
  rewrite pull_body_eq. cbn.
  destruct (pull_prefill_frame rb st) as (-> & _). reflexivity.
Qed.

Lemma pull_body_sampleRate (rb : SampleRing.t) (st : Playback.t) (now frames : Z) :
  Playback.sampleRate (fst (pull_body rb st now frames)) = Playback.sampleRate st.
Proof.
  rewrite pull_body_eq. cbn.
  destruct (pull_prefill_frame rb st) as (_ & -> & _). reflexivity.
Qed.

Lemma pull_keep_alive_other (st : Playback.t) :
  Playback.state st <> STREAM_STATE_KEEP_ALIVE -> pull_keep_alive st = st.
Proof.
  intros Hs. unfold pull_keep_alive.
  destruct (StreamState_eqb_spec (Playback.state st) STREAM_STATE_KEEP_ALIVE);
    [contradiction | reflexivity].
Qed.

(** C5 (amended).  In [STREAM_STATE_SETUP_DEVICE] the first consumer pull of
    a non-zero frame count moves the stream to RUN whatever the ring holds.
    When the ring count is below [targetStartFrames] the (negative)
    difference is added to the device tracker's [nextPosition] and taken
    from the ring by a backward seek, which raises the count by as much and
    puts silence in front of the frames held; the producer's tracker is not
    touched.  The ring is then read as in any other pull: the requested
    frame count is returned and written. *)
Theorem C5_prefill_on_first_pull
    (st : Playback.t) (rb : SampleRing.t) (now frames : Z) :
  Playback.state st = STREAM_STATE_SETUP_DEVICE ->
  Playback.buffer st = Some rb ->
  0 < frames ->
  let offset := wrap32 (SampleRing.ringbuffer_getCount rb - Playback.targetStartFrames st) in
  let res := audio_pull st now frames in
  let rb1 := fst (pull_prefill rb st) in
  let st1 := snd (pull_prefill rb st) in
  Playback.state (snd res) = STREAM_STATE_RUN
  /\ Playback.spiceData (snd res) = Playback.spiceData st
  /\ (offset < 0 ->
      DeviceData.nextPosition (Playback.deviceData st1)
      = wrap64 (DeviceData.nextPosition (Playback.deviceData st) + offset)
      /\ SampleRing.ringbuffer_getCount rb1 = SampleRing.ringbuffer_getCount rb - offset
      /\ SampleRing.frames rb1
         = repeat (SampleRing.silence rb)
             (Z.to_nat (SampleRing.count rb - offset) - length (SampleRing.frames rb))
           ++ SampleRing.frames rb)
  /\ (0 <= offset -> rb1 = rb /\ Playback.deviceData st1 = Playback.deviceData st)
  /\ Playback.deviceData (snd res)
     = snd (pull_clock (Playback.sampleRate st) now frames rb1 (Playback.deviceData st1))
  /\ fst (fst res) = frames
  /\ snd (fst res)
     = take_pad (Z.to_nat frames) (SampleRing.silence rb)
         (SampleRing.frames
            (fst (pull_clock (Playback.sampleRate st) now frames rb1
                    (Playback.deviceData st1)))).
Proof.
  intros Hs Hb Hf offset res rb1 st1.
  assert (Hres : res = (frames, snd (pull_body rb st now frames),
                        pull_keep_alive (fst (pull_body rb st now frames))))
    by (apply audio_pull_alloc; [exact Hb | lia]).
  assert (Hrun : Playback.state (fst (pull_body rb st now frames)) = STREAM_STATE_RUN).
  { rewrite pull_body_state, pull_prefill_state, Hs. reflexivity. }
  assert (Hka : pull_keep_alive (fst (pull_body rb st now frames))
                = fst (pull_body rb st now frames)).
  { apply pull_keep_alive_other. rewrite Hrun. discriminate. }
  rewrite Hka in Hres.
  assert (Hpre : pull_prefill rb st = (rb1, st1)) by (subst rb1 st1; apply surjective_pairing).
  unfold pull_prefill in Hpre. rewrite Hs in Hpre. cbn [StreamState_eqb] in Hpre.
  fold offset in Hpre.
  assert (Hsil : SampleRing.silence rb1 = SampleRing.silence rb).
  { destruct (offset <? 0); injection Hpre as Hrb _; rewrite <- Hrb;
      [apply ringbuffer_consume_silence | reflexivity]. }
  assert (Hsil2 : SampleRing.silence (ring_before_read rb st now frames)
                  = SampleRing.silence rb).
  { unfold ring_before_read. fold rb1 st1. rewrite <- Hsil. unfold pull_clock.
    destruct (negb _); [reflexivity | ].
    destruct (fabs_ge _ _); [apply ringbuffer_consume_silence | reflexivity]. }
  rewrite Hres. cbn [fst snd].
  split; [exact Hrun | ].
  split; [apply pull_body_spiceData | ].
  split.
  { intros Hneg. destruct (Z.ltb_spec offset 0) as [_ | Hge]; [ | lia].
    injection Hpre as Hrb Hst. rewrite <- Hrb, <- Hst. cbn.
    unfold SampleRing.ringbuffer_getCount. rewrite ringbuffer_consume_count.
    repeat split; try reflexivity.
    unfold SampleRing.ringbuffer_consume.
    destruct (Z.eqb_spec offset 0); [lia | ].
    destruct (Z.ltb_spec offset 0); [reflexivity | lia]. }
  split.
  { intros Hpos. destruct (Z.ltb_spec offset 0) as [Hlt | _]; [lia | ].
    injection Hpre as Hrb Hst. rewrite <- Hrb, <- Hst. split; reflexivity. }
  split.
  { rewrite pull_body_eq. cbn. fold st1 rb1.
    destruct (pull_prefill_frame rb st) as (_ & Hsr & _). fold st1 in Hsr.
    rewrite Hsr. reflexivity. }
  split; [reflexivity | ].
  rewrite pull_body_dst by lia. rewrite Hsil2. reflexivity.
Qed.

Lemma ring_before_read_silence (rb : SampleRing.t) (st : Playback.t) (now frames : Z) :
  SampleRing.silence (ring_before_read rb st now frames) = SampleRing.silence rb.
Proof.
  unfold ring_before_read.
  assert (Hpre : SampleRing.silence (fst (pull_prefill rb st)) = SampleRing.silence rb).
  { unfold pull_prefill. destruct (StreamState_eqb _ _); [ | reflexivity].
    destruct (_ <? 0); [apply ringbuffer_consume_silence | reflexivity]. }
  rewrite <- Hpre. unfold pull_clock.
  destruct (negb _); [reflexivity | ].
  destruct (fabs_ge _ _); [apply ringbuffer_consume_silence | reflexivity].
Qed.

(** C6 (amended).  [audio_pull] returns the requested frame count, and
    writes exactly that many frames, whenever the sample ring is allocated,
    that is in every stream state but STOP (the two set-up states included);
    what it writes is the ring's frames followed by silence when the ring
    holds fewer.  In STOP it returns 0 and writes nothing. *)
Theorem C6_pull_returns_frames_unless_stopped
    (st : Playback.t) (now frames : Z) :
  0 <= frames ->
  alloc_inv st ->
  let res := audio_pull st now frames in
  fst (fst res)
  = (if StreamState_eqb (Playback.state st) STREAM_STATE_STOP then 0 else frames)
  /\ length (snd (fst res)) = Z.to_nat (fst (fst res))
  /\ (forall rb, Playback.buffer st = Some rb ->
      snd (fst res)
      = take_pad (Z.to_nat frames) (SampleRing.silence rb)
          (SampleRing.frames (ring_before_read rb st now frames))).
Proof.
  intros Hf Hinv res. subst res. unfold alloc_inv in Hinv.
  destruct (Z.eq_dec frames 0) as [-> | Hnz].
  { unfold audio_pull. cbn.
    split; [destruct (StreamState_eqb _ _); reflexivity | ].
    split; [reflexivity | intros; reflexivity]. }
  destruct (StreamState_eqb (Playback.state st) STREAM_STATE_STOP).
  - destruct Hinv as (Hb & _). unfold audio_pull.
    destruct (Z.eqb_spec frames 0); [contradiction | ].
    rewrite Hb. cbn. repeat split. intros rb Hrb. discriminate.
  - destruct Hinv as (Hb & _).
    destruct (Playback.buffer st) as [rb | ] eqn:Hrb; [ | contradiction].
    rewrite (audio_pull_alloc st rb) by assumption. cbn [fst snd].
    rewrite pull_body_dst by exact Hf. rewrite ring_before_read_silence.
    split; [reflexivity | ].
    split; [apply take_pad_length | ].
    intros rb' Hrb'. injection Hrb' as <-. reflexivity.
Qed.

(* ------------------------------------------------------------------ *)
(** *** Keep-alive expiry *)

Lemma stop_threshold (sampleRate : Z) :
  0 < sampleRate <= 71582788 ->
  wrap32 (- wrap32 (30 * sampleRate)) = - (30 * sampleRate).
Proof.
  intros Hsr. rewrite (wrap32_id (30 * sampleRate)) by lia.
  apply wrap32_id. lia.
Qed.

(** One pull in KEEP_ALIVE: the stream stops exactly when the pull leaves
    the count at or below the threshold. *)
Lemma keep_alive_pull (st : Playback.t) (rb : SampleRing.t) (p : Z * Z) :
  Playback.state st = STREAM_STATE_KEEP_ALIVE ->
  Playback.buffer st = Some rb ->
  snd p <> 0 ->
  0 < Playback.sampleRate st <= 71582788 ->
  let st' := snd (audio_pull st (fst p) (snd p)) in
  Playback.sampleRate st' = Playback.sampleRate st
  /\ (count_after_pull st p <= - (30 * Playback.sampleRate st) ->
      Playback.state st' = STREAM_STATE_STOP /\ Playback.buffer st' = None)
  /\ (- (30 * Playback.sampleRate st) < count_after_pull st p ->
      Playback.state st' = STREAM_STATE_KEEP_ALIVE /\ Playback.buffer st' <> None).
Proof.
  intros Hs Hb Hf Hsr st'. subst st'.
  rewrite (audio_pull_alloc st rb) by assumption. cbn [snd].
  unfold count_after_pull. rewrite Hb.
  set (st1 := fst (pull_body rb st (fst p) (snd p))).
  assert (Hs1 : Playback.state st1 = STREAM_STATE_KEEP_ALIVE).
  { subst st1. rewrite pull_body_state, pull_prefill_state, Hs. reflexivity. }
  assert (Hsr1 : Playback.sampleRate st1 = Playback.sampleRate st)
    by apply pull_body_sampleRate.
  assert (Hb1 : exists rb1, Playback.buffer st1 = Some rb1)
    by (eexists; apply pull_body_buffer).
  destruct Hb1 as (rb1 & Hb1). rewrite Hb1.
  unfold pull_keep_alive. rewrite Hs1, Hb1, Hsr1. cbn [StreamState_eqb].
  rewrite stop_threshold by exact Hsr.
  destruct (Z.leb_spec (SampleRing.ringbuffer_getCount rb1) (- (30 * Playback.sampleRate st)))
    as [Hle | Hgt].
  - split.
    { unfold playback_stop. rewrite Hs1. cbn.
      destruct (SpiceData.framesIn _); exact Hsr1. }
    split; [ | lia]. intros _.
    split; [apply playback_stop_state | ].
    apply playback_stop_frees. rewrite Hs1. discriminate.
  - split; [exact Hsr1 | ].
    split; [lia | ]. intros _.
    split; [exact Hs1 | rewrite Hb1; discriminate].
Qed.

(** C7.  With only consumer pulls (of a non-zero frame count) in KEEP_ALIVE:
    as long as every pull has left the ring count above [-30 * sampleRate]
    the stream is still in KEEP_ALIVE, and the next pull stops it exactly
    when it leaves the count at or below [-30 * sampleRate]. *)
Theorem C7_keep_alive_expiry
    (st : Playback.t) (l : list (Z * Z)) (p : Z * Z) :
  Playback.state st = STREAM_STATE_KEEP_ALIVE ->
  Playback.buffer st <> None ->
  0 < Playback.sampleRate st <= 71582788 ->
  Forall (fun q => snd q <> 0) (l ++ [p]) ->
  stays_above (- (30 * Playback.sampleRate st)) st l ->
  Playback.state (run_pulls st l) = STREAM_STATE_KEEP_ALIVE
  /\ (Playback.state (run_pulls st (l ++ [p])) = STREAM_STATE_STOP
      <-> count_after_pull (run_pulls st l) p <= - (30 * Playback.sampleRate st)).
Proof.
  revert st. induction l as [ | q l IH]; intros st Hs Hb Hsr Hfr Habove.
  - cbn. split; [exact Hs | ].
    destruct (Playback.buffer st) as [rb | ] eqn:Hrb; [ | contradiction].
    apply Forall_inv in Hfr.
    destruct (keep_alive_pull st rb p Hs Hrb Hfr Hsr) as (_ & Hstop & Hkeep).
    split.
    + intros Hst.
      destruct (Z.le_gt_cases (count_after_pull st p) (- (30 * Playback.sampleRate st)))
        as [Hle | Hgt]; [exact Hle | ].
      destruct (Hkeep Hgt) as (Hk & _). rewrite Hk in Hst. discriminate.
    + intros Hle. apply Hstop. exact Hle.
  - cbn [app run_pulls]. destruct Habove as (Hq & Habove).
    destruct (Playback.buffer st) as [rb | ] eqn:Hrb; [ | contradiction].
    pose proof (Forall_inv Hfr) as Hq0. apply Forall_inv_tail in Hfr.
    destruct (keep_alive_pull st rb q Hs Hrb Hq0 Hsr) as (Hsr' & _ & Hkeep).
    destruct (Hkeep Hq) as (Hs' & Hb').
    rewrite <- Hsr' in *.
    apply IH; try assumption.
Qed.

(** What [playback_stop] leaves of the latency controller. *)
Lemma playback_stop_controller (st : Playback.t) :
  let sd := Playback.spiceData st in
  let sd' := Playback.spiceData (playback_stop st) in
  SpiceData.offsetError sd' = SpiceData.offsetError sd
  /\ SpiceData.offsetErrorIntegral sd' = SpiceData.offsetErrorIntegral sd
  /\ SpiceData.ratioIntegral sd' = SpiceData.ratioIntegral sd.
Proof.
  unfold playback_stop.
  destruct (StreamState_eqb _ _); [repeat split; reflexivity | ].
  cbn. destruct (SpiceData.framesIn _); cbn; repeat split; reflexivity.
Qed.

(** A consumer pull never writes the latency controller: it lives in the
    producer's half of the state. *)
Lemma audio_pull_controller (st : Playback.t) (now frames : Z) :
  let sd := Playback.spiceData st in
  let sd' := Playback.spiceData (snd (audio_pull st now frames)) in
  SpiceData.offsetError sd' = SpiceData.offsetError sd
  /\ SpiceData.offsetErrorIntegral sd' = SpiceData.offsetErrorIntegral sd
  /\ SpiceData.ratioIntegral sd' = SpiceData.ratioIntegral sd.
Proof.
  assert (Hka : forall s,
    let sd := Playback.spiceData s in
    let sd' := Playback.spiceData (pull_keep_alive s) in
    SpiceData.offsetError sd' = SpiceData.offsetError sd
    /\ SpiceData.offsetErrorIntegral sd' = SpiceData.offsetErrorIntegral sd
    /\ SpiceData.ratioIntegral sd' = SpiceData.ratioIntegral sd).
  { intros s. unfold pull_keep_alive.
    destruct (StreamState_eqb _ _); [ | repeat split; reflexivity].
    destruct (Playback.buffer s); [ | repeat split; reflexivity].
    destruct (_ <=? _); [apply playback_stop_controller | repeat split; reflexivity]. }
  unfold audio_pull.
  destruct (frames =? 0); [repeat split; reflexivity | ].
  destruct (Playback.buffer st) as [rb | ].
  - pose proof (pull_body_spiceData rb st now frames) as Hsd.
    destruct (pull_body rb st now frames) as [st1 dst]. cbn [fst snd] in *.
    rewrite <- Hsd. apply Hka.
  - cbn [snd]. apply Hka.
Qed.

(** The count a pull leaves behind outside the pre-fill state: the frames
    read are taken off, and on a desync the slewed frames as well. *)
Lemma count_after_pull_steady (st : Playback.t) (rb : SampleRing.t) (now frames : Z) :
  Playback.buffer st = Some rb ->
  Playback.state st <> STREAM_STATE_SETUP_DEVICE ->
  let data := Playback.deviceData st in
  let error := clock_error now (DeviceData.nextTime data) in
  count_after_pull st (now, frames)
  = SampleRing.count rb
    - (if (frames =? DeviceData.periodFrames data) && fabs_ge error 0.2
       then round_int (error * double_of_Z (Playback.sampleRate st))%float else 0)
    - frames.
Proof.
  intros Hb Hs data error. unfold count_after_pull. rewrite Hb. cbn [fst snd].
  rewrite pull_body_buffer. unfold SampleRing.ringbuffer_getCount.
  rewrite ringbuffer_consume_count. unfold ring_before_read.
  rewrite pull_prefill_other by exact Hs. cbn [fst snd]. unfold pull_clock.
  fold data. fold error.
  destruct (frames =? DeviceData.periodFrames data); cbn [negb andb fst]; [ | lia].
  destruct (fabs_ge error 0.2); cbn [fst]; [ | lia].
  rewrite ringbuffer_consume_count. reflexivity.
Qed.

(* ------------------------------------------------------------------ *)
(** *** The producer side *)

Lemma drain_fold_frame (ticks : list DeviceTick.t) (sd : SpiceData.t) :
  same_tracker (fold_left drain_tick ticks sd) sd
  /\ same_handles (fold_left drain_tick ticks sd) sd.
Proof.
  revert sd. induction ticks as [ | tick ticks IH]; intros sd.
  - cbn. unfold same_tracker, same_handles. repeat split; reflexivity.
  - cbn [fold_left]. destruct (IH (drain_tick sd tick)) as (Ht & Hh).
    unfold same_tracker, same_handles in *. cbn in Ht, Hh.
    split; [exact Ht | exact Hh].
Qed.

Lemma last_cons_default {A : Type} (l : list A) (x d d' : A) :
  last (x :: l) d = last (x :: l) d'.
Proof.
  revert x. induction l as [ | y l IH]; intros x; [reflexivity | ].
  change (last (y :: l) d = last (y :: l) d'). apply IH.
Qed.

(** After the drain the observed device period is that of the newest tick,
    or the stored one when the ring was empty. *)
Lemma drain_fold_devPeriodFrames (ticks : list DeviceTick.t) (sd : SpiceData.t) :
  SpiceData.devPeriodFrames (fold_left drain_tick ticks sd)
  = last (map DeviceTick.periodFrames ticks) (SpiceData.devPeriodFrames sd).
Proof.
  revert sd. induction ticks as [ | tick ticks IH]; intros sd; [reflexivity | ].
  cbn [fold_left map]. rewrite IH. cbn [drain_tick SpiceData.devPeriodFrames
    SpiceData.set_devNextPosition SpiceData.set_devNextTime
    SpiceData.set_devLastPosition SpiceData.set_devLastTime
    SpiceData.set_devPeriodFrames].
  destruct ticks as [ | tick' ticks]; [reflexivity | ].
  cbn [map].
  rewrite (last_cons_default _ _ _ (SpiceData.devPeriodFrames sd)). reflexivity.
Qed.

Lemma pre_clock_frame (data : list (list Z)) (frames : Z) (st : Playback.t) :
  let st0 := pre_clock data frames st in
  Playback.state st0 = Playback.state st
  /\ Playback.buffer st0 = Playback.buffer st
  /\ Playback.trace st0 = Playback.trace st
  /\ (Playback.deviceTiming st <> None -> Playback.deviceTiming st0 <> None)
  /\ (Playback.deviceTiming st = None -> Playback.deviceTiming st0 = None)
  /\ same_stream st0 st
  /\ same_tracker (Playback.spiceData st0) (Playback.spiceData st)
  /\ SpiceData.src (Playback.spiceData st0) = SpiceData.src (Playback.spiceData st)
  /\ SpiceData.framesOutSize (Playback.spiceData st0)
     = SpiceData.framesOutSize (Playback.spiceData st)
  /\ SpiceData.devPeriodFrames (Playback.spiceData st0) = observed_period st.
Proof.
  unfold pre_clock, drain_device_ticks, convert_input, observed_period,
    same_stream, upd_spice.
  cbn [Playback.deviceTiming Playback.set_spiceData].
  destruct (Playback.deviceTiming st) as [ticks | ] eqn:Hdt.
  - cbn. 
    match goal with
    | |- context [fold_left drain_tick ticks ?x] =>
        destruct (drain_fold_frame ticks x) as (Ht & Hh);
        pose proof (drain_fold_devPeriodFrames ticks x) as Hp
    end.
    unfold same_tracker, same_handles in *.
    destruct (SpiceData.framesIn (Playback.spiceData st)); cbn in Ht, Hh, Hp |- *;
      (repeat split; try reflexivity; try discriminate; try tauto).
  - cbn. unfold same_tracker.
    destruct (SpiceData.framesIn (Playback.spiceData st)); cbn;
      (repeat split; try reflexivity; try discriminate; try tauto).
Qed.


(** The loop hands the one ratio it was given to every [src_process] call,
    and calls it at least once when there is input. *)
Lemma resample_trace (fuel : nat) (ratio : float) (frames : Z) :
  forall (consumed : Z) (st : Playback.t) (r : LoopResult),
  resample fuel ratio frames consumed st = Some r ->
  exists new,
    Playback.trace (loop_state r) = Playback.trace st ++ new
    /\ Forall (eq ratio) (src_ratios new)
    /\ (consumed < frames -> src_ratios new <> []).
Proof.
  induction fuel as [ | fuel IH]; intros consumed st r Hr.
  - cbn in Hr. destruct (Z.ltb_spec consumed frames); [discriminate | ].
    injection Hr as <-. exists []. cbn. rewrite app_nil_r.
    repeat split; [constructor | lia].
  - cbn [resample] in Hr.
    destruct (Z.ltb_spec consumed frames) as [Hlt | Hge].
    2:{ injection Hr as <-. exists []. cbn. rewrite app_nil_r.
        repeat split; [constructor | lia]. }
    destruct (SpiceData.src (Playback.spiceData st)) as [s | ].
    2:{ injection Hr as <-. eexists. cbn. rewrite <- app_assoc.
        split; [reflexivity | ]. cbn.
        split; [repeat constructor | discriminate]. }
    destruct (negb _).
    { injection Hr as <-. eexists. cbn. rewrite <- app_assoc.
      split; [reflexivity | ]. cbn.
      split; [repeat constructor | discriminate]. }
    apply IH in Hr. destruct Hr as (new & Htr & Hall & _).
    eexists. split.
    { rewrite Htr. unfold upd_buffer, upd_spice, emit. cbn.
      destruct (Playback.buffer st); cbn; rewrite <- app_assoc; reflexivity. }
    cbn. split; [constructor; [reflexivity | exact Hall] | discriminate].
Qed.

(** With such a resampler, and an output buffer that is not empty, the loop
    ends within [frames - consumed] iterations. *)
Lemma resample_terminates (ratio : float) (frames : Z) :
  makes_progress ->
  frames < 2 ^ 31 ->
  forall (fuel : nat) (consumed : Z) (st : Playback.t),
  0 < SpiceData.framesOutSize (Playback.spiceData st) ->
  0 <= consumed ->
  frames - consumed <= Z.of_nat fuel ->
  resample fuel ratio frames consumed st <> None.
Proof.
  intros Hprog Hfr. induction fuel as [ | fuel IH]; intros consumed st Hout Hc Hfuel.
  - cbn. destruct (Z.ltb_spec consumed frames); [lia | discriminate].
  - cbn [resample].
    destruct (Z.ltb_spec consumed frames) as [Hlt | Hge]; [ | discriminate].
    destruct (SpiceData.src (Playback.spiceData st)) as [s | ]; [ | discriminate].
    match goal with
    | |- context [src_response s ?d] => set (srcData := d)
    end.
    destruct (Z.eqb_spec (src_error (src_response s srcData)) 0) as [He | Hne];
      [ | discriminate].
    cbn [negb].
    assert (Hin : input_frames srcData = frames - consumed).
    { subst srcData. cbn. apply wrap32_id. lia. }
    destruct (Hprog s srcData He) as (Hlo & Hhi); [lia | exact Hout | ].
    rewrite (wrap32_id (consumed + _)) by lia.
    apply IH; [ | lia | lia].
    unfold upd_spice, upd_buffer, emit. cbn.
    destruct (Playback.buffer st); exact Hout.
Qed.

(** The clock step of a push that neither changes the period nor slews. *)
Lemma spice_clock_steady (now frames : Z) (init : bool) (target : float)
    (st : Playback.t) :
  let sd := Playback.spiceData st in
  let error := clock_error now (SpiceData.nextTime sd) in
  fabs_ge error 0.2 = false ->
  Playback.state st <> STREAM_STATE_KEEP_ALIVE ->
  spice_clock now frames false init target st
  = (Playback.set_spiceData
       (SpiceData.set_periodSec (SpiceData.periodSec sd + SpiceData.c sd * error)%float
          (SpiceData.set_nextTime
             (wrap64 (SpiceData.nextTime sd
                      + llrint ((SpiceData.b sd * error + SpiceData.periodSec sd)
                                * 1.0e9)%float)) sd)) st,
     mkClockSample (SpiceData.nextTime sd) (SpiceData.nextPosition sd) DBL_MIN).
Proof.
  intros sd error Herr Hs. unfold spice_clock. fold sd. fold error. rewrite Herr.
  destruct (StreamState_eqb_spec (Playback.state st) STREAM_STATE_KEEP_ALIVE);
    [contradiction | reflexivity].
Qed.

(** The ratio of a push in steady state, and what it leaves in the
    controller. *)
Lemma push_ratio_steady (opts : audio_opts) (env : PushEnv) (st : Playback.t)
    (data : list (list Z)) (frames : Z) (init : bool) :
  let sd := Playback.spiceData st in
  let error := clock_error (push_now env) (SpiceData.nextTime sd) in
  let periodSec' := (SpiceData.periodSec sd + SpiceData.c sd * error)%float in
  let ratioIntegral' := (SpiceData.ratioIntegral sd + SpiceData.offsetError sd * periodSec')%float in
  let st0 := pre_clock data frames st in
  let res := push_ratio opts env st data frames false init in
  fabs_ge error 0.2 = false ->
  Playback.state st <> STREAM_STATE_KEEP_ALIVE ->
  snd res = (1.0 + (kp * SpiceData.offsetError sd + ki * ratioIntegral'))%float
  /\ SpiceData.ratioIntegral (Playback.spiceData (fst (fst res))) = ratioIntegral'
  /\ SpiceData.periodSec (Playback.spiceData (fst (fst res))) = periodSec'
  /\ SpiceData.offsetError (Playback.spiceData (fst (fst res)))
     = (if SpiceData.devLastTime (Playback.spiceData st0) =? INT64_MIN
        then SpiceData.offsetError sd
        else filtered_offset_error (target_latency_frames opts st0) st0)
  /\ Playback.trace (fst (fst res)) = Playback.trace st
  /\ Playback.state (fst (fst res)) = Playback.state st
  /\ Playback.buffer (fst (fst res)) = Playback.buffer st
  /\ SpiceData.src (Playback.spiceData (fst (fst res))) = SpiceData.src sd.
Proof.
  intros sd error periodSec' ratioIntegral' st0 res Herr Hs. subst res.
  destruct (pre_clock_frame data frames st)
    as (Hst & Hbuf & Htr & _ & _ & _ & Htk & Hsrc & _ & _).
  fold st0 in Hst, Hbuf, Htr, Htk, Hsrc.
  destruct Htk as (Hpf & Hps & Hnt & Hnp & Hb & Hc & Hoe & Hoi & Hri).
  unfold push_ratio. fold st0.
  rewrite spice_clock_steady by (rewrite ?Hnt, ?Hst; assumption).
  unfold offset_filter. cbn [Playback.spiceData Playback.set_spiceData
    SpiceData.devLastTime SpiceData.set_periodSec SpiceData.set_nextTime].
  unfold filtered_offset_error.
  destruct (SpiceData.devLastTime (Playback.spiceData st0) =? INT64_MIN);
    cbn; rewrite ?Hps, ?Hnt, ?Hnp, ?Hb, ?Hc, ?Hoe, ?Hoi, ?Hri, ?Htr, ?Hst, ?Hbuf, ?Hsrc;
    repeat split; reflexivity.
Qed.

(** [upd_buffer] only writes the ring. *)
Lemma upd_buffer_frame (f : SampleRing.t -> SampleRing.t) (st : Playback.t) :
  Playback.state (upd_buffer f st) = Playback.state st
  /\ Playback.deviceTiming (upd_buffer f st) = Playback.deviceTiming st
  /\ Playback.spiceData (upd_buffer f st) = Playback.spiceData st
  /\ Playback.trace (upd_buffer f st) = Playback.trace st
  /\ Playback.deviceStartFrames (upd_buffer f st) = Playback.deviceStartFrames st
  /\ Playback.sampleRate (upd_buffer f st) = Playback.sampleRate st
  /\ Playback.buffer (upd_buffer f st) = option_map f (Playback.buffer st).
Proof.
  unfold upd_buffer. destruct (Playback.buffer st) eqn:Hb; cbn;
    repeat split; try reflexivity. exact Hb.
Qed.

(** What the loop leaves alone: the stream state, the timing ring, the
    clock estimates and the controller; and it frees nothing. *)
Lemma resample_frame (fuel : nat) (ratio : float) (frames : Z) :
  forall (consumed : Z) (st : Playback.t) (r : LoopResult),
  resample fuel ratio frames consumed st = Some r ->
  let sd := Playback.spiceData st in
  let sd' := Playback.spiceData (loop_state r) in
  Playback.state (loop_state r) = Playback.state st
  /\ Playback.deviceTiming (loop_state r) = Playback.deviceTiming st
  /\ (Playback.buffer st <> None -> Playback.buffer (loop_state r) <> None)
  /\ (SpiceData.src sd <> None -> SpiceData.src sd' <> None)
  /\ SpiceData.periodFrames sd' = SpiceData.periodFrames sd
  /\ SpiceData.offsetError sd' = SpiceData.offsetError sd
  /\ SpiceData.offsetErrorIntegral sd' = SpiceData.offsetErrorIntegral sd
  /\ SpiceData.ratioIntegral sd' = SpiceData.ratioIntegral sd
  /\ Playback.deviceStartFrames (loop_state r) = Playback.deviceStartFrames st.
Proof.
  induction fuel as [ | fuel IH]; intros consumed st r Hr.
  - cbn in Hr. destruct (consumed <? frames); [discriminate | ].
    injection Hr as <-. cbn. repeat split; trivial.
  - cbn [resample] in Hr.
    destruct (consumed <? frames).
    2:{ injection Hr as <-. cbn. repeat split; trivial. }
    destruct (SpiceData.src (Playback.spiceData st)) as [s | ] eqn:Hsrc.
    2:{ injection Hr as <-. cbn. repeat split; trivial. }
    destruct (negb _).
    { injection Hr as <-. cbn. repeat split; trivial. discriminate. }
    apply IH in Hr. cbn zeta in Hr.
    destruct Hr as (H1 & H2 & H3 & H4 & H5 & H6 & H7 & H8 & H9).
    cbn zeta. rewrite H1, H2, H5, H6, H7, H8, H9. clear H1 H2 H5 H6 H7 H8 H9.
    unfold upd_spice, upd_buffer, emit in *. cbn in *. revert H3 H4.
    destruct (Playback.buffer st); cbn; intros H3 H4;
      (repeat split; try reflexivity;
       try (intros; apply H3; discriminate); try (intros; apply H4; discriminate);
       try contradiction).
Qed.

(** Neither does what follows the loop, the stream state apart. *)
Lemma after_loop_spiceData (opts : audio_opts) (env : PushEnv) (actualOffset : float)
    (st : Playback.t) :
  let st' := latency_report opts env actualOffset (setup_device st) in
  Playback.spiceData st' = Playback.spiceData st
  /\ Playback.buffer st' = Playback.buffer st
  /\ Playback.deviceTiming st' = Playback.deviceTiming st
  /\ (Playback.state st <> STREAM_STATE_STOP -> Playback.state st' <> STREAM_STATE_STOP).
Proof.
  unfold latency_report, setup_device, emit.
  destruct (latency_cb opts), (StreamState_eqb _ _); cbn;
    repeat split; trivial; discriminate.
Qed.

Lemma src_ratios_app (a b : list Event) : src_ratios (a ++ b) = src_ratios a ++ src_ratios b.
Proof. apply flat_map_app. Qed.

(** What follows the loop makes no [src_process] call. *)
Lemma after_loop_trace (opts : audio_opts) (env : PushEnv) (actualOffset : float)
    (st : Playback.t) :
  exists extra,
    Playback.trace (latency_report opts env actualOffset (setup_device st))
    = Playback.trace st ++ extra
    /\ src_ratios extra = [].
Proof.
  unfold latency_report, setup_device, emit.
  destruct (latency_cb opts), (StreamState_eqb _ _); cbn;
    eexists; (split; [ | shelve]);
    rewrite <- ?app_assoc; try reflexivity; try (symmetry; apply app_nil_r).
  Unshelve. all: reflexivity.
Qed.


(** Whatever path the clock tracker takes, the steps of a push before the
    resampling loop log nothing, free nothing and do not stop the stream. *)
Lemma push_ratio_frame (opts : audio_opts) (env : PushEnv) (st : Playback.t)
    (data : list (list Z)) (frames : Z) (periodChanged init : bool) :
  let st2 := fst (fst (push_ratio opts env st data frames periodChanged init)) in
  Playback.trace st2 = Playback.trace st
  /\ (Playback.state st <> STREAM_STATE_STOP -> Playback.state st2 <> STREAM_STATE_STOP)
  /\ (Playback.buffer st <> None -> Playback.buffer st2 <> None)
  /\ (Playback.deviceTiming st <> None -> Playback.deviceTiming st2 <> None)
  /\ SpiceData.src (Playback.spiceData st2) = SpiceData.src (Playback.spiceData st)
  /\ SpiceData.periodFrames (Playback.spiceData st2)
     = SpiceData.periodFrames (Playback.spiceData st)
  /\ SpiceData.framesOutSize (Playback.spiceData st2)
     = SpiceData.framesOutSize (Playback.spiceData st).
Proof.
  destruct (pre_clock_frame data frames st)
    as (Hst & Hbuf & Htr & Hdt & _ & _ & Htk & Hsrc & Hfos & _).
  destruct Htk as (Hpf & _).
  unfold push_ratio. set (st0 := pre_clock data frames st) in *.
  set (target := target_latency_frames opts st0).
  assert (Hclock :
    let st1 := fst (spice_clock (push_now env) frames periodChanged init target st0) in
    Playback.trace st1 = Playback.trace st0
    /\ (Playback.state st0 <> STREAM_STATE_STOP -> Playback.state st1 <> STREAM_STATE_STOP)
    /\ (Playback.buffer st0 <> None -> Playback.buffer st1 <> None)
    /\ Playback.deviceTiming st1 = Playback.deviceTiming st0
    /\ SpiceData.src (Playback.spiceData st1) = SpiceData.src (Playback.spiceData st0)
    /\ SpiceData.periodFrames (Playback.spiceData st1)
       = SpiceData.periodFrames (Playback.spiceData st0)
    /\ SpiceData.framesOutSize (Playback.spiceData st1)
       = SpiceData.framesOutSize (Playback.spiceData st0)).
  { unfold spice_clock. destruct periodChanged.
    - destruct init; cbn; repeat split; trivial.
    - destruct (fabs_ge _ _ || _).
      + destruct (spice_slew_frames st0 (push_now env) target _) as [slewFrames devPos].
        unfold upd_buffer. destruct (Playback.buffer st0); cbn;
          repeat split; trivial; try discriminate; congruence.
      + cbn. repeat split; trivial. }
  destruct (spice_clock (push_now env) frames periodChanged init target st0)
    as [st1 cs]. cbn [fst] in Hclock.
  destruct Hclock as (Htr1 & Hst1 & Hbuf1 & Hdt1 & Hsrc1 & Hpf1 & Hfos1).
  unfold offset_filter, pi_ratio, upd_spice.
  destruct (negb (SpiceData.devLastTime (Playback.spiceData st1) =? INT64_MIN)); cbn;
    rewrite ?Htr1, ?Htr, ?Hsrc1, ?Hsrc, ?Hpf1, ?Hpf, ?Hdt1, ?Hfos1, ?Hfos;
    (repeat split; try reflexivity;
     [ intros Hs; apply Hst1; rewrite Hst; exact Hs
     | intros Hb; apply Hbuf1; rewrite Hbuf; exact Hb
     | exact Hdt ]).
Qed.

(** The scratch allocation of a period change, when both [malloc]s
    succeed. *)
Lemma data_alloc_ok (env : PushEnv) (frames : Z) (st : Playback.t) :
  malloc_framesIn_ok env = true -> malloc_framesOut_ok env = true ->
  exists st1,
    data_alloc env frames st = inr st1
    /\ Playback.trace st1 = Playback.trace st
    /\ Playback.state st1 = Playback.state st
    /\ Playback.buffer st1 = Playback.buffer st
    /\ Playback.deviceTiming st1 = Playback.deviceTiming st
    /\ SpiceData.src (Playback.spiceData st1) = SpiceData.src (Playback.spiceData st)
    /\ SpiceData.periodFrames (Playback.spiceData st1) = frames.
Proof.
  intros Hin Hout. unfold data_alloc. rewrite Hin, Hout. cbn.
  eexists. split; [reflexivity | ]. cbn. repeat split; reflexivity.
Qed.

(** ... and when one of them fails: the stream is stopped. *)
Lemma data_alloc_fails (env : PushEnv) (frames : Z) (st : Playback.t) :
  Playback.state st <> STREAM_STATE_STOP ->
  malloc_framesIn_ok env = false \/ malloc_framesOut_ok env = false ->
  exists st1 msg,
    data_alloc env frames st = inl st1
    /\ Playback.state st1 = STREAM_STATE_STOP
    /\ Playback.buffer st1 = None
    /\ Playback.deviceTiming st1 = None
    /\ SpiceData.src (Playback.spiceData st1) = None
    /\ Playback.trace st1
       = Playback.trace st ++ [DEBUG_ERROR msg; Call_audiodev_playback_stop].
Proof.
  intros Hs Hfail. unfold data_alloc.
  destruct (malloc_framesIn_ok env) eqn:Hin; cbn [negb].
  - destruct Hfail as [Hfail | Hout]; [discriminate | ]. rewrite Hout. cbn [negb].
    eexists. eexists. split; [reflexivity | ].
    match goal with
    | |- context [playback_stop ?x] =>
        assert (Hx : Playback.state x <> STREAM_STATE_STOP) by exact Hs;
        destruct (playback_stop_frees x Hx) as (Hb & Hdt & Hsrc & _ & Htr)
    end.
    split; [apply playback_stop_state | ].
    repeat split; try assumption.
    rewrite Htr. cbn. rewrite <- app_assoc. reflexivity.
  - eexists. eexists. split; [reflexivity | ].
    match goal with
    | |- context [playback_stop ?x] =>
        assert (Hx : Playback.state x <> STREAM_STATE_STOP) by exact Hs;
        destruct (playback_stop_frees x Hx) as (Hb & Hdt & Hsrc & _ & Htr)
    end.
    split; [apply playback_stop_state | ].
    repeat split; try assumption.
    rewrite Htr. cbn. rewrite <- app_assoc. reflexivity.
Qed.

Lemma wrap32_range (z : Z) : - 2 ^ 31 <= wrap32 z < 2 ^ 31.
Proof.
  unfold wrap32. pose proof (Z.mod_pos_bound (z + 2 ^ 31) (2 ^ 32) eq_refl). lia.
Qed.

(** A push of the stored period returns, given fuel for one iteration a
    frame, when the resampler makes progress. *)
Lemma audio_playback_data_returns (opts : audio_opts) (env : PushEnv)
    (st : Playback.t) (data : list (list Z)) (size : Z) :
  let frames := packet_frames st size in
  makes_progress ->
  frames = SpiceData.periodFrames (Playback.spiceData st) ->
  0 < SpiceData.framesOutSize (Playback.spiceData st) ->
  exists st', audio_playback_data (Z.to_nat frames) opts env st data size = Some st'.
Proof.
  intros frames Hprog Hper Hout. unfold audio_playback_data.
  destruct (_ || _); [eexists; reflexivity | ].
  fold frames. rewrite <- Hper, Z.eqb_refl. cbn [negb].
  pose proof (push_ratio_frame opts env st data frames false
                (SpiceData.periodFrames (Playback.spiceData st) =? 0)) as Hfr.
  rewrite <- Hper in Hfr.
  destruct (push_ratio opts env st data frames false _) as [[st2 actualOffset] ratio].
  cbn [fst] in Hfr. destruct Hfr as (_ & _ & _ & _ & _ & _ & Hfos).
  assert (Hlt : frames < 2 ^ 31) by apply wrap32_range.
  pose proof (resample_terminates ratio frames Hprog Hlt (Z.to_nat frames) 0 st2) as Hterm.
  destruct (resample (Z.to_nat frames) ratio frames 0 st2) as [[st3 | st3] | ];
    [eexists; reflexivity | eexists; reflexivity | ].
  exfalso. apply Hterm; [rewrite Hfos; exact Hout | lia | lia | reflexivity].
Qed.



(* ------------------------------------------------------------------ *)
(** *** The allocation invariant *)

Lemma alloc_inv_stopped (st : Playback.t) :
  Playback.state st = STREAM_STATE_STOP ->
  Playback.buffer st = None -> Playback.deviceTiming st = None ->
  SpiceData.src (Playback.spiceData st) = None ->
  alloc_inv st.
Proof. intros Hs Hb Hd Hr. unfold alloc_inv. rewrite Hs. cbn. auto. Qed.

Lemma alloc_inv_running (st : Playback.t) :
  Playback.state st <> STREAM_STATE_STOP ->
  Playback.buffer st <> None -> Playback.deviceTiming st <> None ->
  SpiceData.src (Playback.spiceData st) <> None ->
  alloc_inv st.
Proof.
  intros Hs Hb Hd Hr. unfold alloc_inv.
  destruct (StreamState_eqb_spec (Playback.state st) STREAM_STATE_STOP);
    [contradiction | auto].
Qed.

Lemma alloc_inv_running_inv (st : Playback.t) :
  alloc_inv st -> Playback.state st <> STREAM_STATE_STOP ->
  Playback.buffer st <> None /\ Playback.deviceTiming st <> None
  /\ SpiceData.src (Playback.spiceData st) <> None.
Proof.
  unfold alloc_inv. intros Hinv Hs.
  destruct (StreamState_eqb_spec (Playback.state st) STREAM_STATE_STOP);
    [contradiction | exact Hinv].
Qed.

Lemma playback_stop_inv (st : Playback.t) : alloc_inv st -> alloc_inv (playback_stop st).
Proof.
  intros Hinv.
  destruct (StreamState_eqb_spec (Playback.state st) STREAM_STATE_STOP) as [E | E].
  - unfold playback_stop. rewrite E. exact Hinv.
  - destruct (playback_stop_frees st E) as (Hb & Hd & Hr & _).
    apply alloc_inv_stopped; [apply playback_stop_state | assumption ..].
Qed.

Lemma audio_playback_start_inv (opts : audio_opts) (setup : Z * Z) (st : Playback.t)
    (channels sampleRate : Z) :
  alloc_inv st -> alloc_inv (audio_playback_start opts setup st channels sampleRate).
Proof.
  intros Hinv. unfold audio_playback_start.
  destruct (_ && _ && _); [exact Hinv | ].
  set (st1 := if negb (StreamState_eqb (Playback.state st) STREAM_STATE_STOP)
              then playback_stop st else st).
  assert (H1 : alloc_inv st1 /\ Playback.state st1 = STREAM_STATE_STOP).
  { subst st1.
    destruct (StreamState_eqb_spec (Playback.state st) STREAM_STATE_STOP) as [E | E]; cbn.
    - split; assumption.
    - split; [apply playback_stop_inv; exact Hinv | apply playback_stop_state]. }
  destruct H1 as (Hinv1 & Hs1).
  destruct (src_new_ok channels); cbn [negb].
  - apply alloc_inv_running;
      destruct (negb (Playback.volumeChannels _ =? 0)); cbn; discriminate.
  - unfold alloc_inv in Hinv1. rewrite Hs1 in Hinv1. cbn in Hinv1.
    destruct Hinv1 as (Hb & Hd & _).
    apply alloc_inv_stopped; cbn; solve [assumption | reflexivity].
Qed.

Lemma audio_playback_stop_inv (st : Playback.t) :
  alloc_inv st -> alloc_inv (audio_playback_stop st).
Proof.
  intros Hinv. unfold audio_playback_stop.
  destruct (Playback.state st) eqn:Hs; try exact Hinv;
    try (apply playback_stop_inv; exact Hinv).
  destruct (alloc_inv_running_inv st Hinv) as (Hb & Hd & Hr);
    [rewrite Hs; discriminate | ].
  destruct (negb _).
  - apply playback_stop_inv. apply alloc_inv_running; cbn; try assumption; discriminate.
  - apply alloc_inv_running; cbn; try assumption; discriminate.
Qed.

Lemma audio_playback_volume_inv (st : Playback.t) (channels : Z) (volume : list Z) :
  alloc_inv st -> alloc_inv (audio_playback_volume st channels volume).
Proof.
  unfold alloc_inv, audio_playback_volume. cbn.
  destruct (STREAM_ACTIVE (Playback.state st)); cbn; trivial.
Qed.

Lemma audio_playback_mute_inv (st : Playback.t) (mute : bool) :
  alloc_inv st -> alloc_inv (audio_playback_mute st mute).
Proof.
  unfold alloc_inv, audio_playback_mute. cbn.
  destruct (STREAM_ACTIVE (Playback.state st)); cbn; trivial.
Qed.

Lemma pull_keep_alive_inv (st : Playback.t) : alloc_inv st -> alloc_inv (pull_keep_alive st).
Proof.
  intros Hinv. unfold pull_keep_alive.
  destruct (StreamState_eqb _ _); [ | exact Hinv].
  destruct (Playback.buffer st); [ | exact Hinv].
  destruct (_ <=? _); [apply playback_stop_inv | ]; exact Hinv.
Qed.

Lemma audio_pull_inv (st : Playback.t) (now frames : Z) :
  alloc_inv st -> alloc_inv (snd (audio_pull st now frames)).
Proof.
  intros Hinv. unfold audio_pull.
  destruct (frames =? 0); [exact Hinv | ].
  destruct (Playback.buffer st) as [rb | ] eqn:Hb.
  2:{ cbn [snd]. apply pull_keep_alive_inv. exact Hinv. }
  pose proof (pull_body_state rb st now frames) as Hs.
  pose proof (pull_body_buffer rb st now frames) as Hbuf.
  pose proof (pull_body_spiceData rb st now frames) as Hsd.
  pose proof (pull_body_eq rb st now frames) as Heq. cbn zeta in Heq.
  destruct (pull_body rb st now frames) as [st1 dst]. cbn [fst snd] in *.
  apply pull_keep_alive_inv.
  assert (Hrun : Playback.state st <> STREAM_STATE_STOP).
  { intros E. unfold alloc_inv in Hinv. rewrite E in Hinv. cbn in Hinv.
    destruct Hinv as (Hn & _). congruence. }
  destruct (alloc_inv_running_inv st Hinv Hrun) as (_ & Hd & Hr).
  apply alloc_inv_running.
  - rewrite Hs, pull_prefill_state.
    destruct (StreamState_eqb _ _); [discriminate | exact Hrun].
  - rewrite Hbuf. discriminate.
  - injection Heq as -> _. cbn.
    destruct (pull_prefill_frame rb st) as (_ & _ & -> & _).
    destruct (Playback.deviceTiming st); [discriminate | contradiction].
  - rewrite Hsd. exact Hr.
Qed.

Lemma audio_playback_data_inv (fuel : nat) (opts : audio_opts) (env : PushEnv)
    (st st' : Playback.t) (data : list (list Z)) (size : Z) :
  alloc_inv st ->
  audio_playback_data fuel opts env st data size = Some st' ->
  alloc_inv st'.
Proof.
  intros Hinv Hrun. unfold audio_playback_data in Hrun.
  destruct (StreamState_eqb_spec (Playback.state st) STREAM_STATE_STOP) as [E | Hs].
  { injection Hrun as <-. exact Hinv. }
  destruct (size =? 0). { injection Hrun as <-. exact Hinv. }
  cbn [orb] in Hrun.
  destruct (alloc_inv_running_inv st Hinv Hs) as (Hb & Hd & Hr).
  set (frames := packet_frames st size) in *.
  assert (Halloc :
    match (if negb (frames =? SpiceData.periodFrames (Playback.spiceData st))
           then data_alloc env frames st else inr st) with
    | inl st1 => alloc_inv st1
    | inr st1 => Playback.state st1 <> STREAM_STATE_STOP
                 /\ Playback.buffer st1 <> None
                 /\ Playback.deviceTiming st1 <> None
                 /\ SpiceData.src (Playback.spiceData st1) <> None
    end).
  { destruct (negb _); [ | auto].
    destruct (malloc_framesIn_ok env) eqn:Hin;
      [destruct (malloc_framesOut_ok env) eqn:Hout | ].
    - destruct (data_alloc_ok env frames st Hin Hout)
        as (st1 & -> & _ & Hst & Hb1 & Hd1 & Hr1 & _).
      rewrite Hst, Hb1, Hd1, Hr1. auto.
    - destruct (data_alloc_fails env frames st Hs (or_intror Hout))
        as (st1 & msg & -> & Hst & Hb1 & Hd1 & Hr1 & _).
      apply alloc_inv_stopped; assumption.
    - destruct (data_alloc_fails env frames st Hs (or_introl Hin))
        as (st1 & msg & -> & Hst & Hb1 & Hd1 & Hr1 & _).
      apply alloc_inv_stopped; assumption. }
  destruct (if negb (frames =? SpiceData.periodFrames (Playback.spiceData st))
            then data_alloc env frames st else inr st) as [st1 | st1].
  { injection Hrun as <-. exact Halloc. }
  destruct Halloc as (Hs1 & Hb1 & Hd1 & Hr1).
  match type of Hrun with
  | context [push_ratio opts env st1 data frames ?pc ?init] =>
      pose proof (push_ratio_frame opts env st1 data frames pc init) as Hfr;
      destruct (push_ratio opts env st1 data frames pc init) as [[st2 actualOffset] ratio]
  end.
  cbn [fst] in Hfr. destruct Hfr as (_ & Hs2 & Hb2 & Hd2 & Hr2 & _).
  destruct (resample fuel ratio frames 0 st2) as [[st3 | st3] | ] eqn:Hloop;
    [ | | discriminate]; injection Hrun as <-;
    apply resample_frame in Hloop; cbn [loop_state] in Hloop; cbn zeta in Hloop;
    destruct Hloop as (Hs3 & Hd3 & Hb3 & Hr3 & _).
  - destruct (after_loop_spiceData opts env actualOffset st3) as (Hsd & Hbuf & Hdt & Hst).
    apply alloc_inv_running.
    + apply Hst. rewrite Hs3. auto.
    + rewrite Hbuf. auto.
    + rewrite Hdt, Hd3. auto.
    + rewrite Hsd. apply Hr3. rewrite Hr2. exact Hr1.
  - apply alloc_inv_running.
    + rewrite Hs3. auto.
    + auto.
    + rewrite Hd3. auto.
    + apply Hr3. rewrite Hr2. exact Hr1.
Qed.

(** Every state the engine can reach keeps the allocation invariant. *)
Lemma reachable_alloc_inv (opts : audio_opts) (st : Playback.t) :
  reachable opts st -> alloc_inv st.
Proof.
  induction 1 as [ | st st' _ IH Hstep].
  - apply alloc_inv_stopped; reflexivity.
  - destruct Hstep.
    + apply audio_playback_start_inv; exact IH.
    + apply audio_playback_stop_inv; exact IH.
    + apply audio_playback_volume_inv; exact IH.
    + apply audio_playback_mute_inv; exact IH.
    + apply audio_pull_inv; exact IH.
    + eapply audio_playback_data_inv; eassumption.
Qed.

End EngineFacts.

(* ================================================================== *)
(** ** Values of the volume curve *)
(* ================================================================== *)

Section VolumeCurve.

Local Open Scope R_scope.

(** Bounds on the powers [1.000211902 ^ (2 ^ k)] by repeated squaring of a
    fixed-point interval at scale [10 ^ 18], the lower end rounded down and
    the upper end rounded up. *)
Definition fx_scale : Z := 10 ^ 18.

Definition sq_lo (a : Z) : Z := (a * a / fx_scale)%Z.
Definition sq_hi (a : Z) : Z := (a * a / fx_scale + 1)%Z.

Fixpoint sq_iter (k : nat) (b : Z * Z) : Z * Z :=
  match k with
  | O => b
  | S k => sq_iter k (sq_lo (fst b), sq_hi (snd b))
  end.

Lemma fx_scale_pos : 0 < IZR fx_scale.
Proof. apply IZR_lt. reflexivity. Qed.

Lemma sq_step_sound (y : R) (lo hi : Z) :
  (0 <= lo)%Z ->
  IZR lo <= y * IZR fx_scale <= IZR hi ->
  (0 <= sq_lo lo)%Z
  /\ IZR (sq_lo lo) <= (y * y) * IZR fx_scale <= IZR (sq_hi hi).
Proof.
  intros Hlo (Hl & Hh). pose proof fx_scale_pos as HS.
  assert (Hlo' : 0 <= IZR lo) by (apply IZR_le; exact Hlo).
  assert (Hy : 0 <= y).
  { apply Rmult_le_reg_r with (IZR fx_scale); [exact HS | ]. lra. }
  split; [apply Z.div_pos; [apply Z.mul_nonneg_nonneg; exact Hlo | reflexivity] | ].
  split.
  - assert (Hq : IZR (sq_lo lo) * IZR fx_scale <= IZR lo * IZR lo).
    { rewrite <- !mult_IZR. apply IZR_le. unfold sq_lo.
      rewrite (Z.mul_comm _ fx_scale). apply Z.mul_div_le. reflexivity. }
    apply Rmult_le_reg_r with (IZR fx_scale); [exact HS | ]. nra.
  - assert (Hq : IZR hi * IZR hi <= IZR (sq_hi hi) * IZR fx_scale).
    { rewrite <- !mult_IZR. apply IZR_le. unfold sq_hi.
      rewrite (Z.mul_comm _ fx_scale). apply Z.lt_le_incl.
      exact (Z.mul_succ_div_gt (hi * hi) fx_scale eq_refl). }
    assert (Hhi : 0 <= IZR hi) by lra.
    apply Rmult_le_reg_r with (IZR fx_scale); [exact HS | ]. nra.
Qed.

Lemma sq_iter_sound (k : nat) :
  forall (y : R) (b : Z * Z),
  (0 <= fst b)%Z ->
  IZR (fst b) <= y * IZR fx_scale <= IZR (snd b) ->
  IZR (fst (sq_iter k b)) <= y ^ (2 ^ k) * IZR fx_scale <= IZR (snd (sq_iter k b)).
Proof.
  induction k as [ | k IH]; intros y b Hpos Hb.
  - cbn [sq_iter]. change (2 ^ 0)%nat with 1%nat. rewrite pow_1. exact Hb.
  - cbn [sq_iter].
    destruct (sq_step_sound y (fst b) (snd b) Hpos Hb) as (Hpos' & Hb').
    specialize (IH (y * y) (sq_lo (fst b), sq_hi (snd b)) Hpos' Hb').
    replace (y ^ (2 ^ S k)) with ((y * y) ^ (2 ^ k)); [exact IH | ].
    rewrite Nat.pow_succ_r', pow_mult. f_equal. ring.
Qed.

(** [1.000211902 ^ 32768] and [1.000211902 ^ 65536]. *)
Lemma curve_pow_32768 :
  1035.7376509184 <= 1.000211902 ^ Z.to_nat 32768 <= 1035.7376509185.
Proof.
  replace (Z.to_nat 32768) with (2 ^ 15)%nat
    by (apply Nat2Z.inj; rewrite Nat2Z.inj_pow; reflexivity).
  pose proof (sq_iter_sound 15 1.000211902 (1000211902000000000, 1000211902000000000)%Z)
    as Hb.
  cbn [fst snd] in Hb.
  assert (Hpre : (0 <= 1000211902000000000)%Z) by lia.
  specialize (Hb Hpre). clear Hpre.
  assert (Hexact : IZR 1000211902000000000
                   <= 1.000211902 * IZR fx_scale
                   <= IZR 1000211902000000000).
  { unfold fx_scale. change (10 ^ 18)%Z with 1000000000000000000%Z. lra. }
  specialize (Hb Hexact). clear Hexact.
  set (r := sq_iter 15 (1000211902000000000, 1000211902000000000)%Z) in Hb.
  vm_compute in r. subst r. cbn [fst snd] in Hb.
  unfold fx_scale in Hb. change (10 ^ 18)%Z with 1000000000000000000%Z in Hb.
  lra.
Qed.

Lemma curve_pow_65536 :
  1072752.48153004 <= 1.000211902 ^ Z.to_nat 65536 <= 1072752.48153012.
Proof.
  replace (Z.to_nat 65536) with (2 ^ 16)%nat
    by (apply Nat2Z.inj; rewrite Nat2Z.inj_pow; reflexivity).
  pose proof (sq_iter_sound 16 1.000211902 (1000211902000000000, 1000211902000000000)%Z)
    as Hb.
  cbn [fst snd] in Hb.
  assert (Hpre : (0 <= 1000211902000000000)%Z) by lia.
  specialize (Hb Hpre). clear Hpre.
  assert (Hexact : IZR 1000211902000000000
                   <= 1.000211902 * IZR fx_scale
                   <= IZR 1000211902000000000).
  { unfold fx_scale. change (10 ^ 18)%Z with 1000000000000000000%Z. lra. }
  specialize (Hb Hexact). clear Hexact.
  set (r := sq_iter 16 (1000211902000000000, 1000211902000000000)%Z) in Hb.
  vm_compute in r. subst r. cbn [fst snd] in Hb.
  unfold fx_scale in Hb. change (10 ^ 18)%Z with 1000000000000000000%Z in Hb.
  lra.
Qed.

Lemma curve_pow_65535 :
  1072525.2112 <= 1.000211902 ^ Z.to_nat 65535 <= 1072525.2114.
Proof.
  pose proof curve_pow_65536 as Hb.
  replace (Z.to_nat 65536) with (S (Z.to_nat 65535)) in Hb
    by (rewrite <- Z2Nat.inj_succ by lia; reflexivity).
  rewrite <- tech_pow_Rmult in Hb.
  lra.
Qed.

Lemma volume_gain_0 : volume_gain 0 = - 0.00017185466.
Proof. unfold volume_gain. change (Z.to_nat 0) with O. cbn [pow]. lra. Qed.



End VolumeCurve.

(* ================================================================== *)
(** ** A worked scenario *)
(* ================================================================== *)

(** A resampler that converts nothing: it hands back as many of the input
    frames as the output buffer takes. *)
Definition passthrough : Resampler := {|
  src_new_ok := fun channels => 0 <? channels;
  src_reset_error := fun _ => 0;
  src_response := fun _ d =>
    let n := Z.min (input_frames d) (output_frames d) in
    mkSRC_RESULT 0 n n (firstn (Z.to_nat n) (data_in d))
|}.

(** A resampler whose [src_process] always fails. *)
Definition broken : Resampler := {|
  src_new_ok := fun channels => 0 <? channels;
  src_reset_error := fun _ => 0;
  src_response := fun _ _ => mkSRC_RESULT 1 0 0 []
|}.

(** The state of a push that returned, [Playback.zero] otherwise. *)
Definition pushed (o : option Playback.t) : Playback.t :=
  match o with Some st => st | None => Playback.zero end.

(** A stereo packet of 480 frames (1920 bytes). *)
Definition ex_packet : list (list Z) := repeat [100; -100] 480.

Definition ex_push (now : Z) (st : Playback.t) : Playback.t :=
  pushed (@audio_playback_data passthrough 10 default_opts
            (mkPushEnv now true true 0) st ex_packet 1920).

(** Stereo at 48 kHz on a device of at most 1024 frames a period: started,
    first packet, first pull, and so on; times in nanoseconds. *)
Definition ex_started : Playback.t :=
  @audio_playback_start passthrough default_opts (1024, 2048) Playback.zero 2 48000.
Definition ex_setup : Playback.t := ex_push 1000000000 ex_started.
Definition ex_run1 : Playback.t := snd (audio_pull ex_setup 1005000000 1024).
Definition ex_run2 : Playback.t := ex_push 1010000000 ex_run1.
Definition ex_run3 : Playback.t := snd (audio_pull ex_run2 1026333333 1024).
Definition ex_run4 : Playback.t := ex_push 1020000000 ex_run3.
Definition ex_keep_alive : Playback.t := @audio_playback_stop passthrough ex_run4.

(** The sample ring of a state in which it is allocated. *)
Definition ring_of (st : Playback.t) : SampleRing.t :=
  match Playback.buffer st with
  | Some rb => rb
  | None => SampleRing.ringbuffer_newUnbounded 0
  end.

(** Facts about the scenario are settled by running the engine. *)
Ltac by_evaluation := vm_compute; repeat split; reflexivity.

Lemma passthrough_makes_progress : @makes_progress passthrough.
Proof.
  intros s d _ Hin Hout. cbn. lia.
Qed.

(** The scenario's states. *)
Example ex_states :
  Playback.state ex_started = STREAM_STATE_SETUP_SPICE
  /\ Playback.state ex_setup = STREAM_STATE_SETUP_DEVICE
  /\ Playback.state ex_run4 = STREAM_STATE_RUN
  /\ Playback.state ex_keep_alive = STREAM_STATE_KEEP_ALIVE
  /\ option_map SampleRing.count (Playback.buffer ex_setup) = Some 480
  /\ Playback.targetStartFrames ex_setup = 3008
  /\ option_map SampleRing.count (Playback.buffer ex_run4) = Some 1920.
Proof. by_evaluation. Qed.

Lemma ex_reachable : @reachable passthrough default_opts ex_run4.
Proof.
  assert (Hpush : forall now st,
            @reachable passthrough default_opts st ->
            @audio_playback_data passthrough 10 default_opts (mkPushEnv now true true 0)
              st ex_packet 1920 <> None ->
            @reachable passthrough default_opts (ex_push now st)).
  { intros now st Hr Hsome. unfold ex_push.
    destruct (@audio_playback_data passthrough 10 default_opts (mkPushEnv now true true 0)
                st ex_packet 1920) as [st' | ] eqn:E; [ | contradiction].
    eapply (@reachable_step passthrough); [exact Hr | ]. eapply (@step_data passthrough). exact E. }
  unfold ex_run4, ex_run3, ex_run2, ex_run1, ex_setup.
  apply Hpush; [ | vm_compute; discriminate].
  eapply (@reachable_step passthrough); [ | apply (@step_pull passthrough)].
  apply Hpush; [ | vm_compute; discriminate].
  eapply (@reachable_step passthrough); [ | apply (@step_pull passthrough)].
  apply Hpush; [ | vm_compute; discriminate].
  eapply (@reachable_step passthrough); [apply (@reachable_zero passthrough) | ].
  apply (@step_start passthrough).
Qed.

(* ------------------------------------------------------------------ *)
(** *** C1 *)



(* ------------------------------------------------------------------ *)
(** *** C2 *)

(** The device asks for 256 frames after periods of 1024: the next wake-up
    is placed one old period (21333333 ns) after the last estimate. *)
Lemma C2_witness :
  DeviceData.nextTime (Playback.deviceData (snd (audio_pull ex_run4 1047666666 256)))
  = 1047666666 + 21333333
  /\ DeviceData.periodFrames (Playback.deviceData (snd (audio_pull ex_run4 1047666666 256)))
     = 256.
Proof.
  assert (Hb : Playback.buffer ex_run4 = Some (ring_of ex_run4))
    by (vm_compute; reflexivity).
  assert (H1 : 256 <> 0) by discriminate.
  assert (H2 : 256 <> DeviceData.periodFrames (Playback.deviceData ex_run4))
    by (vm_compute; discriminate).
  assert (H3 : DeviceData.periodFrames (Playback.deviceData ex_run4) <> 0)
    by (vm_compute; discriminate).
  pose proof (C2_period_change_keeps_old_interval ex_run4 (ring_of ex_run4)
                1047666666 256 Hb H1 H2 H3) as Hthm.
  cbv zeta in Hthm. destruct Hthm as (Hnt & Hpf & _).
  split; [rewrite Hnt; vm_compute; reflexivity | exact Hpf].
Defined.

(* ------------------------------------------------------------------ *)
(** *** C3 *)


(** With the device at 256 frames of at most 1024 the difference is added
    (property 4 of the specification's test list). *)
Example target_latency_downshift :
  let st :=
    Playback.set_deviceTiming (Some [DeviceTick.mk 256 1050000000 544]) ex_run4 in
  target_latency_frames default_opts (pre_clock ex_packet 480 st)
  = (double_of_Z 1024 * 1.1 + double_of_Z (12 * 48000) / 1000.0
     + double_of_Z (1024 - 256))%float.
Proof. vm_compute. reflexivity. Qed.

(* ------------------------------------------------------------------ *)
(** *** C4 *)



(* ------------------------------------------------------------------ *)
(** *** C5 *)

(** The first pull after the first packet: the ring holds 480 frames of the
    3008 wanted.  The stream goes to RUN all the same; the difference of
    -2528 frames goes into the device tracker's [nextPosition]
    (0 - 2528 + 1024), the producer's stays at 480. *)
Lemma C5_counterexample :
  let st := ex_setup in
  let st' := snd (audio_pull st 1005000000 1024) in
  Playback.state st = STREAM_STATE_SETUP_DEVICE
  /\ option_map SampleRing.count (Playback.buffer st) = Some 480
  /\ Playback.targetStartFrames st = 3008
  /\ Playback.state st' = STREAM_STATE_RUN
  /\ SpiceData.nextPosition (Playback.spiceData st) = 480
  /\ SpiceData.nextPosition (Playback.spiceData st') = 480
  /\ DeviceData.nextPosition (Playback.deviceData st) = 0
  /\ DeviceData.nextPosition (Playback.deviceData st') = 0 - 2528 + 1024.
Proof. by_evaluation. Qed.

(** The same pull, through the theorem. *)
Lemma C5_witness :
  Playback.state (snd (audio_pull ex_setup 1005000000 1024)) = STREAM_STATE_RUN
  /\ Playback.spiceData (snd (audio_pull ex_setup 1005000000 1024))
     = Playback.spiceData ex_setup.
Proof.
  assert (Hs : Playback.state ex_setup = STREAM_STATE_SETUP_DEVICE)
    by (vm_compute; reflexivity).
  assert (Hb : Playback.buffer ex_setup = Some (ring_of ex_setup))
    by (vm_compute; reflexivity).
  assert (Hf : 0 < 1024) by reflexivity.
  pose proof (C5_prefill_on_first_pull ex_setup (ring_of ex_setup) 1005000000 1024
                Hs Hb Hf) as Hthm.
  cbv zeta in Hthm. destruct Hthm as (Hrun & Hsd & _).
  split; [exact Hrun | exact Hsd].
Defined.

(* ------------------------------------------------------------------ *)
(** *** C6 *)

(** In both set-up states the ring is allocated and the pull returns the
    frames asked for, not 0. *)
Lemma C6_counterexample :
  Playback.state ex_setup = STREAM_STATE_SETUP_DEVICE
  /\ fst (fst (audio_pull ex_setup 1005000000 1024)) = 1024
  /\ length (snd (fst (audio_pull ex_setup 1005000000 1024))) = 1024%nat
  /\ Playback.state ex_started = STREAM_STATE_SETUP_SPICE
  /\ fst (fst (audio_pull ex_started 1005000000 1024)) = 1024.
Proof. by_evaluation. Qed.

(** A running stream returns the frames asked for, a stopped one 0. *)
Lemma C6_witness :
  fst (fst (audio_pull ex_run4 1047666666 1024)) = 1024
  /\ fst (fst (audio_pull Playback.zero 1047666666 1024)) = 0.
Proof.
  assert (Hf : 0 <= 1024) by discriminate.
  pose proof (C6_pull_returns_frames_unless_stopped ex_run4 1047666666 1024 Hf
                (@reachable_alloc_inv passthrough default_opts _ ex_reachable)) as Hrun.
  pose proof (C6_pull_returns_frames_unless_stopped Playback.zero 1047666666 1024 Hf
                (@reachable_alloc_inv passthrough default_opts _
                   (@reachable_zero passthrough default_opts))) as Hstop.
  cbv zeta in Hrun, Hstop.
  destruct Hrun as (Hrun & _). destruct Hstop as (Hstop & _).
  split; [rewrite Hrun | rewrite Hstop]; vm_compute; reflexivity.
Defined.

(* ------------------------------------------------------------------ *)
(** *** C7 *)

(** After [stop] the ring holds 1920 frames.  A pull of 1024 frames leaves
    896 and the stream stays in KEEP_ALIVE; a pull a minute late slews
    2880000 frames off the ring, which takes the count below
    [-30 * 48000], and stops the stream. *)
Lemma C7_witness :
  Playback.state (run_pulls ex_keep_alive [(1047666666, 1024)]) = STREAM_STATE_KEEP_ALIVE
  /\ Playback.state (run_pulls ex_keep_alive [(1047666666, 1024); (61068999999, 1024)])
     = STREAM_STATE_STOP.
Proof.
  assert (Hs : Playback.state ex_keep_alive = STREAM_STATE_KEEP_ALIVE)
    by (vm_compute; reflexivity).
  assert (Hb : Playback.buffer ex_keep_alive <> None) by (vm_compute; discriminate).
  assert (Hsr : 0 < Playback.sampleRate ex_keep_alive <= 71582788)
    by (vm_compute; split; [reflexivity | discriminate]).
  assert (Hfr : Forall (fun q : Z * Z => snd q <> 0)
                  ([(1047666666, 1024)] ++ [(61068999999, 1024)]))
    by (repeat constructor; discriminate).
  assert (Habove : stays_above (- (30 * Playback.sampleRate ex_keep_alive)) ex_keep_alive
                     [(1047666666, 1024)])
    by (vm_compute; split; [reflexivity | exact I]).
  destruct (C7_keep_alive_expiry ex_keep_alive [(1047666666, 1024)] (61068999999, 1024)
              Hs Hb Hsr Hfr Habove) as (Hkeep & Hstop).
  split; [exact Hkeep | ].
  apply Hstop. vm_compute. discriminate.
Defined.

Example keep_alive_counts :
  count_after_pull ex_keep_alive (1047666666, 1024) = 1920 - 1024
  /\ count_after_pull (run_pulls ex_keep_alive [(1047666666, 1024)]) (61068999999, 1024)
     = 896 - 2880000 - 1024.
Proof. vm_compute. split; reflexivity. Qed.

(* ------------------------------------------------------------------ *)
(** *** C8 *)



(* ------------------------------------------------------------------ *)
(** *** C10 *)

(** Ten channel values on an active stream: the first eight are stored and
    the device is called with a count of 8. *)
Lemma C10_witness :
  let volume := [10; 20; 30; 40; 50; 60; 70; 80; 90; 100] in
  let st' := audio_playback_volume ex_run4 10 volume in
  Playback.volumeChannels st' = 8
  /\ Playback.volume st' = [10; 20; 30; 40; 50; 60; 70; 80]
  /\ Playback.trace st'
     = Playback.trace ex_run4 ++ [Call_audiodev_playback_volume 8 volume].
Proof.
  intros volume st'.
  assert (Hc : - 2 ^ 31 <= 10 < 2 ^ 31) by (split; [discriminate | reflexivity]).
  assert (Hlen : length (Playback.volume ex_run4) = 8%nat) by (vm_compute; reflexivity).
  pose proof (C10_volume_cached_and_clamped ex_run4 10 volume Hc Hlen) as Hthm.
  cbv zeta in Hthm. fold st' in Hthm.
  destruct Hthm as (_ & _ & Hbig & _ & _ & Hact & _).
  assert (H8 : 8 < 10) by reflexivity.
  destruct (Hbig H8) as (Hn & Hv).
  split; [exact Hn | ].
  split; [exact Hv | ].
  rewrite <- Hn. apply Hact. vm_compute. reflexivity.
Defined.

(** Not active: the values are cached and the device is not called. *)
Example volume_while_stopped :
  let st' := audio_playback_volume Playback.zero 2 [1000; 2000] in
  Playback.volumeChannels st' = 2
  /\ Playback.volume st' = [1000; 2000; 0; 0; 0; 0; 0; 0]
  /\ Playback.trace st' = [].
Proof. by_evaluation. Qed.

(* ================================================================== *)
(** ** The clock helpers *)
(* ================================================================== *)

Lemma u64_congr (a b k : Z) : a = b + k * 2 ^ 64 -> u64 a = u64 b.
Proof. intros ->. unfold u64. apply Z_mod_plus_full. Qed.

Lemma u64_idem (a : Z) : exists k, u64 a = a + k * 2 ^ 64.
Proof.
  unfold u64. exists (- (a / 2 ^ 64)).
  pose proof (Z.div_mod a (2 ^ 64) ltac:(lia)). lia.
Qed.

Lemma wrap64_congr (a : Z) : exists k, wrap64 a = a + k * 2 ^ 64.
Proof.
  unfold wrap64. exists (- ((a + 2 ^ 63) / 2 ^ 64)).
  pose proof (Z.div_mod (a + 2 ^ 63) (2 ^ 64) ltac:(lia)). lia.
Qed.

Lemma u64_id (a : Z) : 0 <= a < 2 ^ 64 -> u64 a = a.
Proof. intros. unfold u64. apply Z.mod_small. assumption. Qed.

Lemma u32_id (a : Z) : 0 <= a < 2 ^ 32 -> u32 a = a.
Proof. intros. unfold u32. apply Z.mod_small. assumption. Qed.

(** [nanotime] is the timespec's nanosecond count modulo [2^64]. *)
Lemma nanotime_mod (t : Time.timespec) :
  nanotime t = u64 (Time.tv_sec t * 1000000000 + Time.tv_nsec t).
Proof.
  unfold nanotime.
  destruct (u64_idem (Time.tv_sec t)) as [k1 E1].
  destruct (u64_idem (Time.tv_nsec t)) as [k2 E2].
  destruct (u64_idem (u64 (Time.tv_sec t) * 1000000000)) as [k3 E3].
  apply (u64_congr _ _ (k3 + k1 * 1000000000 + k2)). lia.
Qed.

(** X1.  [tsDiff] of two normalised timespecs is normalised, and its
    nanosecond value is the difference of the two [nanotime] values (as a
    [uint64_t], so also when [left] is the earlier one). *)
Theorem tsDiff_nanotime (left right : Time.timespec) :
  Time.normalised left -> Time.normalised right ->
  Time.normalised (tsDiff left right)
  /\ nanotime (tsDiff left right) = u64 (nanotime left - nanotime right).
Proof.
  unfold Time.normalised. intros Hl Hr.
  assert (Hn : wrap64 (Time.tv_nsec left - Time.tv_nsec right)
               = Time.tv_nsec left - Time.tv_nsec right)
    by (apply wrap64_id; lia).
  rewrite !nanotime_mod. unfold tsDiff. rewrite Hn.
  destruct (wrap64_congr (Time.tv_sec left - Time.tv_sec right)) as [k1 E1].
  destruct (u64_idem (Time.tv_sec left * 1000000000 + Time.tv_nsec left)) as [k2 E2].
  destruct (u64_idem (Time.tv_sec right * 1000000000 + Time.tv_nsec right)) as [k3 E3].
  destruct (Z.ltb_spec (Time.tv_nsec left - Time.tv_nsec right) 0) as [Hneg | Hpos]; cbn [Time.tv_sec Time.tv_nsec].
  - destruct (wrap64_congr (wrap64 (Time.tv_sec left - Time.tv_sec right) - 1)) as [k4 E4].
    rewrite (wrap64_id (Time.tv_nsec left - Time.tv_nsec right + 1000000000)) by lia.
    split; [lia |].
    apply (u64_congr _ _ (k4 * 1000000000 + k1 * 1000000000 - k2 + k3)). lia.
  - split; [lia |].
    apply (u64_congr _ _ (k1 * 1000000000 - k2 + k3)). lia.
Qed.

Lemma tsDiff_nanotime_witness :
  Time.normalised (tsDiff (Time.mk 7 1) (Time.mk 5 999999999))
  /\ nanotime (tsDiff (Time.mk 7 1) (Time.mk 5 999999999))
     = u64 (nanotime (Time.mk 7 1) - nanotime (Time.mk 5 999999999)).
Proof.
  apply (tsDiff_nanotime (Time.mk 7 1) (Time.mk 5 999999999));
    unfold Time.normalised; cbn; lia.
Defined.

Example tsDiff_values :
  tsDiff (Time.mk 7 1) (Time.mk 5 999999999) = Time.mk 1 2
  /\ tsDiff (Time.mk 5 999999999) (Time.mk 7 1) = Time.mk (-2) 999999998.
Proof. vm_compute. split; reflexivity. Qed.

Lemma iter_div_loop_spec (divisor : Z) :
  0 < divisor < 2 ^ 32 ->
  forall (fuel : nat) (dividend ret : Z),
  0 <= dividend < 2 ^ 64 ->
  0 <= ret < 2 ^ 32 ->
  dividend / divisor <= Z.of_nat fuel ->
  iter_div_loop fuel dividend divisor ret
  = Some (u32 (ret + dividend / divisor), dividend mod divisor).
Proof.
  intros Hd. induction fuel as [| fuel IH]; intros dividend ret Hr Hret Hf;
    cbn [iter_div_loop];
    destruct (Z.leb_spec divisor dividend) as [Hge | Hlt].
  - assert (1 <= dividend / divisor) by (apply Z.div_le_lower_bound; lia). lia.
  - rewrite Z.div_small, Z.mod_small by lia. rewrite Z.add_0_r, u32_id by lia.
    reflexivity.
  - assert (Hq : dividend / divisor = (dividend - divisor) / divisor + 1).
    { replace dividend with ((dividend - divisor) + 1 * divisor) at 1 by lia.
      rewrite Z.div_add by lia. reflexivity. }
    assert (Hm : dividend mod divisor = (dividend - divisor) mod divisor).
    { replace dividend with ((dividend - divisor) + 1 * divisor) at 1 by lia.
      rewrite Z.mod_add by lia. reflexivity. }
    rewrite (u64_id (dividend - divisor)) by lia.
    rewrite IH.
    + rewrite Hq, Hm. f_equal. f_equal. unfold u32.
      rewrite Z.add_mod_idemp_l by lia. f_equal. lia.
    + lia.
    + unfold u32. apply Z.mod_pos_bound. lia.
    + lia.
  - rewrite Z.div_small, Z.mod_small by lia. rewrite Z.add_0_r, u32_id by lia.
    reflexivity.
Qed.

Lemma iter_div_loop_zero (fuel : nat) :
  forall dividend ret : Z, 0 <= dividend < 2 ^ 64 ->
  iter_div_loop fuel dividend 0 ret = None.
Proof.
  induction fuel as [| fuel IH]; intros dividend ret Hr; cbn [iter_div_loop];
    destruct (Z.leb_spec 0 dividend); try lia; [reflexivity |].
  rewrite Z.sub_0_r, u64_id by lia. apply IH. lia.
Qed.

(** With a divisor that is not zero the loop is a division by repeated
    subtraction. *)
Lemma iter_div_u64_rem_pos (fuel : nat) (dividend divisor : Z) :
  0 <= dividend < 2 ^ 64 ->
  0 < divisor < 2 ^ 32 ->
  dividend / divisor <= Z.of_nat fuel ->
  __iter_div_u64_rem fuel dividend divisor
  = Some (u32 (dividend / divisor), dividend mod divisor).
Proof.
  intros Hr Hd Hf. unfold __iter_div_u64_rem.
  rewrite iter_div_loop_spec by lia. reflexivity.
Qed.

(** X2.  For a divisor that is not zero [__iter_div_u64_rem] returns, within
    [dividend / divisor] iterations, the quotient reduced to 32 bits and
    stores the remainder; for the divisor zero it never returns. *)
Theorem iter_div_u64_rem_is_division (fuel : nat) (dividend divisor : Z) :
  0 <= dividend < 2 ^ 64 ->
  0 <= divisor < 2 ^ 32 ->
  (0 < divisor -> dividend / divisor <= Z.of_nat fuel ->
   __iter_div_u64_rem fuel dividend divisor
   = Some (u32 (dividend / divisor), dividend mod divisor))
  /\ (divisor = 0 -> __iter_div_u64_rem fuel dividend divisor = None).
Proof.
  intros Hr Hd. split.
  - intros Hpos Hf. apply iter_div_u64_rem_pos; [exact Hr | lia | exact Hf].
  - intros ->. unfold __iter_div_u64_rem. apply iter_div_loop_zero. exact Hr.
Qed.

Lemma iter_div_u64_rem_is_division_witness :
  __iter_div_u64_rem 3 3500000000 1000000000 = Some (3, 500000000)
  /\ __iter_div_u64_rem 3 3500000000 0 = None.
Proof.
  split.
  - apply (proj1 (iter_div_u64_rem_is_division 3 3500000000 1000000000
                    ltac:(lia) ltac:(lia))); [lia | vm_compute; discriminate].
  - apply (proj2 (iter_div_u64_rem_is_division 3 3500000000 0
                    ltac:(lia) ltac:(lia))). reflexivity.
Defined.

(** The quotient is returned as a [uint32_t]: from [2^32] times the
    divisor on, the high part is lost. *)
Example iter_div_quotient_wraps :
  u32 ((2 ^ 32 * 1000000000 + 5) / 1000000000) = 0.
Proof. vm_compute. reflexivity. Qed.

(** X3.  [tsAdd] on a normalised timespec returns a normalised timespec
    later by [ns] nanoseconds, as long as the nanoseconds to carry stay
    below [2^32] seconds. *)
Theorem tsAdd_adds (fuel : nat) (a : Time.timespec) (ns : Z) :
  Time.normalised a ->
  0 <= ns ->
  Time.tv_nsec a + ns < 2 ^ 32 * 1000000000 ->
  - 2 ^ 63 <= Time.tv_sec a < 2 ^ 63 - 2 ^ 32 ->
  (Time.tv_nsec a + ns) / 1000000000 <= Z.of_nat fuel ->
  exists a',
    tsAdd fuel a ns = Some a'
    /\ Time.normalised a'
    /\ Time.tv_sec a' * 1000000000 + Time.tv_nsec a'
       = Time.tv_sec a * 1000000000 + Time.tv_nsec a + ns.
Proof.
  unfold Time.normalised. intros Hn Hns Hb Hs Hf. unfold tsAdd.
  rewrite (u64_id (Time.tv_nsec a)) by lia.
  rewrite (u64_id (Time.tv_nsec a + ns)) by lia.
  rewrite (u32_id 1000000000) by lia.
  rewrite iter_div_u64_rem_pos by lia.
  assert (Hq : 0 <= (Time.tv_nsec a + ns) / 1000000000 < 2 ^ 32).
  { split; [apply Z.div_pos; lia | apply Z.div_lt_upper_bound; lia]. }
  pose proof (Z.mod_pos_bound (Time.tv_nsec a + ns) 1000000000 ltac:(lia)) as Hm.
  pose proof (Z.div_mod (Time.tv_nsec a + ns) 1000000000 ltac:(lia)) as Hdm.
  rewrite u32_id by lia.
  eexists. split; [reflexivity |]. cbn [Time.tv_sec Time.tv_nsec].
  rewrite !wrap64_id by lia. lia.
Qed.

Lemma tsAdd_adds_witness :
  exists a',
    tsAdd 3 (Time.mk 5 999999999) 2500000001 = Some a'
    /\ Time.normalised a'
    /\ Time.tv_sec a' * 1000000000 + Time.tv_nsec a'
       = 5 * 1000000000 + 999999999 + 2500000001.
Proof.
  apply (tsAdd_adds 3 (Time.mk 5 999999999) 2500000001);
    unfold Time.normalised; cbn [Time.tv_sec Time.tv_nsec]; try lia.
  vm_compute. discriminate.
Defined.

Example tsAdd_value : tsAdd 3 (Time.mk 5 999999999) 2500000001 = Some (Time.mk 8 500000000).
Proof. vm_compute. reflexivity. Qed.

(* ================================================================== *)
(** ** DDC/CI *)
(* ================================================================== *)

(** [cut_prefix] against string concatenation. *)
Lemma cut_prefix_iff (s pfx rest : string) :
  cut_prefix s pfx = Some rest <-> s = (pfx ++ rest)%string.
Proof.
  revert s. induction pfx as [| p pfx IH]; intros s; cbn [cut_prefix String.append].
  - split; [intros [= ->]; reflexivity | intros ->; reflexivity].
  - destruct s as [| c s].
    + split; [discriminate | discriminate].
    + destruct (Ascii.eqb_spec p c) as [-> | Hne].
      * rewrite IH. split; [intros ->; reflexivity | intros [= ->]; reflexivity].
      * split; [discriminate | intros [= -> _]; contradiction].
Qed.

(** X4.  [cut_prefix] returns the rest of [s] exactly when [s] starts with
    [pfx], and the null pointer exactly when it does not. *)
Theorem cut_prefix_spec (s pfx : string) :
  (forall rest, cut_prefix s pfx = Some rest <-> s = (pfx ++ rest)%string)
  /\ (cut_prefix s pfx = None <-> forall rest, s <> (pfx ++ rest)%string).
Proof.
  split; [intros rest; apply cut_prefix_iff |].
  split.
  - intros Hnone rest Hs. apply cut_prefix_iff in Hs. congruence.
  - intros Hno. destruct (cut_prefix s pfx) as [rest |] eqn:E; [| reflexivity].
    apply cut_prefix_iff in E. elim (Hno rest E).
Qed.

Example cut_prefix_values :
  cut_prefix "i2c-6" "i2c-" = Some "6"%string
  /\ cut_prefix "i2c" "i2c-" = None
  /\ cut_prefix "subsystem" "i2c-" = None.
Proof. repeat split; reflexivity. Qed.

Example atoi_values :
  atoi "6" = 6 /\ atoi " +12x" = 12 /\ atoi "-7" = -7 /\ atoi EmptyString = 0
  /\ atoi "99999999999" = 1215752191.
Proof. vm_compute. repeat split; reflexivity. Qed.

Lemma find_i2c_entry_none (names : list string) :
  Forall (fun name => cut_prefix name "i2c-" = None) names ->
  find_i2c_entry names = None.
Proof.
  induction 1 as [| name names Hn _ IH]; cbn [find_i2c_entry]; [reflexivity |].
  rewrite Hn. exact IH.
Qed.

Lemma find_i2c_entry_first (before after : list string) (s : string) :
  Forall (fun name => cut_prefix name "i2c-" = None) before ->
  find_i2c_entry (before ++ ("i2c-" ++ s)%string :: after) = Some (atoi s).
Proof.
  induction 1 as [| name names Hn _ IH]; cbn [find_i2c_entry app].
  - replace (cut_prefix ("i2c-" ++ s) "i2c-") with (Some s)
      by (symmetry; apply cut_prefix_iff; reflexivity).
    reflexivity.
  - rewrite Hn. exact IH.
Qed.

(** X5.  [ddcci_find_i2c] looks in the card's directory first and takes the
    first entry named [i2c-<n>]; only when that directory has none does it
    look in [ddc/i2c-dev].  A card directory that cannot be opened gives
    its errno; a missing [ddc/i2c-dev], or no entry in either, gives
    [-ENODEV].  When an entry is found the directory stream it was found
    in is not closed. *)
Theorem ddcci_find_i2c_search (fs : string -> Ddc.Dir) (card : string) :
  let dir1 := ("/sys/class/drm/" ++ card ++ "/")%string in
  let dir2 := ("/sys/class/drm/" ++ card ++ "/ddc/i2c-dev")%string in
  let no_i2c := Forall (fun name => cut_prefix name "i2c-" = None) in
  (forall e, fs dir1 = Ddc.Dir_error e ->
     ddcci_find_i2c fs card = (wrap32 (- e), None, [Ddc.Call_opendir dir1]))
  /\ (forall before s after,
        fs dir1 = Ddc.Dir_entries (before ++ ("i2c-" ++ s)%string :: after) ->
        no_i2c before ->
        ddcci_find_i2c fs card
        = (Ddc.ddcci_success, Some (atoi s), [Ddc.Call_opendir dir1]))
  /\ (forall names before s after,
        fs dir1 = Ddc.Dir_entries names -> no_i2c names ->
        fs dir2 = Ddc.Dir_entries (before ++ ("i2c-" ++ s)%string :: after) ->
        no_i2c before ->
        ddcci_find_i2c fs card
        = (Ddc.ddcci_success, Some (atoi s),
           [Ddc.Call_opendir dir1; Ddc.Call_closedir dir1; Ddc.Call_opendir dir2]))
  /\ (forall names, fs dir1 = Ddc.Dir_entries names -> no_i2c names ->
        (fs dir2 = Ddc.Dir_error Ddc.ENOENT
         \/ exists names2, fs dir2 = Ddc.Dir_entries names2 /\ no_i2c names2) ->
        fst (fst (ddcci_find_i2c fs card)) = - Ddc.ENODEV
        /\ snd (fst (ddcci_find_i2c fs card)) = None).
Proof.
  cbv zeta. unfold ddcci_find_i2c. repeat split.
  - intros e ->. reflexivity.
  - intros before s after -> Hb. rewrite find_i2c_entry_first by assumption. reflexivity.
  - intros names before s after -> Hn -> Hb.
    rewrite (find_i2c_entry_none names) by assumption.
    rewrite find_i2c_entry_first by assumption. reflexivity.
  - destruct H1 as [-> | [names2 [-> Hn2]]].
    + rewrite H, (find_i2c_entry_none names) by assumption. reflexivity.
    + rewrite H, (find_i2c_entry_none names) by assumption.
      rewrite (find_i2c_entry_none names2) by assumption. reflexivity.
  - destruct H1 as [-> | [names2 [-> Hn2]]].
    + rewrite H, (find_i2c_entry_none names) by assumption. reflexivity.
    + rewrite H, (find_i2c_entry_none names) by assumption.
      rewrite (find_i2c_entry_none names2) by assumption. reflexivity.
Qed.

Section DdcciFacts.

Variable os : list (Ddc.Syscall * Ddc.SysResult) -> Ddc.Syscall -> Ddc.SysResult.

(** A system call appends itself to the log. *)
Lemma syscall_log (c : Ddc.Syscall) (w : Ddc.World) :
  exists r, Ddc.log (snd (syscall os c w)) = Ddc.log w ++ [(c, r)]
            /\ (fst (syscall os c w) = -1 <-> exists e, r = Ddc.Err e)
            /\ (forall v, r = Ddc.Ok v -> fst (syscall os c w) = Z.of_N v).
Proof.
  unfold syscall. destruct (os (Ddc.log w) c) as [v | e]; cbn [fst snd Ddc.log].
  - exists (Ddc.Ok v). split; [reflexivity |]. split.
    + split; [lia | intros [e He]; discriminate].
    + intros v' [= <-]. reflexivity.
  - exists (Ddc.Err e). split; [reflexivity |]. split.
    + split; [intros _; eexists; reflexivity | reflexivity].
    + discriminate.
Qed.

(** The calls [ddcci_wait] makes are reads of the timer. *)
Definition is_read (e : Ddc.Syscall * Ddc.SysResult) : Prop :=
  exists fd r, e = (Ddc.Sys_read fd, r).

Lemma ddcci_wait_log (fuel : nat) (ddc : Ddc.ddcci) :
  forall (w w' : Ddc.World) (rc : Z),
  ddcci_wait os fuel ddc w = Some (rc, w') ->
  exists reads, Ddc.log w' = Ddc.log w ++ reads /\ Forall is_read reads.
Proof.
  induction fuel as [| fuel IH]; intros w w' rc; cbn [ddcci_wait]; [discriminate |].
  destruct (syscall_log (Ddc.Sys_read (Ddc.tfd ddc)) w) as [r [Hlog _]].
  destruct (syscall os (Ddc.Sys_read (Ddc.tfd ddc)) w) as [ret w1]. cbn [snd] in Hlog.
  assert (Hr : is_read (Ddc.Sys_read (Ddc.tfd ddc), r)) by (do 2 eexists; reflexivity).
  destruct (ret =? -1).
  - destruct ((Ddc.errno w1 =? Ddc.EINTR) || (Ddc.errno w1 =? Ddc.EAGAIN)).
    + intros Hw. destruct (IH _ _ _ Hw) as [reads [E F]].
      exists ((Ddc.Sys_read (Ddc.tfd ddc), r) :: reads).
      rewrite E, Hlog, <- app_assoc. split; [reflexivity | constructor; assumption].
    + intros [= _ <-]. exists [(Ddc.Sys_read (Ddc.tfd ddc), r)].
      split; [assumption | constructor; [assumption | constructor]].
  - intros [= _ <-]. exists [(Ddc.Sys_read (Ddc.tfd ddc), r)].
    split; [assumption | constructor; [assumption | constructor]].
Qed.

Lemma reads_written (reads : list (Ddc.Syscall * Ddc.SysResult)) :
  Forall is_read reads ->
  written reads = [] /\ obtained reads = [] /\ closed reads = [].
Proof.
  induction 1 as [| e reads [fd [r ->]] _ IH]; cbn; [repeat split |]. exact IH.
Qed.

Lemma written_app (a b : list (Ddc.Syscall * Ddc.SysResult)) :
  written (a ++ b) = written a ++ written b.
Proof. unfold written. apply flat_map_app. Qed.

Lemma obtained_app (a b : list (Ddc.Syscall * Ddc.SysResult)) :
  obtained (a ++ b) = obtained a ++ obtained b.
Proof. unfold obtained. apply flat_map_app. Qed.

Lemma closed_app (a b : list (Ddc.Syscall * Ddc.SysResult)) :
  closed (a ++ b) = closed a ++ closed b.
Proof. unfold closed. apply flat_map_app. Qed.

(** With a timer whose read is not interrupted, [ddcci_wait] returns after
    one read. *)
Definition uninterrupted : Prop :=
  forall l fd, os l (Ddc.Sys_read fd) <> Ddc.Err Ddc.EINTR
               /\ os l (Ddc.Sys_read fd) <> Ddc.Err Ddc.EAGAIN.

Lemma ddcci_wait_returns (fuel : nat) (ddc : Ddc.ddcci) (w : Ddc.World) :
  uninterrupted -> exists r, ddcci_wait os (S fuel) ddc w = Some r.
Proof.
  intros Hu. cbn [ddcci_wait]. unfold syscall.
  destruct (Hu (Ddc.log w) (Ddc.tfd ddc)) as [H1 H2].
  destruct (os (Ddc.log w) (Ddc.Sys_read (Ddc.tfd ddc))) as [v | e].
  - replace (Z.of_N v =? -1) with false by (symmetry; apply Z.eqb_neq; lia).
    eexists; reflexivity.
  - cbn [Ddc.errno]. change (-1 =? -1) with true. cbv iota.
    destruct (Z.eqb_spec e Ddc.EINTR) as [-> | _]; [contradiction |].
    destruct (Z.eqb_spec e Ddc.EAGAIN) as [-> | _]; [contradiction |].
    eexists; reflexivity.
Qed.

(* ------------------------------------------------------------------ *)
(** *** The packet *)

Lemma put_all_some (bytes : list Z) :
  forall buf : list Z,
  (length buf + length bytes <= 256)%nat ->
  put_all buf bytes = Some (buf ++ map u8 bytes).
Proof.
  induction bytes as [| b bytes IH]; intros buf Hlen; cbn [put_all map].
  - rewrite app_nil_r. reflexivity.
  - unfold put. cbn [length] in Hlen.
    destruct (Nat.ltb_spec (length buf) 256) as [_ | Hge]; [| lia].
    rewrite IH by (rewrite length_app; cbn [length]; lia).
    rewrite <- app_assoc. reflexivity.
Qed.

Lemma put_all_none (bytes : list Z) :
  forall buf : list Z,
  (256 < length buf + length bytes)%nat ->
  put_all buf bytes = None \/ exists buf', put_all buf bytes = Some buf' /\ (256 < length buf')%nat.
Proof.
  induction bytes as [| b bytes IH]; intros buf Hlen; cbn [put_all].
  - cbn [length] in Hlen. right. exists buf. split; [reflexivity | lia].
  - unfold put. cbn [length] in Hlen.
    destruct (Nat.ltb_spec (length buf) 256) as [Hlt | Hge]; [| left; reflexivity].
    apply IH. rewrite length_app. cbn [length]. lia.
Qed.

Lemma put_all_bound (bytes : list Z) :
  forall buf buf' : list Z,
  (length buf <= 256)%nat ->
  put_all buf bytes = Some buf' -> (length buf' <= 256)%nat.
Proof.
  induction bytes as [| b bytes IH]; intros buf buf' Hlen; cbn [put_all].
  - intros [= <-]. assumption.
  - unfold put. destruct (Nat.ltb_spec (length buf) 256) as [Hlt | Hge]; [| discriminate].
    apply IH. rewrite length_app. cbn [length]. lia.
Qed.

Lemma checksum_snoc (l : list Z) (c : Z) :
  checksum (l ++ [c]) = l ++ [fold_left Z.lxor l c].
Proof. unfold checksum. rewrite removelast_last, last_last. reflexivity. Qed.

Lemma fold_lxor_acc (l : list Z) (a : Z) :
  fold_left Z.lxor l a = Z.lxor a (fold_left Z.lxor l 0).
Proof.
  revert a. induction l as [| x l IH]; intros a; cbn [fold_left].
  - rewrite Z.lxor_0_r. reflexivity.
  - rewrite (IH (Z.lxor a x)), (IH (Z.lxor 0 x)), Z.lxor_0_l, Z.lxor_assoc. reflexivity.
Qed.

(** The bytes of a packet, the checksum included, cancel against the
    destination address [0x6E]. *)
Lemma checksum_cancels (l : list Z) (c : Z) :
  fold_left Z.lxor (l ++ [fold_left Z.lxor l c]) c = 0.
Proof.
  rewrite fold_left_app. cbn [fold_left]. apply Z.lxor_nilpotent.
Qed.

Definition header (cmd : list Z) : list Z :=
  [0x51; Z.lor 0x80 (Z.of_nat (length cmd))].

Lemma lor_128_byte (n : Z) : 0 <= n < 256 -> 0 <= Z.lor 128 n < 256.
Proof.
  intros Hn. split; [apply Z.lor_nonneg; lia |].
  change 256 with (2 ^ 8).
  apply Z.log2_lt_pow2; [pose proof (Z.lor_nonneg 128 n);
                         assert (Z.lor 128 n <> 0) by (rewrite Z.lor_eq_0_iff; lia); lia |].
  rewrite Z.log2_lor by lia.
  apply Z.max_lub_lt; [reflexivity |].
  destruct (Z.eq_dec n 0) as [-> | Hnz]; [reflexivity |].
  apply Z.log2_lt_pow2; lia.
Qed.

Lemma tx_packet_fits (cmd : list Z) :
  (length cmd <= 253)%nat ->
  tx_packet cmd
  = Some (header cmd ++ map u8 cmd
          ++ [fold_left Z.lxor (header cmd ++ map u8 cmd) 0x6E]).
Proof.
  intros Hlen. unfold tx_packet, put at 1 2. cbn [length Nat.ltb Nat.leb app].
  rewrite put_all_some by (cbn [length]; lia).
  unfold put. rewrite length_app, length_map. cbn [length].
  destruct (Nat.ltb_spec (2 + length cmd) 256) as [_ | Hge]; [| lia].
  rewrite checksum_snoc. unfold header.
  assert (E1 : u8 (Z.of_nat (length cmd)) = Z.of_nat (length cmd))
    by (unfold u8; apply Z.mod_small; lia).
  rewrite E1.
  assert (E2 : u8 (Z.lor 128 (Z.of_nat (length cmd))) = Z.lor 128 (Z.of_nat (length cmd)))
    by (unfold u8; apply Z.mod_small; apply lor_128_byte; lia).
  rewrite E2.
  rewrite <- app_assoc. reflexivity.
Qed.

Lemma tx_packet_overflows (cmd : list Z) :
  (254 <= length cmd)%nat -> tx_packet cmd = None.
Proof.
  intros Hlen. unfold tx_packet, put at 1 2. cbn [length Nat.ltb Nat.leb app].
  set (hdr := [u8 Ddc.I2C_ADDR_HOST; u8 (Z.lor 128 (u8 (Z.of_nat (length cmd))))]).
  destruct (put_all hdr cmd) as [buf |] eqn:E; [| reflexivity].
  unfold put.
  destruct (Nat.ltb_spec (length buf) 256) as [Hlt | _]; [| reflexivity].
  exfalso.
  destruct (Nat.le_gt_cases (length cmd) 254) as [Hle | Hgt].
  - rewrite put_all_some in E by (subst hdr; cbn [length]; lia).
    injection E as <-. subst hdr. cbn [app length] in Hlt.
    rewrite length_map in Hlt. lia.
  - destruct (put_all_none cmd hdr) as [H0 | [buf' [H0 H1]]];
      [subst hdr; cbn [length]; lia | congruence |].
    rewrite E in H0. injection H0 as <-. lia.
Qed.

Lemma map_u8_bytes (cmd : list Z) :
  Forall (fun b => 0 <= b < 256) cmd -> map u8 cmd = cmd.
Proof.
  induction 1 as [| b cmd Hb _ IH]; cbn [map]; [reflexivity |].
  rewrite IH. unfold u8. rewrite Z.mod_small by exact Hb. reflexivity.
Qed.

Lemma tx_packet_cases (cmd : list Z) :
  ((length cmd <= 253)%nat
   /\ tx_packet cmd
      = Some (header cmd ++ map u8 cmd
              ++ [fold_left Z.lxor (header cmd ++ map u8 cmd) 0x6E]))
  \/ ((254 <= length cmd)%nat /\ tx_packet cmd = None).
Proof.
  destruct (Nat.le_gt_cases (length cmd) 253) as [Hle | Hgt].
  - left. split; [assumption | apply tx_packet_fits; assumption].
  - right. split; [lia | apply tx_packet_overflows; lia].
Qed.

(** The length byte carries the command length in its low seven bits as
    long as the command is shorter than 128 bytes. *)
Lemma length_byte_decodes (n : Z) :
  0 <= n < 128 -> Z.land (Z.lor 0x80 n) 0x7F = n.
Proof.
  intros Hn. rewrite Z.land_lor_distr_l. change (Z.land 128 127) with 0.
  rewrite Z.lor_0_l. change 127 with (Z.ones 7). rewrite Z.land_ones by lia.
  apply Z.mod_small. change (2 ^ 7) with 128. lia.
Qed.

(** X6.  Whenever [ddcci_tx] returns success it has handed exactly one
    packet to [write]: the host address [0x51], the length byte
    [0x80 | cmd_len], the command, and a checksum byte that makes the
    exclusive or of the destination address [0x6E] and all the packet's
    bytes zero; the low seven bits of the length byte are the command
    length when that is below 128. *)
Theorem ddcci_tx_packet_checksum (fuel : nat) (ddc : Ddc.ddcci) (cmd : list Z)
    (wait_ms : Z) (w w' : Ddc.World) :
  Forall (fun b => 0 <= b < 256) cmd ->
  ddcci_tx os fuel ddc cmd wait_ms w = Some (Ddc.Returned Ddc.ddcci_success w') ->
  exists new ck,
    let packet := 0x51 :: Z.lor 0x80 (Z.of_nat (length cmd)) :: cmd ++ [ck] in
    Ddc.log w' = Ddc.log w ++ new
    /\ written new = [packet]
    /\ fold_left Z.lxor packet 0x6E = 0
    /\ (Z.of_nat (length cmd) < 128 ->
        Z.land (nth 1 packet 0) 0x7F = Z.of_nat (length cmd)).
Proof.
  intros Hbytes. unfold ddcci_tx.
  destruct (Z.ltb_spec 255 (Z.of_nat (length cmd))) as [Hbig | Hsmall]; [discriminate |].
  destruct (ddcci_wait os fuel ddc w) as [[rc w1] |] eqn:Hwait; [| discriminate].
  destruct (ddcci_wait_log _ _ _ _ _ Hwait) as [reads [Hlog1 Hreads]].
  destruct (reads_written _ Hreads) as [Hw1 _].
  destruct (Z.eqb_spec rc 0) as [-> | Hrc]; cbn [negb];
    [| intros [= E _]; contradiction].
  destruct (tx_packet_cases cmd) as [[Hlen Hp] | [Hlen Hp]]; rewrite Hp; [| discriminate].
  rewrite (map_u8_bytes cmd Hbytes).
  set (ck := fold_left Z.lxor (header cmd ++ cmd) 110).
  set (packet := header cmd ++ cmd ++ [ck]).
  destruct (syscall_log (Ddc.Sys_write (Ddc.fd ddc) packet) w1) as [r [Hlog2 _]].
  destruct (syscall os (Ddc.Sys_write (Ddc.fd ddc) packet) w1) as [ret w2].
  cbn [snd] in Hlog2.
  assert (Hck : fold_left Z.lxor packet 110 = 0).
  { subst packet ck. rewrite app_assoc. apply checksum_cancels. }
  assert (Hdec : Z.of_nat (length cmd) < 128 ->
                 Z.land (nth 1 packet 0) 127 = Z.of_nat (length cmd)).
  { intros Hn. subst packet. unfold header. cbn [app nth].
    apply length_byte_decodes. lia. }
  destruct (ret =? -1).
  - intros [= _ <-]. exists (reads ++ [(Ddc.Sys_write (Ddc.fd ddc) packet, r)]), ck.
    cbv zeta. change (81 :: Z.lor 128 (Z.of_nat (length cmd)) :: cmd ++ [ck]) with packet.
    rewrite Hlog2, Hlog1, <- app_assoc, written_app, Hw1.
    repeat split; [assumption | assumption].
  - unfold ddcci_wait_set.
    match goal with |- context [syscall os ?c w2] =>
      destruct (syscall_log c w2) as [r3 [Hlog3 _]];
      destruct (syscall os c w2) as [ret3 w3]; set (settime := c) in *
    end.
    cbn [snd] in Hlog3.
    assert (E : Ddc.log w3
                = Ddc.log w ++ reads ++ [(Ddc.Sys_write (Ddc.fd ddc) packet, r); (settime, r3)]).
    { rewrite Hlog3, Hlog2, Hlog1, <- !app_assoc. reflexivity. }
    assert (Hwr : written (reads ++ [(Ddc.Sys_write (Ddc.fd ddc) packet, r); (settime, r3)])
                  = [packet]).
    { rewrite written_app, Hw1. reflexivity. }
    destruct (ret3 =? -1); cbn [negb].
    + destruct (Z.eqb_spec (ddcci_errno w3) 0) as [E0 | E0]; cbn [negb];
        [intros [= <-] | intros [= E1 _]; contradiction].
      eexists _, ck. cbv zeta.
      change (81 :: Z.lor 128 (Z.of_nat (length cmd)) :: cmd ++ [ck]) with packet.
      repeat split; eassumption.
    + cbn [Z.eqb Ddc.ddcci_success negb]. intros [= <-].
      eexists _, ck. cbv zeta.
      change (81 :: Z.lor 128 (Z.of_nat (length cmd)) :: cmd ++ [ck]) with packet.
      repeat split; eassumption.
Qed.

Lemma ddcci_tx_returns (fuel : nat) (ddc : Ddc.ddcci) (cmd : list Z)
    (wait_ms : Z) (w : Ddc.World) :
  uninterrupted -> exists o, ddcci_tx os (S fuel) ddc cmd wait_ms w = Some o.
Proof.
  intros Hu. unfold ddcci_tx.
  destruct (255 <? Z.of_nat (length cmd)); [eexists; reflexivity |].
  destruct (ddcci_wait_returns fuel ddc w Hu) as [[rc w1] ->].
  destruct (negb (rc =? 0)); [eexists; reflexivity |].
  destruct (tx_packet cmd) as [buf |]; [| eexists; reflexivity].
  destruct (syscall os (Ddc.Sys_write (Ddc.fd ddc) buf) w1) as [ret w2].
  destruct (ret =? -1); [eexists; reflexivity |].
  destruct (ddcci_wait_set os ddc wait_ms w2) as [rc3 w3].
  destruct (negb (rc3 =? 0)); eexists; reflexivity.
Qed.

(** The packet of a command of up to 253 bytes fits the buffer. *)
Lemma ddcci_tx_no_overflow (fuel : nat) (ddc : Ddc.ddcci) (cmd : list Z)
    (wait_ms : Z) (w w' : Ddc.World) :
  (length cmd <= 253)%nat ->
  ddcci_tx os fuel ddc cmd wait_ms w <> Some (Ddc.Overflow w').
Proof.
  intros Hn. unfold ddcci_tx.
  destruct (255 <? Z.of_nat (length cmd)); [discriminate |].
  destruct (ddcci_wait os fuel ddc w) as [[rc w1] |]; [| discriminate].
  destruct (negb (rc =? 0)); [discriminate |].
  rewrite tx_packet_fits by assumption.
  match goal with |- context [syscall os ?c w1] => destruct (syscall os c w1) as [ret w2] end.
  destruct (ret =? -1); [discriminate |].
  destruct (ddcci_wait_set os ddc wait_ms w2) as [rc3 w3].
  destruct (negb (rc3 =? 0)); discriminate.
Qed.

(** X7.  The guard of [ddcci_tx] lets commands of up to 255 bytes through,
    but the 256-byte buffer only holds the packet of a command of up to 253
    bytes: a longer command is refused with [ddcci_err_invalid_argument]
    before anything is done only from 256 bytes on, and one of 254 or 255
    bytes runs past the end of the buffer once the timer has been waited
    for.  With a timer whose read is not interrupted the function always
    ends. *)
Theorem ddcci_tx_buffer_bound (fuel : nat) (ddc : Ddc.ddcci) (cmd : list Z)
    (wait_ms : Z) (w : Ddc.World) :
  let n := length cmd in
  ((255 < n)%nat ->
   ddcci_tx os fuel ddc cmd wait_ms w
   = Some (Ddc.Returned Ddc.ddcci_err_invalid_argument w))
  /\ ((n <= 253)%nat ->
      forall w', ddcci_tx os fuel ddc cmd wait_ms w <> Some (Ddc.Overflow w'))
  /\ ((254 <= n <= 255)%nat ->
      forall w1, ddcci_wait os fuel ddc w = Some (Ddc.ddcci_success, w1) ->
      ddcci_tx os fuel ddc cmd wait_ms w = Some (Ddc.Overflow w1))
  /\ (uninterrupted -> exists o, ddcci_tx os (S fuel) ddc cmd wait_ms w = Some o).
Proof.
  cbv zeta. split; [| split; [| split]].
  - intros Hn. unfold ddcci_tx.
    destruct (Z.ltb_spec 255 (Z.of_nat (length cmd))); [reflexivity | lia].
  - intros Hn w'. apply ddcci_tx_no_overflow. exact Hn.
  - intros Hn w1 Hwait. unfold ddcci_tx.
    destruct (Z.ltb_spec 255 (Z.of_nat (length cmd))); [lia |].
    rewrite Hwait. cbn [Ddc.ddcci_success Z.eqb negb].
    rewrite tx_packet_overflows by lia. reflexivity.
  - apply ddcci_tx_returns.
Qed.

(** Failing calls set a positive errno that fits an [int]. *)
Definition valid_errnos : Prop :=
  forall l c e, os l c = Ddc.Err e -> 0 < e < 2 ^ 31.

Lemma ddcci_errno_nonzero (w : Ddc.World) :
  0 < Ddc.errno w < 2 ^ 31 -> ddcci_errno w <> 0.
Proof. intros He. unfold ddcci_errno. rewrite wrap32_id by lia. lia. Qed.

(** What a call leaves behind, by its result. *)
Lemma syscall_cases (c : Ddc.Syscall) (w : Ddc.World) :
  (exists v, syscall os c w
             = (Z.of_N v, Ddc.mkWorld (Ddc.errno w) (Ddc.log w ++ [(c, Ddc.Ok v)])))
  \/ (exists e, os (Ddc.log w) c = Ddc.Err e
                /\ syscall os c w = (-1, Ddc.mkWorld e (Ddc.log w ++ [(c, Ddc.Err e)]))).
Proof.
  unfold syscall. destruct (os (Ddc.log w) c) as [v | e] eqn:E.
  - left. exists v. reflexivity.
  - right. exists e. split; reflexivity.
Qed.

Lemma of_N_not_m1 (v : N) : (Z.of_N v =? -1) = false.
Proof. apply Z.eqb_neq. lia. Qed.

Lemma ddcci_wait_success (fuel : nat) (ddc : Ddc.ddcci) :
  valid_errnos ->
  forall (w w' : Ddc.World) (rc : Z),
  ddcci_wait os fuel ddc w = Some (rc, w') ->
  rc = 0 \/ (rc = ddcci_errno w' /\ rc <> 0).
Proof.
  intros Hv. induction fuel as [| fuel IH]; intros w w' rc; cbn [ddcci_wait]; [discriminate |].
  destruct (syscall_cases (Ddc.Sys_read (Ddc.tfd ddc)) w) as [[v ->] | [e [He ->]]].
  - rewrite of_N_not_m1. intros [= <- _]. left. reflexivity.
  - change (-1 =? -1) with true. cbv iota. cbn [Ddc.errno].
    destruct ((e =? Ddc.EINTR) || (e =? Ddc.EAGAIN)); [apply IH |].
    intros [= <- <-]. right. split; [reflexivity |].
    apply ddcci_errno_nonzero. cbn [Ddc.errno]. eapply Hv. exact He.
Qed.

(** X8.  [ddcci_vcp_set] never runs past the packet buffer, and when it
    returns success it has, after waiting for the timer, written the
    seven-byte "set VCP feature" packet [51 84 03 vcp hi lo ck], with the
    value's high byte first and [ck] the exclusive or of [0xB8] and the
    three variable bytes, and has then armed the timer for 50 ms. *)
Theorem ddcci_vcp_set_packet (fuel : nat) (ddc : Ddc.ddcci) (vcp val : Z)
    (w : Ddc.World) :
  0 <= vcp < 256 -> 0 <= val < 65536 ->
  valid_errnos ->
  (forall w', ddcci_vcp_set os fuel ddc vcp val w <> Some (Ddc.Overflow w'))
  /\ (forall w',
        ddcci_vcp_set os fuel ddc vcp val w = Some (Ddc.Returned Ddc.ddcci_success w') ->
        exists reads v1 v2,
          Forall is_read reads
          /\ Ddc.log w'
             = Ddc.log w ++ reads
               ++ [(Ddc.Sys_write (Ddc.fd ddc)
                      [0x51; 0x84; 0x03; vcp; val / 256; val mod 256;
                       Z.lxor (Z.lxor (Z.lxor 0xB8 vcp) (val / 256)) (val mod 256)],
                    Ddc.Ok v1);
                   (Ddc.Sys_timerfd_settime (Ddc.tfd ddc) 0 50000000 0 100000,
                    Ddc.Ok v2)]).
Proof.
  intros Hvcp Hval Hv.
  assert (Ehi : u8 (Z.land (Z.shiftr val 8) 255) = val / 256).
  { change 255 with (Z.ones 8). rewrite Z.land_ones, Z.shiftr_div_pow2 by lia.
    change (2 ^ 8) with 256.
    assert (0 <= val / 256 < 256)
      by (split; [apply Z.div_pos; lia | apply Z.div_lt_upper_bound; lia]).
    unfold u8. change (2 ^ 8) with 256. rewrite Z.mod_mod by lia.
    apply Z.mod_small. lia. }
  assert (Elo : u8 (Z.land val 255) = val mod 256).
  { change 255 with (Z.ones 8). rewrite Z.land_ones by lia. change (2 ^ 8) with 256.
    unfold u8. change (2 ^ 8) with 256. rewrite Z.mod_mod by lia. reflexivity. }
  assert (Evcp : u8 vcp = vcp) by (unfold u8; apply Z.mod_small; exact Hvcp).
  unfold ddcci_vcp_set. rewrite Ehi, Elo, Evcp. change (u8 3) with 3.
  set (cmd := [3; vcp; val / 256; val mod 256]).
  split.
  - intros w'. apply ddcci_tx_no_overflow. cbn. lia.
  - intros w'. unfold ddcci_tx. change (255 <? Z.of_nat (length cmd)) with false. cbv iota.
    destruct (ddcci_wait os fuel ddc w) as [[rc w1] |] eqn:Hwait; [| discriminate].
    destruct (ddcci_wait_log _ _ _ _ _ Hwait) as [reads [Hlog1 Hreads]].
    destruct (Z.eqb_spec rc 0) as [-> | Hrc]; cbn [negb];
      [| intros [= E _]; contradiction].
    rewrite tx_packet_fits by (cbn; lia).
    assert (Ebytes : map u8 cmd = cmd).
    { apply map_u8_bytes. subst cmd.
      assert (0 <= val / 256 < 256)
        by (split; [apply Z.div_pos; lia | apply Z.div_lt_upper_bound; lia]).
      pose proof (Z.mod_pos_bound val 256 ltac:(lia)).
      repeat (apply Forall_cons; [lia |]). apply Forall_nil. }
    rewrite Ebytes.
    assert (Epk : header cmd ++ cmd ++ [fold_left Z.lxor (header cmd ++ cmd) 110]
                  = [81; 132; 3; vcp; val / 256; val mod 256;
                     Z.lxor (Z.lxor (Z.lxor 184 vcp) (val / 256)) (val mod 256)])
      by reflexivity.
    rewrite Epk. clear Epk.
    match goal with |- context [syscall os ?c w1] =>
      destruct (syscall_cases c w1) as [[v1 ->] | [e [He ->]]]
    end.
    + rewrite of_N_not_m1. unfold ddcci_wait_set.
      change (u64 (u64 50 * 1000000) / 1000000000) with 0.
      change (u64 (u64 50 * 1000000) mod 1000000000) with 50000000.
      match goal with |- context [syscall os ?c ?w2] =>
        destruct (syscall_cases c w2) as [[v2 ->] | [e [He ->]]]
      end.
      * rewrite of_N_not_m1. cbn [Ddc.ddcci_success Z.eqb negb]. intros [= <-].
        exists reads, v1, v2. split; [assumption |].
        cbn [Ddc.log]. rewrite Hlog1, <- !app_assoc. reflexivity.
      * change (-1 =? -1) with true. cbv iota.
        match goal with |- context [ddcci_errno ?w3] =>
          pose proof (ddcci_errno_nonzero w3 (Hv _ _ _ He)) as Hne;
          destruct (Z.eqb_spec (ddcci_errno w3) 0) as [E0 | _]; [contradiction |]
        end.
        cbn [negb]. intros [= E _]. contradiction.
    + change (-1 =? -1) with true. cbv iota. intros [= E _].
      exfalso. revert E. apply ddcci_errno_nonzero. cbn [Ddc.errno]. eapply Hv. exact He.
Qed.

(** [ddcci_close] closes the descriptors that are not -1, obtains none and
    leaves both fields 0. *)
Lemma ddcci_close_log (ddc : Ddc.ddcci) (w : Ddc.World) :
  exists new,
    Ddc.log (snd (ddcci_close os ddc w)) = Ddc.log w ++ new
    /\ closed new
       = (if Ddc.fd ddc =? -1 then [] else [Ddc.fd ddc])
         ++ (if Ddc.tfd ddc =? -1 then [] else [Ddc.tfd ddc])
    /\ obtained new = []
    /\ fst (ddcci_close os ddc w) = (Ddc.ddcci_success, Ddc.mk 0 0).
Proof.
  unfold ddcci_close.
  destruct (Ddc.fd ddc =? -1); cbn [negb].
  - destruct (Ddc.tfd ddc =? -1); cbn [negb fst snd].
    + exists []. rewrite app_nil_r. repeat split.
    + destruct (syscall_log (Ddc.Sys_close (Ddc.tfd ddc)) w) as [r [Hlog _]].
      eexists. split; [exact Hlog |]. repeat split.
  - destruct (syscall_log (Ddc.Sys_close (Ddc.fd ddc)) w) as [r [Hlog _]].
    destruct (Ddc.tfd ddc =? -1); cbn [negb fst snd].
    + eexists. split; [exact Hlog |]. repeat split.
    + destruct (syscall_log (Ddc.Sys_close (Ddc.tfd ddc))
                  (snd (syscall os (Ddc.Sys_close (Ddc.fd ddc)) w))) as [r' [Hlog' _]].
      eexists. split; [rewrite Hlog', Hlog, <- app_assoc; reflexivity |]. repeat split.
Qed.

(** X9.  [ddcci_open] either returns success holding the two descriptors it
    obtained, having closed nothing, or returns [-errno] having closed
    exactly the descriptors it had obtained, each once, and leaving both
    fields of the struct 0.  With a timer whose read is not interrupted it
    always returns. *)
Theorem ddcci_open_descriptors (fuel : nat) (ddc : Ddc.ddcci) (i2c : Z) (w : Ddc.World) :
  (forall rc ddc' w',
     ddcci_open os fuel ddc i2c w = Some (rc, ddc', w') ->
     exists new,
       Ddc.log w' = Ddc.log w ++ new
       /\ ((rc = Ddc.ddcci_success
            /\ closed new = []
            /\ obtained new = [Ddc.fd ddc'; Ddc.tfd ddc'])
           \/ (rc = ddcci_errno w'
               /\ closed new = obtained new
               /\ ddc' = Ddc.mk 0 0)))
  /\ (uninterrupted -> exists r, ddcci_open os (S fuel) ddc i2c w = Some r).
Proof.
  split.
  - intros rc ddc' w'. unfold ddcci_open. cbn [Ddc.fd Ddc.tfd].
    (* the failure paths all end in [ddcci_close] *)
    assert (Hfail : forall (d : Ddc.ddcci) (w0 : Ddc.World) (pre : list (Ddc.Syscall * Ddc.SysResult)),
              Ddc.log w0 = Ddc.log w ++ pre ->
              obtained pre
              = (if Ddc.fd d =? -1 then [] else [Ddc.fd d])
                ++ (if Ddc.tfd d =? -1 then [] else [Ddc.tfd d]) ->
              closed pre = [] ->
              (let '(_, ddc0, w1) := ddcci_close os d w0 in Some (ddcci_errno w1, ddc0, w1))
              = Some (rc, ddc', w') ->
              exists new,
                Ddc.log w' = Ddc.log w ++ new
                /\ ((rc = Ddc.ddcci_success /\ closed new = []
                     /\ obtained new = [Ddc.fd ddc'; Ddc.tfd ddc'])
                    \/ (rc = ddcci_errno w' /\ closed new = obtained new
                        /\ ddc' = Ddc.mk 0 0))).
    { intros d w0 pre Hpre Hob Hcl.
      destruct (ddcci_close_log d w0) as [new [Hlog [Hc [Ho Hret]]]].
      destruct (ddcci_close os d w0) as [[x d1] w1]. cbn [fst snd] in *.
      injection Hret as _ ->. intros [= <- <- <-].
      exists (pre ++ new). split; [rewrite Hlog, Hpre, <- app_assoc; reflexivity |].
      right. split; [reflexivity |]. split; [| reflexivity].
      rewrite closed_app, obtained_app, Hcl, Ho, Hc, Hob, app_nil_r. reflexivity. }
    destruct (syscall_cases (Ddc.Sys_open i2c) w) as [[v1 ->] | [e [He ->]]].
    2:{ change (-1 =? -1) with true. cbv iota.
        apply (Hfail _ _ [(Ddc.Sys_open i2c, Ddc.Err e)]); reflexivity. }
    rewrite of_N_not_m1.
    match goal with |- context [syscall os ?c ?w1] =>
      destruct (syscall_cases c w1) as [[v2 ->] | [e [He ->]]]
    end.
    2:{ change (-1 =? -1) with true. cbv iota.
        eapply Hfail; [cbn [Ddc.log]; rewrite <- app_assoc; reflexivity | |].
        - cbn [Ddc.fd Ddc.tfd]. rewrite of_N_not_m1. reflexivity.
        - reflexivity. }
    rewrite of_N_not_m1.
    match goal with |- context [syscall os ?c ?w1] =>
      destruct (syscall_cases c w1) as [[v3 ->] | [e [He ->]]]
    end.
    2:{ change (-1 =? -1) with true. cbv iota.
        eapply Hfail; [cbn [Ddc.log]; rewrite <- !app_assoc; reflexivity | |].
        - cbn [Ddc.fd Ddc.tfd]. rewrite of_N_not_m1. reflexivity.
        - reflexivity. }
    rewrite of_N_not_m1. unfold ddcci_wait_set. cbn [Ddc.tfd Ddc.fd].
    match goal with |- context [syscall os ?c ?w1] =>
      destruct (syscall_cases c w1) as [[v4 ->] | [e [He ->]]]
    end.
    + rewrite of_N_not_m1. cbn [Ddc.ddcci_success Z.eqb negb].
      match goal with |- context [ddcci_wait os fuel ?d ?w1] =>
        destruct (ddcci_wait os fuel d w1) as [[rcw w5] |] eqn:Hwait; [| discriminate]
      end.
      destruct (ddcci_wait_log _ _ _ _ _ Hwait) as [reads [Hlog Hreads]].
      destruct (reads_written _ Hreads) as [_ [Ho Hc]].
      cbn [Ddc.log] in Hlog. intros [= <- <- <-].
      eexists. split; [rewrite Hlog, <- !app_assoc; reflexivity |].
      left. split; [reflexivity |].
      rewrite !closed_app, !obtained_app, Ho, Hc. split; reflexivity.
    + change (-1 =? -1) with true. cbv iota.
      match goal with |- context [negb (ddcci_errno ?w4 =? 0)] =>
        destruct (negb (ddcci_errno w4 =? 0))
      end.
      * eapply Hfail; [cbn [Ddc.log]; rewrite <- !app_assoc; reflexivity | |].
        -- cbn [Ddc.fd Ddc.tfd]. rewrite !of_N_not_m1. reflexivity.
        -- reflexivity.
      * (* errno 0 after a failed call: the code goes on as after a success *)
        match goal with |- context [ddcci_wait os fuel ?d ?w1] =>
          destruct (ddcci_wait os fuel d w1) as [[rcw w5] |] eqn:Hwait; [| discriminate]
        end.
        destruct (ddcci_wait_log _ _ _ _ _ Hwait) as [reads [Hlog Hreads]].
        destruct (reads_written _ Hreads) as [_ [Ho Hc]].
        cbn [Ddc.log] in Hlog. intros [= <- <- <-].
        eexists. split; [rewrite Hlog, <- !app_assoc; reflexivity |].
        left. split; [reflexivity |].
        rewrite !closed_app, !obtained_app, Ho, Hc. split; reflexivity.
  - intros Hu. unfold ddcci_open.
    destruct (syscall os (Ddc.Sys_open i2c) w) as [r1 w1].
    destruct (r1 =? -1).
    { destruct (ddcci_close os _ w1) as [[x d] w2]. eexists; reflexivity. }
    match goal with |- context [syscall os ?c w1] => destruct (syscall os c w1) as [r2 w2] end.
    destruct (r2 =? -1).
    { destruct (ddcci_close os _ w2) as [[x d] w3]. eexists; reflexivity. }
    destruct (syscall os Ddc.Sys_timerfd_create w2) as [r3 w3].
    destruct (r3 =? -1).
    { destruct (ddcci_close os _ w3) as [[x d] w4]. eexists; reflexivity. }
    match goal with |- context [ddcci_wait_set os ?d 1 w3] =>
      destruct (ddcci_wait_set os d 1 w3) as [rc w4]
    end.
    destruct (negb (rc =? 0)).
    { destruct (ddcci_close os _ w4) as [[x d] w5]. eexists; reflexivity. }
    match goal with |- context [ddcci_wait os (S fuel) ?d w4] =>
      destruct (ddcci_wait_returns fuel d w4 Hu) as [[rcw w5] ->]
    end.
    eexists; reflexivity.
Qed.

End DdcciFacts.

(* ------------------------------------------------------------------ *)
(** *** DDC/CI on concrete systems *)

(** A system on which every call succeeds and returns 3, and one on which
    the i2c device refuses the slave address with [EBUSY]. *)
Definition os_ok : list (Ddc.Syscall * Ddc.SysResult) -> Ddc.Syscall -> Ddc.SysResult :=
  fun _ _ => Ddc.Ok 3%N.

Definition os_busy : list (Ddc.Syscall * Ddc.SysResult) -> Ddc.Syscall -> Ddc.SysResult :=
  fun _ c => match c with
             | Ddc.Sys_ioctl _ _ _ => Ddc.Err 16
             | _ => Ddc.Ok 3%N
             end.

Definition world0 : Ddc.World := Ddc.mkWorld 0 [].

Definition outcome_world (o : option Ddc.Outcome) : Ddc.World :=
  match o with
  | Some (Ddc.Returned _ w) | Some (Ddc.Overflow w) => w
  | None => world0
  end.

(** The input-select command of main.c, [ddcci_vcp_set(&ddcci, 0x60, 0x12)],
    on the wire. *)
Example vcp_set_input_select :
  ddcci_vcp_set os_ok 1 (Ddc.mk 3 4) 0x60 0x12 world0
  = Some (Ddc.Returned 0
            (Ddc.mkWorld 0
               [(Ddc.Sys_read 4, Ddc.Ok 3%N);
                (Ddc.Sys_write 3 [0x51; 0x84; 0x03; 0x60; 0x00; 0x12; 0xca], Ddc.Ok 3%N);
                (Ddc.Sys_timerfd_settime 4 0 50000000 0 100000, Ddc.Ok 3%N)])).
Proof. vm_compute. reflexivity. Qed.

Lemma ddcci_tx_packet_checksum_witness :
  exists new ck,
    let cmd := [3; 96; 0; 18] in
    let packet := 0x51 :: Z.lor 0x80 (Z.of_nat (length cmd)) :: cmd ++ [ck] in
    Ddc.log (outcome_world (ddcci_tx os_ok 1 (Ddc.mk 3 4) cmd 50 world0))
    = Ddc.log world0 ++ new
    /\ written new = [packet]
    /\ fold_left Z.lxor packet 0x6E = 0
    /\ (Z.of_nat (length cmd) < 128 ->
        Z.land (nth 1 packet 0) 0x7F = Z.of_nat (length cmd)).
Proof.
  apply (ddcci_tx_packet_checksum os_ok 1 (Ddc.mk 3 4) [3; 96; 0; 18] 50 world0).
  - repeat (apply Forall_cons; [lia |]). apply Forall_nil.
  - vm_compute. reflexivity.
Defined.

Lemma valid_errnos_ok : valid_errnos os_ok.
Proof. intros l c e. discriminate. Qed.

Lemma ddcci_vcp_set_packet_witness :
  (forall w', ddcci_vcp_set os_ok 1 (Ddc.mk 3 4) 0x60 0x12 world0 <> Some (Ddc.Overflow w'))
  /\ (forall w',
        ddcci_vcp_set os_ok 1 (Ddc.mk 3 4) 0x60 0x12 world0
        = Some (Ddc.Returned Ddc.ddcci_success w') ->
        exists reads v1 v2,
          Forall is_read reads
          /\ Ddc.log w'
             = Ddc.log world0 ++ reads
               ++ [(Ddc.Sys_write (Ddc.fd (Ddc.mk 3 4))
                      [0x51; 0x84; 0x03; 0x60; 0x12 / 256; 0x12 mod 256;
                       Z.lxor (Z.lxor (Z.lxor 0xB8 0x60) (0x12 / 256)) (0x12 mod 256)],
                    Ddc.Ok v1);
                   (Ddc.Sys_timerfd_settime (Ddc.tfd (Ddc.mk 3 4)) 0 50000000 0 100000,
                    Ddc.Ok v2)]).
Proof.
  apply (ddcci_vcp_set_packet os_ok 1 (Ddc.mk 3 4) 0x60 0x12 world0);
    [lia | lia | exact valid_errnos_ok].
Defined.

(** A command of 254 bytes passes the guard and overflows the buffer. *)
Example ddcci_tx_overflow_254 :
  ddcci_tx os_ok 1 (Ddc.mk 3 4) (repeat 0 254) 50 world0
  = Some (Ddc.Overflow (Ddc.mkWorld 0 [(Ddc.Sys_read 4, Ddc.Ok 3%N)]))
  /\ ddcci_tx os_ok 1 (Ddc.mk 3 4) (repeat 0 256) 50 world0
     = Some (Ddc.Returned Ddc.ddcci_err_invalid_argument world0).
Proof. vm_compute. split; reflexivity. Qed.

(** [ddcci_open] on the two systems: success holding descriptors 3 and 3
    (the system hands out 3 every time), and the refused slave address,
    where the i2c descriptor is closed again and the result is [-EBUSY]. *)
Example ddcci_open_values :
  ddcci_open os_ok 1 (Ddc.mk 0 0) 6 world0
  = Some (0, Ddc.mk 3 3,
          Ddc.mkWorld 0
            [(Ddc.Sys_open 6, Ddc.Ok 3%N);
             (Ddc.Sys_ioctl 3 0x0703 0x37, Ddc.Ok 3%N);
             (Ddc.Sys_timerfd_create, Ddc.Ok 3%N);
             (Ddc.Sys_timerfd_settime 3 0 1000000 0 100000, Ddc.Ok 3%N);
             (Ddc.Sys_read 3, Ddc.Ok 3%N)])
  /\ ddcci_open os_busy 1 (Ddc.mk 0 0) 6 world0
     = Some (-16, Ddc.mk 0 0,
             Ddc.mkWorld 16
               [(Ddc.Sys_open 6, Ddc.Ok 3%N);
                (Ddc.Sys_ioctl 3 0x0703 0x37, Ddc.Err 16);
                (Ddc.Sys_close 3, Ddc.Ok 3%N)]).
Proof. vm_compute. split; reflexivity. Qed.

(** A second [ddcci_close] on the same struct closes descriptor 0 twice:
    the first one leaves 0, not -1, in both fields. *)
Example ddcci_close_twice :
  let '(_, ddc, w) := ddcci_close os_ok (Ddc.mk 3 4) world0 in
  ddc = Ddc.mk 0 0
  /\ closed (Ddc.log (snd (ddcci_close os_ok ddc w))) = [3; 4; 0; 0].
Proof. vm_compute. split; reflexivity. Qed.

(** The directory of a card as sysfs lists it. *)
Definition sysfs_card1 (path : string) : Ddc.Dir :=
  if String.eqb path "/sys/class/drm/card1-HDMI-A-1/"
  then Ddc.Dir_entries ["."; ".."; "uevent"; "i2c-6"; "edid"; "status"]%string
  else Ddc.Dir_error Ddc.ENOENT.

Example ddcci_find_i2c_values :
  ddcci_find_i2c sysfs_card1 "card1-HDMI-A-1"
  = (0, Some 6, [Ddc.Call_opendir "/sys/class/drm/card1-HDMI-A-1/"])
  /\ fst (ddcci_find_i2c sysfs_card1 "card9") = (-2, None)
  /\ fst (ddcci_find_i2c (fun _ => Ddc.Dir_entries ["."; ".."]%string) "card1") = (-19, None).
Proof. vm_compute. repeat split; reflexivity. Qed.

(* ================================================================== *)
(** ** The capture side *)
(* ================================================================== *)

Section CaptureFacts.

Context `{Resampler}.

(** What no entry point of audio.c writes: the [audioDev] pointer and the
    two statics of [audio_record_start]. *)
Definition statics (a : AudioState.t) : bool * Z * Z :=
  (AudioState.audioDev a, AudioState.record_start_lastChannels a,
   AudioState.record_start_lastSampleRate a).

Lemma real_record_start_statics (a : AudioState.t) (channels sampleRate format : Z) :
  statics (real_record_start a channels sampleRate format) = statics a.
Proof.
  unfold real_record_start.
  match goal with |- context [if ?b then _ else _] => destruct b end; reflexivity.
Qed.

Lemma audio_record_start_statics (a : AudioState.t) (channels sampleRate format : Z) :
  statics (audio_record_start a channels sampleRate format) = statics a.
Proof.
  unfold audio_record_start.
  destruct (RecordState.started (AudioState.record a)).
  - match goal with |- context [if ?b then _ else _] => destruct b end; [| reflexivity].
    rewrite real_record_start_statics. reflexivity.
  - rewrite real_record_start_statics. reflexivity.
Qed.

Lemma audio_record_stop_statics (a : AudioState.t) :
  statics (audio_record_stop a) = statics a.
Proof.
  unfold audio_record_stop.
  match goal with |- context [if ?b then _ else _] => destruct b end; reflexivity.
Qed.

Lemma audio_step_statics (a a' : AudioState.t) :
  audio_step a a' -> statics a' = statics a.
Proof.
  intros Hs.
  destruct Hs as [a pb _ | a o ok | a | a frames | a ch sr fmt | a | a a' ch vol Hv | a m].
  - reflexivity.
  - unfold audio_init. destruct o; reflexivity.
  - unfold audio_free.
    change (statics (call Call_audiodev_free ?x)) with (statics x).
    rewrite audio_record_stop_statics. reflexivity.
  - reflexivity.
  - apply audio_record_start_statics.
  - apply audio_record_stop_statics.
  - unfold audio_record_volume in Hv.
    destruct (c_min 8 ch <? 0); [discriminate |].
    match type of Hv with context [if ?b then _ else _] => destruct b end;
      injection Hv as <-; reflexivity.
  - unfold audio_record_mute.
    match goal with |- context [if ?b then _ else _] => destruct b end; reflexivity.
Qed.

Lemma audio_reachable_statics (a : AudioState.t) :
  audio_reachable a -> statics a = (false, 0, 0).
Proof.
  induction 1 as [| a a' _ IH Hs]; [reflexivity |].
  rewrite (audio_step_statics a a' Hs). exact IH.
Qed.

Lemma audio_record_stop_inert (a : AudioState.t) :
  AudioState.audioDev a = false ->
  let a' := audio_record_stop a in
  RecordState.requested (AudioState.record a') = false
  /\ RecordState.started (AudioState.record a')
     = RecordState.started (AudioState.record a)
  /\ AudioState.calls a' = AudioState.calls a
  /\ AudioState.playback a' = AudioState.playback a.
Proof.
  intros Hd. cbv zeta. unfold audio_record_stop. cbn. rewrite Hd. cbn. repeat split.
Qed.

(** X10.  [audio_record_stop] never reaches the capture device.  The
    [audioDev] pointer it tests is null in every state the program can
    reach, so the call only clears [requested]; and once a capture has been
    started, no entry point of audio.c, [audio_free] included, clears
    [started] again. *)
Theorem record_stop_never_stops (a : AudioState.t) :
  audio_reachable a ->
  (let a' := audio_record_stop a in
   RecordState.requested (AudioState.record a') = false
   /\ RecordState.started (AudioState.record a')
      = RecordState.started (AudioState.record a)
   /\ AudioState.calls a' = AudioState.calls a)
  /\ (forall a', audio_step a a' ->
      RecordState.started (AudioState.record a) = true ->
      RecordState.started (AudioState.record a') = true).
Proof.
  intros Hr. pose proof (audio_reachable_statics a Hr) as Hst.
  assert (Hd : AudioState.audioDev a = false) by (unfold statics in Hst; congruence).
  split.
  - destruct (audio_record_stop_inert a Hd) as [H1 [H2 [H3 _]]]. cbv zeta. auto.
  - intros a' Hs Hstarted.
    destruct Hs as [a pb _ | a o ok | a | a frames | a ch sr fmt | a | a a' ch vol Hv | a m].
    + exact Hstarted.
    + unfold audio_init. destruct o; exact Hstarted.
    + unfold audio_free.
      change (RecordState.started (AudioState.record (call Call_audiodev_free ?x)))
        with (RecordState.started (AudioState.record x)).
      destruct (audio_record_stop_inert
                  (AudioState.set_playback (playback_stop (AudioState.playback a)) a) Hd)
        as [_ [H2 _]].
      cbv zeta in H2. rewrite H2. exact Hstarted.
    + exact Hstarted.
    + unfold audio_record_start. rewrite Hstarted.
      match goal with |- context [if ?b then _ else _] => destruct b end;
        [| exact Hstarted].
      unfold real_record_start.
      match goal with |- context [if ?b then _ else _] => destruct b end; reflexivity.
    + destruct (audio_record_stop_inert a Hd) as [_ [H2 _]]. cbv zeta in H2.
      rewrite H2. exact Hstarted.
    + unfold audio_record_volume in Hv.
      destruct (c_min 8 ch <? 0); [discriminate |].
      cbn in Hv. rewrite Hstarted in Hv. cbn in Hv. injection Hv as <-. exact Hstarted.
    + unfold audio_record_mute. cbn. rewrite Hstarted. exact Hstarted.
Qed.

(** X11.  A second [audio_record_start] always takes the capture device down
    and up again, whatever the layout, unless both the channel count and
    the sample rate are zero: the statics it compares the layout with are
    never assigned.  What it then hands to the device is the cached volume
    and mute state of the playback side, the volume only when a capture
    volume was ever set. *)
Theorem record_restart_bounces (a : AudioState.t) (channels sampleRate format : Z) :
  audio_reachable a ->
  RecordState.started (AudioState.record a) = true ->
  let a' := audio_record_start a channels sampleRate format in
  let pb := AudioState.playback a in
  (channels <> 0 \/ sampleRate <> 0 ->
   AudioState.calls a'
   = AudioState.calls a
     ++ [Call_audiodev_record_stop; Call_audiodev_record_start channels sampleRate]
     ++ (if RecordState.volumeChannels (AudioState.record a) =? 0 then []
         else [Call_audiodev_record_volume (Playback.volumeChannels pb)
                 (Playback.volume pb)])
     ++ [Call_audiodev_record_mute (Playback.mute pb)])
  /\ (channels = 0 /\ sampleRate = 0 -> a' = a).
Proof.
  intros Hr Hstarted. pose proof (audio_reachable_statics a Hr) as Hst.
  unfold statics in Hst. injection Hst as Hd Hc Hs.
  cbv zeta. unfold audio_record_start. rewrite Hstarted, Hc, Hs. split.
  - intros Hne.
    assert (E : negb (channels =? 0) || negb (sampleRate =? 0) = true).
    { destruct (Z.eqb_spec channels 0), (Z.eqb_spec sampleRate 0); cbn; try reflexivity. lia. }
    rewrite E. unfold real_record_start. cbn.
    destruct (RecordState.volumeChannels (AudioState.record a) =? 0); cbn;
      rewrite <- !app_assoc; reflexivity.
  - intros [-> ->]. reflexivity.
Qed.

(** X12.  [audio_record_volume] caches the caller's count clamped to 8 and
    that many values whether or not a capture is running, and hands them
    on to the device, with the clamped count, only when one is.  The clamp
    is a signed minimum: a negative count is not clamped and the copy is
    then asked for a size that wraps around. *)
Theorem record_volume_cached (a : AudioState.t) (channels : Z) (volume : list Z) :
  - 2 ^ 31 <= channels < 2 ^ 31 ->
  (channels < 0 <-> audio_record_volume a channels volume = None)
  /\ (0 <= channels ->
      exists a',
        audio_record_volume a channels volume = Some a'
        /\ let n := Z.min 8 channels in
           RecordState.volumeChannels (AudioState.record a') = n
           /\ RecordState.volume (AudioState.record a')
              = firstn (Z.to_nat n) volume
                ++ skipn (Z.to_nat n) (RecordState.volume (AudioState.record a))
           /\ RecordState.started (AudioState.record a')
              = RecordState.started (AudioState.record a)
           /\ AudioState.playback a' = AudioState.playback a
           /\ AudioState.calls a'
              = AudioState.calls a
                ++ (if RecordState.started (AudioState.record a)
                    then [Call_audiodev_record_volume n volume] else [])).
Proof.
  intros Hrange. unfold audio_record_volume.
  assert (Emin : c_min 8 channels = Z.min 8 channels).
  { unfold c_min. destruct (Z.ltb_spec 8 channels); lia. }
  rewrite Emin. split.
  - destruct (Z.ltb_spec (Z.min 8 channels) 0) as [Hneg | Hpos].
    + split; [reflexivity | lia].
    + split; [lia |].
      match goal with |- context [if ?b then _ else _] => destruct b end; discriminate.
  - intros Hpos. destruct (Z.ltb_spec (Z.min 8 channels) 0) as [Hneg | _]; [lia |].
    cbn. destruct (RecordState.started (AudioState.record a)) eqn:Est; cbn;
      eexists; (split; [reflexivity |]); cbn; rewrite ?Est, ?app_nil_r; repeat split.
Qed.

End CaptureFacts.

(* ------------------------------------------------------------------ *)
(** *** A capture session *)

(** The guest sets a capture volume, starts recording stereo at 48 kHz and
    asks for the same layout again. *)
Definition ex_capture_volume : AudioState.t :=
  match audio_record_volume AudioState.zero 2 [40000; 40000] with
  | Some a => a
  | None => AudioState.zero
  end.
Definition ex_capture : AudioState.t := audio_record_start ex_capture_volume 2 48000 1.

Lemma ex_capture_reachable : @audio_reachable passthrough ex_capture.
Proof.
  unfold ex_capture.
  eapply audio_reachable_step; [| apply audio_step_record_start].
  eapply audio_reachable_step;
    [apply audio_reachable_zero
    | apply (audio_step_record_volume AudioState.zero ex_capture_volume 2 [40000; 40000])].
  reflexivity.
Qed.

Example ex_capture_calls :
  AudioState.calls ex_capture
  = [Call_audiodev_record_start 2 48000;
     Call_audiodev_record_volume 0 [0; 0; 0; 0; 0; 0; 0; 0];
     Call_audiodev_record_mute false]
  /\ RecordState.volume (AudioState.record ex_capture) = [40000; 40000; 0; 0; 0; 0; 0; 0]
  /\ RecordState.stride (AudioState.record ex_capture) = 4.
Proof. vm_compute. repeat split; reflexivity. Qed.

Lemma record_stop_never_stops_witness :
  (let a' := audio_record_stop ex_capture in
   RecordState.requested (AudioState.record a') = false
   /\ RecordState.started (AudioState.record a')
      = RecordState.started (AudioState.record ex_capture)
   /\ AudioState.calls a' = AudioState.calls ex_capture)
  /\ RecordState.started (AudioState.record (audio_free ex_capture)) = true.
Proof.
  destruct (@record_stop_never_stops passthrough ex_capture ex_capture_reachable)
    as [Hstop Hkeep].
  split; [exact Hstop |].
  apply Hkeep; [apply audio_step_free | reflexivity].
Defined.

Lemma record_restart_bounces_witness :
  AudioState.calls (audio_record_start ex_capture 2 48000 1)
  = AudioState.calls ex_capture
    ++ [Call_audiodev_record_stop; Call_audiodev_record_start 2 48000;
        Call_audiodev_record_volume 0 [0; 0; 0; 0; 0; 0; 0; 0];
        Call_audiodev_record_mute false].
Proof.
  pose proof (@record_restart_bounces passthrough ex_capture 2 48000 1
                ex_capture_reachable eq_refl) as Hthm.
  cbv zeta in Hthm. destruct Hthm as [Hthm _].
  rewrite Hthm by (left; lia). reflexivity.
Defined.

Lemma record_volume_cached_witness :
  exists a',
    audio_record_volume ex_capture 9 [1; 2; 3; 4; 5; 6; 7; 8; 9] = Some a'
    /\ RecordState.volumeChannels (AudioState.record a') = 8
    /\ RecordState.volume (AudioState.record a') = [1; 2; 3; 4; 5; 6; 7; 8]
    /\ AudioState.calls a'
       = AudioState.calls ex_capture
         ++ [Call_audiodev_record_volume 8 [1; 2; 3; 4; 5; 6; 7; 8; 9]].
Proof.
  destruct (record_volume_cached ex_capture 9 [1; 2; 3; 4; 5; 6; 7; 8; 9] ltac:(lia))
    as [_ Hthm].
  destruct (Hthm ltac:(lia)) as [a' [E [H1 [H2 [_ [_ H5]]]]]].
  exists a'. split; [exact E |]. split; [exact H1 |]. split; [exact H2 |]. exact H5.
Defined.

(* ================================================================== *)
(** ** The PipeWire device *)
(* ================================================================== *)

(** The calls that act on a stream from the engine's threads. *)
Definition stream_call (c : Dev.Call) : bool :=
  match c with
  | Dev.pw_stream_new_simple _ _ _
  | Dev.pw_stream_get_properties _
  | Dev.pw_stream_update_properties _ _
  | Dev.pw_stream_connect _ _ _ _ _ _
  | Dev.pw_stream_destroy _
  | Dev.pw_stream_set_active _ _
  | Dev.pw_stream_flush _ _
  | Dev.pw_stream_set_control_channelVolumes _ _ _
  | Dev.pw_stream_set_control_mute _ _ => true
  | _ => false
  end.

(** A run of calls under the thread-loop lock: [held] is whether the lock
    is held when the run starts, the result whether it is held when it
    ends; [None] when the lock is taken while held, released while not
    held, or a stream call is made without it. *)
Fixpoint locked_run (held : bool) (l : list Dev.Call) : option bool :=
  match l with
  | [] => Some held
  | Dev.pw_thread_loop_lock :: l => if held then None else locked_run true l
  | Dev.pw_thread_loop_unlock :: l => if held then locked_run false l else None
  | c :: l => if stream_call c && negb held then None else locked_run held l
  end.

Definition well_locked (l : list Dev.Call) : Prop := locked_run false l = Some false.

Lemma locked_run_app (a b : list Dev.Call) :
  forall held mid, locked_run held a = Some mid ->
  locked_run held (a ++ b) = locked_run mid b.
Proof.
  induction a as [| c a IH]; intros held mid; cbn [locked_run app].
  - intros [= ->]. reflexivity.
  - destruct c; try (destruct held; try discriminate; apply IH);
      try (destruct (_ && _); [discriminate | apply IH]).
Qed.

Lemma well_locked_app (a b : list Dev.Call) :
  well_locked a -> well_locked b -> well_locked (a ++ b).
Proof.
  unfold well_locked. intros Ha Hb. rewrite (locked_run_app a b false false Ha). exact Hb.
Qed.

Lemma emit_calls (c : Dev.Call) (p : Dev.t) :
  Dev.calls (Dev.emit c p) = Dev.calls p ++ [c].
Proof. reflexivity. Qed.

(** What a step adds to the calls made. *)
Definition added (p p' : Dev.t) (new : list Dev.Call) : Prop :=
  Dev.calls p' = Dev.calls p ++ new.

Ltac split_device_cases :=
  repeat (cbn;
          match goal with
          | |- context [match ?x with Some _ => _ | None => _ end] => destruct x eqn:?
          | |- context [match ?x with
                        | Dev.STREAM_STATE_INACTIVE => _
                        | Dev.STREAM_STATE_ACTIVE => _
                        | Dev.STREAM_STATE_DRAINING => _
                        end] => destruct x eqn:?
          | |- context [if ?b then _ else _] => destruct b eqn:?
          | |- context [let '(_, _) := ?x in _] => destruct x eqn:?
          end).

Ltac finish_added :=
  unfold added; split_device_cases; cbn;
  repeat rewrite <- app_assoc; cbn [app];
  first [ eexists; split; [reflexivity | reflexivity]
        | exists []; split; [rewrite app_nil_r; reflexivity | reflexivity] ].

Lemma step_well_locked (p p' : Dev.t) :
  Dev.step p p' -> exists new, added p p' new /\ well_locked new.
Proof.
  intros Hs. destruct Hs.
  - unfold Dev.audiodev_init. finish_added.
  - unfold Dev.audiodev_free, Dev.audiodev_playback_stop_stream,
      Dev.audiodev_record_stop_stream. finish_added.
  - unfold Dev.audiodev_on_playback_io_changed. finish_added.
  - unfold Dev.audiodev_onPlaybackDrained. finish_added.
  - unfold Dev.audiodev_playback_setup, Dev.audiodev_playback_stop_stream, Dev.new_stream.
    finish_added.
  - unfold Dev.audiodev_playback_start. finish_added.
  - unfold Dev.audiodev_playback_stop. finish_added.
  - unfold Dev.audiodev_playback_volume. finish_added.
  - unfold Dev.audiodev_playback_mute. finish_added.
  - unfold Dev.audiodev_record_start, Dev.audiodev_record_stop_stream, Dev.new_stream.
    finish_added.
  - unfold Dev.audiodev_record_stop. finish_added.
  - unfold Dev.audiodev_record_volume. finish_added.
  - unfold Dev.audiodev_record_mute. finish_added.
Qed.

(** X13.  The device takes and releases the thread-loop lock in turn, never
    twice, on every path of every entry point, the failure paths included,
    and makes every call on a stream while it holds the lock. *)
Theorem device_calls_well_locked (p : Dev.t) :
  Dev.reachable p -> well_locked (Dev.calls p).
Proof.
  induction 1 as [| p p' _ IH Hs]; [reflexivity |].
  destruct (step_well_locked p p' Hs) as [new [Hn Hw]].
  rewrite Hn. apply well_locked_app; assumption.
Qed.

(** X14.  A start request that arrives while the playback stream is draining
    is dropped: [audiodev_playback_stop] on an active stream flushes it and
    leaves it draining, [audiodev_playback_start] then only takes and
    releases the lock, and the drained callback leaves the stream inactive;
    at no point is the stream set active again. *)
Theorem start_while_draining_is_dropped (p : Dev.t) (s : nat) :
  Dev.stream_ (Dev.playback p) = Some s ->
  Dev.state (Dev.playback p) = Dev.STREAM_STATE_ACTIVE ->
  let p1 := Dev.audiodev_playback_stop p in
  let p2 := Dev.audiodev_playback_start p1 in
  let p3 := Dev.audiodev_onPlaybackDrained p2 in
  Dev.state (Dev.playback p1) = Dev.STREAM_STATE_DRAINING
  /\ Dev.state (Dev.playback p2) = Dev.STREAM_STATE_DRAINING
  /\ Dev.state (Dev.playback p3) = Dev.STREAM_STATE_INACTIVE
  /\ Dev.calls p3
     = Dev.calls p
       ++ [Dev.pw_thread_loop_lock; Dev.pw_stream_flush (Some s) true;
           Dev.pw_thread_loop_unlock;
           Dev.pw_thread_loop_lock; Dev.pw_thread_loop_unlock;
           Dev.pw_thread_loop_lock; Dev.pw_stream_set_active (Some s) false;
           Dev.pw_thread_loop_unlock].
Proof.
  intros Hs Ha. cbv zeta.
  unfold Dev.audiodev_onPlaybackDrained, Dev.audiodev_playback_start,
    Dev.audiodev_playback_stop.
  rewrite Ha. cbn. rewrite Hs. cbn. rewrite ?Hs. rewrite <- !app_assoc. repeat split.
Qed.

(** The sizes the device keeps for the playback stream. *)
Definition period_inv (p : Dev.t) : Prop :=
  Dev.startFrames (Dev.playback p) = wrap32 (Dev.maxPeriodFrames (Dev.playback p) * 2).

Lemma step_period_inv (p p' : Dev.t) : Dev.step p p' -> period_inv p -> period_inv p'.
Proof.
  intros Hs Hi. unfold period_inv in *. destruct Hs.
  - unfold Dev.audiodev_init. split_device_cases; cbn; exact Hi.
  - unfold Dev.audiodev_free, Dev.audiodev_playback_stop_stream,
      Dev.audiodev_record_stop_stream. split_device_cases; cbn; exact Hi.
  - unfold Dev.audiodev_on_playback_io_changed. split_device_cases; cbn; exact Hi.
  - unfold Dev.audiodev_onPlaybackDrained. cbn. exact Hi.
  - unfold Dev.audiodev_playback_setup, Dev.audiodev_playback_stop_stream, Dev.new_stream.
    split_device_cases; cbn; try exact Hi; reflexivity.
  - unfold Dev.audiodev_playback_start. split_device_cases; cbn; exact Hi.
  - unfold Dev.audiodev_playback_stop. split_device_cases; cbn; exact Hi.
  - unfold Dev.audiodev_playback_volume. split_device_cases; cbn; exact Hi.
  - unfold Dev.audiodev_playback_mute. cbn. exact Hi.
  - unfold Dev.audiodev_record_start, Dev.audiodev_record_stop_stream, Dev.new_stream.
    split_device_cases; cbn; exact Hi.
  - unfold Dev.audiodev_record_stop. split_device_cases; cbn; exact Hi.
  - unfold Dev.audiodev_record_volume. split_device_cases; cbn; exact Hi.
  - unfold Dev.audiodev_record_mute. cbn. exact Hi.
Qed.

Lemma reachable_period_inv (p : Dev.t) : Dev.reachable p -> period_inv p.
Proof.
  induction 1 as [| p p' _ IH Hs]; [reflexivity |].
  exact (step_period_inv p p' Hs IH).
Qed.

(** Whether a set-up request finds the stream it asks for. *)
Definition same_layout (p : Dev.t) (channels sampleRate : Z) : bool :=
  match Dev.stream_ (Dev.playback p) with Some _ => true | None => false end
  && (Dev.channels (Dev.playback p) =? channels)
  && (Dev.sampleRate (Dev.playback p) =? sampleRate).

(** X15.  [audiodev_playback_setup] always reports a start threshold of twice
    the maximum period it reports.  When the stream already exists with the
    requested layout nothing is touched and the stored sizes are reported;
    otherwise the maximum period is the numerator of the stream's node
    latency when that parses and its denominator is the sample rate, and
    the requested period when not. *)
Theorem setup_reports_period (env : Dev.SetupEnv) (p : Dev.t)
    (channels sampleRate requested : Z) :
  Dev.reachable p ->
  let res := Dev.audiodev_playback_setup env p channels sampleRate requested in
  let maxPeriodFrames := fst (snd res) in
  let startFrames := snd (snd res) in
  startFrames = wrap32 (maxPeriodFrames * 2)
  /\ (same_layout p channels sampleRate = true ->
      fst res = p /\ maxPeriodFrames = Dev.maxPeriodFrames (Dev.playback p))
  /\ (same_layout p channels sampleRate = false ->
      maxPeriodFrames
      = match Dev.actualNodeLatency env with
        | Some (num, denom) => if denom =? u32 sampleRate then wrap32 num else requested
        | None => requested
        end
      /\ Dev.maxPeriodFrames (Dev.playback (fst res)) = maxPeriodFrames
      /\ Dev.startFrames (Dev.playback (fst res)) = startFrames).
Proof.
  intros Hr. pose proof (reachable_period_inv p Hr) as Hi. unfold period_inv in Hi.
  cbv zeta. unfold same_layout, Dev.audiodev_playback_setup.
  destruct (match Dev.stream_ (Dev.playback p) with Some _ => true | None => false end
            && (Dev.channels (Dev.playback p) =? channels)
            && (Dev.sampleRate (Dev.playback p) =? sampleRate)) eqn:Efast.
  - cbn [fst snd]. repeat split; try assumption; discriminate.
  - unfold Dev.audiodev_playback_stop_stream, Dev.new_stream.
    split; [| split; [discriminate |]].
    + split_device_cases; cbn; reflexivity.
    + intros _. split_device_cases; cbn; repeat split; try reflexivity; try discriminate.
Qed.

(** X16.  When PipeWire cannot create the playback stream,
    [audiodev_playback_setup] has already asked the null stream for its
    properties (and, when the latency it read does not fit, updated the
    properties of the null stream) by the time it tests the pointer; it
    then releases the lock, logs the failure and returns without
    connecting, leaving no stream, and still reports period sizes. *)
Theorem setup_tests_stream_late (env : Dev.SetupEnv) (p : Dev.t)
    (channels sampleRate requested : Z) :
  Dev.stream_ok env = false ->
  same_layout p channels sampleRate = false ->
  let p0 := Dev.audiodev_playback_stop_stream p in
  let p' := fst (Dev.audiodev_playback_setup env p channels sampleRate requested) in
  let fits :=
    match Dev.actualNodeLatency env with
    | Some (_, denom) => denom =? u32 sampleRate
    | None => false
    end in
  Dev.stream_ (Dev.playback p') = None
  /\ Dev.calls p'
     = Dev.calls p0
       ++ [Dev.pw_thread_loop_lock;
           Dev.pw_stream_new_simple "Playback" (Some (requested, sampleRate)) None;
           Dev.pw_stream_get_properties None]
       ++ (if fits then []
           else [Dev.DEBUG_WARN "audiodev_LATENCY value '%s' is invalid or does not match stream sample rate; using %d/%d";
                 Dev.pw_stream_update_properties None (requested, sampleRate)])
       ++ [Dev.pw_thread_loop_unlock; Dev.DEBUG_ERROR "Failed to create the stream"].
Proof.
  intros Hok Hslow. cbv zeta. unfold same_layout in Hslow.
  unfold Dev.audiodev_playback_setup. rewrite Hslow.
  unfold Dev.new_stream. rewrite Hok.
  destruct (Dev.actualNodeLatency env) as [[num denom] |]; cbn;
    [destruct (denom =? u32 sampleRate); cbn |];
    rewrite <- !app_assoc; split; reflexivity.
Qed.

(** The objects a run of calls creates and destroys, oldest first. *)
Inductive Object := Obj_library | Obj_loop | Obj_context | Obj_thread.

Definition creates (c : Dev.Call) : list Object :=
  match c with
  | Dev.pw_init => [Obj_library]
  | Dev.pw_loop_new => [Obj_loop]
  | Dev.pw_context_new true => [Obj_context]
  | Dev.pw_thread_loop_new_full true => [Obj_thread]
  | _ => []
  end.

Definition destroys (c : Dev.Call) : list Object :=
  match c with
  | Dev.pw_deinit => [Obj_library]
  | Dev.pw_loop_destroy => [Obj_loop]
  | Dev.pw_context_destroy => [Obj_context]
  | Dev.pw_thread_loop_destroy => [Obj_thread]
  | _ => []
  end.

(** X17.  [audiodev_init] returns true exactly when the context, the
    connection test and the thread loop all succeed, and then it has
    destroyed nothing and started the thread loop; when it returns false it
    has destroyed what it had created, in the reverse order, and has not
    started the thread loop. *)
Theorem audiodev_init_cleans_up (context_ok core_ok thread_ok : bool) (p : Dev.t) :
  let res := Dev.audiodev_init context_ok core_ok thread_ok p in
  exists new,
    Dev.calls (snd res) = Dev.calls p ++ new
    /\ fst res = context_ok && core_ok && thread_ok
    /\ (fst res = true ->
        flat_map destroys new = []
        /\ flat_map creates new = [Obj_library; Obj_loop; Obj_context; Obj_thread]
        /\ last new Dev.pw_init = Dev.pw_thread_loop_start)
    /\ (fst res = false ->
        flat_map destroys new = rev (flat_map creates new)
        /\ ~ In Dev.pw_thread_loop_start new).
Proof.
  cbv zeta. unfold Dev.audiodev_init.
  destruct context_ok, core_ok, thread_ok; cbn; rewrite <- !app_assoc; cbn [app];
    eexists; (split; [reflexivity |]); cbn;
    repeat split; try discriminate; try reflexivity;
    intros Hin; cbn in Hin; intuition discriminate.
Qed.

(** X18.  Stopping and restarting the capture with the layout it has keeps
    the stream: [audiodev_record_stop] sets it inactive,
    [audiodev_record_start] sets the same stream active again, and no
    stream is destroyed or created. *)
Theorem record_restart_keeps_stream (stream_ok : bool) (p : Dev.t) (s : nat) :
  Dev.rec_stream (Dev.record p) = Some s ->
  Dev.active (Dev.record p) = true ->
  let p' :=
    Dev.audiodev_record_start stream_ok (Dev.audiodev_record_stop p)
      (Dev.rec_channels (Dev.record p)) (Dev.rec_sampleRate (Dev.record p)) in
  Dev.record p' = Dev.record p
  /\ Dev.created p' = Dev.created p
  /\ Dev.calls p'
     = Dev.calls p
       ++ [Dev.pw_thread_loop_lock; Dev.pw_stream_set_active (Some s) false;
           Dev.pw_thread_loop_unlock;
           Dev.pw_thread_loop_lock; Dev.pw_stream_set_active (Some s) true;
           Dev.pw_thread_loop_unlock].
Proof.
  intros Hs Ha. cbv zeta. unfold Dev.audiodev_record_start, Dev.audiodev_record_stop.
  rewrite Ha. cbn. rewrite Hs. cbn. rewrite !Z.eqb_refl. cbn.
  rewrite <- !app_assoc. cbn [app].
  destruct p as [l c t pb [rs rc rr rst ra] n cs]. cbn in *. subst. repeat split.
Qed.

(* ------------------------------------------------------------------ *)
(** *** The device in a session *)

(** PipeWire comes up, the playback stream is set up for stereo at 48 kHz
    with the latency property left at the request, is started, stopped and
    started again before it has drained. *)
Definition ex_env : Dev.SetupEnv := Dev.mkSetupEnv true (Some (256, 48000)).

Definition ex_dev_setup : Dev.t :=
  fst (Dev.audiodev_playback_setup ex_env
         (snd (Dev.audiodev_init true true true Dev.zero)) 2 48000 256).
Definition ex_dev_active : Dev.t := Dev.audiodev_playback_start ex_dev_setup.
Definition ex_dev_recording : Dev.t := Dev.audiodev_record_start true ex_dev_active 2 48000.

Lemma ex_dev_reachable : Dev.reachable ex_dev_recording.
Proof.
  unfold ex_dev_recording, ex_dev_active, ex_dev_setup.
  eapply Dev.reachable_step; [| apply Dev.step_record_start].
  eapply Dev.reachable_step; [| apply Dev.step_playback_start].
  eapply Dev.reachable_step; [| apply Dev.step_playback_setup].
  eapply Dev.reachable_step; [| apply Dev.step_init].
  apply Dev.reachable_zero.
Qed.

Example ex_dev_calls :
  Dev.calls ex_dev_active
  = [Dev.pw_init; Dev.pw_loop_new; Dev.pw_context_new true; Dev.pw_context_connect true;
     Dev.pw_thread_loop_new_full true; Dev.pw_thread_loop_start;
     Dev.pw_thread_loop_lock;
     Dev.pw_stream_new_simple "Playback" (Some (256, 48000)) (Some 0%nat);
     Dev.pw_stream_get_properties (Some 0%nat);
     Dev.pw_stream_connect (Some 0%nat) Dev.PW_DIRECTION_OUTPUT Dev.SPA_AUDIO_FORMAT_F32
       2 48000 true;
     Dev.pw_thread_loop_unlock;
     Dev.pw_thread_loop_lock; Dev.pw_stream_set_active (Some 0%nat) true;
     Dev.pw_thread_loop_unlock]
  /\ Dev.maxPeriodFrames (Dev.playback ex_dev_active) = 256
  /\ Dev.startFrames (Dev.playback ex_dev_active) = 512.
Proof. vm_compute. repeat split; reflexivity. Qed.

Lemma device_calls_well_locked_witness : well_locked (Dev.calls ex_dev_recording).
Proof. apply (device_calls_well_locked ex_dev_recording). exact ex_dev_reachable. Defined.

Lemma start_while_draining_is_dropped_witness :
  let p := ex_dev_active in
  let p1 := Dev.audiodev_playback_stop p in
  let p2 := Dev.audiodev_playback_start p1 in
  let p3 := Dev.audiodev_onPlaybackDrained p2 in
  Dev.state (Dev.playback p1) = Dev.STREAM_STATE_DRAINING
  /\ Dev.state (Dev.playback p2) = Dev.STREAM_STATE_DRAINING
  /\ Dev.state (Dev.playback p3) = Dev.STREAM_STATE_INACTIVE
  /\ Dev.calls p3
     = Dev.calls p
       ++ [Dev.pw_thread_loop_lock; Dev.pw_stream_flush (Some 0%nat) true;
           Dev.pw_thread_loop_unlock;
           Dev.pw_thread_loop_lock; Dev.pw_thread_loop_unlock;
           Dev.pw_thread_loop_lock; Dev.pw_stream_set_active (Some 0%nat) false;
           Dev.pw_thread_loop_unlock].
Proof.
  apply (start_while_draining_is_dropped ex_dev_active 0%nat); reflexivity.
Defined.

Lemma setup_reports_period_witness :
  let res := Dev.audiodev_playback_setup (Dev.mkSetupEnv true (Some (1024, 44100)))
               ex_dev_recording 2 44100 256 in
  let maxPeriodFrames := fst (snd res) in
  let startFrames := snd (snd res) in
  startFrames = wrap32 (maxPeriodFrames * 2)
  /\ (same_layout ex_dev_recording 2 44100 = true ->
      fst res = ex_dev_recording
      /\ maxPeriodFrames = Dev.maxPeriodFrames (Dev.playback ex_dev_recording))
  /\ (same_layout ex_dev_recording 2 44100 = false ->
      maxPeriodFrames
      = match Dev.actualNodeLatency (Dev.mkSetupEnv true (Some (1024, 44100))) with
        | Some (num, denom) => if denom =? u32 44100 then wrap32 num else 256
        | None => 256
        end
      /\ Dev.maxPeriodFrames (Dev.playback (fst res)) = maxPeriodFrames
      /\ Dev.startFrames (Dev.playback (fst res)) = startFrames).
Proof.
  apply (setup_reports_period (Dev.mkSetupEnv true (Some (1024, 44100)))
           ex_dev_recording 2 44100 256).
  exact ex_dev_reachable.
Defined.

Lemma setup_tests_stream_late_witness :
  let env := Dev.mkSetupEnv false None in
  let p0 := Dev.audiodev_playback_stop_stream ex_dev_recording in
  let p' := fst (Dev.audiodev_playback_setup env ex_dev_recording 2 44100 256) in
  let fits :=
    match Dev.actualNodeLatency env with
    | Some (_, denom) => denom =? u32 44100
    | None => false
    end in
  Dev.stream_ (Dev.playback p') = None
  /\ Dev.calls p'
     = Dev.calls p0
       ++ [Dev.pw_thread_loop_lock;
           Dev.pw_stream_new_simple "Playback" (Some (256, 44100)) None;
           Dev.pw_stream_get_properties None]
       ++ (if fits then []
           else [Dev.DEBUG_WARN "audiodev_LATENCY value '%s' is invalid or does not match stream sample rate; using %d/%d";
                 Dev.pw_stream_update_properties None (256, 44100)])
       ++ [Dev.pw_thread_loop_unlock; Dev.DEBUG_ERROR "Failed to create the stream"].
Proof.
  apply (setup_tests_stream_late (Dev.mkSetupEnv false None) ex_dev_recording 2 44100 256);
    reflexivity.
Defined.

Lemma record_restart_keeps_stream_witness :
  let p' :=
    Dev.audiodev_record_start true (Dev.audiodev_record_stop ex_dev_recording)
      (Dev.rec_channels (Dev.record ex_dev_recording))
      (Dev.rec_sampleRate (Dev.record ex_dev_recording)) in
  Dev.record p' = Dev.record ex_dev_recording
  /\ Dev.created p' = Dev.created ex_dev_recording
  /\ Dev.calls p'
     = Dev.calls ex_dev_recording
       ++ [Dev.pw_thread_loop_lock; Dev.pw_stream_set_active (Some 1%nat) false;
           Dev.pw_thread_loop_unlock;
           Dev.pw_thread_loop_lock; Dev.pw_stream_set_active (Some 1%nat) true;
           Dev.pw_thread_loop_unlock].
Proof.
  apply (record_restart_keeps_stream true ex_dev_recording 1%nat); reflexivity.
Defined.

(* ================================================================== *)
(** ** The stream callbacks *)
(* ================================================================== *)

(** What [audio_pull] returns is the length of what it wrote: the frames
    asked for, or nothing. *)
Lemma audio_pull_written (st : Playback.t) (now frames : Z) :
  0 <= frames ->
  let res := audio_pull st now frames in
  length (snd (fst res)) = Z.to_nat (fst (fst res))
  /\ (fst (fst res) = frames \/ fst (fst res) = 0).
Proof.
  intros Hf. cbv zeta. unfold audio_pull.
  destruct (Z.eqb_spec frames 0) as [-> | Hnz]; [cbn; split; [reflexivity | left; reflexivity] |].
  destruct (Playback.buffer st) as [rb |] eqn:Hb.
  - pose proof (pull_body_dst rb st now frames Hf) as Hd.
    destruct (pull_body rb st now frames) as [st1 dst]. cbn [fst snd] in *.
    rewrite Hd, take_pad_length. split; [reflexivity | left; reflexivity].
  - cbn. split; [reflexivity | right; reflexivity].
Qed.

Lemma u32_small (z : Z) : 0 <= z < 2 ^ 32 -> u32 z = z.
Proof. intros Hz. unfold u32. apply Z.mod_small. exact Hz. Qed.

Lemma u32_range (z : Z) : 0 <= u32 z < 2 ^ 32.
Proof. unfold u32. apply Z.mod_pos_bound. lia. Qed.

Lemma u32_wrap32 (z : Z) : u32 (wrap32 z) = u32 z.
Proof.
  unfold u32, wrap32.
  rewrite Zminus_mod, Zmod_mod, <- Zminus_mod.
  replace (z + 2 ^ 31 - 2 ^ 31) with z by lia. reflexivity.
Qed.

(** The frame count asked of [audio_pull]: it fits the buffer, and the
    rate match's size when there is one. *)
Lemma requested_frames (maxsize stride rm : Z) (use_rm : bool) :
  0 <= maxsize < 2 ^ 32 -> 2 <= stride < 2 ^ 31 -> 0 <= rm < 2 ^ 32 ->
  let frames0 := wrap32 (maxsize / u32 stride) in
  let frames := if use_rm && (0 <? rm) then wrap32 (min_u32 frames0 rm) else frames0 in
  0 <= frames < 2 ^ 31
  /\ frames * stride <= maxsize
  /\ (use_rm = true -> 0 < rm -> frames <= rm).
Proof.
  intros Hm Hs Hrm. cbv zeta.
  rewrite (u32_small stride) by lia.
  assert (Hq : 0 <= maxsize / stride < 2 ^ 31).
  { split; [apply Z.div_pos; lia |]. apply Z.div_lt_upper_bound; lia. }
  assert (Hqs : maxsize / stride * stride <= maxsize).
  { pose proof (Z.mul_div_le maxsize stride ltac:(lia)). lia. }
  rewrite (wrap32_id (maxsize / stride)) by lia.
  destruct use_rm; cbn [andb].
  - destruct (Z.ltb_spec 0 rm) as [Hpos | Hnp].
    + unfold min_u32.
      rewrite (u32_small (maxsize / stride)) by lia. rewrite (u32_small rm) by lia.
      destruct (Z.ltb_spec (maxsize / stride) rm) as [Hlt | Hge].
      * rewrite wrap32_id by lia. repeat split; try lia.
      * rewrite wrap32_id by lia. repeat split; try lia. nia.
    + repeat split; try lia.
  - repeat split; try lia.
Qed.

(** X19.  A playback buffer handed out by PipeWire is filled within its
    bounds.  With a stride of at least 2, the callback asks the engine for
    no more frames than [maxsize / stride], and than the rate match's size
    when one is set; the chunk it queues has as its size the frames written
    times the stride, which is at most [maxsize].  A buffer whose data
    pointer is null is dequeued and never queued again. *)
Theorem playback_process_within_buffer (get_time rateMatch_size now : Z)
    (b : PwBuffer.t) (p : Dev.t) (st : Playback.t) :
  let stride := Dev.stride (Dev.playback p) in
  PwBuffer.valid b ->
  2 <= stride < 2 ^ 31 ->
  0 <= rateMatch_size < 2 ^ 32 ->
  exists r,
    audiodev_on_playback_process get_time (Some b) rateMatch_size now p st = Some r
    /\ if PwBuffer.data b then
         exists q,
           pp_queued r = Some q
           /\ PwBuffer.maxsize q = PwBuffer.maxsize b
           /\ PwBuffer.chunk_size q = Z.of_nat (length (pp_written r)) * stride
           /\ PwBuffer.chunk_size q <= PwBuffer.maxsize b
           /\ (Dev.rateMatch (Dev.playback p) = true -> 0 < rateMatch_size ->
               Z.of_nat (length (pp_written r)) <= rateMatch_size)
           /\ (pp_written r <> [] ->
               PwBuffer.chunk_offset q = 0
               /\ PwBuffer.chunk_stride q = stride
               /\ PwBuffer.size q = Z.of_nat (length (pp_written r)))
       else pp_queued r = None /\ pp_written r = [] /\ pp_engine r = st.
Proof.
  intros stride (Hm & _ & _) Hs Hrm. unfold audiodev_on_playback_process.
  assert (Hstride : forall q, Dev.stride (Dev.playback (Dev.emit q p)) = stride)
    by reflexivity.
  set (p1 := Dev.emit (Dev.pw_stream_dequeue_buffer _) _).
  assert (Hs1 : Dev.stride (Dev.playback p1) = stride)
    by (subst p1; destruct (get_time <? 0); reflexivity).
  assert (Hr1 : Dev.rateMatch (Dev.playback p1) = Dev.rateMatch (Dev.playback p))
    by (subst p1; destruct (get_time <? 0); reflexivity).
  destruct (PwBuffer.data b); cbn [negb].
  2:{ eexists. split; [reflexivity |]. repeat split. }
  rewrite Hs1, Hr1.
  destruct (Z.eqb_spec (u32 stride) 0) as [E | _];
    [rewrite u32_small in E by lia; lia |].
  pose proof (requested_frames (PwBuffer.maxsize b) stride rateMatch_size
                (Dev.rateMatch (Dev.playback p)) Hm Hs Hrm) as Hreq.
  cbv zeta in Hreq.
  set (frames := if Dev.rateMatch (Dev.playback p) && (0 <? rateMatch_size)
                 then wrap32 (min_u32 (wrap32 (PwBuffer.maxsize b / u32 stride))
                                rateMatch_size)
                 else wrap32 (PwBuffer.maxsize b / u32 stride)) in *.
  destruct Hreq as (Hf & Hfit & Hrate).
  pose proof (audio_pull_written st now frames ltac:(lia)) as Hw. cbv zeta in Hw.
  destruct (audio_pull st now frames) as [[ret dst] st1]. cbn [fst snd] in Hw.
  destruct Hw as (Hlen & Hret).
  assert (Hret' : 0 <= ret <= frames) by lia.
  assert (Hlen' : Z.of_nat (length dst) = ret) by lia.
  destruct (Z.eqb_spec ret 0) as [E0 | Hnz].
  - eexists. split; [reflexivity |]. cbn [pp_queued pp_written].
    eexists. split; [reflexivity |]. cbn.
    rewrite Hlen', E0.
    split; [reflexivity |]. split; [reflexivity |]. split; [lia |].
    split; [intros _ Hpos; lia |].
    intros Hne. destruct dst; [contradiction | cbn in Hlen'; lia].
  - eexists. split; [reflexivity |]. cbn [pp_queued pp_written].
    eexists. split; [reflexivity |]. cbn [PwBuffer.maxsize PwBuffer.chunk_size
      PwBuffer.chunk_offset PwBuffer.chunk_stride PwBuffer.size].
    rewrite Hlen'.
    assert (Hprod : 0 <= ret * stride <= PwBuffer.maxsize b) by nia.
    rewrite u32_wrap32, u32_small by lia.
    split; [reflexivity |]. split; [reflexivity |]. split; [lia |].
    split; [intros Hrmset Hpos; specialize (Hrate Hrmset Hpos); lia |].
    intros _. split; [reflexivity |]. split; [reflexivity |].
    unfold u64. apply Z.mod_small. lia.
Qed.

Lemma last_snoc {A : Type} (l : list A) (x d : A) : last (l ++ [x]) d = x.
Proof. apply last_last. Qed.

(** X20.  A capture buffer is read within its chunk.  With the device's and
    the capture side's stride the same, at least 2, and a chunk that starts
    inside a buffer of less than 2 GiB, the bytes handed to
    [purespice_writeAudio] are whole frames, at most the chunk's size and
    at most what the buffer holds after the chunk's offset, and less than a
    frame short of the smaller of the two; the buffer is queued again. *)
Theorem record_process_within_chunk (b : PwBuffer.t) (p : Dev.t) (a : AudioState.t) :
  let stride := Dev.rec_stride (Dev.record p) in
  let room := PwBuffer.maxsize b - PwBuffer.chunk_offset b in
  PwBuffer.valid b ->
  PwBuffer.data b = true ->
  PwBuffer.maxsize b < 2 ^ 31 ->
  PwBuffer.chunk_offset b <= PwBuffer.maxsize b ->
  RecordState.stride (AudioState.record a) = stride ->
  2 <= stride < 2 ^ 31 ->
  exists p' a' n,
    audiodev_on_record_process (Some b) p a = Some (p', a', true)
    /\ AudioState.calls a' = AudioState.calls a ++ [Call_purespice_writeAudio n 0]
    /\ 0 <= n <= Z.min (PwBuffer.chunk_size b) room
    /\ n mod stride = 0
    /\ Z.min (PwBuffer.chunk_size b) room - n < stride.
Proof.
  intros stride room (Hm & Ho & Hc) Hd Hm31 Hoff Hst Hs.
  unfold audiodev_on_record_process. rewrite Hd. cbn [negb].
  change (Dev.rec_stride (Dev.record (Dev.emit _ p))) with stride.
  destruct (Z.eqb_spec (u32 stride) 0) as [E | _];
    [rewrite u32_small in E by lia; lia |].
  do 3 eexists. split; [reflexivity |].
  unfold audio_push, call. cbn [AudioState.calls AudioState.set_calls]. rewrite Hst.
  split; [reflexivity |].
  rewrite (u32_small stride) by lia. fold room.
  assert (Hbytes : min_u32 (PwBuffer.chunk_size b) (u32 room)
                   = Z.min (PwBuffer.chunk_size b) room).
  { unfold min_u32. rewrite (u32_small room) by (subst room; lia).
    rewrite (u32_small room) by (subst room; lia).
    rewrite (u32_small (PwBuffer.chunk_size b)) by lia.
    destruct (Z.ltb_spec (PwBuffer.chunk_size b) room); lia. }
  rewrite Hbytes. set (bytes := Z.min (PwBuffer.chunk_size b) room).
  assert (Hb : 0 <= bytes < 2 ^ 31) by (subst bytes room; lia).
  assert (Hq : 0 <= bytes / stride <= bytes).
  { split; [apply Z.div_pos; lia |]. apply Z.div_le_upper_bound; [lia | nia]. }
  pose proof (Z.mul_div_le bytes stride ltac:(lia)) as Hle.
  pose proof (Z.mod_pos_bound bytes stride ltac:(lia)) as Hmod.
  pose proof (Z.div_mod bytes stride ltac:(lia)) as Hdm.
  rewrite (wrap32_id (bytes / stride)) by lia.
  rewrite wrap32_id by nia.
  repeat split; try nia.
  apply Z_mod_mult.
Qed.


(* ------------------------------------------------------------------ *)
(** *** The callbacks in a session *)

(** A buffer of 8 KiB, and one whose chunk of 1002 bytes starts at byte
    64. *)
Definition ex_buffer : PwBuffer.t := PwBuffer.mk true 8192 0 0 0 0.
Definition ex_chunk : PwBuffer.t := PwBuffer.mk true 4096 64 1002 0 0.

(** The device of the session once PipeWire has handed it a rate match. *)
Definition ex_dev_matched : Dev.t :=
  Dev.audiodev_on_playback_io_changed true true ex_dev_active.

(** With a rate match of 256 frames the running stream fills 2048 of the
    8192 bytes; the capture callback hands over 1000 of the chunk's 1002
    bytes, 250 frames of 4 bytes. *)
Example ex_callbacks :
  option_map (fun r => (pp_queued r, length (pp_written r)))
    (audiodev_on_playback_process 0 (Some ex_buffer) 256 1030000000 ex_dev_matched ex_run4)
  = Some (Some (PwBuffer.mk true 8192 0 2048 8 256), 256%nat)
  /\ option_map (fun r => last_write (AudioState.calls (snd (fst r))))
       (audiodev_on_record_process (Some ex_chunk) ex_dev_recording ex_capture)
     = Some (Some 1000).
Proof. split; vm_compute; reflexivity. Qed.

Lemma playback_process_within_buffer_witness :
  exists r,
    audiodev_on_playback_process 0 (Some ex_buffer) 256 1030000000 ex_dev_matched ex_run4
    = Some r
    /\ exists q,
         pp_queued r = Some q
         /\ PwBuffer.chunk_size q = Z.of_nat (length (pp_written r)) * 8
         /\ PwBuffer.chunk_size q <= 8192
         /\ Z.of_nat (length (pp_written r)) <= 256.
Proof.
  assert (Hv : PwBuffer.valid ex_buffer) by (unfold PwBuffer.valid; cbn; lia).
  assert (Hs : 2 <= Dev.stride (Dev.playback ex_dev_matched) < 2 ^ 31)
    by (vm_compute; split; [discriminate | reflexivity]).
  pose proof (playback_process_within_buffer 0 256 1030000000 ex_buffer ex_dev_matched
                ex_run4 Hv Hs ltac:(lia)) as Hthm.
  destruct Hthm as (r & Hr & Hq). exists r. split; [exact Hr |].
  cbn [PwBuffer.data ex_buffer] in Hq.
  destruct Hq as (q & Hq & _ & Hsize & Hmax & Hrate & _).
  exists q. split; [exact Hq |]. split; [exact Hsize |]. split; [exact Hmax |].
  apply Hrate; [reflexivity | lia].
Defined.

Lemma record_process_within_chunk_witness :
  exists p' a' n,
    audiodev_on_record_process (Some ex_chunk) ex_dev_recording ex_capture
    = Some (p', a', true)
    /\ AudioState.calls a' = AudioState.calls ex_capture ++ [Call_purespice_writeAudio n 0]
    /\ 0 <= n <= 1002
    /\ n mod 4 = 0
    /\ 1002 - n < 4.
Proof.
  assert (Hv : PwBuffer.valid ex_chunk) by (unfold PwBuffer.valid; cbn; lia).
  assert (Hst : RecordState.stride (AudioState.record ex_capture)
                = Dev.rec_stride (Dev.record ex_dev_recording))
    by (vm_compute; reflexivity).
  assert (Hs : 2 <= Dev.rec_stride (Dev.record ex_dev_recording) < 2 ^ 31)
    by (vm_compute; split; [discriminate | reflexivity]).
  pose proof (record_process_within_chunk ex_chunk ex_dev_recording ex_capture
                Hv eq_refl ltac:(cbn; lia) ltac:(cbn; lia) Hst Hs) as Hthm.
  exact Hthm.
Defined.

(* ================================================================== *)
(** ** The latency display *)
(* ================================================================== *)

Lemma on_audio_latency_run (reports : list LatencyReport) :
  forall (s : Title.t),
  0 <= Title.ctr s <= 8 ->
  exists new,
    Title.titles (fold_left on_audio_latency reports s) = Title.titles s ++ new
    /\ forall k : nat,
         nth_error new k
         = option_map title_of
             (nth_error reports (9 * k + 8 - Z.to_nat (Title.ctr s))).
Proof.
  induction reports as [| r reports IH]; intros s Hc.
  - exists []. cbn [fold_left]. split; [symmetry; apply app_nil_r |].
    intros k. destruct k, (9 * _ + 8 - _)%nat; reflexivity.
  - cbn [fold_left].
    destruct (Z.eq_dec (Title.ctr s) 8) as [E8 | Hne].
    + assert (Hstep : on_audio_latency s r
                      = Title.mk 0 (current_offset_ms r) (total_latency_ms r)
                          (device_latency_ms r) (Title.titles s ++ [title_of r])).
      { unfold on_audio_latency. rewrite E8. reflexivity. }
      rewrite Hstep.
      destruct (IH (Title.mk 0 (current_offset_ms r) (total_latency_ms r)
                      (device_latency_ms r) (Title.titles s ++ [title_of r]))
                  ltac:(cbn; lia)) as (new & Htitles & Hnth).
      cbn [Title.titles Title.ctr] in Htitles, Hnth.
      exists (title_of r :: new). split; [rewrite Htitles, <- app_assoc; reflexivity |].
      intros k. rewrite E8. destruct k as [| k].
      * reflexivity.
      * cbn [nth_error]. rewrite Hnth.
        replace (9 * S k + 8 - Z.to_nat 8)%nat with (S (9 * k + 8 - Z.to_nat 0))%nat by lia.
        reflexivity.
    + assert (Hstep : on_audio_latency s r
                      = Title.mk (Title.ctr s + 1) (Title.audio_current_offset_ms s)
                          (Title.audio_total_latency_ms s)
                          (Title.audio_device_latency_ms s) (Title.titles s)).
      { unfold on_audio_latency.
        destruct (Z.leb_spec 8 (Title.ctr s)); [lia |].
        rewrite wrap32_id by lia. reflexivity. }
      rewrite Hstep.
      destruct (IH (Title.mk (Title.ctr s + 1) (Title.audio_current_offset_ms s)
                      (Title.audio_total_latency_ms s)
                      (Title.audio_device_latency_ms s) (Title.titles s))
                  ltac:(cbn; lia)) as (new & Htitles & Hnth).
      cbn [Title.titles Title.ctr] in Htitles, Hnth.
      exists new. split; [exact Htitles |].
      intros k. rewrite Hnth.
      replace (9 * k + 8 - Z.to_nat (Title.ctr s))%nat
        with (S (9 * k + 8 - Z.to_nat (Title.ctr s + 1)))%nat by lia.
      reflexivity.
Qed.


(** Twenty reports: two titles, those of the ninth and the eighteenth. *)
Example title_after_twenty_reports :
  let report n := mkLatencyReport (double_of_Z n) 0 0 false in
  let reports := map report
                   [1; 2; 3; 4; 5; 6; 7; 8; 9; 10; 11; 12; 13; 14; 15; 16; 17; 18; 19;
                    20] in
  Title.titles (fold_left on_audio_latency reports Title.zero)
  = [title_of (report 9); title_of (report 18)].
Proof. vm_compute. reflexivity. Qed.

(* ================================================================== *)
(** ** Input devices *)
(* ================================================================== *)

Section InputFacts.

Import Input.

(** What has gone to the protocol client. *)
Definition sent (g : t) : list Call := filter is_sent (calls g).

(** The grabbed slots and the devices. *)
Definition grabs (g : t) : Z * Z := (grabbed_keyboard g, grabbed_mouse g).

Lemma sent_emit (c : Call) (g : t) :
  sent (emit c g) = sent g ++ (if is_sent c then [c] else []).
Proof.
  unfold sent, emit. cbn. rewrite filter_app. cbn. destruct (is_sent c); reflexivity.
Qed.

Lemma sent_emit_quiet (c : Call) (g : t) : is_sent c = false -> sent (emit c g) = sent g.
Proof. intros Hc. rewrite sent_emit, Hc. apply app_nil_r. Qed.

Lemma sent_send (env : Env) (c : Call) (g : t) :
  is_sent c = true -> sent (send env c g) = sent g ++ [c].
Proof.
  intros Hc. unfold send. destruct (send_ok env c).
  - rewrite sent_emit, Hc. reflexivity.
  - rewrite sent_emit_quiet by reflexivity. rewrite sent_emit, Hc. reflexivity.
Qed.

Lemma send_frame (env : Env) (c : Call) (g : t) :
  grabs (send env c g) = grabs g
  /\ libevdev (send env c g) = libevdev g
  /\ grab_key (send env c g) = grab_key g
  /\ temp_ungrabbed_mouse (send env c g) = temp_ungrabbed_mouse g.
Proof. unfold send. destruct (send_ok env c); repeat split. Qed.

Lemma grab_or_warn_frame (env : Env) (i : Z) (mode : GrabMode) (warn : string) (g : t) :
  sent (grab_or_warn env i mode warn g) = sent g
  /\ grabs (grab_or_warn env i mode warn g) = grabs g
  /\ libevdev (grab_or_warn env i mode warn g) = libevdev g
  /\ grab_key (grab_or_warn env i mode warn g) = grab_key g
  /\ temp_ungrabbed_mouse (grab_or_warn env i mode warn g) = temp_ungrabbed_mouse g
  /\ grab_key_at (grab_or_warn env i mode warn g) = grab_key_at g.
Proof.
  unfold grab_or_warn. destruct (_ <? 0); repeat split;
    rewrite ?sent_emit_quiet by reflexivity; reflexivity.
Qed.

(** [input_ungrab] leaves nothing grabbed, and tells the client
    nothing. *)
(** What [input_ungrab] leaves alone. *)
Definition rest (g : t) : list Call * (Z -> bool) * (Z -> bool) * bool * timeval :=
  (sent g, libevdev g, grab_key g, temp_ungrabbed_mouse g, grab_key_at g).

Lemma rest_emit (c : Call) (g : t) : is_sent c = false -> rest (emit c g) = rest g.
Proof. intros Hc. unfold rest. rewrite sent_emit_quiet by exact Hc. reflexivity. Qed.

Lemma rest_grab_or_warn (env : Env) (i : Z) (mode : GrabMode) (warn : string) (g : t) :
  rest (grab_or_warn env i mode warn g) = rest g.
Proof.
  unfold grab_or_warn. destruct (_ <? 0); rewrite ?rest_emit by reflexivity; reflexivity.
Qed.

(** [input_ungrab] leaves nothing grabbed, and tells the client
    nothing. *)
Lemma input_ungrab_spec (env : Env) (g : t) :
  grabs (input_ungrab env g) = (-1, -1)
  /\ sent (input_ungrab env g) = sent g
  /\ libevdev (input_ungrab env g) = libevdev g
  /\ grab_key (input_ungrab env g) = grab_key g
  /\ temp_ungrabbed_mouse (input_ungrab env g) = temp_ungrabbed_mouse g
  /\ grab_key_at (input_ungrab env g) = grab_key_at g.
Proof.
  unfold input_ungrab.
  set (g1 := if negb (grabbed_keyboard g =? -1) then _ else g).
  assert (H1 : rest g1 = rest g /\ grabbed_keyboard g1 = -1).
  { subst g1. destruct (Z.eqb_spec (grabbed_keyboard g) (-1)) as [Ek | _]; cbn [negb];
      [split; [reflexivity | exact Ek] |].
    split; [| reflexivity].
    change (rest (set_grabbed_keyboard ?v ?x)) with (rest x).
    match goal with
    | |- rest (if ?c then set_grabbed_mouse ?v ?x else ?y) = _ =>
        transitivity (rest x); [destruct c; reflexivity |]
    end.
    destruct (libevdev g (grabbed_keyboard g)); [| reflexivity].
    rewrite rest_grab_or_warn, rest_emit by reflexivity. reflexivity. }
  destruct H1 as (Hr1 & Hk1). clearbody g1.
  assert (H2 : rest (if negb (grabbed_mouse g1 =? -1)
                     then set_grabbed_mouse (-1)
                            (if libevdev g1 (grabbed_mouse g1)
                             then grab_or_warn env
                                    (grabbed_mouse (emit (printf "input: ungrabbing mouse %s") g1))
                                    LIBEVDEV_UNGRAB "input: warning: failed to un-grab device %s"
                                    (emit (printf "input: ungrabbing mouse %s") g1)
                             else g1)
                     else g1) = rest g1
               /\ grabs (if negb (grabbed_mouse g1 =? -1)
                         then set_grabbed_mouse (-1)
                                (if libevdev g1 (grabbed_mouse g1)
                                 then grab_or_warn env
                                        (grabbed_mouse (emit (printf "input: ungrabbing mouse %s") g1))
                                        LIBEVDEV_UNGRAB "input: warning: failed to un-grab device %s"
                                        (emit (printf "input: ungrabbing mouse %s") g1)
                                 else g1)
                         else g1) = (-1, -1)).
  { destruct (Z.eqb_spec (grabbed_mouse g1) (-1)) as [Em | _]; cbn [negb].
    - split; [reflexivity |]. unfold grabs. rewrite Hk1, Em. reflexivity.
    - change (rest (set_grabbed_mouse ?v ?x)) with (rest x).
      destruct (libevdev g1 (grabbed_mouse g1)).
      + rewrite rest_grab_or_warn, rest_emit by reflexivity.
        split; [reflexivity |]. unfold grabs, grab_or_warn.
        destruct (_ <? 0); cbn; rewrite Hk1; reflexivity.
      + split; [reflexivity |]. unfold grabs. cbn. rewrite Hk1. reflexivity. }
  destruct H2 as (Hr2 & Hg2). split; [exact Hg2 |].
  rewrite Hr1 in Hr2. unfold rest in Hr2.
  injection Hr2 as Hs Hl Hk Ht Ha. repeat split; assumption.
Qed.

(** What the grab logic reads and the client sees of the state. *)
Definition view (g : t) : list Call * (Z * Z) * (Z -> bool) * (Z -> bool) :=
  (sent g, grabs g, libevdev g, grab_key g).

Lemma view_emit (c : Call) (g : t) : is_sent c = false -> view (emit c g) = view g.
Proof. intros Hc. unfold view. rewrite sent_emit_quiet by exact Hc. reflexivity. Qed.

Lemma view_grab_or_warn (env : Env) (i : Z) (mode : GrabMode) (warn : string) (g : t) :
  view (grab_or_warn env i mode warn g) = view g.
Proof.
  unfold grab_or_warn. destruct (_ <? 0); rewrite ?view_emit by reflexivity; reflexivity.
Qed.

Lemma view_input_ungrab (env : Env) (g : t) :
  view (input_ungrab env g) = (sent g, (-1, -1), libevdev g, grab_key g).
Proof.
  destruct (input_ungrab_spec env g) as (Hg & Hs & Hl & Hk & _).
  unfold view. rewrite Hg, Hs, Hl, Hk. reflexivity.
Qed.

Lemma view_set_grab_key_at (v : timeval) (g : t) : view (set_grab_key_at v g) = view g.
Proof. reflexivity. Qed.

Lemma view_set_temp (v : bool) (g : t) : view (set_temp_ungrabbed_mouse v g) = view g.
Proof. reflexivity. Qed.

Lemma view_set_keyboard (v : Z) (g : t) :
  view (set_grabbed_keyboard v g) = (sent g, (v, grabbed_mouse g), libevdev g, grab_key g).
Proof. reflexivity. Qed.

Lemma view_set_mouse (v : Z) (g : t) :
  view (set_grabbed_mouse v g) = (sent g, (grabbed_keyboard g, v), libevdev g, grab_key g).
Proof. reflexivity. Qed.

Lemma view_grabs (g g' : t) : view g' = view g -> grabs g' = grabs g.
Proof. intros E. exact (f_equal (fun c => snd (fst (fst c))) E). Qed.

Lemma input_ungrab_keyboard (env : Env) (g : t) :
  grabbed_keyboard (input_ungrab env g) = -1.
Proof. exact (f_equal fst (proj1 (input_ungrab_spec env g))). Qed.

Lemma input_ungrab_mouse (env : Env) (g : t) :
  grabbed_mouse (input_ungrab env g) = -1.
Proof. exact (f_equal snd (proj1 (input_ungrab_spec env g))). Qed.

(** A short press: the key was down for less than 250 ms, or no press
    was seen. *)
Definition short_press (env : Env) (g : t) : bool :=
  (tv_sec (grab_key_at g) =? 0) || (tv_ms_diff (now env) (grab_key_at g) <? 250).

Ltac view_steps :=
  repeat first
    [ rewrite view_set_grab_key_at
    | rewrite view_set_temp
    | rewrite view_grab_or_warn
    | rewrite view_emit by reflexivity ].

(** The grab key: the client is told nothing; on a short release the
    grab is toggled, otherwise it stays. *)
Lemma grab_key_event_spec (env : Env) (idx : Z) (ev : input_event) (g : t) :
  idx <> -1 ->
  view (grab_key_event env idx ev g)
  = (sent g,
     (if (value ev =? 0) && short_press env g then
        if grabbed_keyboard g =? idx then (-1, -1)
        else if grab_rc env idx LIBEVDEV_GRAB <? 0 then
          if grabbed_keyboard g =? -1 then grabs g else (-1, -1)
        else (idx, -1)
      else grabs g),
     libevdev g, grab_key g).
Proof.
  intros Hidx. unfold grab_key_event, short_press.
  destruct (Z.eqb_spec (value ev) 1) as [E1 | H1].
  { destruct (Z.eqb_spec (value ev) 0) as [E0 | _]; [congruence |]. cbn [andb].
    destruct (_ && _ && _); view_steps; reflexivity. }
  destruct (Z.eqb_spec (value ev) 0) as [E0 | H0]; [| reflexivity]. cbn [andb].
  destruct ((tv_sec (grab_key_at g) =? 0) || (tv_ms_diff (now env) (grab_key_at g) <? 250)).
  2:{ destruct (_ && _ && _ && _); view_steps; reflexivity. }
  view_steps.
  change (grabbed_keyboard (emit ?c g)) with (grabbed_keyboard g).
  destruct (Z.eqb_spec (grabbed_keyboard g) idx) as [Ek | Hk]; cbn [negb orb].
  - (* the grabbed keyboard lets go *)
    rewrite Ek. destruct (Z.eqb_spec idx (-1)) as [? | _]; [contradiction |]. cbn [negb].
    rewrite view_input_ungrab. rewrite !sent_emit_quiet by reflexivity. reflexivity.
  - destruct (Z.eqb_spec (grabbed_keyboard g) (-1)) as [Ekn | Hkn]; cbn [negb].
    + (* no keyboard was grabbed *)
      destruct (grab_rc env idx LIBEVDEV_GRAB <? 0).
      * view_steps. reflexivity.
      * change (grabbed_keyboard (emit ?c (emit ?d (emit ?e g)))) with (grabbed_keyboard g).
        change (grabbed_mouse (emit ?c (emit ?d (emit ?e g)))) with (grabbed_mouse g).
        rewrite Ekn, Z.eqb_refl. cbn [negb orb]. rewrite view_set_keyboard.
        destruct (Z.eqb_spec (grabbed_mouse g) (-1)) as [Em | Hm]; cbn [negb].
        -- rewrite !sent_emit_quiet by reflexivity. cbn. rewrite Em. reflexivity.
        -- pose proof (view_input_ungrab env
                         (emit (printf "input: ungrabbing old inputs")
                            (emit (printf "input: grabbed device %s")
                               (emit (libevdev_grab idx LIBEVDEV_GRAB)
                                  (emit (printf "input: handling grab key release from device %s")
                                     g))))) as Hf.
           rewrite !sent_emit_quiet in Hf by reflexivity.
           unfold view in Hf. injection Hf as Hs _ _ Hl Hkk.
           rewrite input_ungrab_mouse, Hs, Hl, Hkk. reflexivity.
    + (* another keyboard was grabbed *)
      set (g1 := input_ungrab env _).
      assert (Hf : view g1 = (sent g, (-1, -1), libevdev g, grab_key g)).
      { subst g1. rewrite view_input_ungrab. rewrite !sent_emit_quiet by reflexivity.
        reflexivity. }
      destruct (grab_rc env idx LIBEVDEV_GRAB <? 0).
      * view_steps. exact Hf.
      * change (grabbed_keyboard (emit ?c (emit ?d g1))) with (grabbed_keyboard g1).
        change (grabbed_mouse (emit ?c (emit ?d g1))) with (grabbed_mouse g1).
        subst g1. rewrite input_ungrab_keyboard, input_ungrab_mouse, Z.eqb_refl.
        cbn [negb orb].
        rewrite view_set_keyboard. rewrite !sent_emit_quiet by reflexivity.
        unfold view in Hf. injection Hf as Hs _ _ Hl Hkk.
        cbn [grabbed_mouse emit set_calls libevdev grab_key].
        rewrite input_ungrab_mouse, Hs, Hl, Hkk. reflexivity.
Qed.

(** The grab key leaves the flag set only by a press on the grabbed
    keyboard. *)
Lemma grab_key_event_temp (env : Env) (idx : Z) (ev : input_event) (g : t) :
  temp_ungrabbed_mouse (grab_key_event env idx ev g) = true ->
  value ev <> 0.
Proof.
  unfold grab_key_event. intros Ht E0. rewrite E0 in Ht.
  cbn [Z.eqb] in Ht. discriminate Ht.
Qed.

Lemma grab_pointer_spec (env : Env) (idx : Z) (ev : input_event) (g : t) :
  exists m,
    view (grab_pointer env idx ev g) = (sent g, (grabbed_keyboard g, m), libevdev g, grab_key g)
    /\ temp_ungrabbed_mouse (grab_pointer env idx ev g) = temp_ungrabbed_mouse g
    /\ (m = grabbed_mouse g
        \/ (grabbed_keyboard g <> -1 /\ grabbed_mouse g = -1 /\ m = idx)).
Proof.
  unfold grab_pointer.
  destruct (Z.eqb_spec (grabbed_keyboard g) (-1)) as [Ek | Hk]; cbn [negb andb].
  { exists (grabbed_mouse g). repeat split. left. reflexivity. }
  destruct (Z.eqb_spec (grabbed_mouse g) (-1)) as [Em | Hm].
  2:{ exists (grabbed_mouse g). repeat split. left. reflexivity. }
  destruct (_ || _).
  2:{ exists (grabbed_mouse g). repeat split. left. reflexivity. }
  destruct (Z.eqb_spec idx (grabbed_keyboard g)) as [Ei | Hi].
  - exists idx. rewrite view_set_mouse. rewrite !sent_emit_quiet by reflexivity.
    cbn. rewrite <- Ei. repeat split. right. repeat split; congruence.
  - destruct (grab_rc env idx LIBEVDEV_GRAB <? 0).
    + exists (grabbed_mouse g). view_steps. repeat split. left. reflexivity.
    + exists idx. rewrite view_set_mouse. rewrite !sent_emit_quiet by reflexivity.
      repeat split. right. repeat split; assumption.
Qed.

(** The control part of the state: what the forwarding of an event
    leaves alone. *)
Definition control (g : t) : (Z * Z) * (Z -> bool) * (Z -> bool) * bool :=
  (grabs g, libevdev g, grab_key g, temp_ungrabbed_mouse g).

Lemma control_send (env : Env) (c : Call) (g : t) : control (send env c g) = control g.
Proof. unfold send. destruct (send_ok env c); reflexivity. Qed.

Lemma key_event_control (env : Env) (ev : input_event) (g : t) (l : Local) :
  control (fst (key_event env ev g l)) = control g.
Proof.
  unfold key_event. cbn [fst].
  repeat match goal with
         | |- context [if ?c then _ else _] => destruct c
         end; rewrite ?control_send; reflexivity.
Qed.

Lemma wheel_loop_control (fuel : nat) (env : Env) (s : Z) (b : SpiceMouseButton) :
  forall (w : Z) (g : t) (w' : Z) (g' : t),
  wheel_loop fuel env s b w g = Some (w', g') -> control g' = control g.
Proof.
  induction fuel as [| fuel IH]; intros w g w' g' Hrun; [discriminate |].
  cbn [wheel_loop] in Hrun. destruct (w =? 0).
  - injection Hrun as _ <-. reflexivity.
  - apply IH in Hrun. rewrite Hrun, !control_send. reflexivity.
Qed.

Lemma syn_report_control (fuel : nat) (env : Env) (g g' : t) (l l' : Local) :
  syn_report fuel env g l = Some (g', l') -> control g' = control g.
Proof.
  unfold syn_report. intros Hrun.
  assert (Hfake : forall g1 r,
            (let f := pending_rel_fake l in
             let '(g, f) :=
               if negb (ignore f) then
                 if touch f then
                   let g := if negb (fake_dx f =? 0) || negb (fake_dy f =? 0)
                            then send env (purespice_mouseMotion (fake_dx f) (fake_dy f)) g1
                            else g1 in
                   (g, mk_fake (ignore f) (x f) (y f) (touch f) (cx f) (cy f) 0 0)
                 else (g1, f)
               else (g1, f) in
             Some (g, mk_local r f (sync l))) = Some (g', l') ->
            control g' = control g1).
  { intros g1 r. cbv zeta.
    intros E.
    repeat match type of E with
           | context [if ?c then _ else _] => destruct c
           end; cbv beta iota in E; injection E as <- _;
      rewrite ?control_send; reflexivity. }
  destruct (ok (pending_rel l)).
  - set (g0 := if negb (dx (pending_rel l) =? 0) || negb (dy (pending_rel l) =? 0)
               then send env (purespice_mouseMotion (dx (pending_rel l)) (dy (pending_rel l))) g
               else g) in *.
    assert (H0 : control g0 = control g)
      by (subst g0; destruct (_ || _); rewrite ?control_send; reflexivity).
    destruct (wheel (pending_rel l) <? 0).
    + destruct (wheel_loop fuel env 1 SPICE_MOUSE_BUTTON_DOWN _ g0) as [[w1 g1] |] eqn:Hw;
        [| discriminate].
      apply wheel_loop_control in Hw. apply Hfake in Hrun. congruence.
    + destruct (0 <? wheel (pending_rel l)).
      * destruct (wheel_loop fuel env (-1) SPICE_MOUSE_BUTTON_UP _ g0) as [[w1 g1] |] eqn:Hw;
          [| discriminate].
        apply wheel_loop_control in Hw. apply Hfake in Hrun. congruence.
      * apply Hfake in Hrun. congruence.
  - apply Hfake in Hrun. exact Hrun.
Qed.

Lemma input_device_end_spec (env : Env) (idx : Z) (g : t) :
  view (input_device_end env idx g)
  = (sent g,
     (if (grabbed_keyboard g =? idx) || (grabbed_mouse g =? idx) then (-1, -1) else grabs g),
     store (libevdev g) idx false, grab_key g).
Proof.
  unfold input_device_end.
  change (grabbed_keyboard (set_libevdev ?v (emit ?a (emit ?b (emit ?c g)))))
    with (grabbed_keyboard g).
  destruct (grabbed_keyboard g =? idx) eqn:Ek.
  - cbn [orb].
    match goal with
    | |- context [if ?c then _ else _] => destruct c
    end; rewrite view_input_ungrab; rewrite !sent_emit_quiet by reflexivity;
      unfold sent; cbn; rewrite !filter_app; cbn; rewrite !app_nil_r; reflexivity.
  - cbn [orb].
    change (grabbed_mouse (set_libevdev ?v (emit ?a (emit ?b (emit ?c g)))))
      with (grabbed_mouse g).
    destruct (grabbed_mouse g =? idx) eqn:Em.
    + rewrite view_input_ungrab; rewrite !sent_emit_quiet by reflexivity;
        unfold sent; cbn; rewrite !filter_app; cbn; rewrite !app_nil_r; reflexivity.
    + unfold view, sent, grabs. cbn. rewrite !filter_app. cbn. rewrite !app_nil_r.
      reflexivity.
Qed.

Lemma control_grabs (g g' : t) :
  control g' = control g ->
  grabs g' = grabs g /\ libevdev g' = libevdev g /\ grab_key g' = grab_key g
  /\ temp_ungrabbed_mouse g' = temp_ungrabbed_mouse g.
Proof.
  intros E. split; [| split; [| split]].
  - exact (f_equal (fun c => fst (fst (fst c))) E).
  - exact (f_equal (fun c => snd (fst (fst c))) E).
  - exact (f_equal (fun c => snd (fst c)) E).
  - exact (f_equal snd E).
Qed.

(** The state a turn hands to its grab logic: a resync only prints. *)
Definition after_sync (rc : Z) (g : t) (l : Local) : t * Local :=
  if rc =? LIBEVDEV_READ_STATUS_SYNC then
    (if sync l =? -1
     then emit (printf "input: device dropped events, syncing %s") g else g,
     mk_local (pending_rel l) (pending_rel_fake l) (wrap32 (sync l + 1)))
  else (g, l).

Lemma after_sync_frame (rc : Z) (g : t) (l : Local) :
  view (fst (after_sync rc g l)) = view g
  /\ control (fst (after_sync rc g l)) = control g
  /\ pending_rel (snd (after_sync rc g l)) = pending_rel l
  /\ pending_rel_fake (snd (after_sync rc g l)) = pending_rel_fake l
  /\ grab_key_at (fst (after_sync rc g l)) = grab_key_at g.
Proof.
  unfold after_sync. destruct (rc =? _); [destruct (sync l =? -1) |]; cbn [fst snd];
    rewrite ?view_emit by reflexivity; repeat split.
Qed.

(** The forwarding half of a turn (input.c:915-1037). *)
Definition forward (fuel : nat) (env : Env) (ev : input_event) (g : t) (l : Local)
    : option (t * Local * Next) :=
  let '(g, l) := if type ev =? EV_KEY then key_event env ev g l else (g, l) in
  let l := if type ev =? EV_REL then rel_event ev l else l in
  let l := if type ev =? EV_ABS then abs_event ev l else l in
  if (type ev =? EV_SYN) && (code ev =? SYN_REPORT) then
    match syn_report fuel env g l with
    | Some (g, l) => Some (g, l, Loop)
    | None => None
    end
  else Some (g, l, Loop).

Lemma forward_control (fuel : nat) (env : Env) (ev : input_event) (g g' : t)
    (l l' : Local) (n : Next) :
  forward fuel env ev g l = Some (g', l', n) -> control g' = control g.
Proof.
  unfold forward. intros Hrun.
  pose proof (key_event_control env ev g l) as Hk.
  destruct (type ev =? EV_KEY).
  - destruct (key_event env ev g l) as [g1 l1]. cbn [fst] in Hk.
    destruct (_ && _).
    + destruct (syn_report fuel env g1 _) as [[g2 l2] |] eqn:Hs; [| discriminate].
      injection Hrun as <- _ _. apply syn_report_control in Hs. congruence.
    + injection Hrun as <- _ _. exact Hk.
  - destruct (_ && _).
    + destruct (syn_report fuel env g _) as [[g2 l2] |] eqn:Hs; [| discriminate].
      injection Hrun as <- _ _. apply syn_report_control in Hs. exact Hs.
    + injection Hrun as <- _ _. reflexivity.
Qed.

(** A turn taken apart. *)
Lemma input_device_turn_eq (fuel : nat) (env : Env) (idx rc : Z) (ev : input_event)
    (g : t) (l : Local) :
  slot idx = true ->
  slot_or_none (grabbed_keyboard g) = true ->
  slot_or_none (grabbed_mouse g) = true ->
  input_device_turn fuel env idx rc ev g l
  = if rc <? 0 then
      if rc =? - EAGAIN then
        Some (if negb (sync l =? -1)
              then (emit (printf "input: synced %s in %d events") g,
                    mk_local (pending_rel l) (pending_rel_fake l) (-1), Loop)
              else (g, l, Loop))
      else
        Some (input_device_end env idx
                (if rc =? - ENODEV then emit (printf "input: lost device %s") g
                 else emit (printf "input: failed to read event from input device %s") g),
              l, End)
    else
      let g0 := fst (after_sync rc g l) in
      let l0 := snd (after_sync rc g l) in
      match (if type ev =? EV_KEY then key_index (grab_key g0) (code ev) else Some false) with
      | None => None
      | Some true => Some (grab_key_event env idx ev g0, l0, Loop)
      | Some false =>
          let g1 := grab_pointer env idx ev g0 in
          if negb (grabbed_keyboard g1 =? idx) && negb (grabbed_mouse g1 =? idx)
          then Some (g1, l0, Loop)
          else if temp_ungrabbed_mouse g1 && (grabbed_mouse g1 =? idx)
          then Some (g1, l0, Loop)
          else forward fuel env ev g1 l0
      end.
Proof.
  intros Hi Hk Hm. unfold input_device_turn. rewrite Hi, Hk, Hm. cbn [andb negb].
  destruct (rc <? 0).
  - destruct (rc =? - EAGAIN); [destruct (negb _) |]; reflexivity.
  - unfold after_sync, forward.
    destruct (rc =? LIBEVDEV_READ_STATUS_SYNC); cbn [fst snd]; reflexivity.
Qed.

Lemma input_device_turn_slots (fuel : nat) (env : Env) (idx rc : Z) (ev : input_event)
    (g : t) (l : Local) (r : t * Local * Next) :
  input_device_turn fuel env idx rc ev g l = Some r ->
  slot idx = true
  /\ slot_or_none (grabbed_keyboard g) = true
  /\ slot_or_none (grabbed_mouse g) = true.
Proof.
  unfold input_device_turn.
  destruct (slot idx), (slot_or_none (grabbed_keyboard g)),
    (slot_or_none (grabbed_mouse g)); cbn [andb negb]; try discriminate.
  repeat split.
Qed.

Lemma slot_not_none (i : Z) : slot i = true -> i <> -1.
Proof. unfold slot, MAX_INPUT_DEVICES. lia. Qed.

Lemma view_sent (g g' : t) : view g' = view g -> sent g' = sent g.
Proof. intros E. exact (f_equal (fun c => fst (fst (fst c))) E). Qed.

Lemma key_index_some {A : Type} (f : Z -> A) (c : Z) (v : A) :
  key_index f c = Some v -> f c = v /\ 0 <= c < KEY_MAX.
Proof.
  unfold key_index. destruct (Z.leb_spec 0 c), (Z.ltb_spec c KEY_MAX); cbn;
    try discriminate. intros [= <-]. split; [reflexivity | lia].
Qed.

(** X22.  A turn tells the protocol client something only for an event that
    was read, that is not a grab key, and that comes from the device
    grabbed as keyboard or as mouse once the turn's grab logic has run; the
    mouse let go while the grab key is held is not forwarded. *)
Theorem only_grabbed_devices_are_forwarded (fuel : nat) (env : Input.Env) (idx rc : Z)
    (ev : Input.input_event) (g g' : Input.t) (l l' : Input.Local) (n : Input.Next) :
  Input.input_device_turn fuel env idx rc ev g l = Some (g', l', n) ->
  sent g' <> sent g ->
  0 <= rc
  /\ (Input.type ev = Input.EV_KEY -> Input.grab_key g (Input.code ev) = false)
  /\ (Input.grabbed_keyboard g' = idx \/ Input.grabbed_mouse g' = idx)
  /\ (Input.grabbed_mouse g' = idx -> Input.temp_ungrabbed_mouse g' = false).
Proof.
  intros Hrun Hsent.
  destruct (input_device_turn_slots _ _ _ _ _ _ _ _ Hrun) as (Hi & Hk & Hm).
  rewrite input_device_turn_eq in Hrun by assumption.
  destruct (Z.ltb_spec rc 0) as [Hneg | Hpos].
  { exfalso. apply Hsent.
    destruct (rc =? - EAGAIN).
    - destruct (negb _); injection Hrun as <- _ _;
        rewrite ?sent_emit_quiet by reflexivity; reflexivity.
    - injection Hrun as <- _ _.
      pose proof (input_device_end_spec env idx
                    (if rc =? - ENODEV then emit (printf "input: lost device %s") g
                     else emit (printf "input: failed to read event from input device %s") g))
        as Hend.
      unfold view in Hend. injection Hend as Hs _ _ _. rewrite Hs.
      destruct (rc =? _); apply sent_emit_quiet; reflexivity. }
  cbv zeta in Hrun.
  destruct (after_sync_frame rc g l) as (Hf0 & Hc0 & _).
  destruct (after_sync rc g l) as [g0 l0]. cbn [fst snd] in *.
  assert (Hkeys : grab_key g0 = grab_key g) by (apply control_grabs in Hc0; tauto).
  destruct (if type ev =? EV_KEY then key_index (grab_key g0) (code ev) else Some false)
    as [[|] |] eqn:Hgk; [| | discriminate].
  { exfalso. apply Hsent. injection Hrun as <- _ _.
    pose proof (grab_key_event_spec env idx ev g0 (slot_not_none idx Hi)) as Hspec.
    unfold view in Hspec. injection Hspec as Hs _ _ _.
    rewrite Hs. apply view_sent. exact Hf0. }
  split; [exact Hpos |]. split.
  { intros Ety. rewrite Ety in Hgk. cbn in Hgk. rewrite Hkeys in Hgk.
    apply key_index_some in Hgk. tauto. }
  destruct (grab_pointer_spec env idx ev g0) as (m & Hfp & Htp & _).
  set (g1 := grab_pointer env idx ev g0) in *.
  assert (Hs1 : sent g1 = sent g).
  { unfold view in Hfp. injection Hfp as Hs _ _ _. rewrite Hs.
    apply view_sent. exact Hf0. }
  destruct (Z.eqb_spec (grabbed_keyboard g1) idx) as [Ek | Hnk];
    destruct (Z.eqb_spec (grabbed_mouse g1) idx) as [Em | Hnm]; cbn [negb andb] in Hrun;
    try (exfalso; apply Hsent; injection Hrun as <- _ _; exact Hs1).
  - destruct (temp_ungrabbed_mouse g1) eqn:Ht; cbn [andb] in Hrun;
      [exfalso; apply Hsent; injection Hrun as <- _ _; exact Hs1 |].
    apply forward_control, control_grabs in Hrun.
    destruct Hrun as (Hg & _ & _ & Htemp). unfold grabs in Hg. injection Hg as Hg1 Hg2.
    split; [left; congruence |]. intros _. congruence.
  - rewrite andb_false_r in Hrun.
    apply forward_control, control_grabs in Hrun.
    destruct Hrun as (Hg & _ & _ & Htemp). unfold grabs in Hg. injection Hg as Hg1 Hg2.
    split; [left; congruence |]. intros Hx. congruence.
  - destruct (temp_ungrabbed_mouse g1) eqn:Ht; cbn [andb] in Hrun;
      [exfalso; apply Hsent; injection Hrun as <- _ _; exact Hs1 |].
    apply forward_control, control_grabs in Hrun.
    destruct Hrun as (Hg & _ & _ & Htemp). unfold grabs in Hg. injection Hg as Hg1 Hg2.
    split; [right; congruence |]. intros _. congruence.
Qed.

(** X23.  The grab key toggles the grab.  A release of a grab key within
    250 ms of its press (or with no press seen) on the grabbed keyboard
    lets every device go; on another device it lets go whatever was
    grabbed and, if the device can be grabbed, makes it the grabbed
    keyboard, with no mouse.  Any other event of a grab key leaves the
    grab as it is.  In no case is the client told of the key. *)
Theorem grab_key_toggles_grab (fuel : nat) (env : Input.Env) (idx rc : Z)
    (ev : Input.input_event) (g : Input.t) (l : Input.Local) :
  Input.slot idx = true ->
  Input.slot_or_none (Input.grabbed_keyboard g) = true ->
  Input.slot_or_none (Input.grabbed_mouse g) = true ->
  (Input.grabbed_keyboard g = -1 -> Input.grabbed_mouse g = -1) ->
  0 <= rc ->
  Input.type ev = Input.EV_KEY ->
  Input.key_index (Input.grab_key g) (Input.code ev) = Some true ->
  exists g' l',
    Input.input_device_turn fuel env idx rc ev g l = Some (g', l', Input.Loop)
    /\ sent g' = sent g
    /\ Input.libevdev g' = Input.libevdev g
    /\ (Input.grabbed_keyboard g', Input.grabbed_mouse g')
       = if (Input.value ev =? 0) && short_press env g then
           if (Input.grabbed_keyboard g =? idx)
              || (Input.grab_rc env idx Input.LIBEVDEV_GRAB <? 0)
           then (-1, -1) else (idx, -1)
         else (Input.grabbed_keyboard g, Input.grabbed_mouse g).
Proof.
  intros Hi Hk Hm Hinv Hrc Hty Hkey.
  rewrite input_device_turn_eq by assumption.
  destruct (Z.ltb_spec rc 0) as [? | _]; [lia |]. cbv zeta.
  destruct (after_sync_frame rc g l) as (Hf0 & Hc0 & _ & _ & Hat).
  destruct (after_sync rc g l) as [g0 l0]. cbn [fst snd] in *.
  apply control_grabs in Hc0. destruct Hc0 as (Hg0 & Hl0 & Hk0 & _).
  rewrite Hty, Hk0. cbn [Z.eqb EV_KEY Pos.eqb]. rewrite Hkey.
  do 2 eexists. split; [reflexivity |].
  pose proof (grab_key_event_spec env idx ev g0 (slot_not_none idx Hi)) as Hspec.
  assert (Hshort : short_press env g0 = short_press env g)
    by (unfold short_press; rewrite Hat; reflexivity).
  rewrite Hshort in Hspec.
  unfold grabs in Hg0. injection Hg0 as Hkb Hms. rewrite Hkb in Hspec.
  split; [transitivity (sent g0);
          [exact (f_equal (fun c => fst (fst (fst c))) Hspec) | exact (view_sent _ _ Hf0)] |].
  split; [rewrite <- Hl0; exact (f_equal (fun c => snd (fst c)) Hspec) |].
  pose proof (f_equal (fun c => snd (fst (fst c))) Hspec) as Hgr.
  unfold view in Hgr. cbn [fst snd] in Hgr. unfold grabs in Hgr. rewrite Hgr.
  destruct ((value ev =? 0) && short_press env g); [| congruence].
  destruct (Z.eqb_spec (grabbed_keyboard g) idx) as [Ek | Hnk]; cbn [orb];
    [reflexivity |].
  destruct (grab_rc env idx LIBEVDEV_GRAB <? 0); [| reflexivity].
  destruct (Z.eqb_spec (grabbed_keyboard g) (-1)) as [Ekn | _]; [| reflexivity].
  rewrite Hkb, Hms, Ekn, (Hinv Ekn). reflexivity.
Qed.

(** X24.  When the device of a thread goes away, or cannot be read, the
    thread ends: the slot is freed and, if the device was the grabbed
    keyboard or the grabbed mouse, every device is let go, so
    [input_is_grabbed] is false; otherwise the grab stays.  The client is
    told nothing. *)
Theorem lost_device_releases_grab (fuel : nat) (env : Input.Env) (idx rc : Z)
    (ev : Input.input_event) (g : Input.t) (l : Input.Local) :
  Input.slot idx = true ->
  Input.slot_or_none (Input.grabbed_keyboard g) = true ->
  Input.slot_or_none (Input.grabbed_mouse g) = true ->
  rc < 0 ->
  rc <> - Input.EAGAIN ->
  exists g',
    Input.input_device_turn fuel env idx rc ev g l = Some (g', l, Input.End)
    /\ sent g' = sent g
    /\ Input.libevdev g' idx = false
    /\ (forall i, i <> idx -> Input.libevdev g' i = Input.libevdev g i)
    /\ (Input.grabbed_keyboard g', Input.grabbed_mouse g')
       = if (Input.grabbed_keyboard g =? idx) || (Input.grabbed_mouse g =? idx)
         then (-1, -1) else (Input.grabbed_keyboard g, Input.grabbed_mouse g).
Proof.
  intros Hi Hk Hm Hrc Hne.
  rewrite input_device_turn_eq by assumption.
  destruct (Z.ltb_spec rc 0) as [_ | ?]; [| lia].
  destruct (Z.eqb_spec rc (- EAGAIN)) as [? | _]; [contradiction |].
  eexists. split; [reflexivity |].
  set (g0 := if rc =? - ENODEV then _ else _).
  assert (Hf0 : view g0 = view g)
    by (subst g0; destruct (rc =? _); apply view_emit; reflexivity).
  pose proof (input_device_end_spec env idx g0) as Hspec.
  pose proof (view_grabs _ _ Hf0) as Hg0. unfold grabs in Hg0. injection Hg0 as Hkb Hms.
  rewrite Hkb, Hms in Hspec.
  split; [transitivity (sent g0);
          [exact (f_equal (fun c => fst (fst (fst c))) Hspec) | exact (view_sent _ _ Hf0)] |].
  pose proof (f_equal (fun c => snd (fst c)) Hspec) as Hlib.
  unfold view in Hlib. cbn [fst snd] in Hlib.
  pose proof (f_equal (fun c => snd (fst c)) Hf0) as Hlib0.
  unfold view in Hlib0. cbn [fst snd] in Hlib0.
  split; [rewrite Hlib; unfold store; rewrite Z.eqb_refl; reflexivity |].
  split.
  { intros i Hneq. rewrite Hlib, Hlib0. unfold store.
    destruct (Z.eqb_spec i idx); [contradiction | reflexivity]. }
  pose proof (f_equal (fun c => snd (fst (fst c))) Hspec) as Hgr.
  unfold view in Hgr. cbn [fst snd] in Hgr. unfold grabs in Hgr. rewrite Hgr.
  destruct (_ || _); [reflexivity |]. unfold grabs. congruence.
Qed.

(** One click of a button. *)
Definition click (b : SpiceMouseButton) : list Call :=
  [purespice_mousePress b; purespice_mouseRelease b].

Fixpoint clicks (n : nat) (b : SpiceMouseButton) : list Call :=
  match n with
  | O => []
  | S n => click b ++ clicks n b
  end.

(** The wheel loops end after as many clicks as the counter is from
    zero. *)
Lemma wheel_loop_spec (env : Env) (s : Z) (b : SpiceMouseButton) (n : nat) :
  s = 1 \/ s = -1 ->
  forall (fuel : nat) (w : Z) (g : t),
  w = - s * Z.of_nat n ->
  - 2 ^ 31 <= w < 2 ^ 31 ->
  (n < fuel)%nat ->
  exists g',
    wheel_loop fuel env s b w g = Some (s, g')
    /\ sent g' = sent g ++ clicks n b.
Proof.
  intros Hs. induction n as [| n IH]; intros fuel w g Hw Hrange Hfuel.
  - destruct fuel as [| fuel]; [lia |]. cbn [wheel_loop].
    replace w with 0 by lia. cbn [Z.eqb]. exists g.
    split; [f_equal; f_equal; destruct Hs; subst s; reflexivity |].
    cbn. symmetry. apply app_nil_r.
  - destruct fuel as [| fuel]; [lia |]. cbn [wheel_loop].
    destruct (Z.eqb_spec w 0) as [E0 | _]; [destruct Hs; lia |].
    assert (Hstep : wrap32 (w + s) = - s * Z.of_nat n).
    { rewrite wrap32_id by (destruct Hs; lia). destruct Hs; lia. }
    rewrite Hstep.
    destruct (IH fuel (- s * Z.of_nat n)
                (send env (purespice_mouseRelease b) (send env (purespice_mousePress b) g))
                eq_refl ltac:(destruct Hs; lia) ltac:(lia)) as (g' & Hrun & Hsent).
    exists g'. split; [exact Hrun |].
    rewrite Hsent, !sent_send by reflexivity.
    cbn [clicks click app]. rewrite <- !app_assoc. reflexivity.
Qed.

(** X25.  A report turns the wheel movement gathered since the last one
    into clicks: after the pointer motion, if any, the client gets one
    press and release of the wheel-up button for each step up, or of the
    wheel-down button for each step down, and the gathered movement is
    cleared.  The loops come to an end: [fuel] above the steps is
    enough. *)
Theorem wheel_steps_become_clicks (fuel : nat) (env : Input.Env) (g : Input.t)
    (l : Input.Local) :
  let r := Input.pending_rel l in
  let f := Input.pending_rel_fake l in
  Input.ok r = true ->
  - 2 ^ 31 <= Input.wheel r < 2 ^ 31 ->
  (Z.abs_nat (Input.wheel r) < fuel)%nat ->
  exists g' l',
    Input.syn_report fuel env g l = Some (g', l')
    /\ sent g'
       = sent g
         ++ (if negb (Input.dx r =? 0) || negb (Input.dy r =? 0)
             then [Input.purespice_mouseMotion (Input.dx r) (Input.dy r)] else [])
         ++ clicks (Z.abs_nat (Input.wheel r))
              (if Input.wheel r <? 0 then Input.SPICE_MOUSE_BUTTON_DOWN
               else Input.SPICE_MOUSE_BUTTON_UP)
         ++ (if negb (Input.ignore f) && Input.touch f
                && (negb (Input.fake_dx f =? 0) || negb (Input.fake_dy f =? 0))
             then [Input.purespice_mouseMotion (Input.fake_dx f) (Input.fake_dy f)]
             else [])
    /\ Input.pending_rel l' = Input.mk_rel false 0 0 0.
Proof.
  intros r f Hok Hrange Hfuel. unfold syn_report. fold r f. rewrite Hok.
  set (g0 := if negb (dx r =? 0) || negb (dy r =? 0)
             then send env (purespice_mouseMotion (dx r) (dy r)) g else g).
  assert (H0 : sent g0
               = sent g ++ (if negb (dx r =? 0) || negb (dy r =? 0)
                            then [purespice_mouseMotion (dx r) (dy r)] else [])).
  { subst g0. destruct (_ || _); [apply sent_send; reflexivity |].
    symmetry. apply app_nil_r. }
  assert (Hwheel : exists w1 g1,
            (if wheel r <? 0 then wheel_loop fuel env 1 SPICE_MOUSE_BUTTON_DOWN (wheel r) g0
             else if 0 <? wheel r
                  then wheel_loop fuel env (-1) SPICE_MOUSE_BUTTON_UP (wheel r) g0
                  else Some (wheel r, g0)) = Some (w1, g1)
            /\ sent g1 = sent g0
                         ++ clicks (Z.abs_nat (wheel r))
                              (if wheel r <? 0 then SPICE_MOUSE_BUTTON_DOWN
                               else SPICE_MOUSE_BUTTON_UP)).
  { destruct (Z.ltb_spec (wheel r) 0) as [Hneg | Hnn].
    - destruct (wheel_loop_spec env 1 SPICE_MOUSE_BUTTON_DOWN (Z.abs_nat (wheel r))
                  ltac:(left; reflexivity) fuel (wheel r) g0 ltac:(lia) Hrange Hfuel)
        as (g1 & Hrun & Hsent).
      exists 1, g1. split; assumption.
    - destruct (Z.ltb_spec 0 (wheel r)) as [Hpos | Hz].
      + destruct (wheel_loop_spec env (-1) SPICE_MOUSE_BUTTON_UP (Z.abs_nat (wheel r))
                    ltac:(right; reflexivity) fuel (wheel r) g0 ltac:(lia) Hrange Hfuel)
          as (g1 & Hrun & Hsent).
        exists (-1), g1. split; assumption.
      + exists (wheel r), g0. split; [reflexivity |].
        replace (wheel r) with 0 by lia. cbn. symmetry. apply app_nil_r. }
  destruct Hwheel as (w1 & g1 & -> & Hs1).
  destruct (ignore f) eqn:Hig; cbn [negb andb].
  - do 2 eexists. split; [reflexivity |]. split; [| reflexivity].
    rewrite Hs1, H0, app_nil_r, <- app_assoc. reflexivity.
  - destruct (touch f) eqn:Htouch.
    + do 2 eexists. split; [reflexivity |]. split; [| reflexivity].
      destruct (negb (fake_dx f =? 0) || negb (fake_dy f =? 0)).
      * rewrite sent_send by reflexivity. rewrite Hs1, H0, <- !app_assoc. reflexivity.
      * rewrite Hs1, H0, app_nil_r, <- app_assoc. reflexivity.
    + do 2 eexists. split; [reflexivity |]. split; [| reflexivity].
      rewrite Hs1, H0, app_nil_r, <- app_assoc. reflexivity.
Qed.

(* ------------------------------------------------------------------ *)
(** *** The grab over any run *)

(** A grabbed slot holds a device. *)
Definition tracked (g : t) (i : Z) : Prop :=
  i = -1 \/ (slot i = true /\ libevdev g i = true).

Definition grab_inv (g : t) : Prop :=
  (grabbed_keyboard g = -1 -> grabbed_mouse g = -1)
  /\ tracked g (grabbed_keyboard g)
  /\ tracked g (grabbed_mouse g).

Lemma tracked_slot (g : t) (i : Z) : tracked g i -> slot_or_none i = true.
Proof.
  unfold slot_or_none. intros [-> | (Hs & _)]; [reflexivity |].
  rewrite Hs. apply orb_true_r.
Qed.

Lemma grab_inv_none (g : t) : grabs g = (-1, -1) -> grab_inv g.
Proof.
  unfold grabs, grab_inv, tracked. intros [= -> ->]. repeat split; left; reflexivity.
Qed.

Lemma grab_inv_same (g g' : t) :
  grabs g' = grabs g ->
  (forall i, libevdev g i = true -> libevdev g' i = true) ->
  grab_inv g -> grab_inv g'.
Proof.
  unfold grabs, grab_inv, tracked. intros [= -> ->] Hl (H1 & H2 & H3).
  split; [exact H1 |]. split.
  - destruct H2 as [? | (? & ?)]; [left; assumption | right; split; auto].
  - destruct H3 as [? | (? & ?)]; [left; assumption | right; split; auto].
Qed.

Lemma first_free_spec (n : nat) :
  forall (i : Z) (g : t),
  0 <= i ->
  let r := first_free n i g in
  r = -1 \/ (i <= r < i + Z.of_nat n /\ libevdev g r = false).
Proof.
  induction n as [| n IH]; intros i g Hi; cbv zeta; cbn [first_free].
  - left. reflexivity.
  - destruct (libevdev g i) eqn:Hl; cbn [negb].
    + destruct (IH (i + 1) g ltac:(lia)) as [E | (Hr & Hf)]; [left; exact E |].
      right. split; [lia | exact Hf].
    + right. split; [lia | exact Hl].
Qed.

Lemma input_add_device_inv (env : AddEnv) (g : t) :
  grab_inv g -> grab_inv (snd (fst (input_add_device env g))).
Proof.
  intros Hinv. unfold input_add_device.
  destruct (get_devname_rc env <? 0); [exact Hinv |].
  destruct (negb (is_event_node env)); [exact Hinv |].
  set (g0 := emit (printf "input: probing %s") g).
  assert (H0 : grab_inv g0) by (revert Hinv; apply grab_inv_same; auto).
  pose proof (first_free_spec (Z.to_nat MAX_INPUT_DEVICES) 0 g0 ltac:(lia)) as Hfree.
  cbv zeta in Hfree. set (idx := first_free _ 0 g0) in *.
  destruct (Z.eqb_spec idx (-1)) as [E | Hne]; [exact H0 |].
  destruct Hfree as [? | (_ & Hfree)]; [contradiction |].
  clearbody idx.
  destruct (open_rc env <? 0); [exact H0 |].
  destruct (new_from_fd_rc env <? 0); [exact H0 |].
  assert (Hlib0 : libevdev g0 = libevdev g) by reflexivity.
  destruct (_ && _ && _); [| destruct (negb (pthread_create_rc env =? 0))];
    cbn [fst snd];
    (revert H0; apply grab_inv_same; [reflexivity |]; intros i Hi;
     cbn [libevdev set_libevdev emit set_calls]; unfold store;
     destruct (Z.eqb_spec i idx) as [-> | _]; [congruence | try exact Hi]).
Qed.

Lemma input_device_turn_inv (fuel : nat) (env : Env) (idx rc : Z) (ev : input_event)
    (g g' : t) (l l' : Local) (n : Next) :
  libevdev g idx = true ->
  input_device_turn fuel env idx rc ev g l = Some (g', l', n) ->
  grab_inv g -> grab_inv g'.
Proof.
  intros Hdev Hrun Hinv.
  destruct (input_device_turn_slots _ _ _ _ _ _ _ _ Hrun) as (Hi & Hk & Hm).
  rewrite input_device_turn_eq in Hrun by assumption.
  destruct (rc <? 0).
  { destruct (rc =? - EAGAIN).
    - destruct (negb _); injection Hrun as <- _ _; [| exact Hinv].
      revert Hinv. apply grab_inv_same; auto.
    - injection Hrun as <- _ _.
      match goal with |- grab_inv (input_device_end _ _ ?x) => set (g0 := x) end.
      assert (Hf0 : view g0 = view g)
        by (subst g0; destruct (rc =? _); apply view_emit; reflexivity).
      pose proof (input_device_end_spec env idx g0) as Hspec.
      pose proof (view_grabs _ _ Hf0) as Hg0.
      pose proof (f_equal (fun c => snd (fst c)) Hf0) as Hlib0.
      unfold view in Hlib0. cbn [fst snd] in Hlib0.
      pose proof (f_equal (fun c => snd (fst c)) Hspec) as Hlib.
      unfold view in Hlib. cbn [fst snd] in Hlib.
      pose proof (f_equal (fun c => snd (fst (fst c))) Hspec) as Hgr.
      unfold view in Hgr. cbn [fst snd] in Hgr.
      destruct (Z.eqb_spec (grabbed_keyboard g0) idx) as [Ek | Hnk]; cbn [orb] in Hgr;
        [apply grab_inv_none; exact Hgr |].
      destruct (Z.eqb_spec (grabbed_mouse g0) idx) as [Em | Hnm];
        [apply grab_inv_none; exact Hgr |].
      unfold grabs in Hg0. injection Hg0 as Hkb Hms.
      destruct Hinv as (H1 & H2 & H3). unfold grab_inv, tracked.
      unfold grabs in Hgr. injection Hgr as Hk' Hm'.
      rewrite Hk', Hm', Hkb, Hms, Hlib, Hlib0. unfold store.
      split; [exact H1 |]. split.
      + destruct (Z.eqb_spec (grabbed_keyboard g) idx); [congruence | exact H2].
      + destruct (Z.eqb_spec (grabbed_mouse g) idx); [congruence | exact H3]. }
  cbv zeta in Hrun.
  destruct (after_sync_frame rc g l) as (Hf0 & Hc0 & _).
  destruct (after_sync rc g l) as [g0 l0]. cbn [fst snd] in *.
  apply control_grabs in Hc0. destruct Hc0 as (Hg0 & Hl0 & Hk0 & _).
  assert (Hinv0 : grab_inv g0)
    by (revert Hinv; apply grab_inv_same; [exact Hg0 | intros i; rewrite Hl0; auto]).
  assert (Hdev0 : libevdev g0 idx = true) by (rewrite Hl0; exact Hdev).
  clear Hinv Hdev Hg0 Hl0 Hk0 Hf0 Hk Hm.
  destruct (if type ev =? EV_KEY then key_index (grab_key g0) (code ev) else Some false)
    as [[|] |]; [| | discriminate].
  - injection Hrun as <- _ _.
    pose proof (grab_key_event_spec env idx ev g0 (slot_not_none idx Hi)) as Hspec.
    pose proof (f_equal (fun c => snd (fst c)) Hspec) as Hlib.
    unfold view in Hlib. cbn [fst snd] in Hlib.
    pose proof (f_equal (fun c => snd (fst (fst c))) Hspec) as Hgr.
    unfold view in Hgr. cbn [fst snd] in Hgr.
    assert (Hidx : grabs (grab_key_event env idx ev g0) = (idx, -1) ->
                   grab_inv (grab_key_event env idx ev g0)).
    { unfold grabs, grab_inv, tracked. intros [= -> ->]. rewrite Hlib.
      split; [intros E; apply slot_not_none in Hi; contradiction |].
      split; [right; split; assumption | left; reflexivity]. }
    destruct (_ && _) in Hgr;
      [| revert Hinv0; apply grab_inv_same; [exact Hgr | intros i; rewrite Hlib; auto]].
    destruct (_ =? idx) in Hgr; [apply grab_inv_none; exact Hgr |].
    destruct (_ <? 0) in Hgr; [| apply Hidx; exact Hgr].
    destruct (_ =? -1) in Hgr; [| apply grab_inv_none; exact Hgr].
    revert Hinv0; apply grab_inv_same; [exact Hgr | intros i; rewrite Hlib; auto].
  - destruct (grab_pointer_spec env idx ev g0) as (m & Hfp & _ & Hm').
    set (g1 := grab_pointer env idx ev g0) in *.
    pose proof (f_equal (fun c => snd (fst c)) Hfp) as Hlib.
    unfold view in Hlib. cbn [fst snd] in Hlib.
    pose proof (f_equal (fun c => snd (fst (fst c))) Hfp) as Hgr.
    unfold view in Hgr. cbn [fst snd] in Hgr.
    assert (Hinv1 : grab_inv g1).
    { destruct Hm' as [-> | (Hkn & Hmn & ->)].
      - revert Hinv0. apply grab_inv_same; [exact Hgr | intros i; rewrite Hlib; auto].
      - destruct Hinv0 as (H1 & H2 & H3). unfold grab_inv, tracked.
        unfold grabs in Hgr. injection Hgr as Hk' Hm''. rewrite Hk', Hm'', Hlib.
        split; [intros; contradiction |].
        split; [exact H2 | right; split; assumption]. }
    assert (Hfw : forall r, forward fuel env ev g1 l0 = Some r -> grab_inv (fst (fst r))).
    { intros [[g2 l2] n2] Hfw. apply forward_control, control_grabs in Hfw.
      destruct Hfw as (Hg2 & Hl2 & _). cbn [fst].
      revert Hinv1. apply grab_inv_same; [exact Hg2 | intros i; rewrite Hl2; auto]. }
    destruct (_ && _) in Hrun; [injection Hrun as <- _ _; exact Hinv1 |].
    destruct (_ && _) in Hrun; [injection Hrun as <- _ _; exact Hinv1 |].
    exact (Hfw _ Hrun).
Qed.

(** X26.  Over any run of the device threads and of the device monitor, a
    mouse is grabbed only while a keyboard is, so [input_is_grabbed] is
    true whenever any device is grabbed; and the grabbed slots are slots
    of [libevdev] that hold a device. *)
Theorem grabbed_devices_are_tracked (g : Input.t) :
  Input.reachable g ->
  (Input.grabbed_mouse g <> -1 -> Input.input_is_grabbed g = true)
  /\ (Input.grabbed_keyboard g <> -1 ->
      0 <= Input.grabbed_keyboard g < Input.MAX_INPUT_DEVICES
      /\ Input.libevdev g (Input.grabbed_keyboard g) = true)
  /\ (Input.grabbed_mouse g <> -1 ->
      0 <= Input.grabbed_mouse g < Input.MAX_INPUT_DEVICES
      /\ Input.libevdev g (Input.grabbed_mouse g) = true).
Proof.
  intros Hr.
  assert (Hinv : grab_inv g).
  { induction Hr as [keys | g g' _ IH Hs].
    - apply grab_inv_none. destruct keys; reflexivity.
    - destruct Hs as [env g | fuel env idx rc ev g g' l l' n Hdev Hrun].
      + apply input_add_device_inv. exact IH.
      + exact (input_device_turn_inv _ _ _ _ _ _ _ _ _ _ Hdev Hrun IH). }
  destruct Hinv as (H1 & H2 & H3). unfold tracked, slot in H2, H3.
  split; [| split].
  - intros Hm. unfold input_is_grabbed.
    destruct (Z.eqb_spec (grabbed_keyboard g) (-1)) as [E | _]; [| reflexivity].
    elim Hm. exact (H1 E).
  - intros Hk. destruct H2 as [? | (Hs & Hd)]; [contradiction |]. split; [lia | exact Hd].
  - intros Hm. destruct H3 as [? | (Hs & Hd)]; [contradiction |]. split; [lia | exact Hd].
Qed.

End InputFacts.

(* ------------------------------------------------------------------ *)
(** *** A keyboard and a mouse *)

(** A keyboard with every key, and a mouse. *)
Definition ex_keyboard : Input.AddEnv :=
  Input.mkAddEnv 0 true 3 0 0 false false false false false true (fun _ => true) 0.
Definition ex_mouse : Input.AddEnv :=
  Input.mkAddEnv 0 true 4 0 0 true true false false false true (fun _ => false) 0.

(** Every grab and every packet succeeds; the time is in the second
    argument, in milliseconds after second 100. *)
Definition ex_at (ms : Z) : Input.Env :=
  Input.mkEnv (fun _ _ => 0) (fun _ => true) (Input.mk_timeval 100 (ms * 1000)).

(** The state of a turn that returned, the state before it otherwise. *)
Definition turn (ms idx : Z) (ty code value : Z) (s : Input.t * Input.Local)
    : Input.t * Input.Local :=
  match Input.input_device_turn 10 (ex_at ms) idx 0 (Input.mk_event ty code value)
          (fst s) (snd s) with
  | Some (g, l, _) => (g, l)
  | None => s
  end.

(** The two devices are added; the right control key is pressed and let
    go 100 ms later on the keyboard in slot 0; the mouse in slot 1 moves,
    turns its wheel down by two and reports. *)
Definition ex_devices : Input.t :=
  snd (fst (Input.input_add_device ex_mouse
              (snd (fst (Input.input_add_device ex_keyboard Input.zero))))).
Definition ex_pressed : Input.t * Input.Local :=
  turn 0 0 Input.EV_KEY Input.KEY_RIGHTCTRL 1 (ex_devices, Input.local_zero).
Definition ex_grabbed : Input.t * Input.Local :=
  turn 100 0 Input.EV_KEY Input.KEY_RIGHTCTRL 0 ex_pressed.
Definition ex_moved : Input.t * Input.Local :=
  turn 200 1 Input.EV_REL Input.REL_WHEEL (-2)
    (turn 200 1 Input.EV_REL Input.REL_X 5 (fst ex_grabbed, Input.local_zero)).
Definition ex_reported : Input.t * Input.Local :=
  turn 200 1 Input.EV_SYN Input.SYN_REPORT 0 ex_moved.

Example ex_input_session :
  grabs (fst ex_pressed) = (-1, -1)
  /\ grabs (fst ex_grabbed) = (0, -1)
  /\ grabs (fst ex_moved) = (0, 1)
  /\ Input.pending_rel (snd ex_moved) = Input.mk_rel true 5 0 (-2)
  /\ sent (fst ex_reported)
     = [Input.purespice_mouseMotion 5 0;
        Input.purespice_mousePress Input.SPICE_MOUSE_BUTTON_DOWN;
        Input.purespice_mouseRelease Input.SPICE_MOUSE_BUTTON_DOWN;
        Input.purespice_mousePress Input.SPICE_MOUSE_BUTTON_DOWN;
        Input.purespice_mouseRelease Input.SPICE_MOUSE_BUTTON_DOWN]
  /\ Input.linux_to_ps2 30 = 0x1E.
Proof. vm_compute. repeat split; reflexivity. Qed.

Lemma ex_input_reachable : Input.reachable (fst ex_moved).
Proof.
  assert (Hturn : forall ms idx ty code value s,
            Input.reachable (fst s) ->
            Input.libevdev (fst s) idx = true ->
            Input.reachable (fst (turn ms idx ty code value s))).
  { intros ms idx ty code value s Hr Hdev. unfold turn.
    destruct (Input.input_device_turn 10 (ex_at ms) idx 0 (Input.mk_event ty code value)
                (fst s) (snd s)) as [[[g l] n] |] eqn:E; [| exact Hr].
    cbn [fst]. eapply Input.reachable_step; [exact Hr |].
    eapply Input.step_turn; eassumption. }
  unfold ex_moved.
  apply Hturn; [| vm_compute; reflexivity].
  apply (Hturn 200 1 Input.EV_REL Input.REL_X 5 (fst ex_grabbed, Input.local_zero));
    [| vm_compute; reflexivity].
  cbn [fst]. unfold ex_grabbed. apply Hturn; [| vm_compute; reflexivity].
  unfold ex_pressed. apply Hturn; [| vm_compute; reflexivity].
  cbn [fst]. unfold ex_devices.
  eapply Input.reachable_step; [| apply Input.step_add].
  eapply Input.reachable_step; [| apply Input.step_add].
  exact (Input.reachable_init None).
Qed.

Lemma grabbed_devices_are_tracked_witness :
  Input.input_is_grabbed (fst ex_moved) = true
  /\ Input.libevdev (fst ex_moved) (Input.grabbed_mouse (fst ex_moved)) = true.
Proof.
  destruct (grabbed_devices_are_tracked (fst ex_moved) ex_input_reachable)
    as (Hgrab & _ & Hmouse).
  assert (Hm : Input.grabbed_mouse (fst ex_moved) <> -1) by (vm_compute; discriminate).
  split; [exact (Hgrab Hm) | exact (proj2 (Hmouse Hm))].
Defined.

Lemma only_grabbed_devices_are_forwarded_witness :
  Input.grabbed_keyboard (fst ex_reported) = 1 \/ Input.grabbed_mouse (fst ex_reported) = 1.
Proof.
  assert (Hrun : Input.input_device_turn 10 (ex_at 200) 1 0
                   (Input.mk_event Input.EV_SYN Input.SYN_REPORT 0)
                   (fst ex_moved) (snd ex_moved)
                 = Some (fst ex_reported, snd ex_reported, Input.Loop))
    by (vm_compute; reflexivity).
  assert (Hsent : sent (fst ex_reported) <> sent (fst ex_moved))
    by (vm_compute; discriminate).
  exact (proj1 (proj2 (proj2
           (only_grabbed_devices_are_forwarded _ _ _ _ _ _ _ _ _ _ Hrun Hsent)))).
Defined.

Lemma grab_key_toggles_grab_witness :
  exists g' l',
    Input.input_device_turn 10 (ex_at 100) 0 0
      (Input.mk_event Input.EV_KEY Input.KEY_RIGHTCTRL 0) (fst ex_pressed) (snd ex_pressed)
    = Some (g', l', Input.Loop)
    /\ sent g' = sent (fst ex_pressed)
    /\ (Input.grabbed_keyboard g', Input.grabbed_mouse g') = (0, -1).
Proof.
  destruct (grab_key_toggles_grab 10 (ex_at 100) 0 0
              (Input.mk_event Input.EV_KEY Input.KEY_RIGHTCTRL 0)
              (fst ex_pressed) (snd ex_pressed))
    as (g' & l' & Hrun & Hsent & _ & Hgrabs); try (vm_compute; reflexivity).
  - vm_compute. discriminate.
  - exists g', l'. split; [exact Hrun |]. split; [exact Hsent |].
    rewrite Hgrabs. vm_compute. reflexivity.
Defined.

Lemma lost_device_releases_grab_witness :
  exists g',
    Input.input_device_turn 10 (ex_at 300) 1 (- Input.ENODEV)
      (Input.mk_event 0 0 0) (fst ex_moved) (snd ex_moved)
    = Some (g', snd ex_moved, Input.End)
    /\ Input.libevdev g' 1 = false
    /\ (Input.grabbed_keyboard g', Input.grabbed_mouse g') = (-1, -1).
Proof.
  destruct (lost_device_releases_grab 10 (ex_at 300) 1 (- Input.ENODEV)
              (Input.mk_event 0 0 0) (fst ex_moved) (snd ex_moved))
    as (g' & Hrun & _ & Hfree & _ & Hgrabs); try (vm_compute; reflexivity).
  - vm_compute. discriminate.
  - exists g'. split; [exact Hrun |]. split; [exact Hfree |].
    rewrite Hgrabs. vm_compute. reflexivity.
Defined.

Lemma wheel_steps_become_clicks_witness :
  exists g' l',
    Input.syn_report 10 (ex_at 200) (fst ex_moved) (snd ex_moved) = Some (g', l')
    /\ sent g'
       = sent (fst ex_moved)
         ++ [Input.purespice_mouseMotion 5 0]
         ++ clicks 2 Input.SPICE_MOUSE_BUTTON_DOWN
    /\ Input.pending_rel l' = Input.mk_rel false 0 0 0.
Proof.
  destruct (wheel_steps_become_clicks 10 (ex_at 200) (fst ex_moved) (snd ex_moved))
    as (g' & l' & Hrun & Hsent & Hrel).
  - vm_compute. reflexivity.
  - vm_compute. split; [discriminate | reflexivity].
  - vm_compute. lia.
  - exists g', l'. split; [exact Hrun |]. split; [| exact Hrel].
    rewrite Hsent. vm_compute. reflexivity.
Defined.

(* ================================================================== *)
(** ** The engine as a whole *)
(* ================================================================== *)

(** Equality of two integers as 32-bit values. *)
Definition congr32 (a b : Z) : Prop := exists k, a = b + k * 2 ^ 32.

Lemma congr32_refl (a : Z) : congr32 a a.
Proof. exists 0. lia. Qed.

Lemma congr32_sym (a b : Z) : congr32 a b -> congr32 b a.
Proof. intros [k E]. exists (- k). lia. Qed.

Lemma congr32_trans (a b c : Z) : congr32 a b -> congr32 b c -> congr32 a c.
Proof. intros [k E] [l F]. exists (k + l). lia. Qed.

#[global] Instance congr32_Equivalence : Equivalence congr32.
Proof.
  split; [exact congr32_refl | exact congr32_sym | exact congr32_trans].
Qed.

#[global] Instance congr32_add : Proper (congr32 ==> congr32 ==> congr32) Z.add.
Proof. intros a b [k E] c d [l F]. exists (k + l). lia. Qed.

#[global] Instance congr32_sub : Proper (congr32 ==> congr32 ==> congr32) Z.sub.
Proof. intros a b [k E] c d [l F]. exists (k - l). lia. Qed.

Lemma congr32_wrap32 (z : Z) : congr32 (wrap32 z) z.
Proof.
  unfold wrap32. exists (- ((z + 2 ^ 31) / 2 ^ 32)).
  pose proof (Z.div_mod (z + 2 ^ 31) (2 ^ 32) ltac:(lia)). lia.
Qed.

Lemma congr32_wrap64 (z : Z) : congr32 (wrap64 z) z.
Proof.
  unfold wrap64. exists (- ((z + 2 ^ 63) / 2 ^ 64) * 2 ^ 32).
  pose proof (Z.div_mod (z + 2 ^ 63) (2 ^ 64) ltac:(lia)). lia.
Qed.

Lemma congr32_u32 (a b : Z) : congr32 a b <-> u32 a = u32 b.
Proof.
  unfold u32. split.
  - intros [k ->]. apply Z_mod_plus_full.
  - intros E. exists (a / 2 ^ 32 - b / 2 ^ 32).
    pose proof (Z.div_mod a (2 ^ 32) ltac:(lia)).
    pose proof (Z.div_mod b (2 ^ 32) ltac:(lia)). lia.
Qed.

Section Positions.

Context `{Resampler}.

(** How far the ring count is from the distance between the producer's and
    the consumer's positions. *)
Definition gap (st : Playback.t) (rb : SampleRing.t) : Z :=
  SampleRing.count rb
  - (SpiceData.nextPosition (Playback.spiceData st)
     - DeviceData.nextPosition (Playback.deviceData st)).

(** The position invariant: as 32-bit values, the ring count is the
    producer's position minus the consumer's. *)
Definition position_inv (st : Playback.t) : Prop :=
  forall rb, Playback.buffer st = Some rb -> congr32 (gap st rb) 0.

Lemma position_inv_same (st st' : Playback.t) :
  Playback.buffer st' = Playback.buffer st ->
  SpiceData.nextPosition (Playback.spiceData st')
  = SpiceData.nextPosition (Playback.spiceData st) ->
  DeviceData.nextPosition (Playback.deviceData st')
  = DeviceData.nextPosition (Playback.deviceData st) ->
  position_inv st -> position_inv st'.
Proof.
  intros Hb Hs Hd Hi rb Hrb. unfold gap. rewrite Hs, Hd. apply (Hi rb). congruence.
Qed.

Lemma position_inv_none (st : Playback.t) : Playback.buffer st = None -> position_inv st.
Proof. intros Hb rb Hrb. congruence. Qed.

Lemma playback_stop_position_inv (st : Playback.t) :
  position_inv st -> position_inv (playback_stop st).
Proof.
  intros Hi. unfold playback_stop.
  destruct (StreamState_eqb (Playback.state st) STREAM_STATE_STOP); [exact Hi |].
  apply position_inv_none.
  destruct (SpiceData.framesIn _); reflexivity.
Qed.

(** A consumer pull takes from the ring what it adds to the consumer's
    position. *)
Lemma pull_body_gap (rb : SampleRing.t) (st : Playback.t) (now frames : Z) :
  exists rb',
    Playback.buffer (fst (pull_body rb st now frames)) = Some rb'
    /\ congr32 (gap (fst (pull_body rb st now frames)) rb') (gap st rb).
Proof.
  rewrite pull_body_eq. cbn [fst Playback.buffer Playback.set_buffer].
  eexists. split; [reflexivity |].
  unfold gap. cbn [Playback.spiceData Playback.deviceData Playback.set_buffer
                   Playback.set_deviceTiming Playback.set_deviceData].
  rewrite ringbuffer_consume_count.
  destruct (pull_prefill_frame rb st) as (Hsd & _).
  cbv zeta in Hsd. rewrite Hsd.
  (* the pre-fill step *)
  assert (Hpre : congr32 (SampleRing.count (fst (pull_prefill rb st))
                          + DeviceData.nextPosition (Playback.deviceData (snd (pull_prefill rb st))))
                         (SampleRing.count rb + DeviceData.nextPosition (Playback.deviceData st))).
  { unfold pull_prefill.
    destruct (StreamState_eqb (Playback.state st) STREAM_STATE_SETUP_DEVICE); [| reflexivity].
    destruct (_ <? 0); [| reflexivity].
    cbn [fst snd Playback.deviceData Playback.set_deviceData Playback.set_state
         DeviceData.nextPosition].
    rewrite ringbuffer_consume_count, congr32_wrap64.
    apply congr32_u32. f_equal. lia. }
  set (rb1 := fst (pull_prefill rb st)) in *.
  set (st1 := snd (pull_prefill rb st)) in *.
  (* the clock tracker *)
  assert (Hck : congr32
                  (SampleRing.count (fst (pull_clock (Playback.sampleRate st1) now frames rb1
                                            (Playback.deviceData st1)))
                   - frames
                   + DeviceData.nextPosition
                       (snd (pull_clock (Playback.sampleRate st1) now frames rb1
                               (Playback.deviceData st1))))
                  (SampleRing.count rb1 + DeviceData.nextPosition (Playback.deviceData st1))).
  { unfold pull_clock.
    destruct (negb (frames =? DeviceData.periodFrames (Playback.deviceData st1))).
    - cbn [fst snd DeviceData.nextPosition]. rewrite congr32_wrap64.
      apply congr32_u32. f_equal. lia.
    - destruct (fabs_ge _ _).
      + cbn [fst snd DeviceData.nextPosition].
        rewrite ringbuffer_consume_count, congr32_wrap64, congr32_wrap32.
        apply congr32_u32. f_equal. lia.
      + cbn [fst snd DeviceData.nextPosition]. rewrite congr32_wrap64.
        apply congr32_u32. f_equal. lia. }
  match goal with
  | |- congr32 (?c - ?f - (?sp - ?dp')) (?c0 - (?sp - ?dp0)) =>
      transitivity (c - f + dp' - sp); [apply congr32_u32; f_equal; lia |];
      transitivity (c0 + dp0 - sp); [| apply congr32_u32; f_equal; lia]
  end.
  rewrite Hck, Hpre. reflexivity.
Qed.

Lemma pull_keep_alive_position_inv (st : Playback.t) :
  position_inv st -> position_inv (pull_keep_alive st).
Proof.
  intros Hi. unfold pull_keep_alive.
  destruct (StreamState_eqb _ _); [| exact Hi].
  destruct (Playback.buffer st); [| exact Hi].
  destruct (_ <=? _); [apply playback_stop_position_inv |]; exact Hi.
Qed.

Lemma audio_pull_position_inv (st : Playback.t) (now frames : Z) :
  position_inv st -> position_inv (snd (audio_pull st now frames)).
Proof.
  intros Hi. unfold audio_pull.
  destruct (frames =? 0); [exact Hi |].
  destruct (Playback.buffer st) as [rb |] eqn:Hb.
  - destruct (pull_body_gap rb st now frames) as [rb' [Hb' Hg]].
    destruct (pull_body rb st now frames) as [st' dst]. cbn [fst snd] in *.
    apply pull_keep_alive_position_inv.
    intros rb2 Hrb2. rewrite Hb' in Hrb2. injection Hrb2 as <-.
    rewrite Hg. apply Hi. exact Hb.
  - cbn [snd]. apply pull_keep_alive_position_inv. exact Hi.
Qed.

(** The three values the invariant speaks of. *)
Definition positions (st : Playback.t) : option SampleRing.t * Z * Z :=
  (Playback.buffer st,
   SpiceData.nextPosition (Playback.spiceData st),
   DeviceData.nextPosition (Playback.deviceData st)).

Lemma position_inv_positions (st st' : Playback.t) :
  positions st' = positions st -> position_inv st -> position_inv st'.
Proof.
  unfold positions. intros [= Hb Hs Hd]. apply position_inv_same; assumption.
Qed.

Lemma pre_clock_positions (data : list (list Z)) (frames : Z) (st : Playback.t) :
  positions (pre_clock data frames st) = positions st.
Proof.
  destruct (pre_clock_frame data frames st)
    as (_ & Hb & _ & _ & _ & (_ & _ & _ & _ & Hd) & (_ & _ & _ & Hnp & _) & _).
  unfold positions. cbv zeta in *. rewrite Hb, Hd, Hnp. reflexivity.
Qed.

(** The producer's clock tracker appends to the ring what it adds to the
    producer's position. *)
Lemma spice_clock_gap (now frames : Z) (periodChanged init : bool) (target : float)
    (st : Playback.t) :
  let st' := fst (spice_clock now frames periodChanged init target st) in
  Playback.deviceData st' = Playback.deviceData st
  /\ match Playback.buffer st with
     | Some rb => exists rb', Playback.buffer st' = Some rb'
                              /\ congr32 (gap st' rb') (gap st rb)
     | None => Playback.buffer st' = None
     end.
Proof.
  cbv zeta. unfold spice_clock.
  destruct periodChanged.
  - cbn [fst Playback.deviceData Playback.set_spiceData Playback.buffer]. split; [reflexivity |].
    destruct (Playback.buffer st) as [rb |]; [| reflexivity].
    exists rb. split; [reflexivity |]. unfold gap. cbn. destruct init; reflexivity.
  - destruct (fabs_ge _ _ || _).
    + destruct (spice_slew_frames st now target _) as [slewFrames devPos].
      destruct (upd_buffer_frame
                  (fun rb => SampleRing.ringbuffer_append rb None slewFrames) st)
        as (_ & _ & _ & _ & _ & _ & Hb).
      assert (Hdd : Playback.deviceData
                      (upd_buffer (fun rb => SampleRing.ringbuffer_append rb None slewFrames) st)
                    = Playback.deviceData st)
        by (unfold upd_buffer; destruct (Playback.buffer st); reflexivity).
      cbn [fst Playback.deviceData Playback.set_spiceData Playback.set_state
           Playback.buffer curPosition].
      rewrite Hdd, Hb. split; [reflexivity |].
      destruct (Playback.buffer st) as [rb |]; cbn [option_map]; [| reflexivity].
      eexists. split; [reflexivity |]. unfold gap.
      cbn [Playback.spiceData Playback.deviceData Playback.set_spiceData Playback.set_state
           SpiceData.nextPosition SpiceData.set_ratioIntegral SpiceData.set_offsetErrorIntegral
           SpiceData.set_offsetError SpiceData.set_nextPosition].
      rewrite Hdd, ringbuffer_append_count, congr32_wrap64.
      apply congr32_u32. f_equal. lia.
    + cbn [fst Playback.deviceData Playback.set_spiceData Playback.buffer].
      split; [reflexivity |].
      destruct (Playback.buffer st) as [rb |]; [| reflexivity].
      exists rb. split; [reflexivity |]. unfold gap. cbn. reflexivity.
Qed.

Lemma offset_filter_positions (target : float) (cs : ClockSample) (st : Playback.t) :
  positions (fst (fst (offset_filter target cs st))) = positions st.
Proof.
  unfold offset_filter. destruct (negb _); reflexivity.
Qed.

Lemma pi_ratio_positions (offsetError : float) (st : Playback.t) :
  positions (fst (pi_ratio offsetError st)) = positions st.
Proof. reflexivity. Qed.

(** A state that satisfies the invariant up to the stop that frees the
    ring. *)
Lemma gap_step (st st' : Playback.t) :
  Playback.deviceData st' = Playback.deviceData st
  /\ match Playback.buffer st with
     | Some rb => exists rb', Playback.buffer st' = Some rb'
                              /\ congr32 (gap st' rb') (gap st rb)
     | None => Playback.buffer st' = None
     end ->
  position_inv st -> position_inv st'.
Proof.
  intros [Hd Hb] Hi rb' Hrb'.
  destruct (Playback.buffer st) as [rb |] eqn:E.
  - destruct Hb as [rb2 [Hb2 Hg]]. rewrite Hb2 in Hrb'. injection Hrb' as <-.
    rewrite Hg. apply Hi. exact E.
  - congruence.
Qed.

(** The resampling loop appends to the ring what it adds to the producer's
    position, iteration by iteration. *)
Lemma resample_position_inv (fuel : nat) (ratio : float) (frames : Z) :
  forall (consumed : Z) (st : Playback.t) (r : LoopResult),
  resample fuel ratio frames consumed st = Some r ->
  position_inv st -> position_inv (loop_state r).
Proof.
  induction fuel as [| fuel IH]; intros consumed st r; cbn [resample];
    destruct (consumed <? frames).
  - discriminate.
  - intros [= <-]. cbn [loop_state]. auto.
  - cbv zeta.
    change (Playback.spiceData (emit ?e st)) with (Playback.spiceData st).
    destruct (SpiceData.src (Playback.spiceData st)) as [s |] eqn:Hsrc.
    2:{ intros E Hi. injection E as <-. cbn [loop_state]. revert Hi.
        apply position_inv_positions. reflexivity. }
    match goal with
    | |- context [src_response s ?d] =>
        set (srcData := d) in *; set (resp := src_response s srcData) in *
    end.
    match goal with
    | |- (if ?c then _ else _) = _ -> _ => destruct c
    end.
    + intros E Hi. injection E as <-. cbn [loop_state]. revert Hi.
      apply position_inv_positions. reflexivity.
    + intros Hrun Hi. apply IH in Hrun; [exact Hrun |].
      clear Hrun IH.
      apply (gap_step (emit (Call_src_process srcData) st)).
      2:{ revert Hi. apply position_inv_positions. reflexivity. }
      set (st1 := upd_spice _ (emit (Call_src_process srcData) st)).
      destruct (upd_buffer_frame
                  (fun rb => SampleRing.ringbuffer_append rb (Some (data_out resp))
                               (wrap32 (output_frames_gen resp))) st1)
        as (_ & _ & Hsd & _ & _ & _ & Hb).
      assert (Hdd : Playback.deviceData
                      (upd_buffer (fun rb => SampleRing.ringbuffer_append rb (Some (data_out resp))
                                               (wrap32 (output_frames_gen resp))) st1)
                    = Playback.deviceData st1)
        by (unfold upd_buffer; destruct (Playback.buffer st1); reflexivity).
      split.
      * cbn [upd_spice Playback.deviceData Playback.set_spiceData]. rewrite Hdd. reflexivity.
      * cbn [upd_spice Playback.buffer Playback.set_spiceData]. rewrite Hb.
        change (Playback.buffer st1) with (Playback.buffer st).
        change (Playback.buffer (emit (Call_src_process srcData) st)) with (Playback.buffer st).
        destruct (Playback.buffer st) as [rb |]; cbn [option_map]; [| reflexivity].
        eexists. split; [reflexivity |]. unfold gap.
        cbn [Playback.spiceData Playback.deviceData Playback.set_spiceData
             SpiceData.nextPosition SpiceData.set_nextPosition].
        unfold upd_spice at 1 2.
        cbn [Playback.spiceData Playback.deviceData Playback.set_spiceData
             SpiceData.nextPosition SpiceData.set_nextPosition].
        rewrite Hsd, Hdd, ringbuffer_append_count, congr32_wrap64, congr32_wrap32.
        apply congr32_u32. f_equal. subst st1. cbn. lia.
  - intros [= <-]. cbn [loop_state]. auto.
Qed.

Lemma data_alloc_position_inv (env : PushEnv) (frames : Z) (st : Playback.t) :
  position_inv st ->
  match data_alloc env frames st with
  | inl st1 => position_inv st1
  | inr st1 => position_inv st1
  end.
Proof.
  intros Hi. unfold data_alloc.
  destruct (negb (malloc_framesIn_ok env)).
  - apply playback_stop_position_inv. revert Hi.
    apply position_inv_positions. reflexivity.
  - destruct (negb (malloc_framesOut_ok env)).
    + apply playback_stop_position_inv. revert Hi.
      apply position_inv_positions. reflexivity.
    + revert Hi. apply position_inv_positions. reflexivity.
Qed.

Lemma push_ratio_position_inv (opts : audio_opts) (env : PushEnv) (st : Playback.t)
    (data : list (list Z)) (frames : Z) (periodChanged init : bool) :
  position_inv st ->
  position_inv (fst (fst (push_ratio opts env st data frames periodChanged init))).
Proof.
  intros Hi. unfold push_ratio.
  pose proof (pre_clock_positions data frames st) as Hpre.
  set (st0 := pre_clock data frames st) in *.
  pose proof (spice_clock_gap (push_now env) frames periodChanged init
                (target_latency_frames opts st0) st0) as Hck.
  destruct (spice_clock _ _ _ _ _ st0) as [st1 cs]. cbn [fst] in Hck.
  pose proof (offset_filter_positions (target_latency_frames opts st0) cs st1) as Hof.
  destruct (offset_filter _ cs st1) as [[st2 actualOffset] offsetError]. cbn [fst] in Hof.
  pose proof (pi_ratio_positions offsetError st2) as Hpi.
  destruct (pi_ratio offsetError st2) as [st3 ratio]. cbn [fst] in *.
  apply (position_inv_positions st2 st3 Hpi).
  apply (position_inv_positions st1 st2 Hof).
  apply (gap_step st0 st1 Hck).
  apply (position_inv_positions st st0 Hpre). exact Hi.
Qed.

Lemma after_loop_positions (opts : audio_opts) (env : PushEnv) (actualOffset : float)
    (st : Playback.t) :
  positions (latency_report opts env actualOffset (setup_device st)) = positions st.
Proof.
  unfold latency_report, setup_device.
  destruct (latency_cb opts), (StreamState_eqb _ _); reflexivity.
Qed.

Lemma audio_playback_data_position_inv (fuel : nat) (opts : audio_opts) (env : PushEnv)
    (st st' : Playback.t) (data : list (list Z)) (size : Z) :
  audio_playback_data fuel opts env st data size = Some st' ->
  position_inv st -> position_inv st'.
Proof.
  unfold audio_playback_data. intros Hrun Hi.
  destruct (StreamState_eqb _ _ || _); [injection Hrun as <-; exact Hi |].
  set (frames := packet_frames st size) in *.
  assert (Halloc :
    match (if negb (frames =? SpiceData.periodFrames (Playback.spiceData st))
           then data_alloc env frames st else inr st) with
    | inl st1 => position_inv st1
    | inr st1 => position_inv st1
    end).
  { destruct (negb _); [apply data_alloc_position_inv |]; exact Hi. }
  destruct (if negb (frames =? SpiceData.periodFrames (Playback.spiceData st))
            then data_alloc env frames st else inr st) as [st1 | st1].
  { injection Hrun as <-. exact Halloc. }
  match type of Hrun with
  | context [push_ratio opts env st1 data frames ?pc ?init] =>
      pose proof (push_ratio_position_inv opts env st1 data frames pc init Halloc) as Hpr;
      destruct (push_ratio opts env st1 data frames pc init) as [[st2 actualOffset] ratio]
  end.
  cbn [fst] in Hpr.
  destruct (resample fuel ratio frames 0 st2) as [[st3 | st3] |] eqn:Hloop;
    [| | discriminate]; injection Hrun as <-;
    apply resample_position_inv in Hloop; try exact Hpr; cbn [loop_state] in Hloop.
  - revert Hloop. apply position_inv_positions. apply after_loop_positions.
  - exact Hloop.
Qed.

Lemma audio_playback_start_position_inv (opts : audio_opts) (setup : Z * Z)
    (st : Playback.t) (channels sampleRate : Z) :
  position_inv st ->
  position_inv (audio_playback_start opts setup st channels sampleRate).
Proof.
  intros Hi. unfold audio_playback_start.
  destruct (_ && _ && _); [exact Hi |].
  assert (Hi1 : position_inv
                  (if negb (StreamState_eqb (Playback.state st) STREAM_STATE_STOP)
                   then playback_stop st else st))
    by (destruct (negb _); [apply playback_stop_position_inv |]; exact Hi).
  set (st1 := if negb (StreamState_eqb (Playback.state st) STREAM_STATE_STOP)
              then playback_stop st else st) in *.
  destruct (negb (src_new_ok channels)).
  - revert Hi1. apply position_inv_positions. reflexivity.
  - intros rb Hrb.
    destruct (negb (Playback.volumeChannels _ =? 0)) eqn:Ev;
      cbn in Hrb; rewrite ?Ev in Hrb; cbn in Hrb; injection Hrb as <-;
      unfold gap; cbn; rewrite ?Ev; cbn; reflexivity.
Qed.

Lemma audio_playback_stop_position_inv (st : Playback.t) :
  position_inv st -> position_inv (audio_playback_stop st).
Proof.
  intros Hi. unfold audio_playback_stop.
  destruct (Playback.state st); try exact Hi; try (apply playback_stop_position_inv; exact Hi).
  destruct (negb _).
  - apply playback_stop_position_inv. revert Hi. apply position_inv_positions. reflexivity.
  - revert Hi. apply position_inv_positions. reflexivity.
Qed.

Lemma step_position_inv (opts : audio_opts) (st st' : Playback.t) :
  step opts st st' -> position_inv st -> position_inv st'.
Proof.
  intros Hs Hi. destruct Hs.
  - apply audio_playback_start_position_inv. exact Hi.
  - apply audio_playback_stop_position_inv. exact Hi.
  - revert Hi. apply position_inv_positions.
    unfold audio_playback_volume. destruct (negb _); reflexivity.
  - revert Hi. apply position_inv_positions.
    unfold audio_playback_mute. destruct (negb _); reflexivity.
  - apply audio_pull_position_inv. exact Hi.
  - eapply audio_playback_data_position_inv; eassumption.
Qed.

(** X27.  In every state the engine can reach, whatever the resampler, the
    clocks and the device do, the ring count equals, as a 32-bit value, the
    producer's position minus the consumer's: every slew, pre-fill, read
    and resampled block moves the count and one of the two positions by
    the same amount. *)
Theorem ring_count_is_position_difference (opts : audio_opts) (st : Playback.t)
    (rb : SampleRing.t) :
  reachable opts st ->
  Playback.buffer st = Some rb ->
  u32 (SampleRing.ringbuffer_getCount rb)
  = u32 (SpiceData.nextPosition (Playback.spiceData st)
         - DeviceData.nextPosition (Playback.deviceData st)).
Proof.
  intros Hr Hb.
  assert (Hi : position_inv st).
  { clear rb Hb. induction Hr as [| st st' _ IH Hs].
    - apply position_inv_none. reflexivity.
    - exact (step_position_inv opts st st' Hs IH). }
  apply congr32_u32. destruct (Hi rb Hb) as [k E]. unfold gap in E.
  exists k. unfold SampleRing.ringbuffer_getCount. lia.
Qed.

(** X28.  Every state the engine can reach keeps the allocation invariant:
    the sample ring, the timing ring and the resampler exist exactly when
    the stream is not in STOP. *)
Theorem allocation_follows_state (opts : audio_opts) (st : Playback.t) :
  reachable opts st ->
  (Playback.state st = STREAM_STATE_STOP ->
   Playback.buffer st = None
   /\ Playback.deviceTiming st = None
   /\ SpiceData.src (Playback.spiceData st) = None)
  /\ (Playback.state st <> STREAM_STATE_STOP ->
      Playback.buffer st <> None
      /\ Playback.deviceTiming st <> None
      /\ SpiceData.src (Playback.spiceData st) <> None).
Proof.
  intros Hr. pose proof (reachable_alloc_inv opts st Hr) as Hi.
  unfold alloc_inv in Hi.
  destruct (StreamState_eqb_spec (Playback.state st) STREAM_STATE_STOP) as [E | Hne].
  - split; [intros _; exact Hi | contradiction].
  - split; [contradiction | intros _; exact Hi].
Qed.

End Positions.

Lemma ring_count_is_position_difference_witness :
  Playback.buffer ex_run4 = Some (ring_of ex_run4)
  /\ u32 (SampleRing.ringbuffer_getCount (ring_of ex_run4)) = 1920
  /\ u32 (SpiceData.nextPosition (Playback.spiceData ex_run4)
          - DeviceData.nextPosition (Playback.deviceData ex_run4)) = 1920.
Proof.
  assert (Hb : Playback.buffer ex_run4 = Some (ring_of ex_run4))
    by (vm_compute; reflexivity).
  pose proof (@ring_count_is_position_difference passthrough default_opts ex_run4
                (ring_of ex_run4) ex_reachable Hb) as Hthm.
  split; [exact Hb |]. split; [vm_compute; reflexivity |].
  rewrite <- Hthm. vm_compute. reflexivity.
Defined.

Lemma allocation_follows_state_witness :
  Playback.buffer ex_run4 <> None
  /\ Playback.deviceTiming ex_run4 <> None
  /\ SpiceData.src (Playback.spiceData ex_run4) <> None.
Proof.
  apply (@allocation_follows_state passthrough default_opts ex_run4 ex_reachable).
  vm_compute. discriminate.
Defined.

(* ------------------------------------------------------------------ *)
(** *** Volume and mute across a restart *)

Section Restore.

Context `{Resampler}.

Lemma audio_playback_volume_fields (st : Playback.t) (n : Z) (volume : list Z) :
  let st' := audio_playback_volume st n volume in
  Playback.state st' = Playback.state st
  /\ Playback.lastChannels st' = Playback.lastChannels st
  /\ Playback.lastSampleRate st' = Playback.lastSampleRate st
  /\ Playback.volumeChannels st' = min_size_int 8 n
  /\ Playback.volume st' = memcpy_u16 (Playback.volume st) volume (min_size_int 8 n)
  /\ Playback.mute st' = Playback.mute st.
Proof.
  unfold audio_playback_volume. cbv zeta.
  match goal with |- context [if ?c then _ else _] => destruct c end; repeat split.
Qed.

Lemma audio_playback_mute_fields (st : Playback.t) (mute : bool) :
  let st' := audio_playback_mute st mute in
  Playback.state st' = Playback.state st
  /\ Playback.lastChannels st' = Playback.lastChannels st
  /\ Playback.lastSampleRate st' = Playback.lastSampleRate st
  /\ Playback.volumeChannels st' = Playback.volumeChannels st
  /\ Playback.volume st' = Playback.volume st
  /\ Playback.mute st' = mute.
Proof.
  unfold audio_playback_mute. cbv zeta.
  match goal with |- context [if ?c then _ else _] => destruct c end; repeat split.
Qed.

(** X29.  The volume and the mute state last set are handed to the device
    again when the stream is opened anew.  After [audio_playback_volume]
    and [audio_playback_mute], in whatever state, a start that opens the
    device (the resampler is created, and it is not a start in KEEP_ALIVE
    with the layout unchanged) stops the old stream if there is one and
    then calls setup, the volume call with the stored count and values
    unless the count is 0, and the mute call with the stored state, in
    that order. *)
Theorem volume_and_mute_restored_on_start (opts : audio_opts) (setup : Z * Z)
    (st : Playback.t) (n : Z) (volume : list Z) (mute : bool) (channels sampleRate : Z) :
  let st1 := audio_playback_mute (audio_playback_volume st n volume) mute in
  let stored := min_size_int 8 n in
  src_new_ok channels = true ->
  StreamState_eqb (Playback.state st) STREAM_STATE_KEEP_ALIVE
  && (channels =? Playback.lastChannels st)
  && (sampleRate =? Playback.lastSampleRate st) = false ->
  Playback.trace (audio_playback_start opts setup st1 channels sampleRate)
  = Playback.trace st1
    ++ (if StreamState_eqb (Playback.state st) STREAM_STATE_STOP then []
        else [Call_audiodev_playback_stop])
    ++ [Call_audiodev_playback_setup channels sampleRate (c_max (period_size opts) 1)]
    ++ (if stored =? 0 then []
        else [Call_audiodev_playback_volume stored
                (memcpy_u16 (Playback.volume st) volume stored)])
    ++ [Call_audiodev_playback_mute mute].
Proof.
  intros st1 stored Hsrc Hrestart.
  destruct (audio_playback_volume_fields st n volume) as (Hs0 & Hc0 & Hr0 & Hn0 & Hv0 & _).
  destruct (audio_playback_mute_fields (audio_playback_volume st n volume) mute)
    as (Hst & Hlc & Hlr & Hvc & Hvv & Hvm).
  fold st1 in Hst, Hlc, Hlr, Hvc, Hvv, Hvm.
  rewrite Hs0 in Hst. rewrite Hc0 in Hlc. rewrite Hr0 in Hlr.
  rewrite Hn0 in Hvc. rewrite Hv0 in Hvv. fold stored in Hvc, Hvv.
  clearbody st1. unfold audio_playback_start.
  rewrite Hst, Hlc, Hlr, Hrestart, Hsrc. cbn [negb].
  set (st2 := if negb (StreamState_eqb (Playback.state st) STREAM_STATE_STOP)
              then playback_stop st1 else st1).
  assert (H2 : Playback.trace st2
               = Playback.trace st1
                 ++ (if StreamState_eqb (Playback.state st) STREAM_STATE_STOP then []
                     else [Call_audiodev_playback_stop])
               /\ Playback.volumeChannels st2 = stored
               /\ Playback.volume st2 = memcpy_u16 (Playback.volume st) volume stored
               /\ Playback.mute st2 = mute).
  { subst st2. destruct (StreamState_eqb (Playback.state st) STREAM_STATE_STOP) eqn:Es;
      cbn [negb].
    - rewrite app_nil_r. repeat split; assumption.
    - unfold playback_stop. rewrite Hst, Es.
      destruct (SpiceData.framesIn _); cbn; rewrite Hvc, Hvv, Hvm; repeat split. }
  destruct H2 as (Htr & Hc2 & Hv2 & Hm2). clearbody st2.
  cbn. rewrite Hc2.
  destruct (stored =? 0); cbn; rewrite ?Hc2, ?Hv2, Hm2, Htr, <- !app_assoc; reflexivity.
Qed.

End Restore.

(* ------------------------------------------------------------------ *)
(** *** The calls the engine makes on the audio device *)

(** What the engine's calls have made of the device's playback stream. *)
Inductive DevicePhase := DeviceClosed | DeviceOpened | DeviceStarted.

(** One call seen from the device: [None] is a call out of order, a setup
    of a stream already set up, a start of a stream not set up or already
    started, or a stop, volume or mute on a stream not set up. *)
Definition device_call (p : DevicePhase) (e : Event) : option DevicePhase :=
  match e with
  | Call_audiodev_playback_setup _ _ _ =>
      match p with DeviceClosed => Some DeviceOpened | _ => None end
  | Call_audiodev_playback_start =>
      match p with DeviceOpened => Some DeviceStarted | _ => None end
  | Call_audiodev_playback_stop =>
      match p with DeviceClosed => None | _ => Some DeviceClosed end
  | Call_audiodev_playback_volume _ _ | Call_audiodev_playback_mute _ =>
      match p with DeviceClosed => None | _ => Some p end
  | DEBUG_ERROR _ | Call_src_process _ | Call_latency_cb _ _ => Some p
  end.

Fixpoint device_protocol (p : DevicePhase) (tr : list Event) : option DevicePhase :=
  match tr with
  | [] => Some p
  | e :: tr =>
      match device_call p e with
      | Some p => device_protocol p tr
      | None => None
      end
  end.

(** The phase a stream state goes with. *)
Definition phase_of (s : StreamState) (p : DevicePhase) : Prop :=
  match s with
  | STREAM_STATE_STOP => p = DeviceClosed
  | STREAM_STATE_SETUP_SPICE => p = DeviceOpened
  | _ => p <> DeviceClosed
  end.

Definition protocol_inv (st : Playback.t) : Prop :=
  exists p, device_protocol DeviceClosed (Playback.trace st) = Some p
            /\ phase_of (Playback.state st) p.

(** Calls the device does not see. *)
Definition silent (e : Event) : Prop :=
  match e with
  | DEBUG_ERROR _ | Call_src_process _ | Call_latency_cb _ _ => True
  | _ => False
  end.

Lemma device_protocol_app (p : DevicePhase) (a b : list Event) :
  device_protocol p (a ++ b)
  = match device_protocol p a with
    | Some q => device_protocol q b
    | None => None
    end.
Proof.
  revert p. induction a as [| e a IH]; intros p; cbn; [reflexivity |].
  destruct (device_call p e); [apply IH | reflexivity].
Qed.

Lemma device_protocol_silent (p : DevicePhase) (l : list Event) :
  Forall silent l -> device_protocol p l = Some p.
Proof.
  induction 1 as [| e l He _ IH]; cbn; [reflexivity |].
  destruct e; cbn in He; try contradiction; exact IH.
Qed.

Section Protocol.

Context `{Resampler}.

(** A step the device does not see, and that neither leaves nor enters
    STOP or SETUP_SPICE. *)
Lemma protocol_inv_silent (st st' : Playback.t) (new : list Event) :
  Playback.trace st' = Playback.trace st ++ new ->
  Forall silent new ->
  Playback.state st' = Playback.state st
  \/ (Playback.state st <> STREAM_STATE_STOP
      /\ Playback.state st' <> STREAM_STATE_STOP
      /\ Playback.state st' <> STREAM_STATE_SETUP_SPICE) ->
  protocol_inv st -> protocol_inv st'.
Proof.
  intros Htr Hnew Hs (p & Hp & Hph). exists p. split.
  - rewrite Htr, device_protocol_app, Hp. apply device_protocol_silent. exact Hnew.
  - destruct Hs as [-> | (Hs & Hs1 & Hs2)]; [exact Hph |].
    destruct (Playback.state st'); try contradiction;
      destruct (Playback.state st); cbn in *; try contradiction; try exact Hph;
      subst; discriminate.
Qed.

Lemma protocol_inv_same (st st' : Playback.t) :
  Playback.trace st' = Playback.trace st ->
  Playback.state st' = Playback.state st ->
  protocol_inv st -> protocol_inv st'.
Proof.
  intros Htr Hs. apply (protocol_inv_silent st st' []).
  - rewrite app_nil_r. exact Htr.
  - constructor.
  - left. exact Hs.
Qed.

Lemma playback_stop_protocol_inv (st : Playback.t) :
  protocol_inv st -> protocol_inv (playback_stop st).
Proof.
  intros (p & Hp & Hph). unfold playback_stop.
  destruct (StreamState_eqb_spec (Playback.state st) STREAM_STATE_STOP) as [E | Hne].
  - exists p. split; assumption.
  - exists DeviceClosed. split.
    + destruct (SpiceData.framesIn _); cbn;
        rewrite device_protocol_app, Hp; cbn;
        destruct (Playback.state st), p; cbn in *;
          try reflexivity; try contradiction; try discriminate.
    + destruct (SpiceData.framesIn _); reflexivity.
Qed.

Lemma audio_playback_start_protocol_inv (opts : audio_opts) (setup : Z * Z)
    (st : Playback.t) (channels sampleRate : Z) :
  protocol_inv st ->
  protocol_inv (audio_playback_start opts setup st channels sampleRate).
Proof.
  intros Hi. unfold audio_playback_start.
  destruct (_ && _ && _); [exact Hi |].
  assert (Hi1 : exists st1,
            (if negb (StreamState_eqb (Playback.state st) STREAM_STATE_STOP)
             then playback_stop st else st) = st1
            /\ device_protocol DeviceClosed (Playback.trace st1) = Some DeviceClosed
            /\ Playback.state st1 = STREAM_STATE_STOP).
  { eexists. split; [reflexivity |].
    destruct (StreamState_eqb_spec (Playback.state st) STREAM_STATE_STOP) as [E | Hne]; cbn.
    - destruct Hi as (p & Hp & Hph). rewrite E in Hph. cbn in Hph. subst p.
      split; assumption.
    - destruct (playback_stop_protocol_inv st Hi) as (p & Hp & Hph).
      rewrite playback_stop_state in Hph. cbn in Hph. subst p.
      split; [exact Hp | apply playback_stop_state]. }
  destruct Hi1 as (st1 & -> & Hp & Hs).
  destruct (negb (src_new_ok channels)).
  - exists DeviceClosed. split.
    + cbn. rewrite device_protocol_app, Hp. reflexivity.
    + cbn. rewrite Hs. reflexivity.
  - exists DeviceOpened. split; [| destruct (negb _); reflexivity].
    destruct (negb (Playback.volumeChannels _ =? 0)) eqn:Ev; cbn; rewrite ?Ev; cbn;
      rewrite <- ?app_assoc, device_protocol_app, Hp; reflexivity.
Qed.

Lemma audio_playback_stop_protocol_inv (st : Playback.t) :
  protocol_inv st -> protocol_inv (audio_playback_stop st).
Proof.
  intros Hi. unfold audio_playback_stop.
  destruct (Playback.state st) eqn:Es; try exact Hi;
    try (apply playback_stop_protocol_inv; exact Hi).
  assert (Hka : forall new st',
            Playback.trace st' = Playback.trace st ++ new -> Forall silent new ->
            Playback.state st' = STREAM_STATE_KEEP_ALIVE -> protocol_inv st').
  { intros new st' Htr Hnew Hs'.
    apply (protocol_inv_silent st st' new Htr Hnew); [| exact Hi].
    right. rewrite Es, Hs'. repeat split; discriminate. }
  destruct (negb _).
  - apply playback_stop_protocol_inv.
    apply (Hka [DEBUG_ERROR "Failed to reset resampler"]);
      [reflexivity | repeat constructor | reflexivity].
  - apply (Hka []); [cbn; symmetry; apply app_nil_r | constructor | reflexivity].
Qed.

Lemma active_phase (st : Playback.t) (p : DevicePhase) :
  STREAM_ACTIVE (Playback.state st) = true ->
  phase_of (Playback.state st) p -> p <> DeviceClosed.
Proof.
  destruct (Playback.state st); cbn; intros Ha Hp; try discriminate; exact Hp.
Qed.

Lemma audio_playback_volume_protocol_inv (st : Playback.t) (channels : Z)
    (volume : list Z) :
  protocol_inv st -> protocol_inv (audio_playback_volume st channels volume).
Proof.
  intros Hi. unfold audio_playback_volume. cbn.
  destruct (STREAM_ACTIVE (Playback.state st)) eqn:Ea; cbn.
  - destruct Hi as (p & Hp & Hph). exists p. split; [| exact Hph].
    cbn. rewrite device_protocol_app, Hp. cbn.
    pose proof (active_phase st p Ea Hph). destruct p; [contradiction | |]; reflexivity.
  - revert Hi. apply protocol_inv_same; reflexivity.
Qed.

Lemma audio_playback_mute_protocol_inv (st : Playback.t) (mute : bool) :
  protocol_inv st -> protocol_inv (audio_playback_mute st mute).
Proof.
  intros Hi. unfold audio_playback_mute. cbn.
  destruct (STREAM_ACTIVE (Playback.state st)) eqn:Ea; cbn.
  - destruct Hi as (p & Hp & Hph). exists p. split; [| exact Hph].
    cbn. rewrite device_protocol_app, Hp. cbn.
    pose proof (active_phase st p Ea Hph). destruct p; [contradiction | |]; reflexivity.
  - revert Hi. apply protocol_inv_same; reflexivity.
Qed.

Lemma pull_keep_alive_protocol_inv (st : Playback.t) :
  protocol_inv st -> protocol_inv (pull_keep_alive st).
Proof.
  intros Hi. unfold pull_keep_alive.
  destruct (StreamState_eqb _ _); [| exact Hi].
  destruct (Playback.buffer st); [| exact Hi].
  destruct (_ <=? _); [apply playback_stop_protocol_inv |]; exact Hi.
Qed.

Lemma audio_pull_protocol_inv (st : Playback.t) (now frames : Z) :
  protocol_inv st -> protocol_inv (snd (audio_pull st now frames)).
Proof.
  intros Hi. unfold audio_pull.
  destruct (frames =? 0); [exact Hi |].
  destruct (Playback.buffer st) as [rb |]; cbn [snd].
  2:{ apply pull_keep_alive_protocol_inv. exact Hi. }
  pose proof (pull_body_state rb st now frames) as Hs.
  rewrite pull_prefill_state in Hs.
  assert (Htr : Playback.trace (fst (pull_body rb st now frames)) = Playback.trace st).
  { rewrite pull_body_eq. cbn. unfold pull_prefill.
    destruct (StreamState_eqb _ _); [| reflexivity].
    destruct (_ <? 0); reflexivity. }
  destruct (pull_body rb st now frames) as [st1 dst]. cbn [fst snd] in *.
  apply pull_keep_alive_protocol_inv.
  apply (protocol_inv_silent st st1 []);
    [rewrite app_nil_r; exact Htr | constructor | | exact Hi].
  rewrite Hs.
  destruct (StreamState_eqb_spec (Playback.state st) STREAM_STATE_SETUP_DEVICE) as [E | _];
    [right; rewrite E; repeat split; discriminate | left; reflexivity].
Qed.

Lemma data_alloc_protocol_inv (env : PushEnv) (frames : Z) (st : Playback.t) :
  protocol_inv st ->
  match data_alloc env frames st with
  | inl st1 => protocol_inv st1
  | inr st1 => Playback.trace st1 = Playback.trace st
               /\ Playback.state st1 = Playback.state st
  end.
Proof.
  intros Hi. unfold data_alloc.
  destruct (negb (malloc_framesIn_ok env)).
  - apply playback_stop_protocol_inv.
    apply (protocol_inv_silent st _ [DEBUG_ERROR "Failed to malloc framesIn"]);
      [reflexivity | repeat constructor | left; reflexivity | exact Hi].
  - destruct (negb (malloc_framesOut_ok env)).
    + apply playback_stop_protocol_inv.
      apply (protocol_inv_silent st _ [DEBUG_ERROR "Failed to malloc framesOut"]);
        [reflexivity | repeat constructor | left; reflexivity | exact Hi].
    + split; reflexivity.
Qed.

(** The clock tracker leaves the stream state alone or, on a slew, puts
    it to RUN. *)
Lemma push_ratio_state (opts : audio_opts) (env : PushEnv) (st : Playback.t)
    (data : list (list Z)) (frames : Z) (periodChanged init : bool) :
  let st2 := fst (fst (push_ratio opts env st data frames periodChanged init)) in
  Playback.state st2 = Playback.state st \/ Playback.state st2 = STREAM_STATE_RUN.
Proof.
  destruct (pre_clock_frame data frames st) as (Hst & _).
  unfold push_ratio. set (st0 := pre_clock data frames st) in *.
  set (target := target_latency_frames opts st0).
  assert (Hclock :
    let st1 := fst (spice_clock (push_now env) frames periodChanged init target st0) in
    Playback.state st1 = Playback.state st0 \/ Playback.state st1 = STREAM_STATE_RUN).
  { unfold spice_clock. destruct periodChanged.
    - destruct init; left; reflexivity.
    - destruct (fabs_ge _ _ || _).
      + destruct (spice_slew_frames st0 (push_now env) target _) as [slewFrames devPos].
        right. reflexivity.
      + left. reflexivity. }
  destruct (spice_clock (push_now env) frames periodChanged init target st0)
    as [st1 cs]. cbn [fst] in Hclock.
  unfold offset_filter, pi_ratio, upd_spice.
  destruct (negb (SpiceData.devLastTime (Playback.spiceData st1) =? INT64_MIN)); cbn;
    rewrite <- Hst; exact Hclock.
Qed.

Lemma resample_silent (fuel : nat) (ratio : float) (frames : Z) :
  forall (consumed : Z) (st : Playback.t) (r : LoopResult),
  resample fuel ratio frames consumed st = Some r ->
  exists new,
    Playback.trace (loop_state r) = Playback.trace st ++ new /\ Forall silent new.
Proof.
  induction fuel as [ | fuel IH]; intros consumed st r Hr.
  - cbn in Hr. destruct (consumed <? frames); [discriminate | ].
    injection Hr as <-. exists []. cbn. rewrite app_nil_r. split; [reflexivity | constructor].
  - cbn [resample] in Hr.
    destruct (consumed <? frames).
    2:{ injection Hr as <-. exists []. cbn. rewrite app_nil_r.
        split; [reflexivity | constructor]. }
    destruct (SpiceData.src (Playback.spiceData st)) as [s | ].
    2:{ injection Hr as <-. eexists. cbn. rewrite <- app_assoc.
        split; [reflexivity | repeat constructor]. }
    destruct (negb _).
    { injection Hr as <-. eexists. cbn. rewrite <- app_assoc.
      split; [reflexivity | repeat constructor]. }
    apply IH in Hr. destruct Hr as (new & Htr & Hall).
    eexists. split.
    { rewrite Htr. unfold upd_buffer, upd_spice, emit. cbn.
      destruct (Playback.buffer st); cbn; rewrite <- app_assoc; reflexivity. }
    constructor; [exact I | exact Hall].
Qed.

Lemma after_loop_protocol_inv (opts : audio_opts) (env : PushEnv) (actualOffset : float)
    (st : Playback.t) :
  protocol_inv st ->
  protocol_inv (latency_report opts env actualOffset (setup_device st)).
Proof.
  intros Hi.
  assert (Hsetup : protocol_inv (setup_device st)).
  { unfold setup_device.
    destruct (StreamState_eqb_spec (Playback.state st) STREAM_STATE_SETUP_SPICE)
      as [E | _]; [| exact Hi].
    destruct Hi as (p & Hp & Hph). rewrite E in Hph. cbn in Hph. subst p.
    exists DeviceStarted. split; [| discriminate].
    cbn. rewrite device_protocol_app, Hp. reflexivity. }
  unfold latency_report. destruct (latency_cb opts); [| exact Hsetup].
  eapply (protocol_inv_silent (setup_device st) _ [_]);
    [reflexivity | repeat constructor | left; reflexivity | exact Hsetup].
Qed.

Lemma audio_playback_data_protocol_inv (fuel : nat) (opts : audio_opts) (env : PushEnv)
    (st st' : Playback.t) (data : list (list Z)) (size : Z) :
  audio_playback_data fuel opts env st data size = Some st' ->
  protocol_inv st -> protocol_inv st'.
Proof.
  unfold audio_playback_data. intros Hrun Hi.
  destruct (StreamState_eqb_spec (Playback.state st) STREAM_STATE_STOP) as [E | Hne];
    cbn [orb] in Hrun; [injection Hrun as <-; exact Hi |].
  destruct (size =? 0); [injection Hrun as <-; exact Hi |].
  set (frames := packet_frames st size) in *.
  assert (Halloc :
    match (if negb (frames =? SpiceData.periodFrames (Playback.spiceData st))
           then data_alloc env frames st else inr st) with
    | inl st1 => protocol_inv st1
    | inr st1 => Playback.trace st1 = Playback.trace st
                 /\ Playback.state st1 = Playback.state st
    end).
  { destruct (negb _); [apply data_alloc_protocol_inv; exact Hi | split; reflexivity]. }
  destruct (if negb (frames =? SpiceData.periodFrames (Playback.spiceData st))
            then data_alloc env frames st else inr st) as [st1 | st1].
  { injection Hrun as <-. exact Halloc. }
  destruct Halloc as (Htr1 & Hs1).
  match type of Hrun with
  | context [push_ratio opts env st1 data frames ?pc ?init] =>
      pose proof (push_ratio_state opts env st1 data frames pc init) as Hps;
      destruct (push_ratio_frame opts env st1 data frames pc init) as (Htr2 & _);
      destruct (push_ratio opts env st1 data frames pc init) as [[st2 actualOffset] ratio]
  end.
  cbn [fst] in Hps, Htr2.
  assert (Hi2 : protocol_inv st2).
  { apply (protocol_inv_silent st st2 []);
      [rewrite app_nil_r; congruence | constructor | | exact Hi].
    destruct Hps as [E | E]; [left; congruence |].
    right. rewrite E. repeat split; [exact Hne | discriminate | discriminate]. }
  destruct (resample fuel ratio frames 0 st2) as [r |] eqn:Hloop; [| discriminate].
  destruct (resample_silent _ _ _ _ _ _ Hloop) as (new & Htr3 & Hnew).
  destruct (resample_frame _ _ _ _ _ _ Hloop) as (Hs3 & _).
  assert (Hi3 : protocol_inv (loop_state r)).
  { apply (protocol_inv_silent st2 _ new Htr3 Hnew); [left; exact Hs3 | exact Hi2]. }
  destruct r as [st3 | st3]; injection Hrun as <-; cbn [loop_state] in Hi3.
  - apply after_loop_protocol_inv. exact Hi3.
  - exact Hi3.
Qed.

(** X30.  Over any run of the engine's entry points, the calls it makes on
    the audio device keep their order: a playback setup is only made on a
    stream that is closed, [audiodev_playback_start] only once after a
    setup, and stop, volume and mute only on a stream that was set up and
    not stopped since.  The device stream is closed exactly when the engine
    is in STOP, and not yet started in SETUP_SPICE. *)
Theorem device_calls_in_order (opts : audio_opts) (st : Playback.t) :
  reachable opts st ->
  exists p,
    device_protocol DeviceClosed (Playback.trace st) = Some p
    /\ (p = DeviceClosed <-> Playback.state st = STREAM_STATE_STOP)
    /\ (Playback.state st = STREAM_STATE_SETUP_SPICE -> p = DeviceOpened).
Proof.
  intros Hr.
  assert (Hi : protocol_inv st).
  { induction Hr as [| st st' _ IH Hs].
    - exists DeviceClosed. split; reflexivity.
    - destruct Hs.
      + apply audio_playback_start_protocol_inv. exact IH.
      + apply audio_playback_stop_protocol_inv. exact IH.
      + apply audio_playback_volume_protocol_inv. exact IH.
      + apply audio_playback_mute_protocol_inv. exact IH.
      + apply audio_pull_protocol_inv. exact IH.
      + eapply audio_playback_data_protocol_inv; eassumption. }
  destruct Hi as (p & Hp & Hph). exists p. split; [exact Hp |].
  destruct (Playback.state st), p; cbn in Hph;
    (split; [split |]); intros; try reflexivity; try discriminate;
    try contradiction; try congruence.
Qed.

End Protocol.

Lemma device_calls_in_order_witness :
  exists p,
    device_protocol DeviceClosed (Playback.trace ex_run4) = Some p
    /\ (p = DeviceClosed <-> Playback.state ex_run4 = STREAM_STATE_STOP)
    /\ (Playback.state ex_run4 = STREAM_STATE_SETUP_SPICE -> p = DeviceOpened).
Proof.
  exact (@device_calls_in_order passthrough default_opts ex_run4 ex_reachable).
Defined.

(** The scenario's device calls: one setup, one mute, one start. *)
Example ex_device_phase :
  device_protocol DeviceClosed (Playback.trace ex_run4) = Some DeviceStarted
  /\ device_protocol DeviceClosed [Call_audiodev_playback_start] = None.
Proof. split; vm_compute; reflexivity. Qed.

(** The volume set while the stream is stopped reaches the device at the
    start. *)
Lemma volume_and_mute_restored_on_start_witness :
  Playback.trace
    (@audio_playback_start passthrough default_opts (1024, 2048)
       (audio_playback_mute (audio_playback_volume Playback.zero 2 [40000; 40000]) true)
       2 48000)
  = [Call_audiodev_playback_setup 2 48000 (c_max (period_size default_opts) 1);
     Call_audiodev_playback_volume 2 [40000; 40000; 0; 0; 0; 0; 0; 0];
     Call_audiodev_playback_mute true].
Proof.
  pose proof (@volume_and_mute_restored_on_start passthrough default_opts (1024, 2048)
                Playback.zero 2 [40000; 40000] true 2 48000 eq_refl eq_refl) as Hthm.
  cbv zeta in Hthm. rewrite Hthm. vm_compute. reflexivity.
Defined.
